(** * Collaborative document service: name server index and storage server
      write engine

    A shallow embedding of the parts of the C sources that the properties
    below talk about:

    - [src/storage_server/main.c]: the sentence tokeniser, the WRITE / insert /
      ETIRW engine of [client_handler_thread], the sentence lock list, the undo
      log ([create_file_backup], [perform_undo]), the checkpoints
      ([create_checkpoint]) and the UNDO path of [handle_ns_commands];
    - [src/name_server/cache.c]: the 16 slot lookup cache;
    - [src/name_server/search.c]: the file index (trie), the ACL operations,
      the folder registry and [search_move_folder];
    - [src/name_server/client_handler.c]: [handle_delete_request].

    Conventions.  C strings are [string]s without NUL bytes.  [int], [long] and
    [time_t] values are [Z]; no arithmetic of the modelled code can overflow
    except the accumulation of digits by [sscanf].  The [%d] of the insert
    line and of the WRITE command stores into an [int] what glibc stores:
    the value saturated to a [long] and cut to 32 bits ([scan_d]); the
    numbers read with [%ld] from the server's own files are taken unbounded.
    Every call of [time(NULL)] is an explicit argument [now].  A directory of
    the storage server is a finite map from file names to contents, and a
    name stands for the file [dir/name] only when it is a plain name
    ([is_file_name]: no '/', not '.', not '..'); opening a plain name inside
    an existing directory is taken to succeed.  Writes beyond the end of a
    fixed C array (a word of 512 bytes or more, a sentence of more than 256
    words, a text that outgrows its 8192 byte buffer) are undefined
    behaviour in the source and are not modelled: the theorems about the
    merge and the insert carry the bounds of the arrays as hypotheses
    ([merge_fits], [insert_fits]); every bound the source itself tests is
    kept.  A record obtained from [malloc] is taken to hold zero bytes
    where the source does not write: [strncpy (dst, s, n - 1)] into a name
    field of [n] bytes leaves the last byte alone, which matters for a name
    of [n - 1] bytes or more only.  The handler of a connection is one
    thread; a step of the model is atomic, and where the source releases
    [lock_mutex] inside a command ([is_sentence_locked], then
    [add_sentence_lock]) the two halves are given as separate steps
    ([write_check], [write_grant]). *)

From Stdlib Require Import ZArith String Ascii List Lia Bool DecimalString.
From stdpp Require Import gmap strings list.

Open Scope string_scope.
Open Scope list_scope.

(* ===================================================================== *)
(** * The C library functions used by the servers                         *)
(* ===================================================================== *)

Module CLib.

(** [isspace] in the C locale: space, and the control characters 9 to 13. *)
Definition isspace (c : ascii) : bool :=
  let n := nat_of_ascii c in (n =? 32)%nat || ((9 <=? n)%nat && (n <=? 13)%nat).

Definition isdigit (c : ascii) : bool :=
  let n := nat_of_ascii c in (48 <=? n)%nat && (n <=? 57)%nat.

Definition digit_val (c : ascii) : Z := Z.of_nat (nat_of_ascii c - 48).

(** Membership of a byte in a delimiter string ([strtok]) or scan set. *)
Fixpoint in_set (ds : string) (c : ascii) : bool :=
  match ds with
  | EmptyString => false
  | String d ds' => Ascii.eqb c d || in_set ds' c
  end.

Definition strlen (s : string) : nat := String.length s.

(** The first [n] bytes of [s]: what [fread (buf, 1, n, f)] delivers from a
    file holding [s], what [strncpy (dst, s, n)] leaves in a zeroed [dst],
    and what [snprintf (dst, n + 1, "%s", s)] prints. *)
Fixpoint take_bytes (n : nat) (s : string) : string :=
  match n, s with
  | S n', String c s' => String c (take_bytes n' s')
  | _, _ => EmptyString
  end.

Fixpoint drop_bytes (n : nat) (s : string) : string :=
  match n, s with
  | S n', String _ s' => drop_bytes n' s'
  | _, _ => s
  end.

(** [strncmp (s, prefix, strlen (prefix)) == 0]. *)
Fixpoint has_prefix (prefix s : string) : bool :=
  match prefix, s with
  | EmptyString, _ => true
  | String p prefix', String c s' => Ascii.eqb p c && has_prefix prefix' s'
  | String _ _, EmptyString => false
  end.

(** Every byte of [s] satisfies [ok]. *)
Fixpoint all_bytes (ok : ascii -> bool) (s : string) : bool :=
  match s with
  | EmptyString => true
  | String c s' => ok c && all_bytes ok s'
  end.

(** The successive results of [strtok (s, ds)], [strtok (NULL, ds)], ...:
    the maximal runs of bytes of [s] that are not in [ds]. [cur] is the
    token being read. *)
Fixpoint strtok_from (ds cur s : string) : list string :=
  match s with
  | EmptyString => match cur with EmptyString => [] | _ => [cur] end
  | String c s' =>
      if in_set ds c then
        match cur with
        | EmptyString => strtok_from ds EmptyString s'
        | _ => cur :: strtok_from ds EmptyString s'
        end
      else strtok_from ds (cur +:+ String c EmptyString) s'
  end.

Definition strtok (s ds : string) : list string := strtok_from ds EmptyString s.

(** The text up to the first newline: [nl = strchr (buf, '\n'); *nl = 0]. *)
Fixpoint cut_at_newline (s : string) : string :=
  match s with
  | EmptyString => EmptyString
  | String c s' => if Ascii.eqb c "010" then EmptyString else String c (cut_at_newline s')
  end.

(** ** Pieces of [sscanf] *)

Fixpoint skip_space (s : string) : string :=
  match s with
  | String c s' => if isspace c then skip_space s' else s
  | EmptyString => s
  end.

Fixpoint scan_digits (acc : Z) (s : string) : Z * string :=
  match s with
  | String c s' => if isdigit c then scan_digits (10 * acc + digit_val c)%Z s' else (acc, s)
  | EmptyString => (acc, s)
  end.

(** [%d] and [%ld]: blanks, an optional sign, at least one digit. *)
Definition scan_int (s : string) : option (Z * string) :=
  let s1 := skip_space s in
  let '(neg, s2) :=
    match s1 with
    | String "-" r => (true, r)
    | String "+" r => (false, r)
    | _ => (false, s1)
    end in
  match s2 with
  | String c _ =>
      if isdigit c
      then let '(v, r) := scan_digits 0 s2 in Some (if neg then (- v)%Z else v, r)
      else None
  | EmptyString => None
  end.

(** The range of a [long]: [strtol] answers [LONG_MIN] or [LONG_MAX] for a
    number outside of it. *)
Definition to_long (v : Z) : Z :=
  Z.max (- 2 ^ 63) (Z.min v (2 ^ 63 - 1)).

(** [(int) v]: the low 32 bits of [v], read as a signed number. *)
Definition to_int (v : Z) : Z :=
  ((v + 2 ^ 31) mod 2 ^ 32 - 2 ^ 31)%Z.

(** [%d] with an [int *] argument: glibc reads the digits with [strtol] and
    stores [(int)] of the result, so 4294967297 is stored as 1. *)
Definition scan_d (s : string) : option (Z * string) :=
  match scan_int s with
  | Some (v, r) => Some (to_int (to_long v), r)
  | None => None
  end.

(** The longest prefix of at most [n] bytes satisfying [ok]. *)
Fixpoint span_bytes (ok : ascii -> bool) (n : nat) (s : string) : string * string :=
  match n, s with
  | S n', String c s' =>
      if ok c then let '(a, r) := span_bytes ok n' s' in (String c a, r) else (EmptyString, s)
  | _, _ => (EmptyString, s)
  end.

(** [%n[...]]: at least one byte of the set, no blanks skipped. *)
Definition scan_set (ok : ascii -> bool) (n : nat) (s : string) : option (string * string) :=
  match span_bytes ok n s with
  | (EmptyString, _) => None
  | (a, r) => Some (a, r)
  end.

(** [%ns]: blanks, then at least one non-blank byte. *)
Definition scan_word (n : nat) (s : string) : option (string * string) :=
  scan_set (fun c => negb (isspace c)) n (skip_space s).

(** A literal of the format: the input has to start with it. *)
Definition scan_lit (lit s : string) : option string :=
  if has_prefix lit s then Some (drop_bytes (String.length lit) s) else None.

(** [%d], [%ld] and [%zu] of [printf]. *)
Definition fmt_d (z : Z) : string := NilZero.string_of_int (Z.to_int z).

(** [fgets (line, size, f)] repeated until the end of the file: each line
    ends after its newline or after [size - 1] bytes. [fuel] bounds the
    number of bytes still to read. *)
Fixpoint fgets_line (room : nat) (s : string) : string * string :=
  match room, s with
  | S room', String c s' =>
      if Ascii.eqb c "010" then (String c EmptyString, s')
      else let '(l, r) := fgets_line room' s' in (String c l, r)
  | _, _ => (EmptyString, s)
  end.

Fixpoint fgets_all (fuel size : nat) (s : string) : list string :=
  match fuel, s with
  | _, EmptyString => []
  | O, _ => []
  | S fuel', _ =>
      let '(l, r) := fgets_line (size - 1) s in
      l :: fgets_all fuel' size r
  end.

End CLib.

(* ===================================================================== *)
(** * Storage server: words and sentences                                 *)
(* ===================================================================== *)

Module Sentence.
Import CLib.

(** [sentence_info_t] of [storage_server.h]; [delimiter = None] is the C
    value ['\0'] of a trailing sentence without terminator. *)
Record sentence_info_t := {
  start_word_idx : nat;
  end_word_idx : nat;
  delimiter : option ascii
}.

Definition last_char (w : string) : option ascii :=
  String.get (String.length w - 1) w.

(** [last_char == '.' || last_char == '!' || last_char == '?'] *)
Definition is_terminator (c : ascii) : bool :=
  Ascii.eqb c "." || Ascii.eqb c "!" || Ascii.eqb c "?".

(** [fread (content, 1, sizeof (content) - 1, f)] with [char content[8192]]. *)
Definition fread_content (s : string) : string := take_bytes 8191 s.

(** [token = strtok (temp, " \t\n"); while (token && word_count < 1024)]. *)
Definition tokenize (content : string) : list string :=
  firstn 1024 (strtok content (String " " (String "009" (String "010" EmptyString)))).

(** The sentence boundary loop, the same in [get_sentence_info_simple], in
    the ETIRW merge (twice) and in the insert path: word [i] closes a
    sentence when its last byte is a terminator and fewer than 256
    sentences were recorded. [ws] are the words from index [i] on. *)
Fixpoint scan_sentences (ws : list string) (i sent_start : nat)
    (acc : list sentence_info_t) : list sentence_info_t * nat :=
  match ws with
  | [] => (acc, sent_start)
  | w :: ws' =>
      match last_char w with
      | Some c =>
          if is_terminator c && (length acc <? 256)%nat
          then scan_sentences ws' (S i) (S i)
                 (acc ++ [{| start_word_idx := sent_start; end_word_idx := i;
                             delimiter := Some c |}])
          else scan_sentences ws' (S i) sent_start acc
      | None => scan_sentences ws' (S i) sent_start acc
      end
  end.

(** ... followed by "Handle incomplete sentence at the end". *)
Definition parse_sentences (ws : list string) : list sentence_info_t :=
  let '(acc, sent_start) := scan_sentences ws 0 0 [] in
  if (sent_start <? length ws)%nat && (length acc <? 256)%nat
  then acc ++ [{| start_word_idx := sent_start; end_word_idx := length ws - 1;
                  delimiter := None |}]
  else acc.

(** [get_sentence_info_simple]: the number of sentences of a stored file
    (0 when the file cannot be opened). *)
Definition get_sentence_info_simple (file : option string) : list sentence_info_t :=
  match file with
  | None => []
  | Some s => parse_sentences (tokenize (fread_content s))
  end.

(** [for (w = start; w <= end; w++) { if (w > start) strcat (final, " ");
    strcat (final, words[w]); }], with [k] iterations left at index [w]. *)
Fixpoint cat_range (words : list string) (start k w : nat) (final : string) : string :=
  match k with
  | O => final
  | S k' =>
      cat_range words start k' (S w)
        ((if (start <? w)%nat then final +:+ " " else final) +:+ nth w words EmptyString)
  end.

Definition cat_sentence (words : list string) (s : sentence_info_t) (final : string) : string :=
  cat_range words (start_word_idx s) (S (end_word_idx s) - start_word_idx s)
    (start_word_idx s) final.

(** [if (strlen (final) > 0) strcat (final, " ");] then the words of [s]. *)
Definition cat_sentence_sep (words : list string) (final : string) (s : sentence_info_t) : string :=
  cat_sentence words s
    (if (0 <? strlen final)%nat then final +:+ " " else final).

(** Step 5 of the ETIRW branch, "SMART MERGE": the new text of the live
    file from its current text, the swap text (both as read by [fread]) and
    the sentence number of the lock (1 or more, as granted by WRITE).  The
    lists and strings stand for the fixed arrays of the source as long as
    these are not overrun ([merge_fits] below). *)
Definition etirw_merge (current_orig_content swap_content : string)
    (current_sentence : Z) : string :=
  let current_words := tokenize current_orig_content in
  let current_sentences := parse_sentences current_words in
  let swap_words := tokenize swap_content in
  let swap_sentences := parse_sentences swap_words in
  let current_sentence_count := length current_sentences in
  if (current_sentence_count =? 0)%nat then swap_content
  else if (Z.of_nat current_sentence_count <? current_sentence)%Z then
    let final := current_orig_content in
    let final := if (0 <? strlen final)%nat then final +:+ " " else final in
    match last swap_sentences with
    | Some s => cat_sentence swap_words s final
    | None => final
    end
  else
    let t := Z.to_nat (current_sentence - 1) in
    let final := fold_left (cat_sentence_sep current_words)
                   (firstn t current_sentences) EmptyString in
    let final :=
      match swap_sentences !! t with
      | Some s => cat_sentence_sep swap_words final s
      | None => final
      end in
    fold_left (cat_sentence_sep current_words) (skipn (S t) current_sentences) final.

(** The arrays of the merge.  Every word of the two texts is copied by
    [strcpy] into a row of [current_words[1024][512]] or
    [swap_words[1024][512]], and the new text grows by [strcpy] and [strcat]
    in [final_content[8192]], none of them with a test: [etirw_merge] is
    what the source computes when every word has at most 511 bytes and the
    new text at most 8191.  Beyond that the source writes outside its
    arrays. *)
Definition merge_fits (current_orig_content swap_content : string)
    (current_sentence : Z) : bool :=
  forallb (fun w => (strlen w <=? 511)%nat) (tokenize current_orig_content)
  && forallb (fun w => (strlen w <=? 511)%nat) (tokenize swap_content)
  && (strlen (etirw_merge current_orig_content swap_content current_sentence) <=? 8191)%nat.

(** ** The insert line [<word_index> <content>] *)

Inductive insert_reply :=
| CONTENT_INSERTED (swap : string)
    (** [OK_200 CONTENT INSERTED]; the swap file now holds [swap] *)
| ERR_400_index_not_positive
| ERR_404_empty_file_only_index_1
| ERR_404_new_sentence_only_index_1
| ERR_404_out_of_range (word_idx current_sentence : Z) (words_in_sentence : nat).

(** The words of the target sentence with the terminator taken off its last
    word; a last word that was only the terminator is dropped. *)
Definition peel_step (all_words : list string) (sent_end : nat)
    (st : list string * option ascii) (i : nat) : list string * option ascii :=
  let '(sentence_words, sentence_delimiter) := st in
  let w := nth i all_words EmptyString in
  if (i =? sent_end)%nat then
    match last_char w with
    | Some c =>
        if is_terminator c then
          let w' := take_bytes (strlen w - 1) w in
          (if (0 <? strlen w')%nat then sentence_words ++ [w'] else sentence_words, Some c)
        else (sentence_words ++ [w], sentence_delimiter)
    | None => (sentence_words ++ [w], sentence_delimiter)
    end
  else (sentence_words ++ [w], sentence_delimiter).

Definition peel_sentence (all_words : list string) (sent_start sent_end : nat)
    : list string * option ascii :=
  fold_left (peel_step all_words sent_end)
    (seq sent_start (S sent_end - sent_start)) ([], None).

(** [strtok (temp_new_content, " \t")] until it returns NULL. *)
Definition new_tokens (new_content : string) : list string :=
  strtok new_content (String " " (String "009" EmptyString)).

(** "Add the delimiter back to the last word", only when the word has fewer
    than 511 bytes. *)
Definition reattach (new_all_words : list string) (sentence_delimiter : option ascii)
    : list string :=
  match sentence_delimiter with
  | Some d =>
      if (0 <? length new_all_words)%nat then
        let last_idx := (length new_all_words - 1)%nat in
        let w := nth last_idx new_all_words EmptyString in
        if (strlen w <? 511)%nat
        then <[last_idx := w +:+ String d EmptyString]> new_all_words
        else new_all_words
      else new_all_words
  | None => new_all_words
  end.

(** [for (i = 0; i < n; i++) { if (i > 0) strcat (final, " ");
    strcat (final, new_all_words[i]); }] *)
Fixpoint cat_words (i : nat) (ws : list string) (final : string) : string :=
  match ws with
  | [] => final
  | w :: ws' => cat_words (S i) ws' ((if (0 <? i)%nat then final +:+ " " else final) +:+ w)
  end.

(** The insert path of write mode after the line was parsed and the current
    state ([content], the swap file if it exists, the live file otherwise)
    was read. [current_sentence] is the sentence number of a lock, which the
    WRITE command only grants from 1 on; the source indexes
    [sentence_info[current_sentence - 1]] without a test.  The lists stand
    for the fixed arrays of the source as long as these are not overrun
    ([insert_fits] below). *)
Definition insert_words (content : string) (current_sentence word_idx : Z)
    (new_content : string) : insert_reply :=
  let bytes_read := strlen content in
  if ((bytes_read =? 0)%nat && (current_sentence =? 1)%Z) then
    if (word_idx =? 1)%Z then CONTENT_INSERTED new_content
    else ERR_404_empty_file_only_index_1
  else
    let all_words := tokenize content in
    let total_word_count := length all_words in
    let sentence_info := parse_sentences all_words in
    let sentence_info :=
      if ((length sentence_info =? 0)%nat && (0 <? total_word_count)%nat)
      then [{| start_word_idx := 0; end_word_idx := total_word_count - 1;
               delimiter := None |}]
      else sentence_info in
    let total_sentences := length sentence_info in
    if (Z.of_nat total_sentences <? current_sentence)%Z then
      if (word_idx =? 1)%Z then
        CONTENT_INSERTED
          (if (0 <? bytes_read)%nat
           then take_bytes 8191 (content +:+ " " +:+ new_content)
           else new_content)
      else ERR_404_new_sentence_only_index_1
    else
      match sentence_info !! Z.to_nat (current_sentence - 1) with
      | None => ERR_404_new_sentence_only_index_1
      | Some si =>
          let sent_start := start_word_idx si in
          let sent_end := end_word_idx si in
          let original_sentence_word_count := (S sent_end - sent_start)%nat in
          if (Z.of_nat original_sentence_word_count + 1 <? word_idx)%Z then
            ERR_404_out_of_range word_idx current_sentence original_sentence_word_count
          else
            let new_all_words := firstn sent_start all_words in
            let '(sentence_words, sentence_delimiter) :=
              peel_sentence all_words sent_start sent_end in
            let adjusted_sentence_word_count := length sentence_words in
            if (Z.of_nat adjusted_sentence_word_count + 1 <? word_idx)%Z then
              ERR_404_out_of_range word_idx current_sentence adjusted_sentence_word_count
            else
              let new_all_words :=
                fold_left
                  (fun acc i =>
                     (if (Z.of_nat (i + 1) =? word_idx)%Z
                      then acc ++ new_tokens new_content else acc)
                     ++ [nth i sentence_words EmptyString])
                  (seq 0 adjusted_sentence_word_count) new_all_words in
              let new_all_words :=
                if (Z.of_nat adjusted_sentence_word_count <? word_idx)%Z
                then new_all_words ++ new_tokens new_content
                else new_all_words in
              let new_all_words := reattach new_all_words sentence_delimiter in
              let new_all_words := new_all_words ++ skipn (S sent_end) all_words in
              CONTENT_INSERTED (cat_words 0 new_all_words EmptyString)
      end.

(** The arrays of the insert into the sentence [si].  The words of the text
    go by [strcpy] into [all_words[1024][512]], those of the sentence into
    [sentence_words[256][512]], the old and the new words into
    [new_all_words[1024][512]] and the new text by [strcat] into
    [final_content[8192]], none of them with a test: [insert_words] is what
    the source computes when every word has fewer than 511 bytes (room for
    the terminator that is put back), the sentence at most 256 words, the
    old and the new words together at most 1024, and the old text, a space
    and the inserted text at most 8191 bytes (the new text is never longer
    than that).  Beyond that the source writes outside its arrays. *)
Definition insert_fits (content new_content : string) (si : sentence_info_t) : bool :=
  forallb (fun w => (strlen w <? 511)%nat) (tokenize content ++ new_tokens new_content)
  && (S (end_word_idx si) - start_word_idx si <=? 256)%nat
  && (length (tokenize content) + length (new_tokens new_content) <=? 1024)%nat
  && (strlen content + 1 + strlen new_content <=? 8191)%nat.

End Sentence.


(* ===================================================================== *)
(** * Storage server: locks, undo log, checkpoints, client handler        *)
(* ===================================================================== *)

Module StorageServer.
Import CLib Sentence.

(** [sentence_lock_t]; the linked list [sentence_locks] is a [list], head
    first. *)
Record sentence_lock_t := {
  lock_filename : string;
  sentence_num : Z;
  client_fd : Z
}.

(** A word of a command that is free of '/', not empty and at most 100
    bytes long. *)
Definition path_word (s : string) : bool :=
  negb (String.eqb s EmptyString)
  && all_bytes (fun c => negb (Ascii.eqb c "/") && negb (isspace c)) s
  && (strlen s <=? 100)%nat.

(** A plain file name.  The source builds every path as [dir/name] without
    looking at [name], so a name with a '/' reaches into other directories
    ('../checkpoints/x') or fails to open ('nodir/x'), and '.' and '..' are
    directories.  A plain name is a single path component; with at most 100
    bytes, so are the names derived from it ([name_tag.checkpoint],
    [name_<time>.bak], [name_<sentence>_<fd>.swap], at most 255 bytes). *)
Definition is_file_name (s : string) : bool :=
  path_word s && negb (String.eqb s ".") && negb (String.eqb s "..").

(** The directories under [data/ss_<port>/] and the lock list. File names
    have at most 255 bytes (they come from [%255s] or from a lock), so no
    [snprintf] into a 512 byte path buffer truncates.  A key of one of
    these maps is the file [dir/key]: the maps are the directories for
    plain names only. *)
Record ss_state := {
  files_dir : gmap string string;
  versions_dir : gmap string string;
  undo_dir : gmap string string;
  checkpoints_dir : gmap string string;
  checkpoint_meta_dir : gmap string string;
  sentence_locks : list sentence_lock_t
}.

Definition set_files (st : ss_state) (m : gmap string string) : ss_state :=
  {| files_dir := m; versions_dir := versions_dir st; undo_dir := undo_dir st;
     checkpoints_dir := checkpoints_dir st;
     checkpoint_meta_dir := checkpoint_meta_dir st;
     sentence_locks := sentence_locks st |}.

Definition set_locks (st : ss_state) (l : list sentence_lock_t) : ss_state :=
  {| files_dir := files_dir st; versions_dir := versions_dir st;
     undo_dir := undo_dir st; checkpoints_dir := checkpoints_dir st;
     checkpoint_meta_dir := checkpoint_meta_dir st;
     sentence_locks := l |}.

(** [fopen (path, "a")], [fprintf], [fclose]. *)
Definition append_file (dir : gmap string string) (name text : string)
    : gmap string string :=
  <[name := default EmptyString (dir !! name) +:+ text]> dir.

(** ** The lock list *)

Definition is_sentence_locked (locks : list sentence_lock_t)
    (filename : string) (sentence : Z) (fd : Z) : bool :=
  existsb (fun curr =>
             String.eqb (lock_filename curr) filename
             && (sentence_num curr =? sentence)%Z
             && negb (client_fd curr =? fd)%Z) locks.

Definition add_sentence_lock (locks : list sentence_lock_t)
    (filename : string) (sentence : Z) (fd : Z) : list sentence_lock_t :=
  {| lock_filename := filename; sentence_num := sentence; client_fd := fd |} :: locks.

Fixpoint remove_sentence_lock (locks : list sentence_lock_t)
    (filename : string) (sentence : Z) (fd : Z) : list sentence_lock_t :=
  match locks with
  | [] => []
  | curr :: rest =>
      if String.eqb (lock_filename curr) filename
         && (sentence_num curr =? sentence)%Z
         && (client_fd curr =? fd)%Z
      then rest
      else curr :: remove_sentence_lock rest filename sentence fd
  end.

Fixpoint remove_client_locks (locks : list sentence_lock_t) (fd : Z)
    : list sentence_lock_t :=
  match locks with
  | [] => []
  | curr :: rest =>
      if (client_fd curr =? fd)%Z then remove_client_locks rest fd
      else curr :: remove_client_locks rest fd
  end.

Fixpoint get_client_write_info (locks : list sentence_lock_t) (fd : Z)
    : option (string * Z) :=
  match locks with
  | [] => None
  | curr :: rest =>
      if (client_fd curr =? fd)%Z then Some (lock_filename curr, sentence_num curr)
      else get_client_write_info rest fd
  end.

(** The loop of the UNDO, CHECKPOINT and REVERT commands:
    [if (strcmp (curr->filename, fname) == 0) file_locked = 1]. *)
Definition file_locked (locks : list sentence_lock_t) (fname : string) : bool :=
  existsb (fun curr => String.eqb (lock_filename curr) fname) locks.

(** ** The undo log *)

Definition undo_meta_name (filename : string) : string := filename +:+ ".undo".

Definition backup_name_of (filename : string) (now : Z) : string :=
  filename +:+ "_" +:+ fmt_d now +:+ ".bak".

Definition newline : string := String "010" EmptyString.

(** [create_file_backup]: 0 when the live file is missing, else the copy in
    [versions/] and one line [now|backup|user] appended to the log. *)
Definition create_file_backup (st : ss_state) (filename username : string) (now : Z)
    : ss_state * Z :=
  match files_dir st !! filename with
  | None => (st, 0%Z)
  | Some source =>
      let content := fread_content source in
      let backup_filename := backup_name_of filename now in
      ({| files_dir := files_dir st;
          versions_dir := <[backup_filename := content]> (versions_dir st);
          undo_dir :=
            append_file (undo_dir st) (undo_meta_name filename)
              (fmt_d now +:+ "|" +:+ backup_filename +:+ "|" +:+ username +:+ newline);
          checkpoints_dir := checkpoints_dir st;
          checkpoint_meta_dir := checkpoint_meta_dir st;
          sentence_locks := sentence_locks st |}, 1%Z)
  end.

Record backup_entry_t := {
  timestamp : Z;
  backup_name : string;
  user : string;
  used : Z
}.

Definition not_bar (c : ascii) : bool := negb (Ascii.eqb c "|").

(** [sscanf (line, "%ld|%255[^|]|%127[^|]|%d", ...) >= 3]: the fourth field
    is optional and [used] keeps its initial 0 without it. *)
Definition parse_backup_line (line : string) : option backup_entry_t :=
  match scan_int line with
  | Some (ts, String "|" r2) =>
      match scan_set not_bar 255 r2 with
      | Some (name, String "|" r4) =>
          match scan_set not_bar 127 r4 with
          | Some (usr, r5) =>
              let u :=
                match r5 with
                | String "|" r6 =>
                    match scan_int r6 with Some (u, _) => u | None => 0%Z end
                | _ => 0%Z
                end in
              Some {| timestamp := ts; backup_name := name; user := usr; used := u |}
          | None => None
          end
      | _ => None
      end
  | _ => None
  end.

(** [while (fgets (line, 1024, f) && backup_count < 1000)] *)
Definition read_backups (log : string) : list backup_entry_t :=
  firstn 1000 (omap parse_backup_line (fgets_all (S (String.length log)) 1024 log)).

(** [if (backups[i].timestamp < backups[j].timestamp)] exchange them. *)
Definition exchange_if_older (bs : list backup_entry_t) (i j : nat)
    : list backup_entry_t :=
  match bs !! i, bs !! j with
  | Some a, Some b =>
      if (timestamp a <? timestamp b)%Z then <[i := b]> (<[j := a]> bs) else bs
  | _, _ => bs
  end.

(** [for (i = 0; i < n - 1; i++) for (j = i + 1; j < n; j++) ...] *)
Definition sort_backups (bs : list backup_entry_t) : list backup_entry_t :=
  let n := length bs in
  fold_left
    (fun bs i => fold_left (fun bs j => exchange_if_older bs i j) (seq (S i) (n - S i)) bs)
    (seq 0 (n - 1)) bs.

(** The index of the first entry with [!backups[i].used]. *)
Fixpoint first_unused (i : nat) (bs : list backup_entry_t) : option nat :=
  match bs with
  | [] => None
  | b :: bs' => if (used b =? 0)%Z then Some i else first_unused (S i) bs'
  end.

Definition mark_used (b : backup_entry_t) : backup_entry_t :=
  {| timestamp := timestamp b; backup_name := backup_name b; user := user b;
     used := 1 |}.

(** [fprintf (f, "%ld|%s|%s|%d\n", ...)] for every entry. *)
Definition print_backups (bs : list backup_entry_t) : string :=
  fold_left
    (fun out b =>
       out +:+ fmt_d (timestamp b) +:+ "|" +:+ backup_name b +:+ "|" +:+ user b
           +:+ "|" +:+ fmt_d (used b) +:+ newline)
    bs EmptyString.

(** [perform_undo]: 1 restored, 0 no history, -1 backup file missing. *)
Definition perform_undo (st : ss_state) (filename : string) : ss_state * Z :=
  match undo_dir st !! undo_meta_name filename with
  | None => (st, 0%Z)
  | Some log =>
      let backups := read_backups log in
      if (length backups =? 0)%nat then (st, 0%Z)
      else
        let backups := sort_backups backups in
        match first_unused 0 backups with
        | None => (st, 0%Z)
        | Some target_backup_idx =>
            match backups !! target_backup_idx with
            | None => (st, 0%Z)
            | Some target_backup =>
                match versions_dir st !! backup_name target_backup with
                | None => (st, (-1)%Z)
                | Some backup_file =>
                    let backup_content := fread_content backup_file in
                    let backups := <[target_backup_idx := mark_used target_backup]> backups in
                    ({| files_dir := <[filename := backup_content]> (files_dir st);
                        versions_dir := versions_dir st;
                        undo_dir :=
                          <[undo_meta_name filename := print_backups backups]> (undo_dir st);
                        checkpoints_dir := checkpoints_dir st;
                        checkpoint_meta_dir := checkpoint_meta_dir st;
                        sentence_locks := sentence_locks st |}, 1%Z)
                end
            end
        end
  end.

(** The [MSG_UNDO] case of [handle_ns_commands]: [perform_undo] at once, an
    ACK when it returned 1. *)
Definition handle_ns_undo (st : ss_state) (filename : string) : ss_state * bool :=
  let '(st', result) := perform_undo st filename in
  (st', (result =? 1)%Z).

(** ** Checkpoints *)

Definition checkpoint_name (filename checkpoint_tag : string) : string :=
  filename +:+ "_" +:+ checkpoint_tag +:+ ".checkpoint".

Definition checkpoint_meta_name (filename : string) : string := filename +:+ ".meta".

(** [create_checkpoint]: 1 created, 0 source missing, -2 the checkpoint file
    already exists. *)
Definition create_checkpoint (st : ss_state) (filename checkpoint_tag username : string)
    (now : Z) : ss_state * Z :=
  match files_dir st !! filename with
  | None => (st, 0%Z)
  | Some source =>
      let content := fread_content source in
      let bytes_read := strlen content in
      let checkpoint_filename := checkpoint_name filename checkpoint_tag in
      match checkpoints_dir st !! checkpoint_filename with
      | Some _ => (st, (-2)%Z)
      | None =>
          ({| files_dir := files_dir st;
              versions_dir := versions_dir st;
              undo_dir := undo_dir st;
              checkpoints_dir := <[checkpoint_filename := content]> (checkpoints_dir st);
              checkpoint_meta_dir :=
                append_file (checkpoint_meta_dir st) (checkpoint_meta_name filename)
                  (fmt_d now +:+ "|" +:+ checkpoint_tag +:+ "|" +:+ username +:+ "|"
                         +:+ fmt_d (Z.of_nat bytes_read) +:+ newline);
              sentence_locks := sentence_locks st |}, 1%Z)
      end
  end.

(** ** One received line of [client_handler_thread] *)

Inductive reply :=
| OK_200_WRITE_COMPLETED
| INSERT_REPLY (r : insert_reply)
| ERR_400_invalid_insert_format
| ERR_404_file_not_found_during_update
| ERR_404_file_not_found
| ERR_404_sentence_must_be_positive
| ERR_404_sentence_not_available (sentence available : Z)
| ERR_409_sentence_being_edited
| OK_200_WRITE_MODE_ENABLED
| ERR_409_cannot_undo_being_edited
| OK_200_UNDO_COMPLETED
| ERR_404_no_undo_history
| ERR_500_undo_failed
| ERR_409_cannot_checkpoint_being_edited
| OK_200_CHECKPOINT_CREATED
| ERR_409_checkpoint_tag_exists
| ERR_500_checkpoint_failed
| ERR_400_invalid_checkpoint_format
| NO_REPLY.

Definition swap_name (current_file : string) (current_sentence fd : Z) : string :=
  current_file +:+ "_" +:+ fmt_d current_sentence +:+ "_" +:+ fmt_d fd +:+ ".swap".

(** The branch [is_in_write_mode && strncmp (buf, "ETIRW", 5) == 0]. *)
Definition etirw_commit (st : ss_state) (fd : Z) (username : string) (now : Z)
    (current_file : string) (current_sentence : Z) : ss_state * reply :=
  let swap_path := swap_name current_file current_sentence fd in
  let st1 :=
    match files_dir st !! swap_path with
    | Some swap_file =>
        let st1 := fst (create_file_backup st current_file username now) in
        let current_orig_content :=
          match files_dir st1 !! current_file with
          | Some f => fread_content f
          | None => EmptyString
          end in
        let swap_content := fread_content swap_file in
        let final_content := etirw_merge current_orig_content swap_content current_sentence in
        set_files st1 (delete swap_path (<[current_file := final_content]> (files_dir st1)))
    | None => st
    end in
  (set_locks st1 (remove_sentence_lock (sentence_locks st1) current_file current_sentence fd),
   OK_200_WRITE_COMPLETED).

Definition not_newline (c : ascii) : bool := negb (Ascii.eqb c "010").

(** [sscanf (buf, "%d %2047[^\n]", &word_idx, new_content) == 2] *)
Definition parse_insert_line (buf : string) : option (Z * string) :=
  match scan_d buf with
  | Some (word_idx, r) =>
      match scan_set not_newline 2047 (skip_space r) with
      | Some (new_content, _) => Some (word_idx, new_content)
      | None => None
      end
  | None => None
  end.

(** The branch [is_in_write_mode] for every other line. *)
Definition insert_line (st : ss_state) (fd : Z) (current_file : string)
    (current_sentence : Z) (buf : string) : ss_state * reply :=
  match parse_insert_line buf with
  | None => (st, ERR_400_invalid_insert_format)
  | Some (word_idx, new_content) =>
      if (word_idx <? 1)%Z then (st, INSERT_REPLY ERR_400_index_not_positive)
      else
        let swap_path := swap_name current_file current_sentence fd in
        let current_file_ptr :=
          match files_dir st !! swap_path with
          | Some f => Some f
          | None => files_dir st !! current_file
          end in
        match current_file_ptr with
        | None => (st, ERR_404_file_not_found_during_update)
        | Some f =>
            let r := insert_words (fread_content f) current_sentence word_idx new_content in
            match r with
            | CONTENT_INSERTED swap =>
                (set_files st (<[swap_path := swap]> (files_dir st)), INSERT_REPLY r)
            | _ => (st, INSERT_REPLY r)
            end
        end
  end.

(** [available_sentences] of the WRITE command. *)
Definition available_sentences (file : string) : Z :=
  let content := fread_content file in
  if (strlen content =? 0)%nat then 1%Z
  else
    let cached_sentences := get_sentence_info_simple (Some file) in
    let total_sentences := length cached_sentences in
    match last cached_sentences with
    | None => 2%Z
    | Some last_sentence =>
        let last_sentence_end := end_word_idx last_sentence in
        let total_content_words := length (tokenize content) in
        if (Z.of_nat last_sentence_end <? Z.of_nat total_content_words - 1)%Z
        then (Z.of_nat total_sentences + 1)%Z
        else if (0 <? total_content_words)%nat then
          let last_word := nth last_sentence_end (tokenize content) EmptyString in
          match last_char last_word with
          | Some c =>
              if is_terminator c then (Z.of_nat total_sentences + 1)%Z
              else Z.of_nat total_sentences
          | None => Z.of_nat total_sentences
          end
        else Z.of_nat total_sentences
    end.

(** [sscanf (buf, "WRITE %s %d", fname_write, &sentence_num) == 2] *)
Definition parse_write (buf : string) : option (string * Z) :=
  match scan_lit "WRITE" buf with
  | Some r =>
      match scan_word 2047 r with
      | Some (fname_write, r') =>
          match scan_d r' with
          | Some (sentence, _) => Some (fname_write, sentence)
          | None => None
          end
      | None => None
      end
  | None => None
  end.

(** The WRITE command when no other thread runs between its call of
    [is_sentence_locked] and its call of [add_sentence_lock]; each of the
    two takes and releases [lock_mutex] on its own, and [write_check] and
    [write_grant] below are the two halves. *)
Definition write_command (st : ss_state) (fd : Z) (buf : string) : ss_state * reply :=
  match parse_write buf with
  | None => (st, NO_REPLY)
  | Some (fname_write, sentence) =>
      match files_dir st !! fname_write with
      | None => (st, ERR_404_file_not_found)
      | Some check_file =>
          let available := available_sentences check_file in
          if (sentence <? 1)%Z then (st, ERR_404_sentence_must_be_positive)
          else if (available <? sentence)%Z
          then (st, ERR_404_sentence_not_available sentence available)
          else if is_sentence_locked (sentence_locks st) fname_write sentence fd
          then (st, ERR_409_sentence_being_edited)
          else (set_locks st (add_sentence_lock (sentence_locks st) fname_write sentence fd),
                OK_200_WRITE_MODE_ENABLED)
      end
  end.

(** The WRITE command up to the answer of [is_sentence_locked]: the refusal
    that is sent, or the lock that the thread goes on to add. *)
Definition write_check (st : ss_state) (fd : Z) (buf : string) : reply + (string * Z) :=
  match parse_write buf with
  | None => inl NO_REPLY
  | Some (fname_write, sentence) =>
      match files_dir st !! fname_write with
      | None => inl ERR_404_file_not_found
      | Some check_file =>
          let available := available_sentences check_file in
          if (sentence <? 1)%Z then inl ERR_404_sentence_must_be_positive
          else if (available <? sentence)%Z
          then inl (ERR_404_sentence_not_available sentence available)
          else if is_sentence_locked (sentence_locks st) fname_write sentence fd
          then inl ERR_409_sentence_being_edited
          else inr (fname_write, sentence)
      end
  end.

(** ... and from [add_sentence_lock] on, in the state of that moment. *)
Definition write_grant (st : ss_state) (fd : Z) (fname_write : string) (sentence : Z)
    : ss_state * reply :=
  (set_locks st (add_sentence_lock (sentence_locks st) fname_write sentence fd),
   OK_200_WRITE_MODE_ENABLED).

Definition undo_command (st : ss_state) (fname : string) : ss_state * reply :=
  if file_locked (sentence_locks st) fname then (st, ERR_409_cannot_undo_being_edited)
  else
    match files_dir st !! fname with
    | None => (st, ERR_404_file_not_found)
    | Some _ =>
        let '(st', undo_result) := perform_undo st fname in
        if (undo_result =? 1)%Z then (st', OK_200_UNDO_COMPLETED)
        else if (undo_result =? 0)%Z then (st', ERR_404_no_undo_history)
        else (st', ERR_500_undo_failed)
    end.

(** [sscanf (buf, "CHECKPOINT %255s %255s", fname, checkpoint_tag) == 2] *)
Definition parse_checkpoint (buf : string) : option (string * string) :=
  match scan_lit "CHECKPOINT" buf with
  | Some r =>
      match scan_word 255 r with
      | Some (fname, r') =>
          match scan_word 255 r' with
          | Some (checkpoint_tag, _) => Some (fname, checkpoint_tag)
          | None => None
          end
      | None => None
      end
  | None => None
  end.

Definition checkpoint_command (st : ss_state) (username : string) (now : Z)
    (buf : string) : ss_state * reply :=
  match parse_checkpoint buf with
  | None => (st, ERR_400_invalid_checkpoint_format)
  | Some (fname, checkpoint_tag) =>
      if file_locked (sentence_locks st) fname
      then (st, ERR_409_cannot_checkpoint_being_edited)
      else
        match files_dir st !! fname with
        | None => (st, ERR_404_file_not_found)
        | Some _ =>
            let '(st', result) := create_checkpoint st fname checkpoint_tag username now in
            if (result =? 1)%Z then (st', OK_200_CHECKPOINT_CREATED)
            else if (result =? (-2))%Z then (st', ERR_409_checkpoint_tag_exists)
            else (st', ERR_500_checkpoint_failed)
        end
  end.

(** [matched = sscanf (buf, "%63s %255s %[^\n]", cmd, fname, rest)] *)
Definition parse_command (buf : string) : option (string * option (string * bool)) :=
  match scan_word 63 buf with
  | None => None
  | Some (cmd, r) =>
      match scan_word 255 r with
      | None => Some (cmd, None)
      | Some (fname, r') =>
          match scan_set not_newline 1023 (skip_space r') with
          | Some _ => Some (cmd, Some (fname, true))
          | None => Some (cmd, Some (fname, false))
          end
      end
  end.

(** A line that one [recv (fd, buf, sizeof (buf) - 1, 0)] into
    [buf[BUF_SZ]] delivers whole: at most 2047 bytes. *)
Definition line_fits (buf : string) : bool := (strlen buf <=? 2047)%nat.

(** One iteration of the receive loop for the line [buf] (already cut at
    its newline) on connection [fd]. [None]: a command outside this model
    (CREATE, READ, STREAM, VIEWCHECKPOINT, REVERT, LISTCHECKPOINTS, DELETE,
    EXIT, the access request commands, an unknown or empty command); none of
    them touches the lock list. *)
Definition client_handler_step (st : ss_state) (fd : Z) (username : string)
    (now : Z) (buf : string) : option (ss_state * reply) :=
  match get_client_write_info (sentence_locks st) fd with
  | Some (current_file, current_sentence) =>
      if has_prefix "ETIRW" buf
      then Some (etirw_commit st fd username now current_file current_sentence)
      else Some (insert_line st fd current_file current_sentence buf)
  | None =>
      match parse_command buf with
      | None => None
      | Some (cmd, args) =>
          let matched_ge_2 := match args with Some _ => true | None => false end in
          let matched_ge_3 := match args with Some (_, b) => b | None => false end in
          let fname := match args with Some (f, _) => f | None => EmptyString end in
          if (String.eqb cmd "CREATE" || String.eqb cmd "READ" || String.eqb cmd "STREAM")
             && matched_ge_2 then None
          else if has_prefix "WRITE" cmd then Some (write_command st fd buf)
          else if String.eqb cmd "UNDO" && matched_ge_2 then Some (undo_command st fname)
          else if String.eqb cmd "CHECKPOINT" && matched_ge_3
          then Some (checkpoint_command st username now buf)
          else None
      end
  end.

(** The thread's exit: [remove_client_locks (fd)]. *)
Definition client_disconnect (st : ss_state) (fd : Z) : ss_state :=
  set_locks st (remove_client_locks (sentence_locks st) fd).

(** What the storage server can do in one step, as far as the lock list is
    concerned: handle a line of the model, handle any other client command or
    a name server command (the lock list stays as it is), or close a
    connection. *)
Inductive ss_step : ss_state -> ss_state -> Prop :=
| step_line st fd username now buf st' r :
    client_handler_step st fd username now buf = Some (st', r) ->
    ss_step st st'
| step_other st st' :
    sentence_locks st' = sentence_locks st ->
    ss_step st st'
| step_disconnect st fd :
    ss_step st (client_disconnect st fd).

Inductive ss_reachable : ss_state -> Prop :=
| reach_init st : sentence_locks st = [] -> ss_reachable st
| reach_step st st' : ss_reachable st -> ss_step st st' -> ss_reachable st'.

End StorageServer.

(* ===================================================================== *)
(** * Name server: lookup cache, file index, folders                      *)
(* ===================================================================== *)

Module NameServer.
Import CLib.

Inductive PermissionType := PERM_NONE | PERM_READ | PERM_WRITE.

Definition perm_value (p : PermissionType) : Z :=
  match p with PERM_NONE => 0 | PERM_READ => 1 | PERM_WRITE => 2 end%Z.

Record AclEntry := {
  username : string;
  permission : PermissionType
}.

(** [FileRecord] of [search.h]; [acl_count] is the length of [acl]. *)
Record FileRecord := {
  filename : string;
  owner_username : string;
  ss_index : Z;
  folder : string;
  word_count : Z;
  char_count : Z;
  created : Z;
  modified : Z;
  last_accessed : Z;
  last_accessed_by : string;
  acl : list AclEntry
}.

(** [SSFileRecordPayload] of [protocol.h]; [p_acl] holds the first
    [acl_count] entries of its array. *)
Record SSFileRecordPayload := {
  p_filename : string;
  p_owner_username : string;
  p_acl : list AclEntry;
  p_word_count : Z;
  p_char_count : Z;
  p_created : Z;
  p_modified : Z;
  p_last_accessed : Z;
  p_last_accessed_by : string;
  p_folder : string
}.

Record FolderRecord := {
  foldername : string;
  folder_owner : string
}.

(** [CacheEntry] of [cache.h]. *)
Record CacheEntry := {
  cache_filename : string;
  cache_ss_index : Z;
  is_valid : bool;
  last_used_time : Z
}.

Definition CACHE_SIZE : nat := 16.

(** The name server state. The trie is the finite map from the index path of
    a node (the bytes below 128 that lead to it from the root) to the record
    hanging at that node. *)
Record ns_state := {
  cache : list CacheEntry;
  trie : gmap string FileRecord;
  folder_registry : list FolderRecord
}.

Definition set_cache (st : ns_state) (c : list CacheEntry) : ns_state :=
  {| cache := c; trie := trie st; folder_registry := folder_registry st |}.

Definition set_trie (st : ns_state) (t : gmap string FileRecord) : ns_state :=
  {| cache := cache st; trie := t; folder_registry := folder_registry st |}.

(** [memset (cache, 0, sizeof (cache))] *)
Definition init_cache : list CacheEntry :=
  replicate CACHE_SIZE
    {| cache_filename := EmptyString; cache_ss_index := 0; is_valid := false;
       last_used_time := 0 |}.

Definition init_ns : ns_state :=
  {| cache := init_cache; trie := ∅; folder_registry := [] |}.

(** ** cache.c *)

(** The first slot [i] with [cache[i].is_valid && strcmp (...) == 0]. *)
Fixpoint cache_find (i : nat) (es : list CacheEntry) (name : string) : option nat :=
  match es with
  | [] => None
  | e :: es' =>
      if is_valid e && String.eqb (cache_filename e) name then Some i
      else cache_find (S i) es' name
  end.

Definition touch (e : CacheEntry) (now : Z) : CacheEntry :=
  {| cache_filename := cache_filename e; cache_ss_index := cache_ss_index e;
     is_valid := is_valid e; last_used_time := now |}.

Definition cache_lookup (c : list CacheEntry) (name : string) (now : Z)
    : list CacheEntry * Z :=
  match cache_find 0 c name with
  | Some found_index =>
      match c !! found_index with
      | Some e => (<[found_index := touch e now]> c, cache_ss_index e)
      | None => (c, (-1)%Z)
      end
  | None => (c, (-1)%Z)
  end.

(** The slot search of [cache_add] from slot [i] on: an empty slot ends it;
    otherwise a slot strictly older than [oldest_time] becomes the candidate. *)
Fixpoint find_slot (i : nat) (es : list CacheEntry) (lru_index : nat)
    (oldest_time : Z) : nat :=
  match es with
  | [] => lru_index
  | e :: es' =>
      if negb (is_valid e) then i
      else if (last_used_time e <? oldest_time)%Z
      then find_slot (S i) es' i (last_used_time e)
      else find_slot (S i) es' lru_index oldest_time
  end.

(** [cache_add]; its two readings of the clock are taken within the same
    second [now]. *)
Definition cache_add (c : list CacheEntry) (name : string) (ss : Z) (now : Z)
    : list CacheEntry :=
  let lru_index := find_slot 0 c 0 now in
  <[lru_index := {| cache_filename := take_bytes 255 name; cache_ss_index := ss;
                    is_valid := true; last_used_time := now |}]> c.

Definition invalidate (e : CacheEntry) : CacheEntry :=
  {| cache_filename := cache_filename e; cache_ss_index := cache_ss_index e;
     is_valid := false; last_used_time := last_used_time e |}.

Definition cache_invalidate (c : list CacheEntry) (name : string) : list CacheEntry :=
  match cache_find 0 c name with
  | Some i =>
      match c !! i with
      | Some e => <[i := invalidate e]> c
      | None => c
      end
  | None => c
  end.

(** ** search.c: walking the trie *)

(** [index < 0 || index >= TRIE_CHAR_SET_SIZE] for [index = (int) filename[i]]:
    the byte is 128 or more, whether [char] is signed or not. *)
Definition out_of_range (ch : ascii) : bool := (128 <=? nat_of_ascii ch)%nat.

(** The node reached by the walks that [continue] on an out of range byte
    ([find_file_record], [search_add_file], [search_rebuild_add_file]). *)
Fixpoint skip_path (name : string) : string :=
  match name with
  | EmptyString => EmptyString
  | String ch name' =>
      if out_of_range ch then skip_path name' else String ch (skip_path name')
  end.

(** The node reached by the walks that give up on an out of range byte
    ([search_delete_file], [search_set_file_folder]). *)
Fixpoint strict_path (name : string) : option string :=
  match name with
  | EmptyString => Some EmptyString
  | String ch name' =>
      if out_of_range ch then None
      else match strict_path name' with
           | Some p => Some (String ch p)
           | None => None
           end
  end.

Definition find_file_record (t : gmap string FileRecord) (name : string)
    : option FileRecord :=
  t !! skip_path name.

Definition search_add_file (st : ns_state) (name : string) (ss : Z) (owner : string)
    : ns_state :=
  match trie st !! skip_path name with
  | Some _ => st
  | None =>
      set_trie st
        (<[skip_path name :=
             {| filename := take_bytes 255 name;
                owner_username := take_bytes 63 owner;
                ss_index := ss; folder := EmptyString;
                word_count := 0; char_count := 0; created := 0; modified := 0;
                last_accessed := 0; last_accessed_by := EmptyString;
                acl := [] |}]> (trie st))
  end.

(** [search_find_file]: the cache first, then the trie, then [cache_add]. *)
Definition search_find_file (st : ns_state) (name : string) (now : Z) : ns_state * Z :=
  let '(c, cached_index) := cache_lookup (cache st) name now in
  if negb (cached_index =? -1)%Z then (set_cache st c, cached_index)
  else
    let found :=
      match find_file_record (trie st) name with
      | Some record => ss_index record
      | None => (-1)%Z
      end in
    if negb (found =? -1)%Z
    then (set_cache st (cache_add c name found now), found)
    else (set_cache st c, found).

Definition search_check_permission (st : ns_state) (name user : string)
    (perm : PermissionType) : bool :=
  match find_file_record (trie st) name with
  | None => false
  | Some record =>
      if String.eqb (owner_username record) user then true
      else existsb (fun e => String.eqb (username e) user
                             && (perm_value perm <=? perm_value (permission e))%Z)
             (acl record)
  end.

(** The first ACL index with [strcmp (acl[i].username, target) == 0]. *)
Fixpoint acl_find (i : nat) (l : list AclEntry) (target : string) : option nat :=
  match l with
  | [] => None
  | e :: l' => if String.eqb (username e) target then Some i else acl_find (S i) l' target
  end.

Definition set_acl (r : FileRecord) (l : list AclEntry) : FileRecord :=
  {| filename := filename r; owner_username := owner_username r;
     ss_index := ss_index r; folder := folder r; word_count := word_count r;
     char_count := char_count r; created := created r; modified := modified r;
     last_accessed := last_accessed r; last_accessed_by := last_accessed_by r;
     acl := l |}.

Definition set_folder (r : FileRecord) (f : string) : FileRecord :=
  {| filename := filename r; owner_username := owner_username r;
     ss_index := ss_index r; folder := f; word_count := word_count r;
     char_count := char_count r; created := created r; modified := modified r;
     last_accessed := last_accessed r; last_accessed_by := last_accessed_by r;
     acl := acl r |}.

Definition MAX_ACL_ENTRIES : nat := 10.

(** [search_grant_permission]: 0 on success, -1 otherwise. *)
Definition search_grant_permission (st : ns_state) (name owner target : string)
    (perm : PermissionType) : ns_state * Z :=
  match find_file_record (trie st) name with
  | None => (st, (-1)%Z)
  | Some record =>
      if negb (String.eqb (owner_username record) owner) then (st, (-1)%Z)
      else
        match acl_find 0 (acl record) target with
        | Some found_index =>
            (set_trie st
               (<[skip_path name :=
                    set_acl record
                      (alter (fun e => {| username := username e; permission := perm |})
                         found_index (acl record))]>
                  (trie st)), 0%Z)
        | None =>
            if (MAX_ACL_ENTRIES <=? length (acl record))%nat then (st, (-1)%Z)
            else
              (set_trie st
                 (<[skip_path name :=
                      set_acl record
                        (acl record ++
                           [{| username := take_bytes 63 target; permission := perm |}])]>
                    (trie st)), 0%Z)
        end
  end.

(** [search_remove_permission]: the found entry is overwritten by the last
    one and the count decremented. *)
Definition search_remove_permission (st : ns_state) (name owner target : string)
    : ns_state * Z :=
  match find_file_record (trie st) name with
  | None => (st, (-1)%Z)
  | Some record =>
      if negb (String.eqb (owner_username record) owner) then (st, (-1)%Z)
      else
        match acl_find 0 (acl record) target, last (acl record) with
        | Some found_index, Some last_entry =>
            (set_trie st
               (<[skip_path name :=
                    set_acl record
                      (removelast (<[found_index := last_entry]> (acl record)))]>
                  (trie st)), 0%Z)
        | _, _ => (st, 0%Z)
        end
  end.

(** [search_delete_file]: the ss_index on success, -1 not found, -2 denied. *)
Definition search_delete_file (st : ns_state) (name user : string) : ns_state * Z :=
  match strict_path name with
  | None => (st, (-1)%Z)
  | Some p =>
      match trie st !! p with
      | None => (st, (-1)%Z)
      | Some record =>
          if negb (String.eqb (owner_username record) user) then (st, (-2)%Z)
          else (set_trie st (delete p (trie st)), ss_index record)
      end
  end.

Inductive ns_reply :=
| ERROR_file_not_found
| ERROR_access_denied
| ACK_deleted (forward_to_ss : Z).

(** [handle_delete_request] up to the forwarding of the delete to the
    storage server [forward_to_ss]. *)
Definition handle_delete_request (st : ns_state) (name user : string)
    : ns_state * ns_reply :=
  let '(st', ss) := search_delete_file st name user in
  if (ss =? -1)%Z then (st', ERROR_file_not_found)
  else if (ss =? -2)%Z then (st', ERROR_access_denied)
  else (set_cache st' (cache_invalidate (cache st') name), ACK_deleted ss).

(** [search_rebuild_add_file]: a record of another storage server is kept,
    everything else is replaced by the payload. *)
Definition search_rebuild_add_file (st : ns_state) (ss : Z)
    (file_payload : SSFileRecordPayload) : ns_state :=
  let p := skip_path (p_filename file_payload) in
  let new_record :=
    {| filename := take_bytes 255 (p_filename file_payload);
       owner_username := take_bytes 63 (p_owner_username file_payload);
       ss_index := ss;
       folder := take_bytes 255 (p_folder file_payload);
       word_count := p_word_count file_payload;
       char_count := p_char_count file_payload;
       created := p_created file_payload;
       modified := p_modified file_payload;
       last_accessed := p_last_accessed file_payload;
       last_accessed_by := take_bytes 63 (p_last_accessed_by file_payload);
       acl := map (fun e => {| username := take_bytes 63 (username e);
                               permission := permission e |})
                (p_acl file_payload) |} in
  match trie st !! p with
  | Some old =>
      if (ss_index old =? ss)%Z then set_trie st (<[p := new_record]> (trie st))
      else st
  | None => set_trie st (<[p := new_record]> (trie st))
  end.

(** ** search.c: folders *)

Definition starts_with (s prefix : string) : bool :=
  if (strlen prefix =? 0)%nat then true else has_prefix prefix s.

Fixpoint folder_find (i : nat) (l : list FolderRecord) (name : string) : option nat :=
  match l with
  | [] => None
  | f :: l' => if String.eqb (foldername f) name then Some i else folder_find (S i) l' name
  end.

Definition MAX_FOLDERS : nat := 1024.

Definition search_add_folder (st : ns_state) (name owner : string) : ns_state * Z :=
  if (strlen name =? 0)%nat then (st, (-1)%Z)
  else
    match folder_find 0 (folder_registry st) name with
    | Some _ => (st, (-1)%Z)
    | None =>
        if (MAX_FOLDERS <=? length (folder_registry st))%nat then (st, (-1)%Z)
        else
          ({| cache := cache st; trie := trie st;
              folder_registry :=
                folder_registry st ++
                  [{| foldername := take_bytes 255 name;
                      folder_owner := take_bytes 63 owner |}] |}, 0%Z)
    end.

(** [search_set_file_folder]: the ss_index on success, -1 not found, -2 when
    [owner] does not own the file. *)
Definition search_set_file_folder (st : ns_state) (name new_folder owner : string)
    : ns_state * Z :=
  match strict_path name with
  | None => (st, (-1)%Z)
  | Some p =>
      match trie st !! p with
      | None => (st, (-1)%Z)
      | Some record =>
          if negb (String.eqb (owner_username record) owner) then (st, (-2)%Z)
          else (set_trie st (<[p := set_folder record (take_bytes 255 new_folder)]> (trie st)),
                ss_index record)
      end
  end.

(** The new folder of a record whose folder starts with [src]. *)
Definition moved_folder (src dst old_folder : string) : string :=
  let new_folder :=
    if (strlen src =? 0)%nat then take_bytes 255 dst
    else
      let rest := drop_bytes (strlen src) old_folder in
      let rest := match rest with String "/" r => r | _ => rest end in
      if (0 <? strlen rest)%nat
      then take_bytes 255 (dst +:+ "/" +:+ rest)
      else take_bytes 255 dst in
  take_bytes 255 new_folder.

Definition move_record (src dst : string) (r : FileRecord) : FileRecord :=
  if starts_with (folder r) src then set_folder r (moved_folder src dst (folder r))
  else r.

(** [search_move_folder]: -1 when [src] is no folder, is not owned by
    [owner] or [dst] exists; otherwise the registry entry is renamed, every
    record of the trie is visited, and the number of entries written to
    [out_updates] (at most [max_updates]) is returned. The order of the walk
    only decides the order of [out_updates], which is left out. *)
Definition search_move_folder (st : ns_state) (src dst owner : string)
    (max_updates : nat) : ns_state * Z :=
  match folder_find 0 (folder_registry st) src with
  | None => (st, (-1)%Z)
  | Some src_idx =>
      match folder_registry st !! src_idx with
      | None => (st, (-1)%Z)
      | Some f =>
          if negb (String.eqb (folder_owner f) owner) then (st, (-1)%Z)
          else
            match folder_find 0 (folder_registry st) dst with
            | Some _ => (st, (-1)%Z)
            | None =>
                let updated :=
                  size (filter (fun kv => starts_with (folder (snd kv)) src = true)
                          (trie st)) in
                ({| cache := cache st;
                    trie := move_record src dst <$> trie st;
                    folder_registry :=
                      <[src_idx := {| foldername := take_bytes 255 dst;
                                      folder_owner := folder_owner f |}]>
                        (folder_registry st) |},
                 Z.of_nat (Nat.min updated max_updates))
            end
      end
  end.

End NameServer.

(* ===================================================================== *)
(** * The vocabulary of the properties                                    *)
(* ===================================================================== *)

Module Props.
Import CLib Sentence StorageServer.

(** Words joined by single spaces. *)
Definition join_sp (l : list string) : string := String.concat " " l.

(** The words of the sentence delimited by [si]. *)
Definition sentence_words (ws : list string) (si : sentence_info_t) : list string :=
  firstn (S (end_word_idx si) - start_word_idx si) (skipn (start_word_idx si) ws).

(** Sentences 1..n of a text, each as its words joined by single spaces. *)
Definition sentences_of (content : string) : list string :=
  let ws := tokenize content in
  map (fun si => join_sp (sentence_words ws si)) (parse_sentences ws).

(** Zero or one element, from an option. *)
Definition opt_list {A} (o : option A) : list A :=
  match o with Some x => [x] | None => [] end.

(** The lines received by the storage server, each with its connection, the
    user of that connection and the clock at that moment, handled in order;
    the replies are collected. [None] when a line is outside the model. *)
Fixpoint run_lines (st : ss_state) (ls : list (Z * string * Z * string))
    : option (ss_state * list reply) :=
  match ls with
  | [] => Some (st, [])
  | (fd, username, now, buf) :: ls' =>
      match client_handler_step st fd username now buf with
      | Some (st', r) =>
          match run_lines st' ls' with
          | Some (st'', rs) => Some (st'', r :: rs)
          | None => None
          end
      | None => None
      end
  end.

(** A storage server that holds the given live files and nothing else. *)
Definition ss_with_files (fs : gmap string string) : ss_state :=
  {| files_dir := fs; versions_dir := ∅; undo_dir := ∅; checkpoints_dir := ∅;
     checkpoint_meta_dir := ∅; sentence_locks := [] |}.

End Props.

(* ===================================================================== *)
(** * Facts about strings and the tokeniser                               *)
(* ===================================================================== *)

Import CLib Sentence StorageServer NameServer Props.

(** [ " " ++ x ] for every word. *)
Definition sep_cat (l : list string) : string :=
  fold_right (fun x acc => " " +:+ x +:+ acc) "" l.

(** A sentence of a text of [n] words: a non-empty range of word indices. *)
Definition valid_si (n : nat) (si : sentence_info_t) : Prop :=
  start_word_idx si <= end_word_idx si /\ end_word_idx si < n.

(** Appending a piece to a buffer, a space first when the buffer is not
    empty. *)
Definition acc_join (final : string) (pieces : list string) : string :=
  fold_left (fun acc x => (if (0 <? strlen acc)%nat then acc +:+ " " else acc) +:+ x)
    pieces final.

(** The two writers of scenario S2: connection 4 (user A) on sentence 1,
    connection 5 (user B) on sentence 2, both swaps written before either
    commit. *)
Definition s2_doc : ss_state :=
  ss_with_files {[ "doc" := "Hello world. Goodbye world." ]}.

Definition s2_prepare : list (Z * string * Z * string) :=
  [ (4%Z, "A", 100%Z, "WRITE doc 1"); (5%Z, "B", 100%Z, "WRITE doc 2");
    (4%Z, "A", 101%Z, "3 cruel"); (5%Z, "B", 101%Z, "1 Farewell") ].

(** The words of a sentence without its terminator, and the terminator: one
    final '.', '!' or '?' is taken off the last word, and a last word that
    was only the terminator disappears. *)
Definition peel (raw : list string) : list string * option ascii :=
  match last raw with
  | Some w =>
      match last_char w with
      | Some c =>
          if is_terminator c then
            let w' := take_bytes (strlen w - 1) w in
            (removelast raw ++ (if (0 <? strlen w')%nat then [w'] else []), Some c)
          else (raw, None)
      | None => (raw, None)
      end
  | None => (raw, None)
  end.

(** The terminator put back at the end of the last word. *)
Definition attach (l : list string) (d : option ascii) : list string :=
  match d, last l with
  | Some c, Some w => removelast l ++ [w +:+ String c ""]
  | _, _ => l
  end.

(** The text that an insert line of connection [fd] works on: the swap
    file of the connection when there is one, the live file otherwise. *)
Definition current_text (st : ss_state) (file : string) (t fd : Z) : option string :=
  match files_dir st !! swap_name file t fd with
  | Some s => Some s
  | None => files_dir st !! file
  end.

(** A text that [%2047[^\n]] reads whole after the blank that follows the
    position: it starts with a byte that is not white space, holds no
    newline and has at most 2047 bytes. *)
Definition insert_text (new_content : string) : bool :=
  match new_content with
  | String c _ =>
      negb (isspace c) && all_bytes not_newline new_content
      && (strlen new_content <=? 2047)%nat
  | EmptyString => false
  end.

(** The number of sentence locks that connection [fd] holds. *)
Fixpoint locks_held (locks : list sentence_lock_t) (fd : Z) : nat :=
  match locks with
  | [] => 0
  | curr :: rest =>
      (if (client_fd curr =? fd)%Z then 1 else 0) + locks_held rest fd
  end.

(** The state of scenario S2 when connection 4 has taken its lock. *)
Definition s2_locked : ss_state :=
  set_locks s2_doc (add_sentence_lock [] "doc" 1 4).

(** The replies to a sequence of lines, and a live file after them. *)
Definition replies_after (st : ss_state) (ls : list (Z * string * Z * string))
    : option (list reply) :=
  match run_lines st ls with Some (_, rs) => Some rs | None => None end.

Definition file_after (st : ss_state) (ls : list (Z * string * Z * string))
    (name : string) : option string :=
  match run_lines st ls with Some (st', _) => files_dir st' !! name | None => None end.

Definition undo_log_after (st : ss_state) (ls : list (Z * string * Z * string))
    (name : string) : option string :=
  match run_lines st ls with
  | Some (st', _) => undo_dir st' !! undo_meta_name name
  | None => None
  end.

(** Scenario S3: file 'a' holds 'one. two.'; one client on connection 4. *)
Definition s3_a : ss_state := ss_with_files {[ "a" := "one. two." ]}.

Definition s3_write_big : list (Z * string * Z * string) :=
  [ (4%Z, "u", 100%Z, "WRITE a 1"); (4%Z, "u", 101%Z, "2 big");
    (4%Z, "u", 102%Z, "ETIRW") ].

Definition s3_write_more : list (Z * string * Z * string) :=
  [ (4%Z, "u", 103%Z, "WRITE a 2"); (4%Z, "u", 104%Z, "2 more");
    (4%Z, "u", 105%Z, "ETIRW") ].

(** The file 'doc' after one commit by connection 4, with connection 5 now
    holding the lock on sentence 1. *)
Definition s6_locked : ss_state :=
  match run_lines s2_doc
          [ (4%Z, "A", 100%Z, "WRITE doc 1"); (4%Z, "A", 101%Z, "3 cruel");
            (4%Z, "A", 102%Z, "ETIRW"); (5%Z, "B", 103%Z, "WRITE doc 1") ] with
  | Some (st, _) => st
  | None => s2_doc
  end.

(** Two files whose names differ by a suffix that starts with '_'. *)
Definition s7_files : ss_state := ss_with_files {[ "a" := "x"; "a_b" := "y" ]}.

(** A file name with one byte above 127 (the first byte of a two byte UTF-8
    sequence), as a client may send it in the header of a create request. *)
Definition name_c3 : string := String (ascii_of_nat 195) "x".

Definition ns_with_c3 : ns_state := search_add_file init_ns name_c3 0 "alice".

(** Alice's folders 'a' and 'ab', her file 'f1' in 'a', her file 'f2' in
    'ab'. *)
Definition ns_folders : ns_state :=
  let st := search_add_file init_ns "f1" 0 "alice" in
  let st := search_add_file st "f2" 0 "alice" in
  let st := fst (search_add_folder st "a" "alice") in
  let st := fst (search_add_folder st "ab" "alice") in
  let st := fst (search_set_file_folder st "f1" "a" "alice") in
  fst (search_set_file_folder st "f2" "ab" "alice").

Definition folder_of (st : ns_state) (name : string) : option string :=
  folder <$> find_file_record (trie st) name.

(** Seventeen files 'A' .. 'Q' of alice on storage server 0. *)
Definition letters (n : nat) : list string :=
  map (fun k => String (ascii_of_nat (65 + k)) "") (seq 0 n).

Definition ns_17 : ns_state :=
  fold_left (fun st nm => search_add_file st nm 0 "alice") (letters 17) init_ns.

(** Successive [search_find_file] calls, each with the clock at its time. *)
Definition lookups (st : ns_state) (l : list (string * Z)) : ns_state :=
  fold_left (fun st '(nm, now) => fst (search_find_file st nm now)) l st.

Definition cached (st : ns_state) (nm : string) : bool :=
  match cache_find 0 (cache st) nm with Some _ => true | None => false end.

(** At most one valid cache entry for a file name. *)
Definition cache_unique (c : list CacheEntry) : Prop :=
  forall i j e e',
    c !! i = Some e -> c !! j = Some e' ->
    is_valid e = true -> is_valid e' = true ->
    cache_filename e = cache_filename e' -> i = j.

(** A slot of the zeroed cache. *)
Definition empty_slot : CacheEntry :=
  {| cache_filename := EmptyString; cache_ss_index := 0; is_valid := false;
     last_used_time := 0 |}.

(** The entry that a miss on [fst p] at second [snd p] writes. *)
Definition entry_of (t : gmap string FileRecord) (p : string * Z) : CacheEntry :=
  {| cache_filename := fst p;
     cache_ss_index := match find_file_record t (fst p) with
                       | Some r => ss_index r
                       | None => (-1)%Z
                       end;
     is_valid := true; last_used_time := snd p |}.

(** A name that fits the entry and is found in the trie on a live server. *)
Definition servable (t : gmap string FileRecord) (nm : string) : Prop :=
  String.length nm <= 255
  /\ exists r, find_file_record t nm = Some r /\ ss_index r <> (-1)%Z.

(** The lookups of 'A' .. 'P', then 'A' again, then 'Q', at the given
    times. *)
Definition touch_scenario (times : list Z) : ns_state :=
  lookups ns_17 (zip (letters 16 ++ ["A"; "Q"]) times).

(** The owner of a record is in none of its ACL entries. *)
Definition owner_free (r : FileRecord) : Prop :=
  Forall (fun e => username e <> owner_username r) (acl r).

(** The invariant of C9 over the whole trie. *)
Definition owner_never_in_acl (st : ns_state) : Prop :=
  forall p r, trie st !! p = Some r -> owner_free r.

(** A manifest entry whose ACL does not name its owner, as the fields are
    stored (the first 63 bytes). *)
Definition payload_owner_free (pl : SSFileRecordPayload) : Prop :=
  Forall (fun e => take_bytes 63 (username e) <> take_bytes 63 (p_owner_username pl))
    (p_acl pl).

Definition ns_f1 : ns_state := search_add_file init_ns "f1" 0 "alice".

Definition manifest_f2 (acl_users : list string) : SSFileRecordPayload :=
  {| p_filename := "f2"; p_owner_username := "alice";
     p_acl := map (fun u => {| username := u; permission := PERM_READ |}) acl_users;
     p_word_count := 0; p_char_count := 0; p_created := 0; p_modified := 0;
     p_last_accessed := 0; p_last_accessed_by := ""; p_folder := "" |}.

(* ===================================================================== *)
(** * Further parts of the servers                                        *)
(* ===================================================================== *)

(** The models below cover more of the sources, with the conventions of the
    header: [src/name_server/user_manager.c] (the list of active users),
    [src/name_server/storage_manager.c] (the registry of storage servers and
    the round robin choice), the remaining index operations of
    [src/name_server/search.c] and [handle_create_request] of
    [src/name_server/client_handler.c], [src/storage_server/persistence.c]
    (the metadata table and the word count) and, of
    [src/storage_server/main.c], the checkpoint view and revert, the READ
    reply and the access requests. *)

From Stdlib Require Import DecimalPos.
From stdpp Require Import sorting.

Module UserManager.
Import CLib.

Definition MAX_ACTIVE_USERS : nat := 50.

(** The first index with [strcmp (active_users[i], username) == 0]. *)
Fixpoint user_find (i : nat) (users : list string) (username : string) : option nat :=
  match users with
  | [] => None
  | u :: users' => if String.eqb u username then Some i else user_find (S i) users' username
  end.

(** [user_manager_register]; the list is [active_users[0 .. user_count - 1]]. *)
Definition user_manager_register (users : list string) (username : string) : list string :=
  if (MAX_ACTIVE_USERS <=? length users)%nat then users
  else
    match user_find 0 users username with
    | Some _ => users
    | None => users ++ [take_bytes 63 username]
    end.

(** [user_manager_deregister]: the last name is copied over the found one
    and the count decremented. *)
Definition user_manager_deregister (users : list string) (username : string) : list string :=
  match user_find 0 users username, last users with
  | Some found_index, Some last_user =>
      removelast (<[found_index := take_bytes 63 last_user]> users)
  | _, _ => users
  end.

(** [user_manager_get_list]: the [offset] bytes of the buffer that are
    reported; a name that does not fit ends the loop. *)
Fixpoint user_manager_get_list (users : list string) (buffer_size : nat) (out : string)
    : string :=
  match users with
  | [] => out
  | u :: users' =>
      let chars_written := (strlen u + 1)%nat in
      if (buffer_size <=? strlen out + chars_written)%nat then out
      else user_manager_get_list users' buffer_size (out +:+ u +:+ String "010" EmptyString)
  end.

End UserManager.

Import UserManager.

(** The list of active users as the name server keeps it. *)
Definition users_ok (users : list string) : Prop :=
  NoDup users /\ length users <= MAX_ACTIVE_USERS
  /\ Forall (fun u => String.length u <= 63) users.

(** The names of [l], each followed by a newline. *)
Definition lines_of (l : list string) : string :=
  fold_right (fun u acc => u +:+ newline +:+ acc) EmptyString l.

Module StorageManager.
Import CLib.

Definition MAX_STORAGE_SERVERS : nat := 10.

(** [StorageServerInfo] of [storage_manager.h] without its mutex. *)
Record StorageServerInfo := {
  ss_socket_fd : Z;
  ip_addr : string;
  client_facing_port : Z;
  is_active : bool
}.

(** [ss_registry] and the static [next_ss_index]. *)
Record sm_state := {
  ss_registry : list StorageServerInfo;
  next_ss_index : nat
}.

(** The zeroed global array after [init_storage_manager]. *)
Definition init_storage_manager : sm_state :=
  {| ss_registry :=
       replicate MAX_STORAGE_SERVERS
         {| ss_socket_fd := (-1)%Z; ip_addr := EmptyString; client_facing_port := 0%Z;
            is_active := false |};
     next_ss_index := 0 |}.

(** The first slot with [!ss_registry[i].is_active]. *)
Fixpoint first_inactive (i : nat) (l : list StorageServerInfo) : option nat :=
  match l with
  | [] => None
  | s :: l' => if negb (is_active s) then Some i else first_inactive (S i) l'
  end.

(** [register_storage_server]. [payload] is [None] when the packet has the
    wrong size or [recv_all] fails; [ack_sent] tells whether [send_header]
    of the ACK succeeded (the slot stays filled when it did not). *)
Definition register_storage_server (sm : sm_state) (sock_fd : Z)
    (payload : option (string * Z)) (ack_sent : bool) : sm_state * Z :=
  match payload with
  | None => (sm, (-1)%Z)
  | Some (payload_ip_addr, payload_port) =>
      match first_inactive 0 (ss_registry sm) with
      | None => (sm, (-1)%Z)
      | Some found_slot =>
          ({| ss_registry :=
                <[found_slot := {| ss_socket_fd := sock_fd;
                                   ip_addr := take_bytes 64 payload_ip_addr;
                                   client_facing_port := payload_port;
                                   is_active := true |}]> (ss_registry sm);
              next_ss_index := next_ss_index sm |},
           if ack_sent then Z.of_nat found_slot else (-1)%Z)
      end
  end.

(** The loop of [find_next_active_ss] at offset [i], with [k] iterations
    left. *)
Fixpoint find_next_active_from (registry : list StorageServerInfo) (start_index i k : nat)
    : option nat :=
  match k with
  | O => None
  | S k' =>
      let index := ((start_index + i) mod MAX_STORAGE_SERVERS)%nat in
      match registry !! index with
      | Some s =>
          if is_active s then Some index
          else find_next_active_from registry start_index (S i) k'
      | None => find_next_active_from registry start_index (S i) k'
      end
  end.

Definition find_next_active_ss (sm : sm_state) (start_index : nat)
    : sm_state * option nat :=
  match find_next_active_from (ss_registry sm) start_index 0 MAX_STORAGE_SERVERS with
  | Some index =>
      ({| ss_registry := ss_registry sm;
          next_ss_index := ((index + 1) mod MAX_STORAGE_SERVERS)%nat |}, Some index)
  | None => (sm, None)
  end.

(** [get_ss_for_new_file]: the slot of the chosen server. *)
Definition get_ss_for_new_file (sm : sm_state) : sm_state * option nat :=
  find_next_active_ss sm (next_ss_index sm).

Definition get_ss_by_index (sm : sm_state) (ss_index : Z) : option StorageServerInfo :=
  if (ss_index <? 0)%Z || (Z.of_nat MAX_STORAGE_SERVERS <=? ss_index)%Z then None
  else
    match ss_registry sm !! Z.to_nat ss_index with
    | Some s => if is_active s then Some s else None
    | None => None
    end.

(** The first active slot whose socket is [sock_fd]. *)
Fixpoint find_by_socket (i : nat) (l : list StorageServerInfo) (sock_fd : Z) : option nat :=
  match l with
  | [] => None
  | s :: l' =>
      if is_active s && (ss_socket_fd s =? sock_fd)%Z then Some i
      else find_by_socket (S i) l' sock_fd
  end.

(** The registry part of [remove_storage_server]: the slot that was
    deactivated, if any. *)
Definition deactivate_by_socket (sm : sm_state) (sock_fd : Z) : sm_state * option nat :=
  match find_by_socket 0 (ss_registry sm) sock_fd with
  | Some i =>
      match ss_registry sm !! i with
      | Some s =>
          ({| ss_registry :=
                <[i := {| ss_socket_fd := (-1)%Z; ip_addr := ip_addr s;
                          client_facing_port := client_facing_port s;
                          is_active := false |}]> (ss_registry sm);
              next_ss_index := next_ss_index sm |}, Some i)
      | None => (sm, None)
      end
  | None => (sm, None)
  end.

(** [get_ss_sock_by_address] *)
Fixpoint get_ss_sock_by_address (l : list StorageServerInfo) (ip : string) (port : Z) : Z :=
  match l with
  | [] => (-1)%Z
  | s :: l' =>
      if is_active s && (client_facing_port s =? port)%Z && String.eqb (ip_addr s) ip
      then ss_socket_fd s
      else get_ss_sock_by_address l' ip port
  end.

End StorageManager.

Import StorageManager.

(** The flags [is_active] of the registry. *)
Definition active_flags (sm : sm_state) : list bool := map is_active (ss_registry sm).

(** Slot [i] holds an active server. *)
Definition active_slot (sm : sm_state) (i : nat) : Prop :=
  exists s, ss_registry sm !! i = Some s /\ is_active s = true.

(** Two servers on the first two slots. *)
Definition sm_two : sm_state :=
  let sm := fst (register_storage_server init_storage_manager 7 (Some ("10.0.0.1", 6001%Z)) true) in
  fst (register_storage_server sm 8 (Some ("10.0.0.2", 6002%Z)) true).

(** ** search.c: the walk of the whole trie and the purge *)

(** The order in which a walk that handles a node before its children, the
    children by ascending byte, meets the paths. *)
Definition path_le (a b : string * FileRecord) : Prop :=
  String.leb (fst a) (fst b) = true.

#[global] Instance path_le_dec : RelDecision path_le.
Proof. intros a b. unfold path_le. apply _. Defined.

(** The records of the trie in the order of [recursive_purge_by_ss]. *)
Definition walk_records (t : gmap string FileRecord) : list FileRecord :=
  map snd (merge_sort path_le (map_to_list t)).

(** [search_purge_by_ss]: every record of the dead server is unlinked, its
    stored name invalidated in the cache just before. *)
Definition search_purge_by_ss (st : ns_state) (dead_ss_index : Z) : ns_state :=
  if (dead_ss_index <? 0)%Z || (Z.of_nat MAX_STORAGE_SERVERS <=? dead_ss_index)%Z then st
  else
    let dead := filter (fun r => ss_index r = dead_ss_index) (walk_records (trie st)) in
    {| cache := fold_left (fun c r => cache_invalidate c (filename r)) dead (cache st);
       trie := filter (fun kv => ss_index (snd kv) <> dead_ss_index) (trie st);
       folder_registry := folder_registry st |}.

(** [remove_storage_server]: the slot is freed, then its files are purged. *)
Definition remove_storage_server (sm : sm_state) (st : ns_state) (sock_fd : Z)
    : sm_state * ns_state :=
  match deactivate_by_socket sm sock_fd with
  | (sm', Some i) => (sm', search_purge_by_ss st (Z.of_nat i))
  | (sm', None) => (sm', st)
  end.

(** [SSMetadataPayload] of [protocol.h]. *)
Record SSMetadataPayload := {
  m_word_count : Z;
  m_char_count : Z;
  m_created : Z;
  m_last_modified : Z;
  m_last_accessed : Z;
  m_last_accessed_by : string
}.

(** [search_update_file_metadata]: the walk skips bytes out of range. *)
Definition search_update_file_metadata (st : ns_state) (name : string)
    (meta : SSMetadataPayload) : ns_state :=
  match trie st !! skip_path name with
  | None => st
  | Some r =>
      set_trie st
        (<[skip_path name :=
             {| filename := filename r; owner_username := owner_username r;
                ss_index := ss_index r; folder := folder r;
                word_count := m_word_count meta; char_count := m_char_count meta;
                created := created r; modified := m_last_modified meta;
                last_accessed := m_last_accessed meta;
                last_accessed_by := take_bytes 63 (m_last_accessed_by meta);
                acl := acl r |}]> (trie st))
  end.

(** [search_find_folder] *)
Definition search_find_folder (st : ns_state) (name : string) : Z :=
  match folder_find 0 (folder_registry st) name with
  | Some idx => Z.of_nat idx
  | None => (-1)%Z
  end.

(** What the exchange with the storage server in [handle_create_request]
    came to. *)
Inductive ss_exchange := SS_SEND_FAILED | SS_RECV_FAILED | SS_NOT_ACK | SS_ACK.

Inductive create_reply :=
| ERROR_file_already_exists
| ERROR_no_active_storage_servers
| ERROR_failed_to_communicate
| ERROR_storage_server_disconnected
| ERROR_storage_server_failed_to_create
| ACK_created (ss_index : nat).

(** [handle_create_request] of [client_handler.c]. *)
Definition handle_create_request (sm : sm_state) (st : ns_state) (name user : string)
    (now : Z) (exchange : ss_exchange) : sm_state * ns_state * create_reply :=
  let '(st1, existing_ss_index) := search_find_file st name now in
  if negb (existing_ss_index =? -1)%Z then (sm, st1, ERROR_file_already_exists)
  else
    match get_ss_for_new_file sm with
    | (sm1, None) => (sm1, st1, ERROR_no_active_storage_servers)
    | (sm1, Some index) =>
        let sock := match ss_registry sm1 !! index with
                    | Some ss => ss_socket_fd ss
                    | None => (-1)%Z
                    end in
        match exchange with
        | SS_SEND_FAILED =>
            let '(sm2, st2) := remove_storage_server sm1 st1 sock in
            (sm2, st2, ERROR_failed_to_communicate)
        | SS_RECV_FAILED =>
            let '(sm2, st2) := remove_storage_server sm1 st1 sock in
            (sm2, st2, ERROR_storage_server_disconnected)
        | SS_NOT_ACK => (sm1, st1, ERROR_storage_server_failed_to_create)
        | SS_ACK =>
            (sm1, search_add_file st1 name (Z.of_nat index) user, ACK_created index)
        end
    end.

(** ** The operations of the name server on its index *)

Inductive ns_op :=
| OP_find (name : string) (now : Z)
| OP_add_file (name : string) (ss : Z) (owner : string)
| OP_delete (name user : string)
| OP_grant (name owner target : string) (perm : PermissionType)
| OP_revoke (name owner target : string)
| OP_update_metadata (name : string) (meta : SSMetadataPayload)
| OP_add_folder (name owner : string)
| OP_set_file_folder (name new_folder owner : string)
| OP_move_folder (src dst owner : string) (max_updates : nat)
| OP_purge (dead_ss_index : Z)
| OP_rebuild_add (ss : Z) (file_payload : SSFileRecordPayload).

Definition ns_apply (st : ns_state) (op : ns_op) : ns_state :=
  match op with
  | OP_find name now => fst (search_find_file st name now)
  | OP_add_file name ss owner => search_add_file st name ss owner
  | OP_delete name user => fst (handle_delete_request st name user)
  | OP_grant name owner target perm => fst (search_grant_permission st name owner target perm)
  | OP_revoke name owner target => fst (search_remove_permission st name owner target)
  | OP_update_metadata name meta => search_update_file_metadata st name meta
  | OP_add_folder name owner => fst (search_add_folder st name owner)
  | OP_set_file_folder name new_folder owner =>
      fst (search_set_file_folder st name new_folder owner)
  | OP_move_folder src dst owner max_updates =>
      fst (search_move_folder st src dst owner max_updates)
  | OP_purge dead_ss_index => search_purge_by_ss st dead_ss_index
  | OP_rebuild_add ss file_payload => search_rebuild_add_file st ss file_payload
  end.

(** No byte of [s] is 128 or more. *)
Definition seven_bit (s : string) : Prop := strict_path s = Some s.

(** A file name as a client can send it in a [MessageHeader] (at most 255
    bytes) and without a byte outside the trie's character set. *)
Definition plain_name (s : string) : Prop := seven_bit s /\ String.length s <= 255.

(** Every record hangs at the path spelled by its stored name and lies on
    a slot of the registry (an index from 0 on). *)
Definition trie_named (t : gmap string FileRecord) : Prop :=
  forall p r, t !! p = Some r -> filename r = p /\ (0 <= ss_index r)%Z.

(** Every valid cache entry names a file of the trie, with its server. *)
Definition cache_sound (st : ns_state) : Prop :=
  forall i e, cache st !! i = Some e -> is_valid e = true ->
    seven_bit (cache_filename e)
    /\ exists r, trie st !! cache_filename e = Some r /\ ss_index r = cache_ss_index e.

Definition index_ok (st : ns_state) : Prop :=
  trie_named (trie st) /\ cache_unique (cache st) /\ cache_sound st.

(** The file names an operation brings in are plain, the server indices
    are slots. *)
Definition op_plain (op : ns_op) : Prop :=
  match op with
  | OP_find name _ => plain_name name
  | OP_add_file name ss _ => plain_name name /\ (0 <= ss)%Z
  | OP_rebuild_add ss file_payload => plain_name (p_filename file_payload) /\ (0 <= ss)%Z
  | _ => True
  end.

(** The name server after a sequence of operations. *)
Definition ns_run (st : ns_state) (ops : list ns_op) : ns_state :=
  fold_left ns_apply ops st.

(** The answer of the trie alone. *)
Definition trie_answer (st : ns_state) (name : string) : Z :=
  match find_file_record (trie st) name with
  | Some record => ss_index record
  | None => (-1)%Z
  end.

(** Side conditions of concrete runs. *)
Ltac solve_plain :=
  unfold op_plain, plain_name, seven_bit;
  repeat match goal with |- _ /\ _ => split end;
  first [exact I | vm_compute; reflexivity | simpl; lia].

Ltac solve_op_plain := repeat (constructor; [solve_plain|]); try constructor.

(** The ACL of a record names no user twice and fits its array. *)
Definition acl_ok (r : FileRecord) : Prop :=
  NoDup (map username (acl r)) /\ length (acl r) <= MAX_ACL_ENTRIES.

Definition acls_ok (st : ns_state) : Prop :=
  forall p r, trie st !! p = Some r -> acl_ok r.

(** User names as a client can send them (at most 63 bytes); the ACL of a
    manifest entry as a storage server that keeps [acl_ok] sends it. *)
Definition op_acl_ok (op : ns_op) : Prop :=
  match op with
  | OP_grant _ _ target _ => String.length target <= 63
  | OP_rebuild_add _ file_payload =>
      NoDup (map (fun e => take_bytes 63 (username e)) (p_acl file_payload))
      /\ length (p_acl file_payload) <= MAX_ACL_ENTRIES
  | _ => True
  end.

(** The folder registry names no folder twice and fits its array. *)
Definition folders_ok (st : ns_state) : Prop :=
  NoDup (map foldername (folder_registry st))
  /\ length (folder_registry st) <= MAX_FOLDERS.

Definition op_folder_ok (op : ns_op) : Prop :=
  match op with
  | OP_add_folder name _ => String.length name <= 255
  | OP_move_folder _ dst _ _ => String.length dst <= 255
  | _ => True
  end.

(** The permission that the ACL [l] gives [user]: that of the first entry
    with the name. *)
Definition acl_permission (l : list AclEntry) (user : string) : option PermissionType :=
  match acl_find 0 l user with
  | Some i => permission <$> l !! i
  | None => None
  end.

(** The test of [search_check_permission] on one ACL entry. *)
Definition perm_test (user : string) (perm : PermissionType) (e : AclEntry) : bool :=
  String.eqb (username e) user && (perm_value perm <=? perm_value (permission e))%Z.

(** The folder fields of the index are laid out as a move of [src] to [dst]
    expects them: no file lies in [dst] or below a name with that prefix,
    and a folder field with the prefix [src] is [src] or [src/rest]. *)
Definition movable (st : ns_state) (src dst : string) : Prop :=
  src <> "" /\ dst <> "" /\ String.length src <= 255 /\ String.length dst <= 255
  /\ forall p r, trie st !! p = Some r ->
       starts_with (folder r) dst = false
       /\ (starts_with (folder r) src = false
           \/ folder r = src
           \/ exists rest, rest <> "" /\ folder r = src +:+ "/" +:+ rest
                           /\ String.length (src +:+ "/" +:+ rest) <= 255
                           /\ String.length (dst +:+ "/" +:+ rest) <= 255).

(** The test of [movable] on one record. *)
Definition record_movable (src dst : string) (r : FileRecord) : bool :=
  negb (starts_with (folder r) dst)
  && (negb (starts_with (folder r) src)
      || String.eqb (folder r) src
      || (let rest := drop_bytes (strlen src + 1) (folder r) in
          (0 <? strlen rest)%nat
          && String.eqb (folder r) (src +:+ "/" +:+ rest)
          && (strlen (src +:+ "/" +:+ rest) <=? 255)%nat
          && (strlen (dst +:+ "/" +:+ rest) <=? 255)%nat)).

(** An invariant along a concrete run, from its step lemma. *)
Ltac solve_run step init side :=
  unfold ns_run; cbn [fold_left];
  repeat (apply step; [|side]); exact init.

(** The record that [search_add_file] links for a new file. *)
Definition new_record (name owner : string) (ss : Z) : FileRecord :=
  {| filename := take_bytes 255 name; owner_username := take_bytes 63 owner;
     ss_index := ss; folder := EmptyString;
     word_count := 0; char_count := 0; created := 0; modified := 0;
     last_accessed := 0; last_accessed_by := EmptyString; acl := [] |}.

(** ** Storage server: further properties of the lock list *)

(** No sentence of a file is locked by two connections. *)
Definition locks_exclusive (locks : list sentence_lock_t) : Prop :=
  forall l1 l2, l1 ∈ locks -> l2 ∈ locks ->
    lock_filename l1 = lock_filename l2 -> sentence_num l1 = sentence_num l2 ->
    client_fd l1 = client_fd l2.

(** ** Decimal numbers as [printf] writes and [sscanf] reads them *)

(** The value that [scan_digits] accumulates over the digits [d]. *)
Fixpoint uint_val (acc : Z) (d : Decimal.uint) : Z :=
  match d with
  | Decimal.Nil => acc
  | Decimal.D0 d' => uint_val (10 * acc + 0) d'
  | Decimal.D1 d' => uint_val (10 * acc + 1) d'
  | Decimal.D2 d' => uint_val (10 * acc + 2) d'
  | Decimal.D3 d' => uint_val (10 * acc + 3) d'
  | Decimal.D4 d' => uint_val (10 * acc + 4) d'
  | Decimal.D5 d' => uint_val (10 * acc + 5) d'
  | Decimal.D6 d' => uint_val (10 * acc + 6) d'
  | Decimal.D7 d' => uint_val (10 * acc + 7) d'
  | Decimal.D8 d' => uint_val (10 * acc + 8) d'
  | Decimal.D9 d' => uint_val (10 * acc + 9) d'
  end.

(** The text does not go on with a digit. *)
Definition no_digit_ahead (rest : string) : Prop :=
  match rest with
  | String c _ => isdigit c = false
  | EmptyString => True
  end.

(* ===================================================================== *)
(** * Storage server: metadata table, checkpoints, replies                *)
(* ===================================================================== *)

Module Persistence.
Import CLib NameServer.

Definition MAX_FILES : nat := 1024.

(** [FileMeta] of [persistence.h]; [fm_acl] holds the first [acl_count]
    entries of its array. *)
Record FileMeta := {
  fm_filename : string;
  fm_size : Z;
  fm_word_count : Z;
  fm_created : Z;
  fm_modified : Z;
  fm_last_accessed : Z;
  fm_last_accessed_by : string;
  fm_owner_username : string;
  fm_folder : string;
  fm_acl : list AclEntry
}.

(** [get_file_size]: -1 when the file cannot be opened. *)
Definition get_file_size (file : option string) : Z :=
  match file with
  | None => (-1)%Z
  | Some s => Z.of_nat (strlen s)
  end.

(** [c == ' ' || c == '\t' || c == '\n' || c == '\r'] *)
Definition is_blank (c : ascii) : bool :=
  Ascii.eqb c " " || Ascii.eqb c "009" || Ascii.eqb c "010" || Ascii.eqb c "013".

(** The loop of [count_words_in_file] over the bytes still to read. *)
Fixpoint count_words_from (s : string) (in_word : bool) (word_count : Z) : Z :=
  match s with
  | EmptyString => if in_word then (word_count + 1)%Z else word_count
  | String c s' =>
      if is_blank c
      then count_words_from s' false (if in_word then (word_count + 1)%Z else word_count)
      else count_words_from s' true word_count
  end.

Definition count_words_in_file (file : option string) : Z :=
  match file with
  | None => 0%Z
  | Some s => count_words_from s false 0
  end.

(** [persist_find_file]: the index of the first entry of that name. *)
Fixpoint persist_find_file (i : nat) (table : list FileMeta) (name : string) : option nat :=
  match table with
  | [] => None
  | m :: table' =>
      if String.eqb (fm_filename m) name then Some i else persist_find_file (S i) table' name
  end.

(** [add_metadata_entry]; [file] is the file [<meta_dir>/../files/<name>]
    if it can be opened. *)
Definition add_metadata_entry (table : list FileMeta) (file : option string)
    (name : string) (now : Z) : list FileMeta :=
  match persist_find_file 0 table name with
  | Some _ => table
  | None =>
      if (MAX_FILES <=? length table)%nat then table
      else
        table ++ [{| fm_filename := take_bytes 255 name;
                     fm_size := get_file_size file;
                     fm_word_count := count_words_in_file file;
                     fm_created := now; fm_modified := now; fm_last_accessed := now;
                     fm_last_accessed_by := EmptyString;
                     fm_owner_username := EmptyString;
                     fm_folder := EmptyString;
                     fm_acl := [] |}]
  end.

(** [remove_metadata_entry]: the entries behind the found one move down. *)
Definition remove_metadata_entry (table : list FileMeta) (name : string) : list FileMeta :=
  match persist_find_file 0 table name with
  | Some i => delete i table
  | None => table
  end.

Definition update_metadata_entry (table : list FileMeta) (file : option string)
    (name : string) (now : Z) : list FileMeta :=
  match persist_find_file 0 table name with
  | Some i =>
      alter (fun m => {| fm_filename := fm_filename m;
                         fm_size := get_file_size file;
                         fm_word_count := count_words_in_file file;
                         fm_created := fm_created m; fm_modified := now;
                         fm_last_accessed := fm_last_accessed m;
                         fm_last_accessed_by := fm_last_accessed_by m;
                         fm_owner_username := fm_owner_username m;
                         fm_folder := fm_folder m; fm_acl := fm_acl m |}) i table
  | None => table
  end.

Definition persist_update_last_accessed (table : list FileMeta) (name username : string)
    (now : Z) : list FileMeta :=
  match persist_find_file 0 table name with
  | Some i =>
      alter (fun m => {| fm_filename := fm_filename m; fm_size := fm_size m;
                         fm_word_count := fm_word_count m;
                         fm_created := fm_created m; fm_modified := fm_modified m;
                         fm_last_accessed := now;
                         fm_last_accessed_by := take_bytes 63 username;
                         fm_owner_username := fm_owner_username m;
                         fm_folder := fm_folder m; fm_acl := fm_acl m |}) i table
  | None => table
  end.

Definition persist_set_owner (table : list FileMeta) (name owner : string) : list FileMeta :=
  match persist_find_file 0 table name with
  | Some i =>
      alter (fun m => {| fm_filename := fm_filename m; fm_size := fm_size m;
                         fm_word_count := fm_word_count m;
                         fm_created := fm_created m; fm_modified := fm_modified m;
                         fm_last_accessed := fm_last_accessed m;
                         fm_last_accessed_by := fm_last_accessed_by m;
                         fm_owner_username := take_bytes 63 owner;
                         fm_folder := fm_folder m; fm_acl := fm_acl m |}) i table
  | None => table
  end.

Definition persist_set_folder (table : list FileMeta) (name new_folder : string)
    : list FileMeta :=
  match persist_find_file 0 table name with
  | Some i =>
      alter (fun m => {| fm_filename := fm_filename m; fm_size := fm_size m;
                         fm_word_count := fm_word_count m;
                         fm_created := fm_created m; fm_modified := fm_modified m;
                         fm_last_accessed := fm_last_accessed m;
                         fm_last_accessed_by := fm_last_accessed_by m;
                         fm_owner_username := fm_owner_username m;
                         fm_folder := take_bytes 255 new_folder; fm_acl := fm_acl m |}) i table
  | None => table
  end.

Definition with_acl (m : FileMeta) (l : list AclEntry) : FileMeta :=
  {| fm_filename := fm_filename m; fm_size := fm_size m; fm_word_count := fm_word_count m;
     fm_created := fm_created m; fm_modified := fm_modified m;
     fm_last_accessed := fm_last_accessed m;
     fm_last_accessed_by := fm_last_accessed_by m;
     fm_owner_username := fm_owner_username m; fm_folder := fm_folder m; fm_acl := l |}.

(** [persist_set_acl]: the entry of the user is updated, or one is added
    while the ACL has room. *)
Definition persist_set_acl (table : list FileMeta) (name target_user : string)
    (perm : PermissionType) : list FileMeta :=
  match persist_find_file 0 table name with
  | None => table
  | Some i =>
      match table !! i with
      | None => table
      | Some file =>
          match acl_find 0 (fm_acl file) target_user with
          | Some j =>
              <[i := with_acl file
                       (alter (fun e => {| username := username e; permission := perm |})
                          j (fm_acl file))]> table
          | None =>
              if (length (fm_acl file) <? MAX_ACL_ENTRIES)%nat
              then <[i := with_acl file
                            (fm_acl file ++
                               [{| username := take_bytes 63 target_user;
                                   permission := perm |}])]> table
              else table
          end
      end
  end.

(** [persist_remove_acl]: the last entry is copied over the found one. *)
Definition persist_remove_acl (table : list FileMeta) (name target_user : string)
    : list FileMeta :=
  match persist_find_file 0 table name with
  | None => table
  | Some i =>
      match table !! i with
      | None => table
      | Some file =>
          match acl_find 0 (fm_acl file) target_user, last (fm_acl file) with
          | Some found_index, Some last_entry =>
              <[i := with_acl file
                       (removelast (<[found_index := last_entry]> (fm_acl file)))]> table
          | _, _ => table
          end
      end
  end.

(** [check_file_owner] of [main.c]. *)
Definition check_file_owner (table : list FileMeta) (name username : string) : bool :=
  match persist_find_file 0 table name with
  | Some i =>
      match table !! i with
      | Some m => String.eqb (fm_owner_username m) username
      | None => false
      end
  | None => false
  end.

End Persistence.

Import Persistence.

(** The entry that [persist_find_file] points to. *)
Definition table_lookup (table : list FileMeta) (name : string) : option FileMeta :=
  match persist_find_file 0 table name with
  | Some i => table !! i
  | None => None
  end.

(** The ACL that the metadata table keeps for a file. *)
Definition table_acl (table : list FileMeta) (name : string) : option (list AclEntry) :=
  fm_acl <$> table_lookup table name.

(** The ACL that the name server keeps for a file. *)
Definition index_acl (st : ns_state) (name : string) : option (list AclEntry) :=
  acl <$> find_file_record (trie st) name.

(** The metadata table names no file twice and fits its array. *)
Definition table_ok (table : list FileMeta) : Prop :=
  NoDup (map fm_filename table) /\ length table <= MAX_FILES.

(** One update of the metadata table, as the storage server's commands make
    them. *)
Inductive table_op :=
| T_add (file : option string) (name : string) (now : Z)
| T_remove (name : string)
| T_update (file : option string) (name : string) (now : Z)
| T_accessed (name username : string) (now : Z)
| T_set_owner (name owner : string)
| T_set_folder (name new_folder : string)
| T_set_acl (name target_user : string) (perm : PermissionType)
| T_remove_acl (name target_user : string).

Definition table_apply (table : list FileMeta) (o : table_op) : list FileMeta :=
  match o with
  | T_add file name now => add_metadata_entry table file name now
  | T_remove name => remove_metadata_entry table name
  | T_update file name now => update_metadata_entry table file name now
  | T_accessed name u now => persist_update_last_accessed table name u now
  | T_set_owner name owner => persist_set_owner table name owner
  | T_set_folder name f => persist_set_folder table name f
  | T_set_acl name u perm => persist_set_acl table name u perm
  | T_remove_acl name u => persist_remove_acl table name u
  end.

Definition table_run (table : list FileMeta) (l : list table_op) : list FileMeta :=
  fold_left table_apply l table.

(** The name of a message header's [filename] field: at most 255 bytes. *)
Definition table_op_name_fits (o : table_op) : Prop :=
  match o with
  | T_add _ name _ => strlen name <= 255
  | _ => True
  end.

(** The delimiters that [count_words_in_file] tests for. *)
Definition blanks : string := String " " (String "009" (String "010" (String "013" EmptyString))).

(** The delimiters of the sentence code's [strtok (temp, " \t\n")]. *)
Definition word_delims : string := String " " (String "009" (String "010" EmptyString)).

(* ===================================================================== *)
(** * Storage server: CREATE, READ, DELETE, VIEWCHECKPOINT, REVERT        *)
(* ===================================================================== *)

Module Transfer.
Import CLib Sentence StorageServer NameServer Persistence.

(** The blocks of the loop
    [while ((bytes_read = fread (buffer, 1, sizeof (buffer), f)) > 0)],
    one per [send]. *)
Fixpoint fread_blocks (fuel size : nat) (s : string) : list string :=
  match fuel with
  | O => []
  | S fuel' =>
      let buffer := take_bytes size s in
      if (0 <? strlen buffer)%nat
      then buffer :: fread_blocks fuel' size (drop_bytes size s)
      else []
  end.

(** The loop [while (sent < content_len)] with its [chunk_size] of 1024:
    one element per [send]. *)
Fixpoint send_chunks (fuel : nat) (content : string) (sent : nat) : list string :=
  match fuel with
  | O => []
  | S fuel' =>
      let content_len := strlen content in
      if (sent <? content_len)%nat then
        let to_send :=
          if (1024 <? content_len - sent)%nat then 1024 else content_len - sent in
        take_bytes to_send (drop_bytes sent content)
          :: send_chunks fuel' content (sent + to_send)
      else []
  end.

(** What these commands send; the blocks of a content reply are followed by
    the end marker of the command. *)
Inductive transfer_reply :=
| R_OK_201_CREATED
| R_ERR_404_file_not_found
| R_OK_200_EMPTY_FILE
| R_OK_200_FILE_CONTENT (blocks : list string)
| R_OK_200_DELETED
| R_ERR_404
| R_ERR_404_checkpoint_not_found
| R_OK_200_EMPTY_CHECKPOINT
| R_OK_200_CHECKPOINT_CONTENT (blocks : list string)
| R_ERR_400_invalid_viewcheckpoint_format
| R_ERR_409_cannot_revert_being_edited
| R_OK_200_REVERT_COMPLETED
| R_ERR_500_revert_failed
| R_ERR_400_invalid_revert_format.

(** The files directory together with the metadata table. *)
Record store := {
  st_ss : ss_state;
  st_table : list FileMeta
}.

(** CREATE of a plain name: [fopen (filepath, "w")] leaves an empty file
    whether or not there was one.  [None]: the name is a path, which the
    source follows out of [files/] or fails to open (ERR_500); that is
    outside this model. *)
Definition create_command (s : store) (fname : string) (now : Z)
    : option (store * transfer_reply) :=
  if is_file_name fname then
    let files := <[fname := EmptyString]> (files_dir (st_ss s)) in
    Some ({| st_ss := set_files (st_ss s) files;
             st_table := add_metadata_entry (st_table s) (files !! fname) fname now |},
          R_OK_201_CREATED)
  else None.

(** READ. *)
Definition read_command (s : store) (fname username : string) (now : Z)
    : store * transfer_reply :=
  match files_dir (st_ss s) !! fname with
  | None => (s, R_ERR_404_file_not_found)
  | Some f =>
      let file_size := strlen f in
      ({| st_ss := st_ss s;
          st_table := persist_update_last_accessed (st_table s) fname username now |},
       if (file_size =? 0)%nat then R_OK_200_EMPTY_FILE
       else R_OK_200_FILE_CONTENT (fread_blocks (S file_size) 1024 f))
  end.

(** DELETE of a plain name.  [None]: the name is a path, and the source
    removes whatever file it leads to; that is outside this model. *)
Definition delete_command (s : store) (fname : string)
    : option (store * transfer_reply) :=
  if is_file_name fname then
    match files_dir (st_ss s) !! fname with
    | Some _ =>
        Some ({| st_ss := set_files (st_ss s) (delete fname (files_dir (st_ss s)));
                 st_table := remove_metadata_entry (st_table s) fname |},
              R_OK_200_DELETED)
    | None => Some (s, R_ERR_404)
    end
  else None.

(** [view_checkpoint]: the first [buffer_size - 1] bytes of the checkpoint
    file, if there is one. *)
Definition view_checkpoint (st : ss_state) (filename checkpoint_tag : string)
    (buffer_size : nat) : option string :=
  match checkpoints_dir st !! checkpoint_name filename checkpoint_tag with
  | None => None
  | Some checkpoint => Some (take_bytes (buffer_size - 1) checkpoint)
  end.

(** [revert_to_checkpoint] for a plain file name and a tag without '/': 0
    when the checkpoint is missing; otherwise the live file is backed up,
    overwritten with the checkpoint and its metadata entry refreshed. [now]
    is the clock of the backup, [now_meta] that of the metadata.  [None]:
    the name or the tag is a path, and the live file, the backup and the
    checkpoint that the source then opens lie wherever the path leads; that
    is outside this model. *)
Definition revert_to_checkpoint (s : store) (filename checkpoint_tag username : string)
    (now now_meta : Z) : option (store * Z) :=
  if is_file_name filename && path_word checkpoint_tag then
    match checkpoints_dir (st_ss s) !! checkpoint_name filename checkpoint_tag with
    | None => Some (s, 0%Z)
    | Some checkpoint =>
        let checkpoint_content := fread_content checkpoint in
        let st1 := fst (create_file_backup (st_ss s) filename username now) in
        let files := <[filename := checkpoint_content]> (files_dir st1) in
        Some ({| st_ss := set_files st1 files;
                 st_table := update_metadata_entry (st_table s) (files !! filename)
                               filename now_meta |}, 1%Z)
    end
  else None.

(** [sscanf (buf, "<lit> %255s %255s", fname, checkpoint_tag) == 2] *)
Definition parse_two_words (lit buf : string) : option (string * string) :=
  match scan_lit lit buf with
  | Some r =>
      match scan_word 255 r with
      | Some (fname, r') =>
          match scan_word 255 r' with
          | Some (checkpoint_tag, _) => Some (fname, checkpoint_tag)
          | None => None
          end
      | None => None
      end
  | None => None
  end.

(** VIEWCHECKPOINT. *)
Definition viewcheckpoint_command (s : store) (buf : string) : transfer_reply :=
  match parse_two_words "VIEWCHECKPOINT" buf with
  | None => R_ERR_400_invalid_viewcheckpoint_format
  | Some (fname, checkpoint_tag) =>
      match view_checkpoint (st_ss s) fname checkpoint_tag 8192 with
      | Some content_buffer =>
          if (strlen content_buffer =? 0)%nat then R_OK_200_EMPTY_CHECKPOINT
          else R_OK_200_CHECKPOINT_CONTENT
                 (send_chunks (strlen content_buffer) content_buffer 0)
      | None => R_ERR_404_checkpoint_not_found
      end
  end.

(** REVERT.  [None]: the file name or the tag is a path (see
    [revert_to_checkpoint]). *)
Definition revert_command (s : store) (username : string) (now now_meta : Z)
    (buf : string) : option (store * transfer_reply) :=
  match parse_two_words "REVERT" buf with
  | None => Some (s, R_ERR_400_invalid_revert_format)
  | Some (fname, checkpoint_tag) =>
      if file_locked (sentence_locks (st_ss s)) fname
      then Some (s, R_ERR_409_cannot_revert_being_edited)
      else if negb (is_file_name fname) then None
      else
        match files_dir (st_ss s) !! fname with
        | None => Some (s, R_ERR_404_file_not_found)
        | Some _ =>
            match revert_to_checkpoint s fname checkpoint_tag username now now_meta with
            | Some (s', result) =>
                if (result =? 1)%Z then Some (s', R_OK_200_REVERT_COMPLETED)
                else if (result =? 0)%Z then Some (s', R_ERR_404_checkpoint_not_found)
                else Some (s', R_ERR_500_revert_failed)
            | None => None
            end
        end
  end.

End Transfer.

Import Transfer.

(** A word as [%255s] reads it whole: not empty, at most 255 bytes, no
    white space. *)
Fixpoint no_space (s : string) : bool :=
  match s with
  | EmptyString => true
  | String c s' => negb (isspace c) && no_space s'
  end.

Definition word_arg (s : string) : Prop :=
  s <> EmptyString /\ strlen s <= 255 /\ no_space s = true.

(** The byte stream that successive [send]s put on the connection. *)
Definition received (blocks : list string) : string :=
  fold_right String.append EmptyString blocks.

(** Every block holds between 1 and 1024 bytes. *)
Definition blocks_fit (blocks : list string) : Prop :=
  Forall (fun b => 0 < strlen b <= 1024) blocks.

(** A storage server holding one file. *)
Definition one_file : ss_state := ss_with_files {[ "a" := "one. two." ]}.

(** The file names and the tag that the line [buf] of connection [fd]
    makes the handler work on: the file of the lock in write mode, else the
    words that the command and its own [sscanf] read. *)
Definition line_names (st : ss_state) (fd : Z) (buf : string) : list string :=
  match get_client_write_info (sentence_locks st) fd with
  | Some (current_file, _) => [current_file]
  | None =>
      match parse_command buf with
      | Some (_, Some (fname, _)) => [fname]
      | _ => []
      end
      ++ match parse_write buf with
         | Some (fname_write, _) => [fname_write]
         | None => []
         end
      ++ match parse_checkpoint buf with
         | Some (fname, checkpoint_tag) => [fname; checkpoint_tag]
         | None => []
         end
  end.

(** One step of the storage server on its directories, for commands on
    plain file names: a line handled by [client_handler_step], one of the
    commands of [Transfer], an undo forwarded by the name server, or the end
    of a connection. *)
Inductive command_step : ss_state -> ss_state -> Prop :=
| cs_line st fd username now buf st' r :
    Forall (fun n => is_file_name n = true) (line_names st fd buf) ->
    client_handler_step st fd username now buf = Some (st', r) ->
    command_step st st'
| cs_create s fname now s' r :
    create_command s fname now = Some (s', r) ->
    command_step (st_ss s) (st_ss s')
| cs_read s fname username now :
    is_file_name fname = true ->
    command_step (st_ss s) (st_ss (fst (read_command s fname username now)))
| cs_delete s fname s' r :
    delete_command s fname = Some (s', r) ->
    command_step (st_ss s) (st_ss s')
| cs_revert s username now now_meta buf s' r :
    revert_command s username now now_meta buf = Some (s', r) ->
    command_step (st_ss s) (st_ss s')
| cs_ns_undo st filename :
    is_file_name filename = true ->
    command_step st (fst (handle_ns_undo st filename))
| cs_disconnect st fd :
    command_step st (client_disconnect st fd).

(** A byte that can stand in a field of a log line: neither the bar that
    separates the fields nor the newline that ends the line. *)
Definition field_byte (c : ascii) : bool := not_bar c && not_newline c.

(** The bytes that [printf ("%ld")] writes. *)
Definition number_byte (c : ascii) : bool := isdigit c || Ascii.eqb c "-".

(* ===================================================================== *)
(** * Storage server: access requests                                     *)
(* ===================================================================== *)

Module AccessRequests.
Import CLib StorageServer NameServer Persistence.

Definition requests_name (filename : string) : string := filename +:+ ".requests".

Record access_request := {
  ar_timestamp : Z;
  ar_user : string;
  ar_perm : string;
  ar_status : string
}.

(** [sscanf (line, "%ld|%127[^|]|%7[^|]|%15s", ...) == 4] *)
Definition parse_request_line (line : string) : option access_request :=
  match scan_int line with
  | Some (ts, String "|" r2) =>
      match scan_set not_bar 127 r2 with
      | Some (usr, String "|" r4) =>
          match scan_set not_bar 7 r4 with
          | Some (perm, String "|" r6) =>
              match scan_word 15 r6 with
              | Some (status, _) =>
                  Some {| ar_timestamp := ts; ar_user := usr; ar_perm := perm;
                          ar_status := status |}
              | None => None
              end
          | _ => None
          end
      | _ => None
      end
  | _ => None
  end.

(** The lines of a requests file as [fgets (line, 512, f)] reads them. *)
Definition request_lines (log : string) : list string :=
  fgets_all (S (strlen log)) 512 log.

(** The test of [request_file_access] and [approve_access_request]. *)
Definition pending_for (username permission line : string) : bool :=
  match parse_request_line line with
  | Some r =>
      String.eqb (ar_user r) username && String.eqb (ar_perm r) permission
      && String.eqb (ar_status r) "PENDING"
  | None => false
  end.

(** The test of [deny_access_request]: the permission is not compared. *)
Definition pending_of (username line : string) : bool :=
  match parse_request_line line with
  | Some r => String.eqb (ar_user r) username && String.eqb (ar_status r) "PENDING"
  | None => false
  end.

(** [request_file_access]: -2 when the same request is pending, else the
    request is appended and the result is 1. *)
Definition request_file_access (requests : gmap string string)
    (filename username permission : string) (now : Z) : gmap string string * Z :=
  let request_file_path := requests_name filename in
  let exists_already :=
    match requests !! request_file_path with
    | Some log => existsb (pending_for username permission) (request_lines log)
    | None => false
    end in
  if exists_already then (requests, (-2)%Z)
  else
    (append_file requests request_file_path
       (fmt_d now +:+ "|" +:+ username +:+ "|" +:+ permission +:+ "|PENDING" +:+ newline),
     1%Z).

(** The line that replaces a request that was decided:
    [snprintf (lines[line_count], 512, "%ld|%s|%s|<status>\n", ...)]. *)
Definition decided_line (line status : string) : string :=
  match parse_request_line line with
  | Some r =>
      take_bytes 511
        (fmt_d (ar_timestamp r) +:+ "|" +:+ ar_user r +:+ "|" +:+ ar_perm r +:+ "|"
               +:+ status +:+ newline)
  | None => line
  end.

(** [for (i = 0; i < line_count; i++) fprintf (request_file, "%s", lines[i])] *)
Definition print_lines (lines : list string) : string :=
  fold_left String.append lines EmptyString.

(** [approve_access_request]: 0 without a requests file or a matching
    pending request; otherwise the matching lines (among the first 100) are
    marked, the file is rewritten from the lines read, and the requester
    enters the ACL.  The result is 1. *)
Definition approve_access_request (requests : gmap string string) (table : list FileMeta)
    (filename requester_username permission : string)
    : gmap string string * list FileMeta * Z :=
  let request_file_path := requests_name filename in
  match requests !! request_file_path with
  | None => (requests, table, 0%Z)
  | Some log =>
      let lines := firstn 100 (request_lines log) in
      let request_found := existsb (pending_for requester_username permission) lines in
      if negb request_found then (requests, table, 0%Z)
      else
        let lines :=
          map (fun line =>
                 if pending_for requester_username permission line
                 then decided_line line "APPROVED" else line) lines in
        let perm_flag := if String.eqb permission "-W" then PERM_WRITE else PERM_READ in
        (<[request_file_path := print_lines lines]> requests,
         persist_set_acl table filename requester_username perm_flag, 1%Z)
  end.

(** [deny_access_request]. *)
Definition deny_access_request (requests : gmap string string)
    (filename requester_username : string) : gmap string string * Z :=
  let request_file_path := requests_name filename in
  match requests !! request_file_path with
  | None => (requests, 0%Z)
  | Some log =>
      let lines := firstn 100 (request_lines log) in
      let request_found := existsb (pending_of requester_username) lines in
      if negb request_found then (requests, 0%Z)
      else
        let lines :=
          map (fun line =>
                 if pending_of requester_username line
                 then decided_line line "DENIED" else line) lines in
        (<[request_file_path := print_lines lines]> requests, 1%Z)
  end.

(** The loop of REQUESTACCESS over the ACL of the file's table entry: some
    entry of the user carries at least the permission asked for. *)
Definition has_access (table : list FileMeta) (fname username permission : string) : bool :=
  match persist_find_file 0 table fname with
  | Some i =>
      match table !! i with
      | Some m =>
          let required_perm := if String.eqb permission "-W" then PERM_WRITE else PERM_READ in
          existsb (fun e => String.eqb (NameServer.username e) username
                            && (perm_value required_perm <=? perm_value (NameServer.permission e))%Z)
                  (fm_acl m)
      | None => false
      end
  | None => false
  end.

Inductive request_reply :=
| RQ_ERR_400_invalid_permission
| RQ_ERR_404_file_not_found
| RQ_ERR_400_you_already_own_this_file
| RQ_ERR_409_already_have_access
| RQ_OK_200_ACCESS_REQUEST_SUBMITTED
| RQ_ERR_409_request_already_exists
| RQ_ERR_500_failed_to_submit.

(** REQUESTACCESS after [sscanf (buf, "REQUESTACCESS %255s %7s", fname,
    permission) == 2]. *)
Definition requestaccess_command (files requests : gmap string string)
    (table : list FileMeta) (username fname permission : string) (now : Z)
    : gmap string string * request_reply :=
  if negb (String.eqb permission "-R") && negb (String.eqb permission "-W")
  then (requests, RQ_ERR_400_invalid_permission)
  else
    match files !! fname with
    | None => (requests, RQ_ERR_404_file_not_found)
    | Some _ =>
        if check_file_owner table fname username
        then (requests, RQ_ERR_400_you_already_own_this_file)
        else if has_access table fname username permission
        then (requests, RQ_ERR_409_already_have_access)
        else
          let '(requests', result) :=
            request_file_access requests fname username permission now in
          if (result =? 1)%Z then (requests', RQ_OK_200_ACCESS_REQUEST_SUBMITTED)
          else if (result =? (-2))%Z then (requests', RQ_ERR_409_request_already_exists)
          else (requests', RQ_ERR_500_failed_to_submit)
    end.

End AccessRequests.

Import AccessRequests.

(** A user name as a field of a request line: not empty, at most 63 bytes
    (the ACL's width), neither bar nor white space in it. *)
Definition request_user (u : string) : Prop :=
  u <> EmptyString /\ strlen u <= 63 /\ all_bytes not_bar u = true /\ no_space u = true.

(** A line as [fgets (line, 512, f)] reads it whole: text without a
    newline, of fewer than 511 bytes, and the newline. *)
Definition proper_line (l : string) : Prop :=
  exists a, l = a +:+ newline /\ all_bytes not_newline a = true /\ strlen a < 511.

(** The text of a request line. *)
Definition request_line (ts : Z) (u p status : string) : string :=
  fmt_d ts +:+ "|" +:+ u +:+ "|" +:+ p +:+ "|" +:+ status +:+ newline.

(** [perm_flag] of [approve_access_request]. *)
Definition perm_flag_of (permission : string) : PermissionType :=
  if String.eqb permission "-W" then PERM_WRITE else PERM_READ.

(* ===================================================================== *)
(** * Storage server: the metadata file                                   *)
(* ===================================================================== *)

Module MetadataFile.
Import CLib StorageServer NameServer Persistence.

(** [s += strspn (s, ds)] *)
Fixpoint skip_set (ds s : string) : string :=
  match s with
  | String c s' => if in_set ds c then skip_set ds s' else s
  | EmptyString => s
  end.

(** [strtok_r (s, ds, &saveptr)] on the text [s] still to cut: the token
    and the text behind its delimiter, or nothing when only delimiters are
    left (the text to cut is then empty). *)
Definition strtok_r (ds s : string) : option (string * string) :=
  match skip_set ds s with
  | EmptyString => None
  | s1 =>
      let '(tok, r) := span_bytes (fun c => negb (in_set ds c)) (strlen s1) s1 in
      Some (tok, match r with String _ r' => r' | EmptyString => EmptyString end)
  end.

(** [atol], [atoi]: blanks, a sign, digits; 0 without a digit. *)
Definition atol (s : string) : Z :=
  match scan_int s with
  | Some (v, _) => v
  | None => 0%Z
  end.

(** [sep = strchr (acl_tok, ':'); *sep = '\0'] *)
Fixpoint split_colon (s : string) : option (string * string) :=
  match s with
  | EmptyString => None
  | String c s' =>
      if Ascii.eqb c ":" then Some (EmptyString, s')
      else match split_colon s' with
           | Some (a, b) => Some (String c a, b)
           | None => None
           end
  end.

(** The permission stored for the number read from the file; a number
    that is no value of [PermissionType] is outside this model. *)
Definition perm_of_value (z : Z) : option PermissionType :=
  if (z =? 0)%Z then Some PERM_NONE
  else if (z =? 1)%Z then Some PERM_READ
  else if (z =? 2)%Z then Some PERM_WRITE
  else None.

(** The loop over the ACL tokens; [count] is the [acl_count] reached. *)
Fixpoint load_acl (fuel : nat) (s : string) (count : nat) : option (list AclEntry) :=
  match fuel with
  | O => Some []
  | S fuel' =>
      match strtok_r ";" s with
      | None => Some []
      | Some (acl_tok, rest) =>
          if (MAX_ACL_ENTRIES <=? count)%nat then Some []
          else
            match split_colon acl_tok with
            | Some (uname, after) =>
                match perm_of_value (atol after), load_acl fuel' rest (S count) with
                | Some perm, Some l =>
                    Some ({| username := take_bytes 63 uname; permission := perm |} :: l)
                | _, _ => None
                end
            | None => load_acl fuel' rest count
            end
      end
  end.

(** A field that is "-" or missing is stored as the empty string. *)
Definition load_dash (n : nat) (tok : option (string * string)) : string :=
  match tok with
  | Some (t, _) => if String.eqb t "-" then EmptyString else take_bytes n t
  | None => EmptyString
  end.

Definition rest_of (tok : option (string * string)) : string :=
  match tok with
  | Some (_, r) => r
  | None => EmptyString
  end.

Inductive loaded_line :=
| line_skipped
| line_entry (m : FileMeta)
| line_outside_model.

(** The body of the loop of [load_metadata] for one line. *)
Definition load_line (line : string) : loaded_line :=
  let line := cut_at_newline line in
  match strtok_r "," line with
  | None => line_skipped
  | Some (filename, r1) =>
  match strtok_r "," r1 with
  | None => line_skipped
  | Some (size, r2) =>
  match strtok_r "," r2 with
  | None => line_skipped
  | Some (word_count, r3) =>
  match strtok_r "," r3 with
  | None => line_skipped
  | Some (created, r4) =>
  match strtok_r "," r4 with
  | None => line_skipped
  | Some (modified, r5) =>
  match strtok_r "," r5 with
  | None => line_skipped
  | Some (last_accessed, r6) =>
      let by_tok := strtok_r "," r6 in
      let owner_tok := strtok_r "," (rest_of by_tok) in
      let folder_tok := strtok_r "," (rest_of owner_tok) in
      let count_tok := strtok_r "," (rest_of folder_tok) in
      let acl_count := match count_tok with Some (t, _) => atol t | None => 0%Z end in
      let acl_text := strtok_r EmptyString (rest_of count_tok) in
      let loaded_acl :=
        match acl_text with
        | Some (tok, _) =>
            if (0 <? acl_count)%Z then load_acl (S (strlen tok)) tok 0 else Some []
        | None => Some []
        end in
      match loaded_acl with
      | None => line_outside_model
      | Some l =>
          line_entry
            {| fm_filename := take_bytes 255 filename;
               fm_size := atol size;
               fm_word_count := atol word_count;
               fm_created := atol created;
               fm_modified := atol modified;
               fm_last_accessed := atol last_accessed;
               fm_last_accessed_by := load_dash 63 by_tok;
               fm_owner_username := load_dash 63 owner_tok;
               fm_folder := load_dash 255 folder_tok;
               fm_acl := l |}
      end
  end end end end end end.

(** [while (fgets (line, sizeof (line), f) && file_count < MAX_FILES)] *)
Fixpoint load_lines (lines : list string) (table : list FileMeta)
    : option (list FileMeta) :=
  match lines with
  | [] => Some table
  | line :: lines' =>
      if (MAX_FILES <=? length table)%nat then Some table
      else
        match load_line line with
        | line_skipped => load_lines lines' table
        | line_entry m => load_lines lines' (table ++ [m])
        | line_outside_model => None
        end
  end.

(** [load_metadata]: without a metadata file the table stays as it is. *)
Definition load_metadata (file : option string) (table : list FileMeta)
    : option (list FileMeta) :=
  match file with
  | None => Some table
  | Some s => load_lines (fgets_all (S (strlen s)) 2048 s) []
  end.

Definition dash_if_empty (s : string) : string :=
  match s with
  | EmptyString => "-"
  | _ => s
  end.

(** [fprintf (f, "%s:%d;", ...)] for every entry of the ACL. *)
Definition print_acl (l : list AclEntry) : string :=
  fold_right
    (fun e out =>
       username e +:+ ":" +:+ fmt_d (perm_value (permission e)) +:+ ";" +:+ out)
    EmptyString l.

(** The line of [save_metadata] for one entry. *)
Definition print_meta (m : FileMeta) : string :=
  fm_filename m +:+ "," +:+ fmt_d (fm_size m) +:+ "," +:+ fmt_d (fm_word_count m)
    +:+ "," +:+ fmt_d (fm_created m) +:+ "," +:+ fmt_d (fm_modified m)
    +:+ "," +:+ fmt_d (fm_last_accessed m) +:+ ","
    +:+ dash_if_empty (fm_last_accessed_by m) +:+ ","
    +:+ dash_if_empty (fm_owner_username m) +:+ ","
    +:+ dash_if_empty (fm_folder m) +:+ ","
    +:+ fmt_d (Z.of_nat (length (fm_acl m))) +:+ ","
    +:+ print_acl (fm_acl m) +:+ newline.

(** [save_metadata]: the content of [metadata.txt]. *)
Definition save_metadata (table : list FileMeta) : string :=
  fold_right (fun m out => print_meta m +:+ out) EmptyString table.

End MetadataFile.

Import MetadataFile.

Definition not_comma (c : ascii) : bool := negb (Ascii.eqb c ",").

(** A byte of a name in the metadata file: neither comma nor newline. *)
Definition meta_byte (c : ascii) : bool := not_comma c && not_newline c.

(** A byte of a user name in the ACL part of a line. *)
Definition acl_byte (c : ascii) : bool :=
  negb (Ascii.eqb c ":") && negb (Ascii.eqb c ";") && not_newline c.

(** An ACL entry that the ACL part of a line carries over. *)
Definition acl_entry_ok (e : AclEntry) : Prop :=
  all_bytes acl_byte (username e) = true /\ strlen (username e) <= 63.

(** A text field that [save_metadata] and [load_metadata] carry over. *)
Definition meta_field (n : nat) (s : string) : Prop :=
  all_bytes meta_byte s = true /\ strlen s <= n /\ s <> "-"%string.

(** An entry whose line can be read back: the names fit their arrays and
    hold no separator, the ACL fits, and the line fits the buffer of
    [fgets]. *)
Definition meta_ok (m : FileMeta) : Prop :=
  fm_filename m <> EmptyString
  /\ all_bytes meta_byte (fm_filename m) = true /\ strlen (fm_filename m) <= 255
  /\ meta_field 63 (fm_last_accessed_by m)
  /\ meta_field 63 (fm_owner_username m)
  /\ meta_field 255 (fm_folder m)
  /\ length (fm_acl m) <= MAX_ACL_ENTRIES
  /\ Forall acl_entry_ok (fm_acl m)
  /\ strlen (print_meta m) <= 2047.

(** Fields followed by a comma each, and the rest of the line. *)
Definition join_commas (fields : list string) (rest : string) : string :=
  fold_right (fun f out => f +:+ String "," out) rest fields.

(** The ten comma-separated fields of the line of an entry. *)
Definition meta_fields (m : FileMeta) : list string :=
  [fm_filename m; fmt_d (fm_size m); fmt_d (fm_word_count m); fmt_d (fm_created m);
   fmt_d (fm_modified m); fmt_d (fm_last_accessed m);
   dash_if_empty (fm_last_accessed_by m); dash_if_empty (fm_owner_username m);
   dash_if_empty (fm_folder m); fmt_d (Z.of_nat (length (fm_acl m)))].

(** A table with an owner, a reader and an ACL. *)
Definition table_two : list FileMeta :=
  table_run [] [T_add (Some "one two") "a.txt" 5; T_add None "b.txt" 6;
                T_set_owner "a.txt" "alice"; T_set_acl "a.txt" "bob" PERM_READ;
                T_set_acl "a.txt" "carol" PERM_WRITE; T_accessed "a.txt" "bob" 9;
                T_set_folder "b.txt" "docs"].

(* ===================================================================== *)
(** * Registration: the file list of a storage server                     *)
(* ===================================================================== *)

(** The payload that [register_with_name_server] builds for one entry of
    the metadata table; the [folder] field stays as [memset] left it. *)
Definition manifest_of (m : FileMeta) : SSFileRecordPayload :=
  {| p_filename := take_bytes 255 (fm_filename m);
     p_owner_username := take_bytes 63 (fm_owner_username m);
     p_acl := fm_acl m;
     p_word_count := fm_word_count m;
     p_char_count := fm_size m;
     p_created := fm_created m;
     p_modified := fm_modified m;
     p_last_accessed := fm_last_accessed m;
     p_last_accessed_by := take_bytes 63 (fm_last_accessed_by m);
     p_folder := EmptyString |}.

(** The [MSG_REGISTER_FILE] messages of a registration, in table order. *)
Definition registration_manifest (table : list FileMeta) : list SSFileRecordPayload :=
  map manifest_of table.

(** The file sync loop of [handle_storage_server_connection] over the
    payloads received before [MSG_REGISTER_COMPLETE]. *)
Definition sync_files (st : ns_state) (ss : Z) (payloads : list SSFileRecordPayload)
    : ns_state :=
  fold_left (fun st file_payload => search_rebuild_add_file st ss file_payload) payloads st.

(** Every user name of the table's ACLs fits the 63 bytes of its array. *)
Definition acl_names_fit (table : list FileMeta) : Prop :=
  forall m e, m ∈ table -> e ∈ fm_acl m -> strlen (username e) <= 63.

(* ===================================================================== *)
(** * Proofs                                                              *)
(* ===================================================================== *)


Section StringFacts.

Lemma app_str_cons (x : ascii) (a b : string) :
  String x a +:+ b = String x (a +:+ b).
Proof. reflexivity. Qed.

Lemma app_str_nil_l (a : string) : "" +:+ a = a.
Proof. reflexivity. Qed.

Lemma app_str_assoc (a b c : string) : (a +:+ b) +:+ c = a +:+ (b +:+ c).
Proof.
  induction a as [|x a IH]; [reflexivity|].
  rewrite !app_str_cons. f_equal. exact IH.
Qed.

Lemma app_str_nil_r (a : string) : a +:+ "" = a.
Proof.
  induction a as [|x a IH]; [reflexivity|].
  rewrite app_str_cons. f_equal. exact IH.
Qed.

Lemma length_app_str (a b : string) :
  String.length (a +:+ b) = String.length a + String.length b.
Proof.
  induction a as [|x a IH]; [reflexivity|].
  rewrite app_str_cons. simpl. f_equal. exact IH.
Qed.

Lemma length_zero_str (a : string) : String.length a = 0 -> a = "".
Proof. destruct a; simpl; [reflexivity | discriminate]. Qed.

Lemma take_bytes_all (n : nat) (s : string) :
  String.length s <= n -> take_bytes n s = s.
Proof.
  revert n; induction s as [|c s IH]; intros [|n] H; simpl in *; try reflexivity; try lia.
  rewrite IH; [reflexivity | lia].
Qed.

Lemma length_take_bytes (n : nat) (s : string) :
  String.length (take_bytes n s) <= n.
Proof.
  revert n; induction s as [|c s IH]; intros [|n]; simpl; try lia.
  specialize (IH n); lia.
Qed.

(** Every token of [strtok] has at least one byte. *)
Lemma strtok_from_nonempty (ds s cur : string) :
  Forall (fun w => w <> "") (strtok_from ds cur s).
Proof.
  revert cur; induction s as [|c s IH]; intros cur; simpl.
  - destruct cur; [constructor | constructor; [discriminate | constructor]].
  - destruct (in_set ds c).
    + destruct cur; [apply IH | constructor; [discriminate | apply IH]].
    + apply IH.
Qed.

Lemma tokenize_nonempty (content : string) :
  Forall (fun w => w <> "") (tokenize content).
Proof. apply Forall_take, strtok_from_nonempty. Qed.

End StringFacts.

Section JoinFacts.

Lemma sep_cat_cons (x : string) (l : list string) :
  sep_cat (x :: l) = " " +:+ x +:+ sep_cat l.
Proof. reflexivity. Qed.

Lemma join_sp_cons (x : string) (l : list string) :
  join_sp (x :: l) = x +:+ sep_cat l.
Proof.
  revert x; induction l as [|y l IH]; intros x.
  - unfold join_sp. simpl. now rewrite app_str_nil_r.
  - change (join_sp (x :: y :: l)) with (x +:+ " " +:+ join_sp (y :: l)).
    rewrite IH. reflexivity.
Qed.

Lemma sep_cat_app (l1 l2 : list string) :
  sep_cat (l1 ++ l2) = sep_cat l1 +:+ sep_cat l2.
Proof.
  induction l1 as [|x l1 IH]; [reflexivity|].
  rewrite <- app_comm_cons, !sep_cat_cons, IH.
  now rewrite !app_str_assoc.
Qed.

Lemma join_sp_nonempty (l : list string) :
  l <> [] -> Forall (fun w => w <> "") l -> join_sp l <> "".
Proof.
  intros Hl Hne. destruct l as [|x l]; [congruence|].
  rewrite join_sp_cons. inversion Hne; subst.
  destruct x; [congruence | discriminate].
Qed.

(** The loop over the words of one sentence, entered at [w >= start]. *)
Lemma cat_range_spec (words : list string) (start k w : nat) (final : string) :
  start <= w -> w + k <= length words ->
  cat_range words start k w final =
  final +:+ (if (start <? w)%nat then sep_cat (firstn k (skipn w words))
             else join_sp (firstn k (skipn w words))).
Proof.
  revert w final. induction k as [|k IH]; intros w final Hs Hb.
  - simpl. destruct (start <? w)%nat; unfold join_sp; simpl; now rewrite app_str_nil_r.
  - assert (Hw : w < length words) by lia.
    destruct (lookup_lt_is_Some_2 words w Hw) as [x Hx].
    rewrite (drop_S _ _ _ Hx). simpl firstn. simpl cat_range.
    rewrite (nth_lookup_Some _ _ _ _ Hx).
    rewrite IH by lia.
    assert (E' : (start <? S w)%nat = true) by (apply Nat.ltb_lt; lia).
    rewrite E'.
    destruct (start <? w)%nat eqn:E.
    + rewrite sep_cat_cons, !app_str_assoc. reflexivity.
    + rewrite join_sp_cons, !app_str_assoc. reflexivity.
Qed.

End JoinFacts.

Section ParseFacts.

Lemma scan_sentences_valid (ws : list string) :
  forall i sent_start acc n,
    n = i + length ws -> sent_start <= i -> Forall (valid_si n) acc ->
    Forall (valid_si n) (fst (scan_sentences ws i sent_start acc))
    /\ snd (scan_sentences ws i sent_start acc) <= n.
Proof.
  induction ws as [|w ws IH]; intros i sent_start acc n Hn Hs Hacc; simpl in *.
  - split; [assumption | lia].
  - destruct (last_char w) as [c|].
    + destruct (is_terminator c && (length acc <? 256)%nat).
      * apply IH; [lia | lia |].
        apply Forall_app; split; [assumption|].
        constructor; [|constructor]. unfold valid_si; simpl; lia.
      * apply IH; [lia | lia | assumption].
    + apply IH; [lia | lia | assumption].
Qed.

Lemma parse_sentences_valid (ws : list string) :
  Forall (valid_si (length ws)) (parse_sentences ws).
Proof.
  unfold parse_sentences.
  destruct (scan_sentences_valid ws 0 0 [] (length ws)) as [Hv Hs];
    [reflexivity | lia | constructor |].
  destruct (scan_sentences ws 0 0 []) as [acc sent_start]; simpl in *.
  destruct ((sent_start <? length ws)%nat && (length acc <? 256)%nat) eqn:E;
    [|assumption].
  apply andb_true_iff in E as [E _]. apply Nat.ltb_lt in E.
  apply Forall_app; split; [assumption|].
  constructor; [|constructor]. unfold valid_si; simpl; lia.
Qed.

Lemma sentence_words_nonempty (ws : list string) (si : sentence_info_t) :
  valid_si (length ws) si -> sentence_words ws si <> [].
Proof.
  intros [H1 H2] E. apply (f_equal (@length string)) in E.
  unfold sentence_words in E. rewrite length_take, length_drop in E.
  simpl in E. lia.
Qed.

Lemma sentence_text_nonempty (ws : list string) (si : sentence_info_t) :
  Forall (fun w => w <> "") ws -> valid_si (length ws) si ->
  join_sp (sentence_words ws si) <> "".
Proof.
  intros Hne Hv. apply join_sp_nonempty.
  - now apply sentence_words_nonempty.
  - unfold sentence_words. now apply Forall_take, Forall_drop.
Qed.

Lemma cat_sentence_spec (ws : list string) (si : sentence_info_t) (final : string) :
  valid_si (length ws) si ->
  cat_sentence ws si final = final +:+ join_sp (sentence_words ws si).
Proof.
  intros [H1 H2]. unfold cat_sentence.
  rewrite cat_range_spec by lia.
  now rewrite Nat.ltb_irrefl.
Qed.

Lemma fold_cat_sentence_sep (ws : list string) (sis : list sentence_info_t) :
  forall final,
    Forall (valid_si (length ws)) sis ->
    fold_left (cat_sentence_sep ws) sis final =
    acc_join final (map (fun si => join_sp (sentence_words ws si)) sis).
Proof.
  induction sis as [|si sis IH]; intros final Hv; [reflexivity|].
  inversion Hv; subst. simpl. unfold acc_join in *. simpl.
  rewrite IH by assumption. unfold cat_sentence_sep.
  now rewrite cat_sentence_spec.
Qed.

Lemma strlen_pos (s : string) : s <> "" -> (0 <? strlen s)%nat = true.
Proof. destruct s; [congruence | reflexivity]. Qed.

Lemma app_str_nonempty_r (a b : string) : b <> "" -> a +:+ b <> "".
Proof.
  intros Hb E. apply (f_equal String.length) in E.
  rewrite length_app_str in E. destruct b; [congruence | simpl in E; lia].
Qed.

Lemma acc_join_nonempty (pieces : list string) :
  forall final,
    final <> "" -> Forall (fun w => w <> "") pieces ->
    acc_join final pieces = final +:+ sep_cat pieces.
Proof.
  induction pieces as [|x pieces IH]; intros final Hf Hp.
  - simpl. now rewrite app_str_nil_r.
  - inversion Hp; subst. unfold acc_join in *. cbn [fold_left].
    rewrite IH; [| now apply app_str_nonempty_r | assumption].
    rewrite (strlen_pos _ Hf), sep_cat_cons, !app_str_assoc. reflexivity.
Qed.

Lemma acc_join_empty (pieces : list string) :
  Forall (fun w => w <> "") pieces -> acc_join "" pieces = join_sp pieces.
Proof.
  destruct pieces as [|x pieces]; intros Hp; [reflexivity|].
  inversion Hp; subst.
  change (acc_join "" (x :: pieces)) with (acc_join x pieces).
  rewrite acc_join_nonempty by assumption. now rewrite join_sp_cons.
Qed.

Lemma acc_join_app (final : string) (l1 l2 : list string) :
  acc_join final (l1 ++ l2) = acc_join (acc_join final l1) l2.
Proof. unfold acc_join. apply fold_left_app. Qed.

Lemma sentences_of_nonempty (content : string) :
  Forall (fun w => w <> "") (sentences_of content).
Proof.
  unfold sentences_of. apply Forall_forall. intros x Hx.
  apply list_elem_of_In, in_map_iff in Hx as (si & <- & Hin).
  apply sentence_text_nonempty; [apply tokenize_nonempty|].
  pose proof (parse_sentences_valid (tokenize content)) as Hv.
  rewrite Forall_forall in Hv. now apply Hv, list_elem_of_In.
Qed.

(** The merge of the commit, whatever the swap holds: the sentences before
    the target from the live text, the target sentence of the swap when the
    swap has one, the sentences after the target from the live text. *)
Lemma etirw_merge_spec (live swap : string) (t : nat) :
  1 <= t <= length (sentences_of live) ->
  etirw_merge live swap (Z.of_nat t) =
  join_sp (firstn (t - 1) (sentences_of live)
           ++ opt_list (sentences_of swap !! (t - 1))
           ++ skipn t (sentences_of live)).
Proof.
  intros Ht.
  pose proof (sentences_of_nonempty live) as Hl.
  pose proof (sentences_of_nonempty swap) as Hs.
  unfold sentences_of in *. rewrite length_map in Ht.
  unfold etirw_merge.
  set (cw := tokenize live) in *. set (cs := parse_sentences cw) in *.
  set (sw := tokenize swap) in *. set (ss := parse_sentences sw) in *.
  pose proof (parse_sentences_valid cw) as Hcv. fold cs in Hcv.
  pose proof (parse_sentences_valid sw) as Hsv. fold ss in Hsv.
  destruct (length cs =? 0)%nat eqn:E0; [apply Nat.eqb_eq in E0; lia|].
  destruct (Z.of_nat (length cs) <? Z.of_nat t)%Z eqn:E1; [apply Z.ltb_lt in E1; lia|].
  replace (Z.to_nat (Z.of_nat t - 1)) with (t - 1) by lia.
  replace (S (t - 1)) with t by lia.
  rewrite (fold_cat_sentence_sep cw (firstn (t - 1) cs)) by now apply Forall_take.
  set (A := acc_join "" _).
  assert (Hmid :
    match ss !! (t - 1) with
    | Some s => cat_sentence_sep sw A s
    | None => A
    end = acc_join A (opt_list (map (fun si => join_sp (sentence_words sw si)) ss !! (t - 1)))).
  { change (map ?f ss) with (f <$> ss). rewrite list_lookup_fmap.
    destruct (ss !! (t - 1)) as [s|] eqn:Es; simpl; [|reflexivity].
    unfold cat_sentence_sep, acc_join. simpl.
    rewrite cat_sentence_spec; [reflexivity|].
    rewrite Forall_forall in Hsv. apply Hsv.
    eapply list_elem_of_lookup_2. exact Es. }
  rewrite Hmid. clear Hmid.
  rewrite (fold_cat_sentence_sep cw (skipn t cs)) by now apply Forall_drop.
  subst A. rewrite <- !acc_join_app, <- firstn_map, <- skipn_map.
  apply acc_join_empty.
  apply Forall_app; split; [now apply Forall_take|].
  apply Forall_app; split; [|now apply Forall_drop].
  destruct (map _ ss !! (t - 1)) as [x|] eqn:Ex; simpl; [|constructor].
  constructor; [|constructor].
  rewrite Forall_forall in Hs. apply Hs.
  eapply list_elem_of_lookup_2. exact Ex.
Qed.

End ParseFacts.

Section CommitFacts.

Lemma app_str_neq (a b : string) : b <> "" -> a +:+ b <> a.
Proof.
  intros Hb E. apply (f_equal String.length) in E.
  rewrite length_app_str in E. destruct b; [congruence | simpl in E; lia].
Qed.

Lemma swap_name_neq (file : string) (t fd : Z) : swap_name file t fd <> file.
Proof. unfold swap_name. apply app_str_neq. discriminate. Qed.

Lemma create_file_backup_files (st : ss_state) (file username : string) (now : Z) :
  files_dir (fst (create_file_backup st file username now)) = files_dir st.
Proof. unfold create_file_backup. now destruct (files_dir st !! file). Qed.

Lemma create_file_backup_locks (st : ss_state) (file username : string) (now : Z) :
  sentence_locks (fst (create_file_backup st file username now)) = sentence_locks st.
Proof. unfold create_file_backup. now destruct (files_dir st !! file). Qed.

End CommitFacts.



Section DecimalFacts.

Lemma scan_digits_uint (d : Decimal.uint) :
  forall acc rest,
    no_digit_ahead rest ->
    scan_digits acc (NilEmpty.string_of_uint d +:+ rest) = (uint_val acc d, rest).
Proof.
  induction d; intros acc rest Hrest; cbn [NilEmpty.string_of_uint uint_val];
    try (rewrite app_str_cons; cbn [scan_digits];
         match goal with |- context [isdigit ?c] => change (isdigit c) with true end;
         cbv iota; rewrite IHd by assumption; reflexivity).
  rewrite app_str_nil_l. destruct rest as [|c rest]; [reflexivity|].
  cbn [scan_digits]. cbn in Hrest. now rewrite Hrest.
Qed.

Lemma uint_val_acc (d : Decimal.uint) :
  forall acc, uint_val (Z.pos acc) d = Z.pos (Pos.of_uint_acc d acc).
Proof.
  induction d; intros acc; cbn [uint_val Pos.of_uint_acc]; try reflexivity;
    rewrite <- IHd; f_equal; lia.
Qed.

Lemma uint_val_of_uint (d : Decimal.uint) : uint_val 0 d = Z.of_N (Pos.of_uint d).
Proof.
  induction d; cbn [uint_val Pos.of_uint]; try reflexivity; try exact IHd;
    cbn [Z.of_N]; rewrite <- uint_val_acc; reflexivity.
Qed.

Lemma uint_val_to_uint (p : positive) : uint_val 0 (Pos.to_uint p) = Z.pos p.
Proof. now rewrite uint_val_of_uint, DecimalPos.Unsigned.of_to. Qed.

Lemma string_of_uint_head (d : Decimal.uint) (rest : string) :
  d <> Decimal.Nil ->
  exists c s, NilEmpty.string_of_uint d +:+ rest = String c s /\ isdigit c = true
              /\ isspace c = false /\ c <> "-"%char /\ c <> "+"%char.
Proof.
  intros Hd. destruct d; [contradiction| | | | | | | | | |];
    cbn [NilEmpty.string_of_uint]; rewrite app_str_cons;
    eexists _, _; (split; [reflexivity|]); repeat split; try reflexivity; discriminate.
Qed.

(** What [printf ("%ld")] writes, [sscanf ("%ld")] reads back. *)
Lemma scan_int_fmt_d (z : Z) (rest : string) :
  no_digit_ahead rest -> scan_int (fmt_d z +:+ rest) = Some (z, rest).
Proof.
  intros Hrest. unfold fmt_d, NilZero.string_of_int.
  assert (Hpos : forall p neg,
            scan_int ((if neg : bool then String "-" "" else "")
                      +:+ NilEmpty.string_of_uint (Pos.to_uint p) +:+ rest)
            = Some (if neg then Z.neg p else Z.pos p, rest)).
  { intros p neg.
    pose proof (scan_digits_uint (Pos.to_uint p) 0 rest Hrest) as Hs.
    rewrite uint_val_to_uint in Hs.
    destruct (string_of_uint_head (Pos.to_uint p) rest (DecimalPos.Unsigned.to_uint_nonnil p))
      as (c & s & E & Hd & Hsp & Hm & Hpl).
    rewrite E in *.
    destruct neg.
    - rewrite app_str_cons, app_str_nil_l. unfold scan_int. cbn [skip_space].
      change (isspace "-") with false. cbv iota. cbv beta iota. rewrite Hd, Hs. reflexivity.
    - rewrite app_str_nil_l. unfold scan_int. cbn [skip_space]. rewrite Hsp.
      destruct (Ascii.eqb_spec c "-") as [->|_]; [contradiction|].
      destruct (Ascii.eqb_spec c "+") as [->|_]; [contradiction|].
      assert (Hsign : match String c s with
                      | String "-" r => (true, r)
                      | String "+" r => (false, r)
                      | _ => (false, String c s)
                      end = (false, String c s)).
      { destruct c as [[] [] [] [] [] [] [] []]; try reflexivity; contradiction. }
      rewrite Hsign. rewrite Hd, Hs. reflexivity. }
  destruct z as [|p|p]; cbn [Z.to_int].
  - change (NilZero.string_of_uint Decimal.zero) with "0".
    rewrite app_str_cons, app_str_nil_l. unfold scan_int. cbn [skip_space].
    change (isspace "0") with false. cbv iota. cbv beta iota.
    change (isdigit "0") with true. cbv iota. cbn [scan_digits].
    change (isdigit "0") with true. cbv iota.
    destruct rest as [|c rest]; [reflexivity|]. cbn [scan_digits]. cbn in Hrest.
    now rewrite Hrest.
  - unfold NilZero.string_of_uint.
    pose proof (DecimalPos.Unsigned.to_uint_nonnil p) as Hn.
    specialize (Hpos p false). cbv iota in Hpos. rewrite app_str_nil_l in Hpos.
    destruct (Pos.to_uint p); [contradiction|..]; exact Hpos.
  - unfold NilZero.string_of_uint.
    pose proof (DecimalPos.Unsigned.to_uint_nonnil p) as Hn.
    specialize (Hpos p true). cbv iota in Hpos. rewrite app_str_cons, app_str_nil_l in Hpos.
    rewrite app_str_cons.
    destruct (Pos.to_uint p); [contradiction|..]; exact Hpos.
Qed.

End DecimalFacts.

Section ScanFacts.

Lemma span_bytes_run (ok : ascii -> bool) (n : nat) (a r : string) :
  all_bytes ok a = true -> strlen a <= n ->
  match r with String c _ => ok c = false | EmptyString => True end ->
  span_bytes ok n (a +:+ r) = (a, r).
Proof.
  revert n. induction a as [|c a IH]; intros n Ha Hn Hr.
  - rewrite app_str_nil_l. destruct n, r as [|d r]; cbn [span_bytes]; try reflexivity.
    now rewrite Hr.
  - destruct n as [|n]; [simpl in Hn; lia|].
    cbn [all_bytes] in Ha. apply andb_true_iff in Ha as [Hc Ha].
    rewrite app_str_cons. cbn [span_bytes]. rewrite Hc.
    rewrite (IH n Ha); [reflexivity | simpl in Hn; lia | exact Hr].
Qed.

Lemma scan_set_run (ok : ascii -> bool) (n : nat) (a r : string) :
  a <> EmptyString -> all_bytes ok a = true -> strlen a <= n ->
  match r with String c _ => ok c = false | EmptyString => True end ->
  scan_set ok n (a +:+ r) = Some (a, r).
Proof.
  intros Hne Ha Hn Hr. unfold scan_set. rewrite (span_bytes_run ok n a r Ha Hn Hr).
  now destruct a.
Qed.

End ScanFacts.

Section InsertFacts.

Lemma scan_sentences_grows (ws : list string) :
  forall i sent_start acc,
    length acc <= length (fst (scan_sentences ws i sent_start acc))
    /\ (length (fst (scan_sentences ws i sent_start acc)) = length acc ->
        snd (scan_sentences ws i sent_start acc) = sent_start).
Proof.
  induction ws as [|w ws IH]; intros i sent_start acc; simpl.
  - split; [lia | reflexivity].
  - destruct (last_char w) as [c|]; [|apply IH].
    destruct (is_terminator c && (length acc <? 256)%nat); [|apply IH].
    destruct (IH (S i) (S i)
                (acc ++ [{| start_word_idx := sent_start; end_word_idx := i;
                            delimiter := Some c |}])) as [H1 H2].
    rewrite length_app in H1. simpl in H1. split; [lia | intros E; lia].
Qed.

(** A text with a word has a sentence. *)
Lemma parse_sentences_nil (ws : list string) : parse_sentences ws = [] -> ws = [].
Proof.
  unfold parse_sentences.
  destruct (scan_sentences_grows ws 0 0 []) as [_ H2].
  destruct (scan_sentences ws 0 0 []) as [acc sent_start]; simpl in *.
  destruct ((sent_start <? length ws)%nat && (length acc <? 256)%nat) eqn:E.
  - intros H. apply (f_equal (@length _)) in H. rewrite length_app in H.
    simpl in H. lia.
  - intros ->. simpl in *. rewrite H2 in E by reflexivity.
    destruct ws; [reflexivity | discriminate].
Qed.

Lemma tokenize_empty : tokenize "" = [].
Proof. reflexivity. Qed.

Lemma cat_words_spec (ws : list string) :
  forall i final,
    cat_words i ws final =
    final +:+ (if (0 <? i)%nat then sep_cat ws else join_sp ws).
Proof.
  induction ws as [|w ws IH]; intros i final.
  - simpl. destruct (0 <? i)%nat; unfold join_sp; simpl; now rewrite app_str_nil_r.
  - cbn [cat_words]. rewrite IH. change (0 <? S i)%nat with true. cbv iota.
    destruct (0 <? i)%nat.
    + now rewrite sep_cat_cons, !app_str_assoc.
    + now rewrite join_sp_cons, !app_str_assoc.
Qed.

Lemma cat_words_join (ws : list string) : cat_words 0 ws "" = join_sp ws.
Proof. now rewrite cat_words_spec. Qed.

(** The copy loop of the target sentence below its last word. *)
Lemma fold_peel_prefix (ws : list string) (sent_start sent_end : nat) :
  forall k acc d,
    sent_start + k <= sent_end -> sent_end < length ws ->
    fold_left (peel_step ws sent_end) (seq sent_start k) (acc, d)
    = (acc ++ firstn k (skipn sent_start ws), d).
Proof.
  induction k as [|k IH]; intros acc d Hk He.
  - simpl. now rewrite app_nil_r.
  - rewrite seq_S, fold_left_app, IH by lia. cbn [fold_left peel_step].
    assert (Hne : (sent_start + k =? sent_end)%nat = false) by (apply Nat.eqb_neq; lia).
    rewrite Hne.
    destruct (lookup_lt_is_Some_2 ws (sent_start + k)) as [x Hx]; [lia|].
    rewrite (nth_lookup_Some _ _ _ _ Hx).
    rewrite (take_S_r _ _ x) by now rewrite lookup_drop.
    now rewrite app_assoc.
Qed.

Lemma peel_sentence_spec (ws : list string) (si : sentence_info_t) :
  valid_si (length ws) si ->
  peel_sentence ws (start_word_idx si) (end_word_idx si) = peel (sentence_words ws si).
Proof.
  intros [H1 H2]. unfold peel_sentence, sentence_words.
  set (a := start_word_idx si) in *. set (b := end_word_idx si) in *.
  replace (S b - a) with (S (b - a)) by lia.
  rewrite seq_S, fold_left_app, fold_peel_prefix by lia.
  replace (a + (b - a)) with b by lia.
  destruct (lookup_lt_is_Some_2 ws b H2) as [w Hw].
  rewrite (take_S_r _ (b - a) w) by (rewrite lookup_drop; now replace (a + (b - a)) with b by lia).
  cbn [fold_left peel_step]. rewrite Nat.eqb_refl, (nth_lookup_Some _ _ _ _ Hw).
  unfold peel. rewrite last_snoc, removelast_last. simpl.
  destruct (last_char w) as [c|]; [|reflexivity].
  destruct (is_terminator c); [|reflexivity].
  destruct (0 <? strlen (take_bytes (strlen w - 1) w))%nat; [reflexivity|].
  now rewrite app_nil_r.
Qed.

Lemma peel_length (raw : list string) : length (fst (peel raw)) <= length raw.
Proof.
  unfold peel. destruct (last raw) as [w|] eqn:El; [|simpl; lia].
  destruct (last_char w) as [c|]; [|simpl; lia].
  destruct (is_terminator c); [|simpl; lia].
  simpl. rewrite length_app.
  assert (length (removelast raw) + 1 <= length raw).
  { destruct raw as [|x raw] using rev_ind; [discriminate|].
    rewrite removelast_last, length_app. simpl. lia. }
  destruct (0 <? _)%nat; simpl; lia.
Qed.

Lemma peel_short (raw : list string) (n : nat) :
  Forall (fun w => String.length w < n) raw ->
  Forall (fun w => String.length w < n) (fst (peel raw)).
Proof.
  intros H. unfold peel. destruct (last raw) as [w|] eqn:El; [|assumption].
  destruct (last_char w) as [c|]; [|assumption].
  destruct (is_terminator c); [|assumption].
  simpl. destruct raw as [|x raw _] using rev_ind; [discriminate|].
  rewrite last_snoc in El. injection El as ->.
  rewrite removelast_last. apply Forall_app in H as [Hr Hw].
  apply Forall_app; split; [assumption|].
  destruct (0 <? _)%nat; [|constructor].
  constructor; [|constructor]. inversion Hw; subst.
  pose proof (length_take_bytes (strlen w - 1) w). unfold strlen in *. lia.
Qed.

(** The insertion loop over the first [m] words of the peeled sentence, for
    the 0-based insertion index [q]. *)
Lemma fold_insert_spec (core nw : list string) (q : nat) :
  forall m acc0,
    m <= length core ->
    fold_left
      (fun acc i =>
         (if (Z.of_nat (i + 1) =? Z.of_nat (S q))%Z then acc ++ nw else acc)
         ++ [nth i core ""])
      (seq 0 m) acc0
    = acc0 ++ (if (q <? m)%nat
               then firstn q core ++ nw ++ firstn (m - q) (skipn q core)
               else firstn m core).
Proof.
  induction m as [|m IH]; intros acc0 Hm.
  - simpl. now rewrite app_nil_r.
  - rewrite seq_S, fold_left_app, IH by lia. cbn [fold_left]. simpl (0 + m).
    destruct (lookup_lt_is_Some_2 core m) as [x Hx]; [lia|].
    rewrite (nth_lookup_Some _ _ _ _ Hx).
    destruct (Nat.lt_trichotomy q m) as [Hlt | [-> | Hgt]].
    + assert (E1 : (q <? m)%nat = true) by (apply Nat.ltb_lt; lia).
      assert (E2 : (q <? S m)%nat = true) by (apply Nat.ltb_lt; lia).
      assert (E3 : (Z.of_nat (m + 1) =? Z.of_nat (S q))%Z = false) by (apply Z.eqb_neq; lia).
      rewrite E1, E2, E3.
      replace (S m - q) with (S (m - q)) by lia.
      rewrite (take_S_r _ (m - q) x)
        by (rewrite lookup_drop; now replace (q + (m - q)) with m by lia).
      now rewrite <- !app_assoc.
    + assert (E1 : (m <? m)%nat = false) by apply Nat.ltb_irrefl.
      assert (E2 : (m <? S m)%nat = true) by (apply Nat.ltb_lt; lia).
      assert (E3 : (Z.of_nat (m + 1) =? Z.of_nat (S m))%Z = true) by (apply Z.eqb_eq; lia).
      rewrite E1, E2, E3.
      replace (S m - m) with 1 by lia.
      rewrite (take_S_r _ 0 x) by (rewrite lookup_drop; now replace (m + 0) with m by lia).
      simpl. now rewrite <- !app_assoc.
    + assert (E1 : (q <? m)%nat = false) by (apply Nat.ltb_ge; lia).
      assert (E2 : (q <? S m)%nat = false) by (apply Nat.ltb_ge; lia).
      assert (E3 : (Z.of_nat (m + 1) =? Z.of_nat (S q))%Z = false) by (apply Z.eqb_neq; lia).
      rewrite E1, E2, E3.
      rewrite (take_S_r _ m x) by assumption.
      now rewrite <- !app_assoc.
Qed.

Lemma reattach_app (before l : list string) (d : option ascii) :
  l <> [] -> Forall (fun w => String.length w < 511) l ->
  reattach (before ++ l) d = before ++ attach l d.
Proof.
  intros Hl Hs. unfold reattach, attach.
  destruct d as [c|]; [|reflexivity].
  destruct l as [|x l _] using rev_ind; [congruence|].
  rewrite last_snoc, removelast_last.
  apply Forall_app in Hs as [_ Hx]. inversion Hx; subst.
  rewrite app_assoc, length_app. simpl.
  replace (length (before ++ l) + 1 - 1) with (length (before ++ l)) by lia.
  assert (E : (0 <? length (before ++ l) + 1)%nat = true) by (apply Nat.ltb_lt; lia).
  rewrite E.
  rewrite nth_middle.
  assert (E' : (strlen x <? 511)%nat = true) by (apply Nat.ltb_lt; assumption).
  rewrite E'.
  rewrite insert_app_r_alt by lia. rewrite Nat.sub_diag. simpl.
  now rewrite <- app_assoc.
Qed.

End InsertFacts.

Section InsertPosition.

Variables (content new_content : string) (t : nat).

Let ws := tokenize content.
Let nw := new_tokens new_content.

Hypothesis Ht : 1 <= t.
Hypothesis Hnw : nw <> [].
Hypothesis Hfit : Forall (fun w => String.length w < 511) (ws ++ nw).

(** The insert before position [p], for every position from 1 to one past
    the last word of the sentence. *)
Lemma insert_words_at (si : sentence_info_t) (p : nat) :
  parse_sentences ws !! (t - 1) = Some si ->
  1 <= p <= length (fst (peel (sentence_words ws si))) + 1 ->
  insert_words content (Z.of_nat t) (Z.of_nat p) new_content =
  CONTENT_INSERTED
    (join_sp (firstn (start_word_idx si) ws
              ++ attach (firstn (p - 1) (fst (peel (sentence_words ws si))) ++ nw
                         ++ skipn (p - 1) (fst (peel (sentence_words ws si))))
                   (snd (peel (sentence_words ws si)))
              ++ skipn (S (end_word_idx si)) ws)).
Proof.
  intros Hsi Hp.
  assert (Hv : valid_si (length ws) si).
  { pose proof (parse_sentences_valid ws) as H. rewrite Forall_forall in H.
    apply H. eapply list_elem_of_lookup_2. exact Hsi. }
  assert (Hc : content <> "").
  { intros ->. subst ws. rewrite tokenize_empty in Hsi. discriminate. }
  apply Forall_app in Hfit as [Hws Hnws].
  unfold insert_words. fold ws. fold nw.
  assert (E0 : (strlen content =? 0)%nat = false).
  { apply Nat.eqb_neq. intros E. apply Hc. now apply length_zero_str. }
  rewrite E0. cbn [andb].
  assert (Hlen : t - 1 < length (parse_sentences ws)) by (eapply lookup_lt_Some; exact Hsi).
  assert (E1 : (length (parse_sentences ws) =? 0)%nat = false) by (apply Nat.eqb_neq; lia).
  rewrite E1. cbn [andb].
  assert (E2 : (Z.of_nat (length (parse_sentences ws)) <? Z.of_nat t)%Z = false)
    by (apply Z.ltb_ge; lia).
  rewrite E2.
  replace (Z.to_nat (Z.of_nat t - 1)) with (t - 1) by lia.
  rewrite Hsi.
  pose proof (peel_length (sentence_words ws si)) as Hpl.
  assert (Hraw : length (sentence_words ws si) = S (end_word_idx si) - start_word_idx si).
  { unfold sentence_words. destruct Hv. rewrite length_take, length_drop. lia. }
  assert (E3 : (Z.of_nat (S (end_word_idx si) - start_word_idx si) + 1 <? Z.of_nat p)%Z = false)
    by (apply Z.ltb_ge; lia).
  rewrite E3.
  rewrite (peel_sentence_spec ws si Hv).
  destruct (peel (sentence_words ws si)) as [core d] eqn:Epeel. simpl in Hp, Hpl |- *.
  assert (E4 : (Z.of_nat (length core) + 1 <? Z.of_nat p)%Z = false) by (apply Z.ltb_ge; lia).
  rewrite E4.
  destruct p as [|q]; [lia|]. simpl (S q - 1). rewrite Nat.sub_0_r.
  rewrite (fold_insert_spec core nw q (length core)) by lia.
  assert (Hcore : Forall (fun w => String.length w < 511) core).
  { replace core with (fst (peel (sentence_words ws si))) by now rewrite Epeel.
    apply peel_short. unfold sentence_words. now apply Forall_take, Forall_drop. }
  f_equal. rewrite cat_words_join. f_equal.
  destruct (q <? length core)%nat eqn:Eq.
  - apply Nat.ltb_lt in Eq.
    assert (E5 : (Z.of_nat (length core) <? Z.of_nat (S q))%Z = false) by (apply Z.ltb_ge; lia).
    rewrite E5.
    rewrite (firstn_all2 (n := length core - q) (skipn q core))
      by (rewrite length_drop; lia).
    rewrite reattach_app; [now rewrite <- app_assoc | |].
    + intros E. apply (f_equal (@length _)) in E. rewrite !length_app in E.
      destruct nw; [congruence | simpl in E; lia].
    + apply Forall_app; split; [now apply Forall_take|].
      apply Forall_app; split; [assumption | now apply Forall_drop].
  - apply Nat.ltb_ge in Eq. assert (q = length core) by lia. subst q.
    assert (E5 : (Z.of_nat (length core) <? Z.of_nat (S (length core)))%Z = true)
      by (apply Z.ltb_lt; lia).
    rewrite E5, !firstn_all, skipn_all, app_nil_r.
    rewrite <- app_assoc.
    rewrite reattach_app; [now rewrite <- app_assoc | |].
    + intros E. apply (f_equal (@length _)) in E. rewrite !length_app in E.
      destruct nw; [congruence | simpl in E; lia].
    + apply Forall_app; split; assumption.
Qed.

(** Beyond one past the last word the insert is refused. *)
Lemma insert_words_beyond (si : sentence_info_t) (idx : Z) :
  parse_sentences ws !! (t - 1) = Some si ->
  (Z.of_nat (length (fst (peel (sentence_words ws si)))) + 1 < idx)%Z ->
  exists k, insert_words content (Z.of_nat t) idx new_content
            = ERR_404_out_of_range idx (Z.of_nat t) k.
Proof.
  intros Hsi Hidx.
  assert (Hv : valid_si (length ws) si).
  { pose proof (parse_sentences_valid ws) as H. rewrite Forall_forall in H.
    apply H. eapply list_elem_of_lookup_2. exact Hsi. }
  assert (Hc : content <> "").
  { intros ->. subst ws. rewrite tokenize_empty in Hsi. discriminate. }
  unfold insert_words. fold ws. fold nw.
  assert (E0 : (strlen content =? 0)%nat = false).
  { apply Nat.eqb_neq. intros E. apply Hc. now apply length_zero_str. }
  rewrite E0. cbn [andb].
  assert (Hlen : t - 1 < length (parse_sentences ws)) by (eapply lookup_lt_Some; exact Hsi).
  assert (E1 : (length (parse_sentences ws) =? 0)%nat = false) by (apply Nat.eqb_neq; lia).
  rewrite E1. cbn [andb].
  assert (E2 : (Z.of_nat (length (parse_sentences ws)) <? Z.of_nat t)%Z = false)
    by (apply Z.ltb_ge; lia).
  rewrite E2.
  replace (Z.to_nat (Z.of_nat t - 1)) with (t - 1) by lia.
  rewrite Hsi.
  destruct (_ + 1 <? idx)%Z; [eexists; reflexivity|].
  rewrite (peel_sentence_spec ws si Hv).
  destruct (peel (sentence_words ws si)) as [core d]. simpl in Hidx.
  assert (E4 : (Z.of_nat (length core) + 1 <? idx)%Z = true) by (apply Z.ltb_lt; lia).
  rewrite E4. eexists; reflexivity.
Qed.

(** A sentence that does not exist yet takes its first words at position 1
    only. *)
Lemma insert_words_new_sentence :
  parse_sentences ws !! (t - 1) = None ->
  insert_words content (Z.of_nat t) 1 new_content
  = CONTENT_INSERTED
      (if (strlen content =? 0)%nat then new_content
       else take_bytes 8191 (content +:+ " " +:+ new_content))
  /\ forall idx, (1 < idx)%Z ->
       insert_words content (Z.of_nat t) idx new_content = ERR_404_empty_file_only_index_1
       \/ insert_words content (Z.of_nat t) idx new_content = ERR_404_new_sentence_only_index_1.
Proof.
  intros Hnone. apply lookup_ge_None in Hnone.
  assert (Hfb : ((length (parse_sentences ws) =? 0)%nat && (0 <? length ws)%nat) = false).
  { destruct (parse_sentences ws) as [|s l] eqn:E; [|reflexivity].
    apply parse_sentences_nil in E. now rewrite E. }
  unfold insert_words. fold ws.
  assert (Ecmp : forall idx, (1 < idx)%Z -> (idx =? 1)%Z = false) by (intros; apply Z.eqb_neq; lia).
  destruct (strlen content =? 0)%nat eqn:E0; cbn [andb].
  - destruct (Z.of_nat t =? 1)%Z eqn:Et.
    + split; [reflexivity|]. intros idx Hi. rewrite (Ecmp idx Hi). now left.
    + rewrite Hfb.
      assert (E2 : (Z.of_nat (length (parse_sentences ws)) <? Z.of_nat t)%Z = true)
        by (apply Z.ltb_lt; lia).
      rewrite E2. apply Nat.eqb_eq in E0. rewrite E0.
      split; [reflexivity|]. intros idx Hi. rewrite (Ecmp idx Hi). now right.
  - rewrite Hfb.
    assert (E2 : (Z.of_nat (length (parse_sentences ws)) <? Z.of_nat t)%Z = true)
      by (apply Z.ltb_lt; lia).
    rewrite E2.
    assert (E3 : (0 <? strlen content)%nat = true)
      by (apply Nat.ltb_lt; apply Nat.eqb_neq in E0; lia).
    rewrite E3.
    split; [reflexivity|]. intros idx Hi. rewrite (Ecmp idx Hi). now right.
Qed.

End InsertPosition.

(** In write mode a line [<word_index> <content>] with a positive index is
    answered by [insert_words] on the current text of the connection, the
    swap file if it exists and the live file otherwise; an accepted insert
    rewrites the swap file. *)
Lemma write_mode_insert_line (st : ss_state) (fd : Z) (username : string) (now : Z)
    (buf file : string) (t idx : Z) (new_content f : string) :
  get_client_write_info (sentence_locks st) fd = Some (file, t) ->
  has_prefix "ETIRW" buf = false ->
  parse_insert_line buf = Some (idx, new_content) ->
  (1 <= idx)%Z ->
  match files_dir st !! swap_name file t fd with
  | Some s => Some s
  | None => files_dir st !! file
  end = Some f ->
  client_handler_step st fd username now buf
  = Some (match insert_words (fread_content f) t idx new_content with
          | CONTENT_INSERTED swap =>
              (set_files st (<[swap_name file t fd := swap]> (files_dir st)),
               INSERT_REPLY (CONTENT_INSERTED swap))
          | r => (st, INSERT_REPLY r)
          end).
Proof.
  intros Hinfo He Hp Hidx Hf.
  unfold client_handler_step. rewrite Hinfo, He.
  unfold insert_line. rewrite Hp.
  assert (E : (idx <? 1)%Z = false) by (apply Z.ltb_ge; lia).
  rewrite E, Hf.
  now destruct (insert_words (fread_content f) t idx new_content).
Qed.

Section InsertLine.

Lemma to_int_to_long (z : Z) :
  (- 2147483648 <= z <= 2147483647)%Z -> to_int (to_long z) = z.
Proof.
  intros Hz. unfold to_int, to_long.
  change (2 ^ 63)%Z with 9223372036854775808%Z.
  change (2 ^ 31)%Z with 2147483648%Z. change (2 ^ 32)%Z with 4294967296%Z.
  rewrite Z.min_l, Z.max_r by lia.
  rewrite Z.mod_small by lia. lia.
Qed.

(** A positive number is printed with a digit first. *)
Lemma fmt_d_head (z : Z) (rest : string) :
  (0 < z)%Z ->
  exists c s, fmt_d z +:+ rest = String c s /\ isdigit c = true.
Proof.
  intros Hz. destruct z as [|q|q]; try lia.
  unfold fmt_d, NilZero.string_of_int. cbn [Z.to_int]. unfold NilZero.string_of_uint.
  pose proof (DecimalPos.Unsigned.to_uint_nonnil q) as Hn.
  destruct (string_of_uint_head (Pos.to_uint q) rest Hn) as (c & s & E & Hd & _).
  exists c, s. split; [|exact Hd].
  destruct (Pos.to_uint q); [contradiction|..]; exact E.
Qed.

Lemma insert_line_not_etirw (z : Z) (rest : string) :
  (0 < z)%Z -> has_prefix "ETIRW" (fmt_d z +:+ rest) = false.
Proof.
  intros Hz. destruct (fmt_d_head z rest Hz) as (c & s & -> & Hd).
  cbn [has_prefix]. destruct (Ascii.eqb_spec "E" c) as [<-|_]; [discriminate | reflexivity].
Qed.

(** The line [<position> <text>] is read back as the position and the
    text, for a position that fits an [int]. *)
Lemma parse_insert_line_ok (z : Z) (new_content : string) :
  (1 <= z <= 2147483647)%Z -> insert_text new_content = true ->
  parse_insert_line (fmt_d z +:+ " " +:+ new_content) = Some (z, new_content).
Proof.
  intros Hz Hnc. unfold parse_insert_line, scan_d.
  change (" " +:+ new_content) with (String " " new_content).
  rewrite scan_int_fmt_d by reflexivity.
  rewrite to_int_to_long by lia.
  destruct new_content as [|c nc]; [discriminate|].
  cbn [insert_text] in Hnc.
  apply andb_true_iff in Hnc as [Hnc Hlen]. apply andb_true_iff in Hnc as [Hc Hall].
  apply negb_true_iff in Hc. apply Nat.leb_le in Hlen.
  cbn [skip_space]. change (isspace " ") with true. cbv iota.
  cbn [skip_space]. rewrite Hc.
  pose proof (scan_set_run not_newline 2047 (String c nc) EmptyString) as H.
  rewrite app_str_nil_r in H. rewrite H; [reflexivity | discriminate | exact Hall | exact Hlen | exact I].
Qed.

Lemma strtok_from_cur (ds cur s : string) :
  cur <> EmptyString -> strtok_from ds cur s <> [].
Proof.
  revert cur. induction s as [|c s IH]; intros cur Hcur; cbn [strtok_from].
  - destruct cur; [contradiction | discriminate].
  - destruct (in_set ds c).
    + destruct cur; [contradiction | discriminate].
    + apply IH. destruct cur; discriminate.
Qed.

(** A text that starts with a byte that is not white space has a word. *)
Lemma new_tokens_insert_text (new_content : string) :
  insert_text new_content = true -> new_tokens new_content <> [].
Proof.
  destruct new_content as [|c nc]; [discriminate|]. cbn [insert_text].
  intros H. apply andb_true_iff in H as [H _]. apply andb_true_iff in H as [Hc _].
  apply negb_true_iff in Hc.
  unfold new_tokens, strtok. cbn [strtok_from in_set].
  assert (E : Ascii.eqb c " " || (Ascii.eqb c "009" || false) = false).
  { destruct (Ascii.eqb_spec c " ") as [->|_]; [discriminate|].
    destruct (Ascii.eqb_spec c "009") as [->|_]; [discriminate|]. reflexivity. }
  rewrite E. apply strtok_from_cur. discriminate.
Qed.

Lemma insert_fits_words (content new_content : string) (si : sentence_info_t) :
  insert_fits content new_content si = true ->
  Forall (fun w => String.length w < 511) (tokenize content ++ new_tokens new_content).
Proof.
  unfold insert_fits. intros H.
  apply andb_true_iff in H as [H _]. apply andb_true_iff in H as [H _].
  apply andb_true_iff in H as [H _].
  apply Forall_forall. intros w Hw. apply list_elem_of_In in Hw.
  rewrite forallb_forall in H. apply Nat.ltb_lt. exact (H w Hw).
Qed.

End InsertLine.



(** Where the statement ends: the position 4294967297 is stored by [%d] as
    1, and the line is taken as an insert before the first word. *)
Example insert_position_wraps :
  parse_insert_line "4294967297 X" = Some (1%Z, "X")
  /\ replies_after s2_doc
       [ (5%Z, "B", 100%Z, "WRITE doc 2"); (5%Z, "B", 101%Z, "4294967297 X") ]
     = Some [ OK_200_WRITE_MODE_ENABLED;
              INSERT_REPLY (CONTENT_INSERTED "Hello world. X Goodbye world.") ].
Proof. split; vm_compute; reflexivity. Qed.

Section LockFacts.

Lemma write_info_none (locks : list sentence_lock_t) (fd : Z) :
  get_client_write_info locks fd = None -> locks_held locks fd = 0.
Proof.
  induction locks as [|l locks IH]; simpl; [reflexivity|].
  destruct (client_fd l =? fd)%Z; [discriminate | exact IH].
Qed.

Lemma held_remove_le (locks : list sentence_lock_t) (file : string) (t fd' fd : Z) :
  locks_held (remove_sentence_lock locks file t fd') fd <= locks_held locks fd.
Proof.
  induction locks as [|l locks IH]; simpl; [lia|].
  destruct (_ && _); simpl; lia.
Qed.

(** The lock found by [get_client_write_info] is one that
    [remove_sentence_lock] removes. *)
Lemma held_remove_own (locks : list sentence_lock_t) (file : string) (t fd : Z) :
  get_client_write_info locks fd = Some (file, t) ->
  S (locks_held (remove_sentence_lock locks file t fd) fd) = locks_held locks fd.
Proof.
  induction locks as [|l locks IH]; simpl; [discriminate|].
  destruct (client_fd l =? fd)%Z eqn:Efd.
  - intros [= <- <-]. rewrite String.eqb_refl, Z.eqb_refl. simpl. lia.
  - rewrite andb_false_r. simpl. rewrite Efd. simpl. exact IH.
Qed.

Lemma held_remove_client (locks : list sentence_lock_t) (fd' fd : Z) :
  locks_held (remove_client_locks locks fd') fd <= locks_held locks fd
  /\ locks_held (remove_client_locks locks fd') fd' = 0.
Proof.
  induction locks as [|l locks [IH1 IH2]]; simpl; [split; lia|].
  destruct (client_fd l =? fd')%Z eqn:E; simpl; [split; [lia | exact IH2]|].
  rewrite E. split; [lia | exact IH2].
Qed.

Lemma perform_undo_locks (st : ss_state) (file : string) :
  sentence_locks (fst (perform_undo st file)) = sentence_locks st.
Proof.
  unfold perform_undo.
  repeat match goal with
         | |- context [match ?x with _ => _ end] => destruct x; try reflexivity
         end.
Qed.

Lemma create_checkpoint_locks (st : ss_state) (file tag username : string) (now : Z) :
  sentence_locks (fst (create_checkpoint st file tag username now)) = sentence_locks st.
Proof.
  unfold create_checkpoint.
  repeat match goal with
         | |- context [match ?x with _ => _ end] => destruct x; try reflexivity
         end.
Qed.

Lemma insert_line_locks (st : ss_state) (fd : Z) (file : string) (t : Z) (buf : string) :
  sentence_locks (fst (insert_line st fd file t buf)) = sentence_locks st.
Proof.
  unfold insert_line.
  repeat match goal with
         | |- context [match ?x with _ => _ end] => destruct x; try reflexivity
         end.
Qed.

Lemma etirw_commit_locks (st : ss_state) (fd : Z) (username : string) (now : Z)
    (file : string) (t : Z) :
  sentence_locks (fst (etirw_commit st fd username now file t))
  = remove_sentence_lock (sentence_locks st) file t fd.
Proof.
  unfold etirw_commit. simpl.
  destruct (files_dir st !! swap_name file t fd); simpl; [|reflexivity].
  now rewrite create_file_backup_locks.
Qed.

(** What one handled line does to the lock list. *)
Lemma client_handler_step_locks (st st' : ss_state) (fd : Z) (username : string)
    (now : Z) (buf : string) (r : reply) :
  client_handler_step st fd username now buf = Some (st', r) ->
  (exists file t,
      get_client_write_info (sentence_locks st) fd = Some (file, t)
      /\ sentence_locks st' = remove_sentence_lock (sentence_locks st) file t fd)
  \/ sentence_locks st' = sentence_locks st
  \/ (get_client_write_info (sentence_locks st) fd = None
      /\ exists file t, sentence_locks st' = add_sentence_lock (sentence_locks st) file t fd).
Proof.
  unfold client_handler_step.
  destruct (get_client_write_info (sentence_locks st) fd) as [[file t]|] eqn:Einfo.
  - destruct (has_prefix "ETIRW" buf); intros H0;
      apply (f_equal (fun o => match o with
                               | Some p => sentence_locks (fst p)
                               | None => []
                               end)) in H0; cbv beta iota in H0.
    + left. exists file, t. split; [reflexivity|].
      rewrite etirw_commit_locks in H0. symmetry. exact H0.
    + right; left.
      rewrite insert_line_locks in H0. symmetry. exact H0.
  - destruct (parse_command buf) as [[cmd args]|]; [|discriminate].
    destruct (_ && _); [discriminate|].
    destruct (has_prefix "WRITE" cmd).
    { intros [= H0]. unfold write_command in H0.
      destruct (parse_write buf) as [[fname sentence]|];
        [|right; left; inversion H0; reflexivity].
      destruct (files_dir st !! fname); [|right; left; inversion H0; reflexivity].
      destruct (sentence <? 1)%Z; [right; left; inversion H0; reflexivity|].
      destruct (_ <? sentence)%Z; [right; left; inversion H0; reflexivity|].
      destruct (is_sentence_locked _ _ _ _); [right; left; inversion H0; reflexivity|].
      right; right. split; [reflexivity|]. exists fname, sentence.
      inversion H0. reflexivity. }
    destruct (_ && _).
    { intros [= H0]. right; left. unfold undo_command in H0.
      destruct (file_locked _ _); [inversion H0; reflexivity|].
      destruct (files_dir st !! _); [|inversion H0; reflexivity].
      pose proof (perform_undo_locks st
                    match args with Some (f, _) => f | None => "" end) as H.
      destruct (perform_undo st _) as [st1 res]; simpl in *.
      destruct (res =? 1)%Z; [inversion H0; subst; exact H|].
      destruct (res =? 0)%Z; inversion H0; subst; exact H. }
    destruct (_ && _); [|discriminate].
    intros [= H0]. right; left. unfold checkpoint_command in H0.
    destruct (parse_checkpoint buf) as [[fname tag]|]; [|inversion H0; reflexivity].
    destruct (file_locked _ _); [inversion H0; reflexivity|].
    destruct (files_dir st !! _); [|inversion H0; reflexivity].
    pose proof (create_checkpoint_locks st fname tag username now) as H.
    destruct (create_checkpoint st fname tag username now) as [st1 res]; simpl in *.
    destruct (res =? 1)%Z; [inversion H0; subst; exact H|].
    destruct (res =? -2)%Z; inversion H0; subst; exact H.
Qed.

Lemma ss_step_one_lock (st st' : ss_state) :
  (forall fd, locks_held (sentence_locks st) fd <= 1) ->
  ss_step st st' ->
  forall fd, locks_held (sentence_locks st') fd <= 1.
Proof.
  intros Hinv Hstep fd. destruct Hstep as [st fd0 username now buf st' r Hs | st st' Hl | st fd0].
  - apply client_handler_step_locks in Hs
      as [(file & t & _ & ->) | [-> | (Hnone & file & t & ->)]].
    + etransitivity; [apply held_remove_le | apply Hinv].
    + apply Hinv.
    + simpl. destruct (fd0 =? fd)%Z eqn:E.
      * apply Z.eqb_eq in E. subst fd0. rewrite (write_info_none _ _ Hnone). lia.
      * simpl. apply Hinv.
  - rewrite Hl. apply Hinv.
  - simpl. etransitivity;
      [apply (held_remove_client (sentence_locks st) fd0 fd) | apply Hinv].
Qed.

Lemma write_line_is_no_insert (buf : string) :
  has_prefix "WRITE" buf = true ->
  has_prefix "ETIRW" buf = false /\ parse_insert_line buf = None.
Proof.
  destruct buf as [|c buf]; [discriminate|].
  intros H. assert (Hc : c = "W"%char).
  { cbn [has_prefix] in H. apply andb_true_iff in H as [H _].
    apply Ascii.eqb_eq in H. congruence. }
  subst c. split; reflexivity.
Qed.

End LockFacts.



(** C3. Undo monotonicity, as the code runs it. The log line written by a
    commit has three fields, and [%127[^|]] reads its user field up to the
    end of the line, newline included; the rewritten log then carries the
    used bit on a line of its own, which the next [perform_undo] cannot
    parse. So the used bit is never read back: after one commit the second
    undo is answered [OK_200 UNDO COMPLETED] instead of 'no history', and
    after two commits (at different seconds) two undos leave the text of
    after the first commit, not the initial one. *)
Theorem C3_undo_used_bit_is_lost :
  replies_after s3_a (s3_write_big ++ [ (4%Z, "u", 106%Z, "UNDO a"); (4%Z, "u", 107%Z, "UNDO a") ])
  = Some [ OK_200_WRITE_MODE_ENABLED; INSERT_REPLY (CONTENT_INSERTED "one big. two.");
           OK_200_WRITE_COMPLETED; OK_200_UNDO_COMPLETED; OK_200_UNDO_COMPLETED ]
  /\ undo_log_after s3_a (s3_write_big ++ [ (4%Z, "u", 106%Z, "UNDO a") ]) "a"
     = Some ("102|a_102.bak|u" +:+ newline +:+ "|1" +:+ newline)
  /\ omap parse_backup_line
       (fgets_all 100 1024 ("102|a_102.bak|u" +:+ newline +:+ "|1" +:+ newline))
     = [ {| timestamp := 102; backup_name := "a_102.bak"; user := "u" +:+ newline;
            used := 0 |} ]
  /\ file_after s3_a (s3_write_big ++ s3_write_more) "a" = Some "one big. two more."
  /\ file_after s3_a
       (s3_write_big ++ s3_write_more
        ++ [ (4%Z, "u", 106%Z, "UNDO a"); (4%Z, "u", 107%Z, "UNDO a") ]) "a"
     = Some "one big. two.".
Proof. repeat split; vm_compute; reflexivity. Qed.

(** C6. Undo under lock, as the code runs it. The UNDO command of a direct
    client is refused while a lock on the file is held, and leaves the state
    as it is; the MSG_UNDO case of [handle_ns_commands] calls [perform_undo]
    without looking at the lock list, restores the backup and acknowledges. *)
Theorem C6_ns_undo_ignores_locks :
  file_locked (sentence_locks s6_locked) "doc" = true
  /\ files_dir s6_locked !! "doc" = Some "Hello world cruel. Goodbye world."
  /\ client_handler_step s6_locked 6 "C" 104 "UNDO doc"
     = Some (s6_locked, ERR_409_cannot_undo_being_edited)
  /\ snd (handle_ns_undo s6_locked "doc") = true
  /\ files_dir (fst (handle_ns_undo s6_locked "doc")) !! "doc"
     = Some "Hello world. Goodbye world."
  /\ sentence_locks (fst (handle_ns_undo s6_locked "doc")) = sentence_locks s6_locked.
Proof. repeat split; vm_compute; reflexivity. Qed.

(** The direct UNDO command is refused under a lock, whatever the state. *)
Lemma direct_undo_refused_under_lock (st : ss_state) (fname : string) :
  file_locked (sentence_locks st) fname = true ->
  undo_command st fname = (st, ERR_409_cannot_undo_being_edited).
Proof. intros H. unfold undo_command. now rewrite H. Qed.

(** C7. Checkpoint tags, as the code runs it. The checkpoint of file F with
    tag T is the file [F_T.checkpoint], and the conflict test is the
    existence of that file: the checkpoint 'b_c' of file 'a' makes the first
    checkpoint 'c' of file 'a_b' fail with the conflict, and nothing is
    recorded for 'a_b'. *)
Theorem C7_checkpoint_name_collision :
  checkpoint_name "a" "b_c" = checkpoint_name "a_b" "c"
  /\ match run_lines s7_files
             [ (4%Z, "u", 100%Z, "CHECKPOINT a b_c");
               (4%Z, "u", 101%Z, "CHECKPOINT a_b c") ] with
     | Some (st, rs) =>
         rs = [ OK_200_CHECKPOINT_CREATED; ERR_409_checkpoint_tag_exists ]
         /\ checkpoint_meta_dir st !! checkpoint_meta_name "a_b" = None
         /\ checkpoints_dir st !! checkpoint_name "a_b" "c" = Some "x"
     | None => False
     end.
Proof. repeat split; vm_compute; reflexivity. Qed.

(** Without a file of that name in [checkpoints/], the checkpoint is made:
    the live bytes are copied and one meta line is appended. *)
Lemma create_checkpoint_fresh (st : ss_state) (file tag username content : string)
    (now : Z) :
  files_dir st !! file = Some content ->
  checkpoints_dir st !! checkpoint_name file tag = None ->
  snd (create_checkpoint st file tag username now) = 1%Z
  /\ checkpoints_dir (fst (create_checkpoint st file tag username now))
       !! checkpoint_name file tag = Some (fread_content content)
  /\ checkpoint_meta_dir (fst (create_checkpoint st file tag username now))
       !! checkpoint_meta_name file
     = Some (default "" (checkpoint_meta_dir st !! checkpoint_meta_name file)
             +:+ fmt_d now +:+ "|" +:+ tag +:+ "|" +:+ username +:+ "|"
             +:+ fmt_d (Z.of_nat (strlen (fread_content content))) +:+ newline).
Proof.
  intros Hf Hc. unfold create_checkpoint. rewrite Hf, Hc. simpl.
  repeat split.
  - apply lookup_insert_eq.
  - unfold append_file. apply lookup_insert_eq.
Qed.

Lemma create_checkpoint_conflict (st : ss_state) (file tag username content old : string)
    (now : Z) :
  files_dir st !! file = Some content ->
  checkpoints_dir st !! checkpoint_name file tag = Some old ->
  create_checkpoint st file tag username now = (st, (-2)%Z).
Proof. intros Hf Hc. unfold create_checkpoint. now rewrite Hf, Hc. Qed.

(* ===================================================================== *)
(** * Name server properties                                              *)
(* ===================================================================== *)

(** C2. Delete authorisation, as the code runs it. The walks of
    [search_add_file] and [find_file_record] skip a byte above 127, the walk
    of [search_delete_file] answers 'not found' at such a byte: a file that
    was created under such a name is found by [search_find_file] and its
    owner passes [search_check_permission], but the owner's delete request
    is answered 'File not found' and the record stays. *)
Theorem C2_delete_rejects_high_bytes :
  snd (search_find_file ns_with_c3 name_c3 10) = 0%Z
  /\ search_check_permission ns_with_c3 name_c3 "alice" PERM_WRITE = true
  /\ handle_delete_request ns_with_c3 name_c3 "alice" = (ns_with_c3, ERROR_file_not_found)
  /\ (owner_username <$> find_file_record (trie ns_with_c3) name_c3) = Some "alice".
Proof. repeat split; vm_compute; reflexivity. Qed.

Section DeleteFacts.

Lemma strict_path_skip (name p : string) :
  strict_path name = Some p -> skip_path name = p /\ p = name.
Proof.
  revert p. induction name as [|ch name IH]; intros p; simpl.
  - intros [= <-]. split; reflexivity.
  - destruct (out_of_range ch); [discriminate|].
    destruct (strict_path name) as [q|]; [|discriminate].
    intros [= <-]. destruct (IH q eq_refl) as [-> ->]. split; reflexivity.
Qed.

(** For a name of bytes below 128 the delete request does what C2 says of
    the index: the owner, and only the owner, removes the record and gets
    its storage server; afterwards the trie has no record of that name. *)
Lemma delete_in_range (st : ns_state) (name user : string) :
  strict_path name = Some name ->
  match find_file_record (trie st) name with
  | None => handle_delete_request st name user = (st, ERROR_file_not_found)
  | Some record =>
      if String.eqb (owner_username record) user then
        ss_index record <> (-1)%Z -> ss_index record <> (-2)%Z ->
        snd (handle_delete_request st name user) = ACK_deleted (ss_index record)
        /\ find_file_record (trie (fst (handle_delete_request st name user))) name = None
      else handle_delete_request st name user = (st, ERROR_access_denied)
  end.
Proof.
  intros Hp. destruct (strict_path_skip name name Hp) as [Hs _].
  unfold find_file_record, handle_delete_request, search_delete_file.
  rewrite Hp, Hs.
  destruct (trie st !! name) as [record|] eqn:E; [|reflexivity].
  destruct (String.eqb (owner_username record) user); simpl; [|reflexivity].
  intros H1 H2.
  destruct (ss_index record =? -1)%Z eqn:E1; [apply Z.eqb_eq in E1; contradiction|].
  destruct (ss_index record =? -2)%Z eqn:E2; [apply Z.eqb_eq in E2; contradiction|].
  simpl. split; [reflexivity | apply lookup_delete_eq].
Qed.

Lemma cache_find_Some (es : list CacheEntry) :
  forall k name i,
    cache_find k es name = Some i ->
    k <= i /\ exists e, es !! (i - k) = Some e /\ is_valid e = true
                        /\ cache_filename e = name.
Proof.
  induction es as [|e es IH]; intros k name i; simpl; [discriminate|].
  destruct (is_valid e && String.eqb (cache_filename e) name) eqn:E.
  - intros [= <-]. apply andb_true_iff in E as [Ev En]. apply String.eqb_eq in En.
    split; [lia|]. exists e. rewrite Nat.sub_diag. now repeat split.
  - intros H. apply IH in H as (Hk & e' & H1 & H2 & H3). split; [lia|].
    exists e'. replace (i - k) with (S (i - S k)) by lia. now repeat split.
Qed.

Lemma cache_find_None (es : list CacheEntry) :
  forall k name,
    (forall j e, es !! j = Some e -> is_valid e = true -> cache_filename e <> name) ->
    cache_find k es name = None.
Proof.
  induction es as [|e es IH]; intros k name H; simpl; [reflexivity|].
  destruct (is_valid e && String.eqb (cache_filename e) name) eqn:E.
  - apply andb_true_iff in E as [Ev En]. apply String.eqb_eq in En.
    now destruct (H 0 e eq_refl Ev).
  - apply IH. intros j e' Hj. exact (H (S j) e' Hj).
Qed.

(** After [cache_invalidate] a lookup of the name misses. *)
Lemma cache_invalidate_gone (c : list CacheEntry) (name : string) :
  cache_unique c -> cache_find 0 (cache_invalidate c name) name = None.
Proof.
  intros Hu. unfold cache_invalidate.
  destruct (cache_find 0 c name) as [i|] eqn:Ef.
  - destruct (cache_find_Some c 0 name i Ef) as (_ & e & Hi & Hv & Hn).
    rewrite Nat.sub_0_r in Hi. rewrite Hi.
    apply cache_find_None. intros j e' Hj Hv' Hn'.
    destruct (decide (i = j)) as [->|Hne].
    + rewrite list_lookup_insert_eq in Hj by (eapply lookup_lt_Some; exact Hi).
      injection Hj as <-. discriminate.
    + rewrite list_lookup_insert_ne in Hj by assumption.
      apply Hne. apply (Hu i j e e'); congruence.
  - exact Ef.
Qed.

(** For a name of bytes below 128: after the owner's delete request the
    cache has no entry of that name and [search_find_file] answers -1. *)
Lemma delete_then_find_none (st : ns_state) (name user : string) (record : FileRecord)
    (now : Z) :
  strict_path name = Some name ->
  find_file_record (trie st) name = Some record ->
  owner_username record = user ->
  ss_index record <> (-1)%Z -> ss_index record <> (-2)%Z ->
  cache_unique (cache st) ->
  cached (fst (handle_delete_request st name user)) name = false
  /\ snd (search_find_file (fst (handle_delete_request st name user)) name now) = (-1)%Z.
Proof.
  intros Hp Hr Ho H1 H2 Hu. destruct (strict_path_skip name name Hp) as [Hs _].
  unfold find_file_record in Hr. rewrite Hs in Hr.
  unfold handle_delete_request, search_delete_file. rewrite Hp, Hr.
  assert (Eo : String.eqb (owner_username record) user = true) by now apply String.eqb_eq.
  rewrite Eo. cbn [negb].
  destruct (ss_index record =? -1)%Z eqn:E1; [apply Z.eqb_eq in E1; contradiction|].
  destruct (ss_index record =? -2)%Z eqn:E2; [apply Z.eqb_eq in E2; contradiction|].
  cbn [fst].
  pose proof (cache_invalidate_gone (cache st) name Hu) as Hgone.
  set (st' := set_cache _ _).
  assert (Hc : cache st' = cache_invalidate (cache st) name) by reflexivity.
  assert (Ht : trie st' = delete name (trie st)) by reflexivity.
  clearbody st'.
  split; [unfold cached; now rewrite Hc, Hgone|].
  unfold search_find_file, cache_lookup, find_file_record.
  rewrite Hc, Hgone, Ht, Hs, lookup_delete_eq. reflexivity.
Qed.

End DeleteFacts.

(** C5. Folder rename cascade, as the code runs it. [starts_with] is a
    plain prefix test: moving folder 'a' to 'c' rewrites the folder of 'f1'
    from 'a' to 'c', and it also rewrites the folder 'ab' of 'f2', which has
    'a' as a prefix but not as a leading path segment, to 'c/b'. *)
Theorem C5_move_folder_plain_prefix :
  folder_of ns_folders "f1" = Some "a"
  /\ folder_of ns_folders "f2" = Some "ab"
  /\ snd (search_move_folder ns_folders "a" "c" "alice" 4096) = 2%Z
  /\ folder_of (fst (search_move_folder ns_folders "a" "c" "alice" 4096)) "f1" = Some "c"
  /\ folder_of (fst (search_move_folder ns_folders "a" "c" "alice" 4096)) "f2" = Some "c/b"
  /\ starts_with "ab" "a" = true.
Proof. repeat split; vm_compute; reflexivity. Qed.

Section MoveFacts.

(** After a successful move every record is the image of the old one under
    [move_record]; a folder without the prefix [src] is kept. *)
Lemma move_folder_records (st : ns_state) (src dst owner : string) (max_updates : nat)
    (p : string) :
  snd (search_move_folder st src dst owner max_updates) <> (-1)%Z ->
  trie (fst (search_move_folder st src dst owner max_updates)) !! p
  = move_record src dst <$> trie st !! p.
Proof.
  unfold search_move_folder.
  destruct (folder_find 0 (folder_registry st) src) as [i|]; [|simpl; congruence].
  destruct (folder_registry st !! i) as [f|]; [|simpl; congruence].
  destruct (negb _); [simpl; congruence|].
  destruct (folder_find 0 (folder_registry st) dst); [simpl; congruence|].
  intros _. simpl. apply lookup_fmap.
Qed.

Lemma move_record_other (src dst : string) (r : FileRecord) :
  starts_with (folder r) src = false -> move_record src dst r = r.
Proof. intros H. unfold move_record. now rewrite H. Qed.

Lemma drop_bytes_app (a b : string) : drop_bytes (strlen a) (a +:+ b) = b.
Proof.
  induction a as [|c a IH]; [now destruct b|].
  rewrite app_str_cons. exact IH.
Qed.

Lemma has_prefix_app (a b : string) : has_prefix a (a +:+ b) = true.
Proof.
  induction a as [|c a IH]; [reflexivity|].
  rewrite app_str_cons. cbn [has_prefix]. now rewrite Ascii.eqb_refl.
Qed.

(** A folder equal to [src], or below it, is moved to [dst], or below it. *)
Lemma move_record_aligned (src dst rest : string) (r : FileRecord) :
  src <> "" ->
  (folder r = src /\ String.length dst <= 255
   -> move_record src dst r = set_folder r dst)
  /\ (folder r = src +:+ "/" +:+ rest /\ rest <> ""
      /\ String.length (dst +:+ "/" +:+ rest) <= 255
      -> move_record src dst r = set_folder r (dst +:+ "/" +:+ rest)).
Proof.
  intros Hsrc.
  assert (E0 : (strlen src =? 0)%nat = false).
  { apply Nat.eqb_neq. intros E. apply Hsrc. now apply length_zero_str. }
  split.
  - intros [Hf Hd]. unfold move_record, starts_with, moved_folder. rewrite Hf, E0.
    pose proof (has_prefix_app src "") as Hp. pose proof (drop_bytes_app src "") as Hd'.
    rewrite app_str_nil_r in Hp, Hd'. rewrite Hp, Hd'.
    change (0 <? strlen "")%nat with false. cbv iota.
    rewrite (take_bytes_all 255 dst Hd). now rewrite (take_bytes_all 255 dst Hd).
  - intros (Hf & Hrest & Hlen). unfold move_record, starts_with, moved_folder.
    rewrite Hf, E0, has_prefix_app, drop_bytes_app.
    change ("/" +:+ rest) with (String "/" rest). cbv iota.
    rewrite (strlen_pos rest Hrest).
    rewrite (take_bytes_all 255 _ Hlen). now rewrite (take_bytes_all 255 _ Hlen).
Qed.

End MoveFacts.

Section CacheFacts.

Lemma cache_add_length (c : list CacheEntry) (name : string) (ss now : Z) :
  length (cache_add c name ss now) = length c.
Proof. unfold cache_add. apply length_insert. Qed.

Lemma cache_lookup_length (c : list CacheEntry) (name : string) (now : Z) :
  length (fst (cache_lookup c name now)) = length c.
Proof.
  unfold cache_lookup. destruct (cache_find 0 c name) as [i|]; [|reflexivity].
  destruct (c !! i); [|reflexivity]. simpl. apply length_insert.
Qed.

(** The cache never grows beyond its 16 slots. *)
Lemma search_find_file_cache_length (st : ns_state) (name : string) (now : Z) :
  length (cache (fst (search_find_file st name now))) = length (cache st).
Proof.
  unfold search_find_file.
  pose proof (cache_lookup_length (cache st) name now) as H.
  destruct (cache_lookup (cache st) name now) as [c idx]. simpl in H.
  destruct (negb (idx =? -1)%Z); [exact H|].
  destruct (negb (_ =? -1)%Z); simpl; [|exact H].
  now rewrite cache_add_length.
Qed.

(** The slot search: with an empty slot in front of it, the first empty
    slot; in a full cache a slot whose time stamp is the minimum of
    [oldest_time] and the time stamps seen. *)
Lemma find_slot_spec (es : list CacheEntry) :
  forall i lru_index oldest_time,
    let j := find_slot i es lru_index oldest_time in
    (exists e, es !! (j - i) = Some e /\ i <= j /\ is_valid e = false
               /\ Forall (fun e' => is_valid e' = true) (firstn (j - i) es))
    \/ (Forall (fun e' => is_valid e' = true) es
        /\ ((j = lru_index /\ Forall (fun e' => (oldest_time <= last_used_time e')%Z) es)
            \/ (exists e, es !! (j - i) = Some e /\ i <= j
                          /\ (last_used_time e < oldest_time)%Z
                          /\ Forall (fun e' => (last_used_time e <= last_used_time e')%Z) es))).
Proof.
  induction es as [|e es IH]; intros i lru_index oldest_time; simpl.
  - right. split; [constructor|]. left. split; [reflexivity | constructor].
  - destruct (is_valid e) eqn:Ev; simpl.
    + destruct (last_used_time e <? oldest_time)%Z eqn:Elt.
      * apply Z.ltb_lt in Elt.
        destruct (IH (S i) i (last_used_time e)) as
          [(e1 & H1 & H2 & H3 & H4) | (Hall & [(Hj & Hge) | (e1 & H1 & H2 & H3 & H4)])].
        -- left. exists e1.
           replace (find_slot (S i) es i (last_used_time e) - i)
             with (S (find_slot (S i) es i (last_used_time e) - S i)) by lia.
           simpl. repeat split; [exact H1 | lia | exact H3 |].
           constructor; assumption.
        -- right. split; [constructor; assumption|]. right. exists e.
           rewrite Hj, Nat.sub_diag. simpl.
           repeat split; [lia | exact Elt |]. constructor; [lia | exact Hge].
        -- right. split; [constructor; assumption|]. right. exists e1.
           replace (find_slot (S i) es i (last_used_time e) - i)
             with (S (find_slot (S i) es i (last_used_time e) - S i)) by lia.
           simpl. repeat split; [exact H1 | lia | lia |].
           constructor; [lia | exact H4].
      * apply Z.ltb_ge in Elt.
        destruct (IH (S i) lru_index oldest_time) as
          [(e1 & H1 & H2 & H3 & H4) | (Hall & [(Hj & Hge) | (e1 & H1 & H2 & H3 & H4)])].
        -- left. exists e1.
           replace (find_slot (S i) es lru_index oldest_time - i)
             with (S (find_slot (S i) es lru_index oldest_time - S i)) by lia.
           simpl. repeat split; [exact H1 | lia | exact H3 |].
           constructor; assumption.
        -- right. split; [constructor; assumption|]. left.
           split; [exact Hj|]. constructor; assumption.
        -- right. split; [constructor; assumption|]. right. exists e1.
           replace (find_slot (S i) es lru_index oldest_time - i)
             with (S (find_slot (S i) es lru_index oldest_time - S i)) by lia.
           simpl. repeat split; [exact H1 | lia | exact H3 |].
           constructor; [lia | exact H4].
    + left. exists e. rewrite Nat.sub_diag. simpl.
      repeat split; [lia | exact Ev | constructor].
Qed.

(** In a full cache whose time stamps are not in the future, [cache_add]
    overwrites a slot with the minimum time stamp. *)
Lemma cache_add_evicts_minimum (c : list CacheEntry) (now : Z) (e0 : CacheEntry) :
  c !! 0 = Some e0 ->
  Forall (fun e => is_valid e = true) c ->
  Forall (fun e => (last_used_time e <= now)%Z) c ->
  exists e, c !! find_slot 0 c 0 now = Some e
            /\ Forall (fun e' => (last_used_time e <= last_used_time e')%Z) c.
Proof.
  intros H0 Hvalid Hpast.
  destruct (find_slot_spec c 0 0 now) as
    [(e1 & H1 & _ & H3 & _) | (_ & [(Hj & Hge) | (e1 & H1 & _ & _ & H4)])].
  - exfalso. rewrite Nat.sub_0_r in H1.
    rewrite Forall_forall in Hvalid.
    specialize (Hvalid e1 (list_elem_of_lookup_2 _ _ _ H1)). congruence.
  - exists e0. rewrite Hj. split; [exact H0|].
    rewrite Forall_forall in *. intros e' He'.
    specialize (Hge e' He'). specialize (Hpast e0 (list_elem_of_lookup_2 _ _ _ H0)). lia.
  - exists e1. rewrite Nat.sub_0_r in H1. split; assumption.
Qed.

(** With valid slots that are not older than [oldest_time], the candidate
    stays. *)
Lemma find_slot_keeps (es : list CacheEntry) :
  forall i lru_index oldest_time,
    Forall (fun e => is_valid e = true) es ->
    Forall (fun e => (oldest_time <= last_used_time e)%Z) es ->
    find_slot i es lru_index oldest_time = lru_index.
Proof.
  induction es as [|e es IH]; intros i lru_index oldest_time Hv Ht; [reflexivity|].
  inversion Hv as [|? ? Hv1 Hv2]; subst. inversion Ht as [|? ? Ht1 Ht2]; subst. simpl.
  rewrite Hv1. simpl.
  assert (E : (last_used_time e <? oldest_time)%Z = false) by (apply Z.ltb_ge; lia).
  rewrite E. now apply IH.
Qed.

(** A first slot that holds the minimum time stamp is the one evicted. *)
Lemma find_slot_first_minimum (c : list CacheEntry) (now : Z) (e0 : CacheEntry) :
  c !! 0 = Some e0 ->
  Forall (fun e => is_valid e = true) c ->
  Forall (fun e => (last_used_time e0 <= last_used_time e <= now)%Z) c ->
  find_slot 0 c 0 now = 0.
Proof.
  intros H0 Hv Ht. destruct c as [|e c]; [discriminate|].
  injection H0 as ->.
  inversion Hv as [|? ? Hv1 Hv2]; subst. inversion Ht as [|? ? Ht1 Ht2]; subst. simpl.
  rewrite Hv1. simpl.
  destruct (last_used_time e0 <? now)%Z eqn:E.
  - apply find_slot_keeps; [assumption|].
    eapply Forall_impl; [exact Ht2|]. simpl. intros; lia.
  - apply Z.ltb_ge in E. apply find_slot_keeps; [assumption|].
    eapply Forall_impl; [exact Ht2|]. simpl. intros; lia.
Qed.

Lemma find_slot_first_empty (es : list CacheEntry) :
  forall i k lru_index oldest_time e,
    es !! k = Some e -> is_valid e = false ->
    Forall (fun e' => is_valid e' = true) (firstn k es) ->
    find_slot i es lru_index oldest_time = i + k.
Proof.
  induction es as [|e1 es IH]; intros i k lru_index oldest_time e Hk He Hv; [discriminate|].
  destruct k as [|k]; simpl in *.
  - injection Hk as ->. rewrite He. simpl. lia.
  - inversion Hv as [|? ? Hv1 Hv2]; subst. rewrite Hv1. simpl.
    destruct (_ <? _)%Z; rewrite (IH (S i) k _ _ e Hk He Hv2); lia.
Qed.

Lemma cache_find_app_None (a b : list CacheEntry) (name : string) :
  forall i,
    cache_find i a name = None -> cache_find (i + length a) b name = None ->
    cache_find i (a ++ b) name = None.
Proof.
  induction a as [|e a IH]; intros i Ha Hb; simpl in *.
  - now rewrite Nat.add_0_r in Hb.
  - destruct (is_valid e && String.eqb (cache_filename e) name); [discriminate|].
    apply IH; [exact Ha|]. now replace (S i + length a) with (i + S (length a)) by lia.
Qed.

Lemma cache_find_invalid (n : nat) (name : string) :
  forall i, cache_find i (replicate n empty_slot) name = None.
Proof. induction n as [|n IH]; intros i; simpl; [reflexivity | apply IH]. Qed.

Lemma cache_find_entries (t : gmap string FileRecord) (l : list (string * Z)) (name : string) :
  forall i, name ∉ map fst l -> cache_find i (map (entry_of t) l) name = None.
Proof.
  induction l as [|p l IH]; intros i Hn; simpl; [reflexivity|].
  assert (E : String.eqb (fst p) name = false).
  { apply String.eqb_neq. intros E. apply Hn. simpl. rewrite E. left. }
  rewrite E. apply IH. intros H. apply Hn. simpl. now right.
Qed.

Lemma search_find_file_miss (st : ns_state) (name : string) (now : Z) (r : FileRecord) :
  cache_find 0 (cache st) name = None ->
  find_file_record (trie st) name = Some r -> ss_index r <> (-1)%Z ->
  fst (search_find_file st name now)
  = set_cache st (cache_add (cache st) name (ss_index r) now).
Proof.
  intros Hc Hf Hs. unfold search_find_file, cache_lookup. rewrite Hc, Hf.
  change (negb (-1 =? -1)%Z) with false. cbv iota.
  destruct (ss_index r =? -1)%Z eqn:E; [apply Z.eqb_eq in E; contradiction|].
  reflexivity.
Qed.

Lemma lookups_snoc (st : ns_state) (l : list (string * Z)) (p : string * Z) :
  lookups st (l ++ [p]) = fst (search_find_file (lookups st l) (fst p) (snd p)).
Proof. unfold lookups. rewrite fold_left_app. simpl. now destruct p. Qed.

(** Up to sixteen lookups of distinct files fill the slots in order. *)
Lemma lookups_fill (st : ns_state) (l : list (string * Z)) :
  cache st = init_cache ->
  length l <= CACHE_SIZE ->
  NoDup (map fst l) ->
  Forall (fun p => servable (trie st) (fst p)) l ->
  cache (lookups st l)
  = map (entry_of (trie st)) l ++ replicate (CACHE_SIZE - length l) empty_slot
  /\ trie (lookups st l) = trie st.
Proof.
  intros Hinit. induction l as [|p l IH] using rev_ind; intros Hlen Hnd Hs.
  - split; [exact Hinit | reflexivity].
  - rewrite length_app in Hlen. simpl in Hlen.
    rewrite map_app in Hnd. simpl in Hnd.
    apply NoDup_app in Hnd as (Hnd & Hfresh & _).
    apply Forall_app in Hs as [Hs Hp].
    inversion Hp as [|? ? (Hshort & r & Hr & Hss) _]; subst.
    destruct IH as [IHc IHt]; [lia | assumption | assumption |].
    assert (Hnew : fst p ∉ map fst l).
    { intros H. apply (Hfresh _ H). left. }
    rewrite lookups_snoc.
    rewrite (search_find_file_miss _ _ _ r); [| |now rewrite IHt|exact Hss].
    2:{ rewrite IHc. apply cache_find_app_None; [now apply cache_find_entries|].
        apply cache_find_invalid. }
    split; [|exact IHt]. cbn [cache set_cache]. unfold cache_add.
    rewrite IHc.
    assert (Hk : find_slot 0 (map (entry_of (trie st)) l
                              ++ replicate (CACHE_SIZE - length l) empty_slot) 0 (snd p)
                 = length l).
    { rewrite (find_slot_first_empty _ 0 (length l) 0 (snd p) empty_slot); [lia| |reflexivity|].
      - rewrite lookup_app_r by (rewrite length_map; lia).
        rewrite length_map, Nat.sub_diag.
        destruct (CACHE_SIZE - length l) eqn:E; [lia | reflexivity].
      - rewrite take_app_length' by (now rewrite length_map).
        apply Forall_map. apply Forall_forall. intros; reflexivity. }
    rewrite Hk.
    assert (Hent : {| cache_filename := take_bytes 255 (fst p); cache_ss_index := ss_index r;
                      is_valid := true; last_used_time := snd p |} = entry_of (trie st) p).
    { unfold entry_of. rewrite Hr. now rewrite take_bytes_all. }
    rewrite Hent.
    rewrite insert_app_r_alt by (rewrite length_map; lia).
    rewrite length_map, Nat.sub_diag.
    rewrite map_app, <- app_assoc, length_app. simpl.
    f_equal.
    destruct (CACHE_SIZE - length l) as [|m] eqn:E; [lia|].
    replace (CACHE_SIZE - (length l + 1)) with m by lia.
    reflexivity.
Qed.

Lemma cache_find_present (t : gmap string FileRecord) (l : list (string * Z)) (name : string) :
  forall i, name ∈ map fst l -> exists j, cache_find i (map (entry_of t) l) name = Some j.
Proof.
  induction l as [|p l IH]; intros i Hin; simpl in *.
  - now apply elem_of_nil in Hin.
  - destruct (String.eqb (fst p) name) eqn:E; [now exists i|].
    apply IH. apply elem_of_cons in Hin as [->|H]; [|exact H].
    now rewrite String.eqb_refl in E.
Qed.

(** Seventeen lookups of distinct files, none before the first and none
    after the last: the seventeenth overwrites the first slot. *)
Lemma lookups_evict_first (st : ns_state) (p1 q : string * Z) (l : list (string * Z)) :
  cache st = init_cache ->
  S (length l) = CACHE_SIZE ->
  NoDup (map fst (p1 :: l ++ [q])) ->
  Forall (fun p => servable (trie st) (fst p)) (p1 :: l ++ [q]) ->
  Forall (fun p => (snd p1 <= snd p <= snd q)%Z) (p1 :: l) ->
  cache (lookups st (p1 :: l ++ [q])) = map (entry_of (trie st)) (q :: l).
Proof.
  intros Hinit Hlen Hnd Hs Ht.
  change (p1 :: l ++ [q]) with ((p1 :: l) ++ [q]) in *.
  rewrite map_app in Hnd. apply NoDup_app in Hnd as (Hnd & Hfresh & _).
  apply Forall_app in Hs as [Hs Hq].
  inversion Hq as [|? ? (Hshort & r & Hr & Hss) _]; subst.
  destruct (lookups_fill st (p1 :: l) Hinit) as [Hc Htr];
    [cbn [length]; lia | assumption | assumption |].
  replace (CACHE_SIZE - length (p1 :: l)) with 0 in Hc by (cbn [length]; lia).
  simpl replicate in Hc. rewrite app_nil_r in Hc.
  assert (Hnew : fst q ∉ map fst (p1 :: l)).
  { intros H. apply (Hfresh _ H). left. }
  rewrite lookups_snoc.
  rewrite (search_find_file_miss _ _ _ r); [| |now rewrite Htr|exact Hss].
  2:{ rewrite Hc. now apply cache_find_entries. }
  cbn [cache set_cache]. unfold cache_add. rewrite Hc.
  rewrite (find_slot_first_minimum _ (snd q) (entry_of (trie st) p1)); [|reflexivity| |].
  - cbn [map]. unfold entry_of at 3. rewrite Hr. cbn [fst snd].
    rewrite (take_bytes_all 255 (fst q) Hshort). reflexivity.
  - apply Forall_map. apply Forall_forall. intros; reflexivity.
  - apply Forall_map. exact Ht.
Qed.

End CacheFacts.




Section AclFacts.

Lemma owner_never_in_acl_insert (st : ns_state) (p : string) (r : FileRecord) :
  owner_never_in_acl st -> owner_free r ->
  owner_never_in_acl (set_trie st (<[p := r]> (trie st))).
Proof.
  intros Hinv Hr q r' Hq. cbn [set_trie trie] in Hq.
  destruct (decide (p = q)) as [->|Hne].
  - rewrite lookup_insert_eq in Hq. now injection Hq as <-.
  - rewrite lookup_insert_ne in Hq by assumption. now apply (Hinv q).
Qed.

Lemma owner_free_alter (r : FileRecord) (i : nat) (perm : PermissionType) :
  owner_free r ->
  owner_free (set_acl r (alter (fun e => {| username := username e; permission := perm |})
                           i (acl r))).
Proof.
  unfold owner_free. simpl. intros H.
  rewrite Forall_forall in *. intros e He.
  apply list_elem_of_lookup in He as [k Hk].
  destruct (decide (i = k)) as [->|Hne].
  - rewrite list_lookup_alter_eq in Hk.
    destruct (acl r !! k) as [e0|] eqn:E0; [|discriminate].
    simpl in Hk. injection Hk as <-. simpl.
    apply H. eapply list_elem_of_lookup_2. exact E0.
  - rewrite list_lookup_alter_ne in Hk by assumption.
    apply H. eapply list_elem_of_lookup_2. exact Hk.
Qed.

Lemma owner_free_removelast (r : FileRecord) (i : nat) (e : AclEntry) :
  owner_free r -> last (acl r) = Some e ->
  owner_free (set_acl r (removelast (<[i := e]> (acl r)))).
Proof.
  unfold owner_free. simpl. intros H Hl.
  assert (He : username e <> owner_username r).
  { rewrite Forall_forall in H. apply H.
    rewrite last_lookup in Hl. eapply list_elem_of_lookup_2. exact Hl. }
  assert (Hins : Forall (fun e' => username e' <> owner_username r) (<[i := e]> (acl r))).
  { apply Forall_insert; assumption. }
  revert Hins. generalize (<[i := e]> (acl r)). intros l Hins.
  destruct l as [|x l _] using rev_ind; [constructor|].
  rewrite removelast_last. now apply Forall_app in Hins as [Hins _].
Qed.

End AclFacts.

(** C9. Owner and ACL. The owner of a record stays out of its ACL under
    every ACL operation that does not itself bring the owner in: a grant
    whose target (as stored, its first 63 bytes) is not the owner, a revoke,
    and a rebuild from a manifest entry whose ACL does not name the entry's
    owner; creating a file starts with an empty ACL, and deleting a file or
    moving a folder leaves the ACLs alone. *)
Theorem C9_owner_stays_out_of_acl (st : ns_state) :
  owner_never_in_acl st ->
  (forall name owner target perm,
      take_bytes 63 target <> owner ->
      owner_never_in_acl (fst (search_grant_permission st name owner target perm)))
  /\ (forall name owner target,
        owner_never_in_acl (fst (search_remove_permission st name owner target)))
  /\ (forall ss pl,
        payload_owner_free pl ->
        owner_never_in_acl (search_rebuild_add_file st ss pl))
  /\ (forall name ss owner, owner_never_in_acl (search_add_file st name ss owner))
  /\ (forall name user, owner_never_in_acl (fst (search_delete_file st name user)))
  /\ (forall src dst owner max_updates,
        owner_never_in_acl (fst (search_move_folder st src dst owner max_updates))).
Proof.
  intros Hinv. repeat split.
  - intros name owner target perm Hne. unfold search_grant_permission, find_file_record.
    destruct (trie st !! skip_path name) as [record|] eqn:E; [|exact Hinv].
    destruct (String.eqb (owner_username record) owner) eqn:Eo; cbn [negb]; [|exact Hinv].
    apply String.eqb_eq in Eo.
    pose proof (Hinv _ _ E) as Hr.
    destruct (acl_find 0 (acl record) target) as [i|]; cbn [fst].
    + apply owner_never_in_acl_insert; [exact Hinv|]. now apply owner_free_alter.
    + destruct (MAX_ACL_ENTRIES <=? length (acl record))%nat; cbn [fst]; [exact Hinv|].
      apply owner_never_in_acl_insert; [exact Hinv|].
      unfold owner_free in *. cbn [acl set_acl owner_username].
      apply Forall_app; split; [exact Hr|].
      constructor; [|constructor]. cbn [username]. congruence.
  - intros name owner target. unfold search_remove_permission, find_file_record.
    destruct (trie st !! skip_path name) as [record|] eqn:E; [|exact Hinv].
    destruct (negb _); [exact Hinv|].
    destruct (acl_find 0 (acl record) target) as [i|]; [|exact Hinv].
    destruct (last (acl record)) as [e|] eqn:El; [|exact Hinv]. cbn [fst].
    apply owner_never_in_acl_insert; [exact Hinv|].
    apply owner_free_removelast; [now apply (Hinv _ _ E) | exact El].
  - intros ss pl Hpl. unfold search_rebuild_add_file.
    match goal with
    | |- context [<[_ := ?r]> _] =>
        assert (Hr : owner_free r)
    end.
    { unfold owner_free. cbn [acl owner_username]. unfold payload_owner_free in Hpl.
      rewrite Forall_forall in *. intros e He.
      apply list_elem_of_In, in_map_iff in He as (e0 & <- & Hin). cbn [username].
      now apply Hpl, list_elem_of_In. }
    destruct (trie st !! skip_path (p_filename pl)) as [old|].
    + destruct (ss_index old =? ss)%Z; [|exact Hinv].
      now apply owner_never_in_acl_insert.
    + now apply owner_never_in_acl_insert.
  - intros name ss owner. unfold search_add_file.
    destruct (trie st !! skip_path name); [exact Hinv|].
    apply owner_never_in_acl_insert; [exact Hinv | constructor].
  - intros name user. unfold search_delete_file.
    destruct (strict_path name) as [p|]; [|exact Hinv].
    destruct (trie st !! p) as [record|]; [|exact Hinv].
    destruct (negb _); [exact Hinv|].
    intros q r Hq. cbn [fst set_trie trie] in Hq.
    destruct (decide (p = q)) as [->|Hne].
    + now rewrite lookup_delete_eq in Hq.
    + rewrite lookup_delete_ne in Hq by assumption. now apply (Hinv q).
  - intros src dst owner max_updates. unfold search_move_folder.
    destruct (folder_find 0 (folder_registry st) src) as [i|]; [|exact Hinv].
    destruct (folder_registry st !! i) as [f|]; [|exact Hinv].
    destruct (negb _); [exact Hinv|].
    destruct (folder_find 0 (folder_registry st) dst); [exact Hinv|].
    intros q r Hq. cbn [fst trie] in Hq. rewrite lookup_fmap in Hq.
    destruct (trie st !! q) as [r0|] eqn:E; [|discriminate].
    cbn [fmap option_fmap option_map] in Hq. injection Hq as <-.
    pose proof (Hinv _ _ E) as Hr. unfold move_record.
    destruct (starts_with _ _); exact Hr.
Qed.

Lemma ns_f1_owner_never_in_acl : owner_never_in_acl ns_f1.
Proof.
  intros p r Hp. unfold ns_f1, search_add_file in Hp.
  change (trie init_ns !! skip_path "f1") with (@None FileRecord) in Hp.
  cbn [set_trie trie init_ns] in Hp.
  destruct (decide (skip_path "f1" = p)) as [<-|Hne].
  - rewrite lookup_insert_eq in Hp. injection Hp as <-. constructor.
  - rewrite lookup_insert_ne in Hp by assumption. now rewrite lookup_empty in Hp.
Qed.

(** C9 for alice's file 'f1': a grant to bob and the manifest entry of 'f2'
    with bob in its ACL. *)
Lemma C9_owner_stays_out_of_acl_witness :
  owner_never_in_acl (fst (search_grant_permission ns_f1 "f1" "alice" "bob" PERM_READ))
  /\ owner_never_in_acl (search_rebuild_add_file ns_f1 1 (manifest_f2 ["bob"])).
Proof.
  destruct (C9_owner_stays_out_of_acl ns_f1 ns_f1_owner_never_in_acl)
    as (Hgrant & _ & Hrebuild & _).
  split.
  - apply Hgrant. vm_compute. discriminate.
  - apply Hrebuild. vm_compute. constructor; [discriminate | constructor].
Defined.

(** C9, counterexample to 'grant where the target user equals the owner
    preserves the invariant' and to 'rebuild_add preserves the invariant':
    alice grants READ on her file 'f1' to herself and is then the first
    entry of its ACL; a manifest entry for 'f2' with owner alice and alice in
    its ACL is installed as it is. *)
Lemma C9_owner_enters_acl :
  owner_never_in_acl ns_f1
  /\ snd (search_grant_permission ns_f1 "f1" "alice" "alice" PERM_READ) = 0%Z
  /\ ~ owner_never_in_acl (fst (search_grant_permission ns_f1 "f1" "alice" "alice" PERM_READ))
  /\ ~ owner_never_in_acl (search_rebuild_add_file ns_f1 1 (manifest_f2 ["alice"])).
Proof.
  split; [exact ns_f1_owner_never_in_acl|]. split; [vm_compute; reflexivity|]. split.
  - intros H.
    specialize (H "f1"
      {| filename := "f1"; owner_username := "alice"; ss_index := 0; folder := "";
         word_count := 0; char_count := 0; created := 0; modified := 0;
         last_accessed := 0; last_accessed_by := "";
         acl := [{| username := "alice"; permission := PERM_READ |}] |}
      ltac:(vm_compute; reflexivity)).
    inversion H as [|? ? Hne _]. now apply Hne.
  - intros H.
    specialize (H "f2"
      {| filename := "f2"; owner_username := "alice"; ss_index := 1; folder := "";
         word_count := 0; char_count := 0; created := 0; modified := 0;
         last_accessed := 0; last_accessed_by := "";
         acl := [{| username := "alice"; permission := PERM_READ |}] |}
      ltac:(vm_compute; reflexivity)).
    inversion H as [|? ? Hne _]. now apply Hne.
Qed.

(* ===================================================================== *)
(** * Properties of the further parts                                     *)
(* ===================================================================== *)

Section SwapRemove.

Context {A : Type}.

(** Removal by copying the last element over the removed one, as the user
    list and both ACL tables do it: up to order it is the removal. *)
Lemma swap_remove_perm (l : list A) (i : nat) (x y : A) :
  l !! i = Some x -> last l = Some y ->
  removelast (<[i := y]> l) ≡ₚ delete i l.
Proof.
  intros Hi Hl.
  destruct l as [|z l _] using rev_ind; [discriminate|].
  rewrite last_snoc in Hl. injection Hl as ->.
  destruct (decide (i = length l)) as [->|Hne].
  - rewrite insert_app_r_alt by lia. rewrite Nat.sub_diag. cbn [insert list_insert].
    rewrite removelast_last, delete_middle, app_nil_r. reflexivity.
  - assert (Hlt : i < length l).
    { apply lookup_lt_Some in Hi. rewrite length_app in Hi. simpl in Hi. lia. }
    rewrite insert_app_l by assumption. rewrite removelast_last.
    rewrite (delete_take_drop (l ++ [y])), insert_take_drop by assumption.
    rewrite take_app_le, drop_app_le by lia.
    apply Permutation_app_head. apply Permutation_cons_append.
Qed.

Lemma swap_remove_elem (l : list A) (i : nat) (x y v : A) :
  NoDup l -> l !! i = Some x -> last l = Some y ->
  v ∈ removelast (<[i := y]> l) <-> v ∈ l /\ v <> x.
Proof.
  intros Hnd Hi Hl. rewrite (swap_remove_perm l i x y Hi Hl).
  pose proof (delete_Permutation l i x Hi) as Hp.
  rewrite Hp in Hnd. apply NoDup_cons in Hnd as [Hx _].
  rewrite (elem_of_Permutation_proper v _ _ Hp), elem_of_cons.
  split.
  - intros Hv. split; [now right|]. intros ->. contradiction.
  - intros [[->|Hv] Hne]; [contradiction | exact Hv].
Qed.

Lemma swap_remove_NoDup (l : list A) (i : nat) (x y : A) :
  NoDup l -> l !! i = Some x -> last l = Some y ->
  NoDup (removelast (<[i := y]> l)).
Proof.
  intros Hnd Hi Hl. rewrite (swap_remove_perm l i x y Hi Hl).
  rewrite (delete_Permutation l i x Hi) in Hnd. now apply NoDup_cons in Hnd as [_ H].
Qed.

Lemma swap_remove_length (l : list A) (i : nat) (x y : A) :
  l !! i = Some x -> last l = Some y ->
  S (length (removelast (<[i := y]> l))) = length l.
Proof.
  intros Hi Hl. rewrite (swap_remove_perm l i x y Hi Hl).
  now rewrite (Permutation_length (delete_Permutation l i x Hi)).
Qed.

End SwapRemove.

Section UserFacts.

Lemma user_find_spec (users : list string) (username : string) :
  forall i,
    match user_find i users username with
    | Some j => exists k, j = i + k /\ users !! k = Some username
    | None => username ∉ users
    end.
Proof.
  induction users as [|u users IH]; intros i; simpl.
  - apply not_elem_of_nil.
  - destruct (String.eqb u username) eqn:E.
    + apply String.eqb_eq in E as ->. exists 0. split; [lia | reflexivity].
    + apply String.eqb_neq in E. specialize (IH (S i)).
      destruct (user_find (S i) users username) as [j|].
      * destruct IH as (k & -> & Hk). exists (S k). split; [lia | exact Hk].
      * rewrite elem_of_cons. intros [->|H]; [now apply E | contradiction].
Qed.

Lemma users_ok_last (users : list string) (y : string) :
  users_ok users -> last users = Some y -> take_bytes 63 y = y.
Proof.
  intros (_ & _ & Hlen) Hl. apply take_bytes_all.
  rewrite Forall_forall in Hlen. apply Hlen.
  rewrite last_lookup in Hl. eapply list_elem_of_lookup_2. exact Hl.
Qed.

Lemma deregister_cases (users : list string) (username : string) :
  users_ok users ->
  ((username ∉ users) /\ user_manager_deregister users username = users)
  \/ (exists i y, users !! i = Some username /\ last users = Some y
                  /\ user_manager_deregister users username
                     = removelast (<[i := y]> users)).
Proof.
  intros Hok. unfold user_manager_deregister.
  pose proof (user_find_spec users username 0) as Hf.
  destruct (user_find 0 users username) as [j|].
  - destruct Hf as (k & -> & Hk). right.
    destruct (last users) as [y|] eqn:Hl.
    + exists k, y. rewrite (users_ok_last users y Hok Hl). auto.
    + apply last_None in Hl. subst. discriminate.
  - left. split; [exact Hf | reflexivity].
Qed.

End UserFacts.

(** X1. The list of active users stays free of duplicates, within its 50
    slots and with names of at most 63 bytes, under login and logout. *)
Theorem X1_active_users_invariant (users : list string) (username : string) :
  users_ok users -> String.length username <= 63 ->
  users_ok (user_manager_register users username)
  /\ users_ok (user_manager_deregister users username).
Proof.
  intros Hok Hlen. split.
  - unfold user_manager_register.
    destruct (MAX_ACTIVE_USERS <=? length users)%nat eqn:Efull; [exact Hok|].
    apply Nat.leb_gt in Efull.
    pose proof (user_find_spec users username 0) as Hf.
    destruct (user_find 0 users username); [exact Hok|].
    destruct Hok as (Hnd & Hcap & Hall).
    rewrite (take_bytes_all 63 username Hlen).
    split; [|split].
    + apply NoDup_app. split; [exact Hnd|]. split; [|apply NoDup_singleton].
      intros x Hx Hx'. apply list_elem_of_singleton in Hx' as ->. contradiction.
    + rewrite length_app. simpl. lia.
    + apply Forall_app. split; [exact Hall|]. now constructor.
  - destruct (deregister_cases users username Hok) as [[_ ->]|(i & y & Hi & Hl & ->)];
      [exact Hok|].
    destruct Hok as (Hnd & Hcap & Hall).
    split; [|split].
    + now apply (swap_remove_NoDup users i username y).
    + pose proof (swap_remove_length users i username y Hi Hl). lia.
    + rewrite Forall_forall in *. intros v Hv.
      apply (swap_remove_elem users i username y v Hnd Hi Hl) in Hv as [Hv _].
      now apply Hall.
Qed.

Lemma X1_active_users_invariant_witness :
  users_ok (user_manager_register ["alice"; "bob"] "carol")
  /\ users_ok (user_manager_deregister ["alice"; "bob"] "carol").
Proof.
  apply (X1_active_users_invariant ["alice"; "bob"] "carol").
  - split; [|split].
    + repeat (apply NoDup_cons; split; [intros H; repeat (apply elem_of_cons in H as [H|H]; [discriminate|]); now apply elem_of_nil in H|]).
      apply NoDup_nil. exact I.
    + unfold MAX_ACTIVE_USERS. simpl. lia.
    + repeat (constructor; [simpl; lia|]). constructor.
  - simpl. lia.
Defined.

(** X2. Logout removes exactly the given user from the list of active
    users, whatever slot it held; login adds exactly the given user unless
    the 50 slots are taken, and then changes nothing. *)
Theorem X2_active_users_membership (users : list string) (username v : string) :
  users_ok users -> String.length username <= 63 ->
  (v ∈ user_manager_deregister users username <-> v ∈ users /\ v <> username)
  /\ (v ∈ user_manager_register users username
      <-> v ∈ users \/ (v = username /\ length users < MAX_ACTIVE_USERS)).
Proof.
  intros Hok Hlen. split.
  - destruct (deregister_cases users username Hok) as [[Hno ->]|(i & y & Hi & Hl & ->)].
    + split; [|tauto]. intros Hv. split; [exact Hv|]. intros ->. contradiction.
    + destruct Hok as (Hnd & _). apply (swap_remove_elem users i username y v Hnd Hi Hl).
  - unfold user_manager_register.
    destruct (MAX_ACTIVE_USERS <=? length users)%nat eqn:Efull.
    + apply Nat.leb_le in Efull. split; [tauto|]. intros [H|[_ H]]; [exact H | lia].
    + apply Nat.leb_gt in Efull.
      pose proof (user_find_spec users username 0) as Hf.
      destruct (user_find 0 users username).
      * destruct Hf as (k & _ & Hk). split; [tauto|].
        intros [H|[-> _]]; [exact H|]. eapply list_elem_of_lookup_2. exact Hk.
      * rewrite (take_bytes_all 63 username Hlen), elem_of_app, list_elem_of_singleton.
        split; [intros [H|H]; auto | intros [H|[H _]]; auto].
Qed.

Lemma X2_active_users_membership_witness :
  ("bob" ∈ user_manager_deregister ["alice"; "bob"; "carol"] "alice"
   <-> "bob" ∈ ["alice"; "bob"; "carol"] /\ "bob" <> "alice")
  /\ ("bob" ∈ user_manager_register ["alice"; "bob"; "carol"] "alice"
      <-> "bob" ∈ ["alice"; "bob"; "carol"]
          \/ ("bob" = "alice" /\ length ["alice"; "bob"; "carol"] < MAX_ACTIVE_USERS)).
Proof.
  apply (X2_active_users_membership ["alice"; "bob"; "carol"] "alice" "bob").
  - split; [|split].
    + repeat (apply NoDup_cons; split; [intros H; repeat (apply elem_of_cons in H as [H|H]; [discriminate|]); now apply elem_of_nil in H|]).
      apply NoDup_nil. exact I.
    + unfold MAX_ACTIVE_USERS. simpl. lia.
    + repeat (constructor; [simpl; lia|]). constructor.
  - simpl. lia.
Defined.

(** X3. The user list sent to a client has fewer bytes than the buffer and
    consists of whole lines, one per user in the order of the list; it holds
    every user when all the lines fit. *)
Theorem X3_user_list_whole_lines (users : list string) (buffer_size : nat) :
  0 < buffer_size ->
  let out := user_manager_get_list users buffer_size "" in
  String.length out < buffer_size
  /\ (exists k, out = lines_of (take k users))
  /\ (String.length (lines_of users) < buffer_size -> out = lines_of users).
Proof.
  intros Hpos.
  assert (H : forall acc,
             String.length acc < buffer_size ->
             let out := user_manager_get_list users buffer_size acc in
             String.length out < buffer_size
             /\ (exists k, out = acc +:+ lines_of (take k users))
             /\ (String.length (acc +:+ lines_of users) < buffer_size
                 -> out = acc +:+ lines_of users)).
  { induction users as [|u users IH]; intros acc Hacc; cbn [user_manager_get_list].
    - split; [exact Hacc|]. split; [exists 0|]; cbn [lines_of fold_right take];
        now rewrite app_str_nil_r.
    - destruct (buffer_size <=? strlen acc + (strlen u + 1))%nat eqn:E.
      + apply Nat.leb_le in E. split; [exact Hacc|]. split.
        * exists 0. cbn [take lines_of fold_right]. now rewrite app_str_nil_r.
        * cbn [lines_of fold_right]. rewrite !length_app_str. unfold strlen in E.
          unfold newline. simpl String.length. lia.
      + apply Nat.leb_gt in E.
        assert (Hacc' : String.length (acc +:+ u +:+ newline) < buffer_size).
        { rewrite !length_app_str. unfold strlen in E. unfold newline.
          simpl String.length. lia. }
        destruct (IH (acc +:+ u +:+ newline) Hacc') as (H1 & (k & H2) & H3).
        fold newline.
        assert (Hshape : forall rest, (acc +:+ u +:+ newline) +:+ rest
                                      = acc +:+ u +:+ newline +:+ rest).
        { intros rest. now rewrite !app_str_assoc. }
        split; [exact H1|]. split.
        * exists (S k). cbn [take lines_of fold_right]. rewrite H2. apply Hshape.
        * cbn [lines_of fold_right]. intros Hfit. rewrite <- Hshape in Hfit.
          rewrite (H3 Hfit). apply Hshape. }
  intros out. subst out. destruct (H "" ltac:(simpl; lia)) as (H1 & (k & H2) & H3).
  split; [exact H1|]. split; [exists k; exact H2|]. exact H3.
Qed.

Lemma X3_user_list_whole_lines_witness :
  let out := user_manager_get_list ["alice"; "bob"; "carol"] 12 "" in
  String.length out < 12
  /\ (exists k, out = lines_of (take k ["alice"; "bob"; "carol"]))
  /\ (String.length (lines_of ["alice"; "bob"; "carol"]) < 12
      -> out = lines_of ["alice"; "bob"; "carol"]).
Proof. apply (X3_user_list_whole_lines ["alice"; "bob"; "carol"] 12). lia. Defined.

Section RegistryFacts.

Lemma find_next_active_from_spec (registry : list StorageServerInfo) (start_index : nat) :
  forall k i,
    match find_next_active_from registry start_index i k with
    | Some index =>
        exists t, i <= t < i + k
                  /\ index = (start_index + t) mod MAX_STORAGE_SERVERS
                  /\ (exists s, registry !! index = Some s /\ is_active s = true)
                  /\ forall t', i <= t' < t ->
                       ~ exists s, registry !! ((start_index + t') mod MAX_STORAGE_SERVERS) = Some s
                                   /\ is_active s = true
    | None =>
        forall t, i <= t < i + k ->
          ~ exists s, registry !! ((start_index + t) mod MAX_STORAGE_SERVERS) = Some s
                      /\ is_active s = true
    end.
Proof.
  induction k as [|k IH]; intros i; cbn [find_next_active_from].
  - intros t Ht. lia.
  - set (index := (start_index + i) mod MAX_STORAGE_SERVERS).
    assert (Hstep : ~ (exists s, registry !! index = Some s /\ is_active s = true) ->
                    match find_next_active_from registry start_index (S i) k with
                    | Some index0 =>
                        exists t, i <= t < i + S k
                          /\ index0 = (start_index + t) mod MAX_STORAGE_SERVERS
                          /\ (exists s, registry !! index0 = Some s /\ is_active s = true)
                          /\ forall t', i <= t' < t ->
                               ~ exists s, registry !! ((start_index + t') mod MAX_STORAGE_SERVERS)
                                           = Some s /\ is_active s = true
                    | None =>
                        forall t, i <= t < i + S k ->
                          ~ exists s, registry !! ((start_index + t) mod MAX_STORAGE_SERVERS)
                                      = Some s /\ is_active s = true
                    end).
    { intros Hno. specialize (IH (S i)).
      destruct (find_next_active_from registry start_index (S i) k) as [j|].
      - destruct IH as (t & Ht & Hj & Hact & Hbefore).
        exists t. split; [lia|]. split; [exact Hj|]. split; [exact Hact|].
        intros t' Ht'. destruct (decide (t' = i)) as [->|Hne]; [exact Hno|].
        apply Hbefore. lia.
      - intros t Ht. destruct (decide (t = i)) as [->|Hne]; [exact Hno|].
        apply IH. lia. }
    destruct (registry !! index) as [s|] eqn:Es.
    + destruct (is_active s) eqn:Ea.
      * exists i. split; [lia|]. split; [reflexivity|]. split; [now exists s|].
        intros t' Ht'. lia.
      * apply Hstep. intros (s' & [= <-] & Hs'). congruence.
    + apply Hstep. intros (s' & Hs' & _). discriminate.
Qed.

(** Every slot is met by the ten probes, whatever the start. *)
Lemma probe_reaches (start_index index : nat) :
  index < MAX_STORAGE_SERVERS ->
  exists t, t < MAX_STORAGE_SERVERS /\ (start_index mod MAX_STORAGE_SERVERS + t) mod MAX_STORAGE_SERVERS = index.
Proof.
  intros Hi.
  assert (Hs : start_index mod MAX_STORAGE_SERVERS < MAX_STORAGE_SERVERS)
    by (apply Nat.mod_upper_bound; discriminate).
  revert Hs. generalize (start_index mod MAX_STORAGE_SERVERS). intros s Hs.
  assert (H : forallb (fun s => forallb (fun i =>
                existsb (fun t => ((s + t) mod MAX_STORAGE_SERVERS =? i)%nat)
                  (seq 0 MAX_STORAGE_SERVERS)) (seq 0 MAX_STORAGE_SERVERS))
                (seq 0 MAX_STORAGE_SERVERS) = true) by (vm_compute; reflexivity).
  rewrite forallb_forall in H. specialize (H s). rewrite in_seq in H.
  specialize (H ltac:(lia)). rewrite forallb_forall in H. specialize (H index).
  rewrite in_seq in H. specialize (H ltac:(lia)). apply existsb_exists in H as (t & Ht & E).
  apply in_seq in Ht. apply Nat.eqb_eq in E. exists t. split; [lia | exact E].
Qed.

(** Only the ninth probe after a choice comes back to the chosen slot. *)
Lemma probe_back (index t : nat) :
  index < MAX_STORAGE_SERVERS -> t < MAX_STORAGE_SERVERS ->
  ((index + 1) mod MAX_STORAGE_SERVERS + t) mod MAX_STORAGE_SERVERS = index -> t = 9.
Proof.
  intros Hi Ht E.
  assert (H : forallb (fun i => forallb (fun t =>
                negb (((i + 1) mod MAX_STORAGE_SERVERS + t) mod MAX_STORAGE_SERVERS =? i)%nat
                || (t =? 9)%nat)
                  (seq 0 MAX_STORAGE_SERVERS)) (seq 0 MAX_STORAGE_SERVERS) = true)
    by (vm_compute; reflexivity).
  rewrite forallb_forall in H. specialize (H index). rewrite in_seq in H.
  specialize (H ltac:(lia)). rewrite forallb_forall in H. specialize (H t).
  rewrite in_seq in H. specialize (H ltac:(lia)).
  apply orb_true_iff in H as [H|H]; [|now apply Nat.eqb_eq in H].
  apply negb_true_iff, Nat.eqb_neq in H. contradiction.
Qed.

End RegistryFacts.

(** X4. Round robin choice of the server of a new file: no server is chosen
    exactly when no slot is active, and then nothing changes; otherwise the
    chosen slot is active, the registry stays as it is, the next search starts
    behind the chosen slot, and as soon as another slot is active the next
    choice is a different server. *)
Theorem X4_round_robin (sm : sm_state) :
  length (ss_registry sm) = MAX_STORAGE_SERVERS ->
  match get_ss_for_new_file sm with
  | (sm1, None) => sm1 = sm /\ forall i, ~ active_slot sm i
  | (sm1, Some i) =>
      active_slot sm i /\ i < MAX_STORAGE_SERVERS
      /\ ss_registry sm1 = ss_registry sm
      /\ next_ss_index sm1 = (i + 1) mod MAX_STORAGE_SERVERS
      /\ (forall k, active_slot sm k -> k <> i ->
            exists j, snd (get_ss_for_new_file sm1) = Some j /\ j <> i)
  end.
Proof.
  intros Hlen.
  assert (Hslot : forall k, active_slot sm k -> k < MAX_STORAGE_SERVERS).
  { intros k (s & Hs & _). apply lookup_lt_Some in Hs. now rewrite Hlen in Hs. }
  assert (Hreach : forall start k, active_slot sm k ->
            exists t, t < MAX_STORAGE_SERVERS /\ (start + t) mod MAX_STORAGE_SERVERS = k).
  { intros start k Hk. destruct (probe_reaches start k (Hslot k Hk)) as (t & Ht & E).
    exists t. split; [exact Ht|]. now rewrite Nat.Div0.add_mod_idemp_l in E. }
  unfold get_ss_for_new_file, find_next_active_ss.
  pose proof (find_next_active_from_spec (ss_registry sm) (next_ss_index sm)
                MAX_STORAGE_SERVERS 0) as H1.
  destruct (find_next_active_from (ss_registry sm) (next_ss_index sm) 0 MAX_STORAGE_SERVERS)
    as [i|].
  - destruct H1 as (t & Ht & Hi & Hact & _).
    assert (Hi10 : i < MAX_STORAGE_SERVERS)
      by (rewrite Hi; apply Nat.mod_upper_bound; discriminate).
    split; [exact Hact|]. split; [exact Hi10|]. split; [reflexivity|].
    split; [reflexivity|].
    intros k Hk Hne. cbn [ss_registry next_ss_index].
    pose proof (find_next_active_from_spec (ss_registry sm) ((i + 1) mod MAX_STORAGE_SERVERS)
                  MAX_STORAGE_SERVERS 0) as H2.
    destruct (find_next_active_from (ss_registry sm) ((i + 1) mod MAX_STORAGE_SERVERS) 0
                MAX_STORAGE_SERVERS) as [j|].
    + exists j. split; [reflexivity|]. intros ->.
      destruct H2 as (t2 & Ht2 & Hj & _ & Hbefore).
      assert (t2 = 9) as -> by (apply (probe_back i t2 Hi10); [lia | now symmetry]).
      destruct (Hreach ((i + 1) mod MAX_STORAGE_SERVERS) k Hk) as (t' & Ht' & E).
      destruct (decide (t' = 9)) as [->|Hne9]; [congruence|].
      apply (Hbefore t'); [unfold MAX_STORAGE_SERVERS in Ht'; lia|]. now rewrite E.
    + exfalso. destruct (Hreach ((i + 1) mod MAX_STORAGE_SERVERS) k Hk) as (t' & Ht' & E).
      apply (H2 t'); [lia|]. now rewrite E.
  - split; [reflexivity|]. intros i Hi.
    destruct (Hreach (next_ss_index sm) i Hi) as (t & Ht & E).
    apply (H1 t); [lia|]. now rewrite E.
Qed.

Lemma X4_round_robin_witness :
  match get_ss_for_new_file sm_two with
  | (sm1, None) => sm1 = sm_two /\ forall i, ~ active_slot sm_two i
  | (sm1, Some i) =>
      active_slot sm_two i /\ i < MAX_STORAGE_SERVERS
      /\ ss_registry sm1 = ss_registry sm_two
      /\ next_ss_index sm1 = (i + 1) mod MAX_STORAGE_SERVERS
      /\ (forall k, active_slot sm_two k -> k <> i ->
            exists j, snd (get_ss_for_new_file sm1) = Some j /\ j <> i)
  end.
Proof. apply (X4_round_robin sm_two). vm_compute. reflexivity. Defined.

Lemma X4_round_robin_two_servers :
  snd (get_ss_for_new_file sm_two) = Some 0
  /\ snd (get_ss_for_new_file (fst (get_ss_for_new_file sm_two))) = Some 1
  /\ snd (get_ss_for_new_file
            (fst (get_ss_for_new_file (fst (get_ss_for_new_file sm_two))))) = Some 0.
Proof. repeat split; vm_compute; reflexivity. Qed.

Section IndexFacts.

Lemma seven_bit_skip (s : string) : seven_bit s -> skip_path s = s.
Proof. intros H. now destruct (strict_path_skip s s H). Qed.

Lemma plain_take (s : string) : plain_name s -> take_bytes 255 s = s.
Proof. intros [_ H]. now apply take_bytes_all. Qed.

Lemma cache_find_None_inv (es : list CacheEntry) :
  forall k name,
    cache_find k es name = None ->
    forall j e, es !! j = Some e -> is_valid e = true -> cache_filename e <> name.
Proof.
  induction es as [|e es IH]; intros k name H j e' Hj Hv Hn; [discriminate|].
  simpl in H.
  destruct (is_valid e && String.eqb (cache_filename e) name) eqn:E; [discriminate|].
  destruct j as [|j]; simpl in Hj.
  - injection Hj as ->. rewrite Hv, Hn, String.eqb_refl in E. discriminate.
  - exact (IH (S k) name H j e' Hj Hv Hn).
Qed.

(** An entry rewritten in place, valid only if it was and with its name. *)
Lemma cache_unique_rewrite (c : list CacheEntry) (i : nat) (e e' : CacheEntry) :
  c !! i = Some e ->
  (is_valid e' = true -> is_valid e = true /\ cache_filename e' = cache_filename e) ->
  cache_unique c -> cache_unique (<[i := e']> c).
Proof.
  intros Hi Hsame Hu a b ea eb Ha Hb Hva Hvb Hn.
  assert (Hold : forall k x, <[i := e']> c !! k = Some x -> is_valid x = true ->
                   exists y, c !! k = Some y /\ is_valid y = true
                             /\ cache_filename y = cache_filename x).
  { intros k x Hk Hv. destruct (decide (i = k)) as [<-|Hne].
    - rewrite list_lookup_insert_eq in Hk by (eapply lookup_lt_Some; exact Hi).
      injection Hk as <-. destruct (Hsame Hv) as [Hv' Hn']. exists e. auto.
    - rewrite list_lookup_insert_ne in Hk by assumption. exists x. auto. }
  destruct (Hold a ea Ha Hva) as (ya & Hya & Hvya & Hnya).
  destruct (Hold b eb Hb Hvb) as (yb & Hyb & Hvyb & Hnyb).
  apply (Hu a b ya yb Hya Hyb Hvya Hvyb). congruence.
Qed.

(** A fresh name written over any slot. *)
Lemma cache_unique_fresh (c : list CacheEntry) (j : nat) (e' : CacheEntry) :
  (forall k e, c !! k = Some e -> is_valid e = true -> cache_filename e <> cache_filename e') ->
  cache_unique c -> cache_unique (<[j := e']> c).
Proof.
  intros Hfresh Hu a b ea eb Ha Hb Hva Hvb Hn.
  destruct (decide (j < length c)) as [Hj|Hj];
    [|rewrite list_insert_ge in Ha, Hb by lia; now apply (Hu a b ea eb)].
  destruct (decide (j = a)) as [<-|Hna], (decide (j = b)) as [<-|Hnb]; [reflexivity| | |].
  - rewrite list_lookup_insert_eq in Ha by assumption. injection Ha as <-.
    rewrite list_lookup_insert_ne in Hb by assumption.
    exfalso. now apply (Hfresh b eb Hb Hvb).
  - rewrite list_lookup_insert_eq in Hb by assumption. injection Hb as <-.
    rewrite list_lookup_insert_ne in Ha by assumption.
    exfalso. now apply (Hfresh a ea Ha Hva).
  - rewrite list_lookup_insert_ne in Ha, Hb by assumption. now apply (Hu a b ea eb).
Qed.

Lemma cache_invalidate_unique (c : list CacheEntry) (name : string) :
  cache_unique c -> cache_unique (cache_invalidate c name).
Proof.
  intros Hu. unfold cache_invalidate.
  destruct (cache_find 0 c name) as [i|]; [|exact Hu].
  destruct (c !! i) as [e|] eqn:Hi; [|exact Hu].
  apply (cache_unique_rewrite c i e); [exact Hi | discriminate | exact Hu].
Qed.

(** What is still valid after [cache_invalidate] was valid before and has
    another name. *)
Lemma cache_invalidate_valid (c : list CacheEntry) (name : string) (k : nat)
    (e : CacheEntry) :
  cache_unique c ->
  cache_invalidate c name !! k = Some e -> is_valid e = true ->
  c !! k = Some e /\ cache_filename e <> name.
Proof.
  intros Hu Hk Hv.
  pose proof (cache_find_None_inv _ 0 name (cache_invalidate_gone c name Hu) k e Hk Hv) as Hn.
  split; [|exact Hn].
  unfold cache_invalidate in Hk.
  destruct (cache_find 0 c name) as [i|]; [|exact Hk].
  destruct (c !! i) as [e0|] eqn:Hi; [|exact Hk].
  destruct (decide (i = k)) as [<-|Hne].
  - rewrite list_lookup_insert_eq in Hk by (eapply lookup_lt_Some; exact Hi).
    injection Hk as <-. discriminate.
  - now rewrite list_lookup_insert_ne in Hk by assumption.
Qed.

Lemma fold_invalidate_spec (rs : list FileRecord) :
  forall c,
    cache_unique c ->
    let c' := fold_left (fun c r => cache_invalidate c (filename r)) rs c in
    cache_unique c'
    /\ forall k e, c' !! k = Some e -> is_valid e = true ->
         c !! k = Some e /\ cache_filename e ∉ map filename rs.
Proof.
  induction rs as [|r rs IH]; intros c Hu; cbn [fold_left map].
  - split; [exact Hu|]. intros k e Hk _. split; [exact Hk | apply not_elem_of_nil].
  - destruct (IH (cache_invalidate c (filename r)) (cache_invalidate_unique c _ Hu))
      as [Hu' Hrest].
    split; [exact Hu'|]. intros k e Hk Hv.
    destruct (Hrest k e Hk Hv) as [Hk1 Hnot].
    destruct (cache_invalidate_valid c (filename r) k e Hu Hk1 Hv) as [Hk0 Hne].
    split; [exact Hk0|]. rewrite not_elem_of_cons. split; assumption.
Qed.

Lemma walk_records_elem (t : gmap string FileRecord) (p : string) (r : FileRecord) :
  t !! p = Some r -> r ∈ walk_records t.
Proof.
  intros H. unfold walk_records. apply (list_elem_of_fmap_2' snd _ (p, r)); [|reflexivity].
  rewrite (merge_sort_Permutation path_le). now apply elem_of_map_to_list.
Qed.

Lemma find_file_trie (st : ns_state) (name : string) (now : Z) :
  trie (fst (search_find_file st name now)) = trie st
  /\ folder_registry (fst (search_find_file st name now)) = folder_registry st.
Proof.
  unfold search_find_file. destruct (cache_lookup (cache st) name now) as [c idx].
  destruct (negb (idx =? -1)%Z); [split; reflexivity|].
  destruct (negb _); split; reflexivity.
Qed.

End IndexFacts.

Section IndexInvariant.

Lemma index_ok_init : index_ok init_ns.
Proof.
  split; [|split].
  - intros p r H. cbn in H. now rewrite lookup_empty in H.
  - intros i j e e' Hi _ Hv. apply list_elem_of_lookup_2 in Hi.
    apply elem_of_replicate in Hi as [-> _]. discriminate.
  - intros i e Hi Hv. apply list_elem_of_lookup_2 in Hi.
    apply elem_of_replicate in Hi as [-> _]. discriminate.
Qed.

(** A change of the cache alone. *)
Lemma index_ok_cache (st : ns_state) (c' : list CacheEntry) :
  index_ok st -> cache_unique c' ->
  (forall k e, c' !! k = Some e -> is_valid e = true ->
     seven_bit (cache_filename e)
     /\ exists r, trie st !! cache_filename e = Some r /\ ss_index r = cache_ss_index e) ->
  index_ok (set_cache st c').
Proof. intros (Ht & _ & _) Hu Hs. split; [exact Ht|]. split; assumption. Qed.

(** A change of the trie that keeps, for every cached name, a record on the
    same server. *)
Lemma index_ok_trie (st : ns_state) (t' : gmap string FileRecord) :
  index_ok st -> trie_named t' ->
  (forall p r, trie st !! p = Some r ->
     (exists e i, cache st !! i = Some e /\ is_valid e = true /\ cache_filename e = p) ->
     exists r', t' !! p = Some r' /\ ss_index r' = ss_index r) ->
  index_ok (set_trie st t').
Proof.
  intros (Ht & Hu & Hs) Ht' Hkeep. split; [exact Ht'|]. split; [exact Hu|].
  intros i e Hi Hv. cbn [set_trie cache trie] in *.
  destruct (Hs i e Hi Hv) as (H7 & r & Hr & Hss). split; [exact H7|].
  destruct (Hkeep _ r Hr) as (r' & Hr' & Hss'); [now exists e, i|].
  exists r'. split; [exact Hr' | congruence].
Qed.

Lemma index_ok_find (st : ns_state) (name : string) (now : Z) :
  index_ok st -> plain_name name -> index_ok (fst (search_find_file st name now)).
Proof.
  intros Hok Hp. pose proof Hok as (Ht & Hu & Hs).
  unfold search_find_file, cache_lookup.
  destruct (cache_find 0 (cache st) name) as [i|] eqn:Ef.
  - destruct (cache_find_Some _ 0 name i Ef) as (_ & e & Hi & Hv & Hn).
    rewrite Nat.sub_0_r in Hi. rewrite Hi.
    destruct (Hs i e Hi Hv) as (H7 & r & Hr & Hss).
    destruct (Ht _ r Hr) as [_ Hge].
    assert (E : (cache_ss_index e =? -1)%Z = false) by (apply Z.eqb_neq; lia).
    rewrite E. cbn [negb fst].
    apply index_ok_cache; [exact Hok | |].
    + apply (cache_unique_rewrite _ i e); [exact Hi | | exact Hu]. intros _. now split.
    + intros k e' Hk Hv'. apply list_lookup_insert_Some in Hk as [(<- & <- & _)|[_ Hk]].
      * cbn [touch cache_filename cache_ss_index]. split; [exact H7|]. now exists r.
      * now apply (Hs k e').
  - change (negb (-1 =? -1)%Z) with false. cbv iota.
    destruct (find_file_record (trie st) name) as [r|] eqn:Er.
    + destruct (ss_index r =? -1)%Z eqn:E1; cbn [negb fst];
        [apply index_ok_cache; [exact Hok | exact Hu | exact Hs]|].
      unfold cache_add. rewrite (plain_take name Hp).
      apply index_ok_cache; [exact Hok | |].
      * apply cache_unique_fresh; [|exact Hu]. intros k e Hk Hv.
        exact (cache_find_None_inv _ 0 name Ef k e Hk Hv).
      * intros k e' Hk Hv'. apply list_lookup_insert_Some in Hk as [(_ & <- & _)|[_ Hk]].
        -- cbn [cache_filename cache_ss_index]. destruct Hp as [H7 _]. split; [exact H7|].
           unfold find_file_record in Er. rewrite (seven_bit_skip name H7) in Er.
           now exists r.
        -- now apply (Hs k e').
    + cbn [negb fst]. apply index_ok_cache; [exact Hok | exact Hu | exact Hs].
Qed.

Lemma index_ok_add_file (st : ns_state) (name : string) (ss : Z) (owner : string) :
  index_ok st -> plain_name name -> (0 <= ss)%Z ->
  index_ok (search_add_file st name ss owner).
Proof.
  intros Hok Hp Hss. pose proof Hok as (Ht & Hu & Hs). unfold search_add_file.
  rewrite (seven_bit_skip name (proj1 Hp)).
  destruct (trie st !! name) as [old|] eqn:Eo; [exact Hok|].
  apply index_ok_trie; [exact Hok | |].
  - intros p r Hr. apply lookup_insert_Some in Hr as [[<- <-]|[_ Hr]]; [|now apply Ht].
    cbn [filename ss_index]. split; [now apply plain_take | exact Hss].
  - intros p r Hr _. exists r. split; [|reflexivity].
    rewrite lookup_insert_ne; [exact Hr|]. intros <-. congruence.
Qed.

Lemma index_ok_delete (st : ns_state) (name user : string) :
  index_ok st -> index_ok (fst (handle_delete_request st name user)).
Proof.
  intros Hok. pose proof Hok as (Ht & Hu & Hs).
  unfold handle_delete_request, search_delete_file.
  destruct (strict_path name) as [p|] eqn:Ep; [|exact Hok].
  destruct (strict_path_skip name p Ep) as [_ ->].
  destruct (trie st !! name) as [record|] eqn:Er; [|exact Hok].
  destruct (String.eqb (owner_username record) user); cbn [negb]; [|exact Hok].
  destruct (Ht _ record Er) as [_ Hge].
  assert (E1 : (ss_index record =? -1)%Z = false) by (apply Z.eqb_neq; lia).
  assert (E2 : (ss_index record =? -2)%Z = false) by (apply Z.eqb_neq; lia).
  rewrite E1, E2. cbn [fst].
  split; [|split].
  - intros q r Hq. cbn in Hq. apply lookup_delete_Some in Hq as [_ Hq]. now apply Ht.
  - cbn. now apply cache_invalidate_unique.
  - intros k e Hk Hv. cbn in Hk.
    destruct (cache_invalidate_valid _ name k e Hu Hk Hv) as [Hk0 Hne].
    destruct (Hs k e Hk0 Hv) as (H7 & r & Hr & Hss). split; [exact H7|].
    exists r. split; [|exact Hss]. cbn. now rewrite lookup_delete_ne by congruence.
Qed.

(** A record rewritten in place with its name and its server. *)
Lemma index_ok_rewrite (st : ns_state) (p : string) (r r' : FileRecord) :
  index_ok st -> trie st !! p = Some r ->
  filename r' = filename r -> ss_index r' = ss_index r ->
  index_ok (set_trie st (<[p := r']> (trie st))).
Proof.
  intros Hok Hr Hn Hss. pose proof Hok as (Ht & _ & _).
  apply index_ok_trie; [exact Hok | |].
  - intros q x Hq. apply lookup_insert_Some in Hq as [[<- <-]|[_ Hq]]; [|now apply Ht].
    rewrite Hn, Hss. now apply Ht.
  - intros q x Hq _. destruct (decide (p = q)) as [<-|Hne].
    + exists r'. rewrite lookup_insert_eq. split; [reflexivity | congruence].
    + exists x. now rewrite lookup_insert_ne by assumption.
Qed.

Lemma index_ok_grant (st : ns_state) (name owner target : string) (perm : PermissionType) :
  index_ok st -> index_ok (fst (search_grant_permission st name owner target perm)).
Proof.
  intros Hok. unfold search_grant_permission, find_file_record.
  destruct (trie st !! skip_path name) as [r|] eqn:Er; [|exact Hok].
  destruct (negb _); [exact Hok|].
  destruct (acl_find 0 (acl r) target);
    [now apply (index_ok_rewrite st _ r)|].
  destruct (_ <=? _)%nat; [exact Hok | now apply (index_ok_rewrite st _ r)].
Qed.

Lemma index_ok_revoke (st : ns_state) (name owner target : string) :
  index_ok st -> index_ok (fst (search_remove_permission st name owner target)).
Proof.
  intros Hok. unfold search_remove_permission, find_file_record.
  destruct (trie st !! skip_path name) as [r|] eqn:Er; [|exact Hok].
  destruct (negb _); [exact Hok|].
  destruct (acl_find 0 (acl r) target); [|exact Hok].
  destruct (last (acl r)); [|exact Hok].
  now apply (index_ok_rewrite st _ r).
Qed.

Lemma index_ok_update_metadata (st : ns_state) (name : string) (meta : SSMetadataPayload) :
  index_ok st -> index_ok (search_update_file_metadata st name meta).
Proof.
  intros Hok. unfold search_update_file_metadata.
  destruct (trie st !! skip_path name) as [r|] eqn:Er; [|exact Hok].
  now apply (index_ok_rewrite st _ r).
Qed.

Lemma index_ok_set_file_folder (st : ns_state) (name new_folder owner : string) :
  index_ok st -> index_ok (fst (search_set_file_folder st name new_folder owner)).
Proof.
  intros Hok. unfold search_set_file_folder.
  destruct (strict_path name) as [p|]; [|exact Hok].
  destruct (trie st !! p) as [r|] eqn:Er; [|exact Hok].
  destruct (negb _); [exact Hok|].
  now apply (index_ok_rewrite st _ r).
Qed.

Lemma index_ok_add_folder (st : ns_state) (name owner : string) :
  index_ok st -> index_ok (fst (search_add_folder st name owner)).
Proof.
  intros Hok. unfold search_add_folder.
  destruct (_ =? _)%nat; [exact Hok|].
  destruct (folder_find 0 (folder_registry st) name); [exact Hok|].
  destruct (_ <=? _)%nat; exact Hok.
Qed.

Lemma move_record_keeps (src dst : string) (r : FileRecord) :
  filename (move_record src dst r) = filename r
  /\ ss_index (move_record src dst r) = ss_index r
  /\ owner_username (move_record src dst r) = owner_username r
  /\ acl (move_record src dst r) = acl r.
Proof. unfold move_record. now destruct (starts_with (folder r) src). Qed.

Lemma index_ok_move_folder (st : ns_state) (src dst owner : string) (max_updates : nat) :
  index_ok st -> index_ok (fst (search_move_folder st src dst owner max_updates)).
Proof.
  intros Hok. pose proof Hok as (Ht & Hu & Hs). unfold search_move_folder.
  destruct (folder_find 0 (folder_registry st) src) as [i|]; [|exact Hok].
  destruct (folder_registry st !! i) as [f|]; [|exact Hok].
  destruct (negb _); [exact Hok|].
  destruct (folder_find 0 (folder_registry st) dst); [exact Hok|].
  cbn [fst]. split; [|split].
  - intros p r Hr. cbn in Hr. rewrite lookup_fmap in Hr.
    destruct (trie st !! p) as [r0|] eqn:E0; [|discriminate]. injection Hr as <-.
    destruct (move_record_keeps src dst r0) as (-> & -> & _). now apply Ht.
  - exact Hu.
  - intros k e Hk Hv. cbn in Hk. destruct (Hs k e Hk Hv) as (H7 & r & Hr & Hss).
    split; [exact H7|]. exists (move_record src dst r). cbn.
    rewrite lookup_fmap, Hr. split; [reflexivity|].
    destruct (move_record_keeps src dst r) as (_ & -> & _). exact Hss.
Qed.

Lemma index_ok_purge (st : ns_state) (dead_ss_index : Z) :
  index_ok st -> index_ok (search_purge_by_ss st dead_ss_index).
Proof.
  intros Hok. pose proof Hok as (Ht & Hu & Hs). unfold search_purge_by_ss.
  destruct (_ || _); [exact Hok|].
  set (dead := filter (fun r => ss_index r = dead_ss_index) (walk_records (trie st))).
  destruct (fold_invalidate_spec dead (cache st) Hu) as [Hu' Hvalid].
  split; [|split].
  - intros p r Hr. cbn in Hr. apply map_lookup_filter_Some in Hr as [Hr _]. now apply Ht.
  - exact Hu'.
  - intros k e Hk Hv. cbn in Hk. destruct (Hvalid k e Hk Hv) as [Hk0 Hnot].
    destruct (Hs k e Hk0 Hv) as (H7 & r & Hr & Hss). split; [exact H7|].
    exists r. split; [|exact Hss]. cbn. apply map_lookup_filter_Some. split; [exact Hr|].
    cbn. intros Hdead. apply Hnot.
    destruct (Ht _ r Hr) as [<- _]. apply (list_elem_of_fmap_2 filename).
    apply list_elem_of_filter. split; [exact Hdead | now apply (walk_records_elem _ (cache_filename e))].
Qed.

Lemma index_ok_rebuild_add (st : ns_state) (ss : Z) (file_payload : SSFileRecordPayload) :
  index_ok st -> plain_name (p_filename file_payload) -> (0 <= ss)%Z ->
  index_ok (search_rebuild_add_file st ss file_payload).
Proof.
  intros Hok Hp Hss. pose proof Hok as (Ht & Hu & Hs). unfold search_rebuild_add_file.
  rewrite (seven_bit_skip _ (proj1 Hp)), (plain_take _ Hp).
  destruct (trie st !! p_filename file_payload) as [old|] eqn:Eo.
  - destruct (ss_index old =? ss)%Z eqn:E; [|exact Hok]. apply Z.eqb_eq in E.
    apply (index_ok_rewrite st _ old); [exact Hok | exact Eo | | now symmetry].
    cbn. symmetry. now apply Ht.
  - apply index_ok_trie; [exact Hok | |].
    + intros p r Hr. apply lookup_insert_Some in Hr as [[<- <-]|[_ Hr]]; [|now apply Ht].
      cbn. now split.
    + intros p r Hr _. exists r. split; [|reflexivity].
      rewrite lookup_insert_ne; [exact Hr|]. intros <-. congruence.
Qed.

End IndexInvariant.

Lemma index_ok_apply (st : ns_state) (op : ns_op) :
  index_ok st -> op_plain op -> index_ok (ns_apply st op).
Proof.
  intros Hok Hop. destruct op; cbn [ns_apply op_plain] in *.
  - now apply index_ok_find.
  - destruct Hop. now apply index_ok_add_file.
  - now apply index_ok_delete.
  - now apply index_ok_grant.
  - now apply index_ok_revoke.
  - now apply index_ok_update_metadata.
  - now apply index_ok_add_folder.
  - now apply index_ok_set_file_folder.
  - now apply index_ok_move_folder.
  - now apply index_ok_purge.
  - destruct Hop. now apply index_ok_rebuild_add.
Qed.

(** X5. The consistency of the index is kept along every run of lookups,
    creations, deletions, ACL and folder changes, metadata refreshes, purges
    of a dead server and rebuilds from a manifest, as long as the file names
    brought in have at most 255 bytes, all below 128, and the server indices
    are not negative: every record hangs at the path its stored name spells,
    no two valid cache entries have the same name, and every valid cache
    entry names a file that the trie holds, on the server the trie gives. *)
Theorem X5_index_consistency (st : ns_state) (ops : list ns_op) :
  index_ok st -> Forall op_plain ops -> index_ok (ns_run st ops).
Proof.
  intros Hok Hops. revert st Hok. unfold ns_run.
  induction Hops as [|op ops Hop _ IH]; intros st Hok; cbn [fold_left]; [exact Hok|].
  apply IH. now apply index_ok_apply.
Qed.

Lemma X5_index_consistency_witness :
  index_ok (ns_run init_ns
              [OP_add_file "f1" 0 "alice"; OP_find "f1" 5; OP_add_file "f2" 1 "bob";
               OP_find "f2" 6; OP_purge 1; OP_delete "f1" "alice"]).
Proof.
  apply (X5_index_consistency init_ns).
  - exact index_ok_init.
  - solve_op_plain.
Defined.

(** In a consistent index [search_find_file] answers what the trie alone
    answers. *)
Lemma find_answer (st : ns_state) (name : string) (now : Z) :
  index_ok st ->
  snd (search_find_file st name now) = trie_answer st name.
Proof.
  intros (Ht & Hu & Hs). unfold search_find_file, cache_lookup, trie_answer.
  destruct (cache_find 0 (cache st) name) as [i|] eqn:Ef.
  - destruct (cache_find_Some _ 0 name i Ef) as (_ & e & Hi & Hv & Hn).
    rewrite Nat.sub_0_r in Hi. rewrite Hi.
    destruct (Hs i e Hi Hv) as (H7 & r & Hr & Hss).
    destruct (Ht _ r Hr) as [_ Hge]. rewrite Hn in H7, Hr.
    assert (E : (cache_ss_index e =? -1)%Z = false) by (apply Z.eqb_neq; lia).
    rewrite E. cbn [negb snd]. unfold find_file_record.
    rewrite (seven_bit_skip name H7), Hr. now symmetry.
  - change (negb (-1 =? -1)%Z) with false. cbv iota.
    now destruct (negb _).
Qed.

(** X6. The lookup cache is transparent: in a consistent index, after any
    sequence of lookups of plain names at any times, [search_find_file]
    answers for every name what the trie alone answers, the server of the
    file or -1, whatever the cache holds and however it evicted. *)
Theorem X6_cache_transparent (st : ns_state) (l : list (string * Z)) (name : string)
    (now : Z) :
  index_ok st -> Forall (fun p => plain_name (fst p)) l ->
  snd (search_find_file (lookups st l) name now) = trie_answer st name.
Proof.
  intros Hok Hl. revert st Hok. unfold lookups.
  induction Hl as [|[nm t] l Hp _ IH]; intros st Hok; cbn [fold_left].
  - now apply find_answer.
  - rewrite IH by (now apply index_ok_find).
    unfold trie_answer. now rewrite (proj1 (find_file_trie st nm t)).
Qed.

Lemma X6_cache_transparent_witness :
  let st := ns_run init_ns [OP_add_file "f1" 3 "alice"; OP_add_file "f2" 4 "bob"] in
  cached (lookups st [("f1", 5%Z); ("f2", 6%Z)]) "f1" = true
  /\ snd (search_find_file (lookups st [("f1", 5%Z); ("f2", 6%Z)]) "f1" 9) = trie_answer st "f1".
Proof.
  intros st. split; [vm_compute; reflexivity|].
  apply (X6_cache_transparent st [("f1", 5%Z); ("f2", 6%Z)] "f1" 9).
  - subst st. solve_run index_ok_apply index_ok_init solve_plain.
  - repeat (constructor; [solve_plain|]). constructor.
Defined.

Section RegisterFacts.

Lemma first_inactive_spec (l : list StorageServerInfo) :
  forall i,
    match first_inactive i l with
    | Some j =>
        exists k, j = i + k
                  /\ (exists s, l !! k = Some s /\ is_active s = false)
                  /\ forall k', k' < k -> exists s, l !! k' = Some s /\ is_active s = true
    | None => forall k s, l !! k = Some s -> is_active s = true
    end.
Proof.
  induction l as [|s l IH]; intros i; cbn [first_inactive].
  - intros k s H. discriminate.
  - destruct (is_active s) eqn:Ea; cbn [negb].
    + specialize (IH (S i)). destruct (first_inactive (S i) l) as [j|].
      * destruct IH as (k & -> & Hk & Hbefore). exists (S k).
        split; [lia|]. split; [exact Hk|].
        intros [|k'] Hk'; [now exists s | apply Hbefore; lia].
      * intros [|k] s' Hs'; [now injection Hs' as <- | now apply (IH k)].
    + exists 0. split; [lia|]. split; [now exists s|]. intros k' Hk'. lia.
Qed.

End RegisterFacts.

(** X7. Registration of a storage server takes the lowest free slot of the
    registry; the server is then found there by [get_ss_by_index] and no
    other slot changes. With the ten slots taken the registration is refused
    and nothing changes. *)
Theorem X7_register_lowest_free_slot (sm : sm_state) (sock_fd : Z) (ip : string) (port : Z) :
  length (ss_registry sm) = MAX_STORAGE_SERVERS ->
  let sm' := fst (register_storage_server sm sock_fd (Some (ip, port)) true) in
  let r := snd (register_storage_server sm sock_fd (Some (ip, port)) true) in
  (r = (-1)%Z /\ sm' = sm /\ forall i, i < MAX_STORAGE_SERVERS -> active_slot sm i)
  \/ (exists j, r = Z.of_nat j /\ j < MAX_STORAGE_SERVERS
                /\ ~ active_slot sm j
                /\ (forall i, i < j -> active_slot sm i)
                /\ get_ss_by_index sm' r
                   = Some {| ss_socket_fd := sock_fd; ip_addr := take_bytes 64 ip;
                             client_facing_port := port; is_active := true |}
                /\ (forall i, i <> j -> ss_registry sm' !! i = ss_registry sm !! i)
                /\ next_ss_index sm' = next_ss_index sm).
Proof.
  intros Hlen sm' r. subst sm' r. unfold register_storage_server.
  pose proof (first_inactive_spec (ss_registry sm) 0) as Hf.
  destruct (first_inactive 0 (ss_registry sm)) as [j|].
  - right. destruct Hf as (k & -> & (s & Hs & Ha) & Hbefore). cbn [fst snd Nat.add].
    assert (Hk : k < MAX_STORAGE_SERVERS).
    { apply lookup_lt_Some in Hs. now rewrite Hlen in Hs. }
    exists k. split; [reflexivity|]. split; [exact Hk|]. split.
    { intros (s' & Hs' & Ha'). congruence. }
    split; [exact Hbefore|]. split.
    { unfold get_ss_by_index. cbn [ss_registry].
      assert (E : ((Z.of_nat k <? 0)%Z || (Z.of_nat MAX_STORAGE_SERVERS <=? Z.of_nat k)%Z)
                  = false).
      { apply orb_false_iff. split; [apply Z.ltb_ge | apply Z.leb_gt]; lia. }
      rewrite E, Nat2Z.id, list_lookup_insert_eq by (rewrite Hlen; exact Hk). reflexivity. }
    split; [|reflexivity].
    intros i Hi. cbn [ss_registry]. now rewrite list_lookup_insert_ne by congruence.
  - left. split; [reflexivity|]. split; [reflexivity|].
    intros i Hi. destruct (lookup_lt_is_Some_2 (ss_registry sm) i) as [s Hs];
      [now rewrite Hlen|].
    exists s. split; [exact Hs | now apply (Hf i)].
Qed.

Lemma X7_register_lowest_free_slot_witness :
  let sm' := fst (register_storage_server sm_two 9 (Some ("10.0.0.3", 6003%Z)) true) in
  let r := snd (register_storage_server sm_two 9 (Some ("10.0.0.3", 6003%Z)) true) in
  (r = (-1)%Z /\ sm' = sm_two /\ forall i, i < MAX_STORAGE_SERVERS -> active_slot sm_two i)
  \/ (exists j, r = Z.of_nat j /\ j < MAX_STORAGE_SERVERS
                /\ ~ active_slot sm_two j
                /\ (forall i, i < j -> active_slot sm_two i)
                /\ get_ss_by_index sm' r
                   = Some {| ss_socket_fd := 9; ip_addr := take_bytes 64 "10.0.0.3";
                             client_facing_port := 6003; is_active := true |}
                /\ (forall i, i <> j -> ss_registry sm' !! i = ss_registry sm_two !! i)
                /\ next_ss_index sm' = next_ss_index sm_two).
Proof.
  apply (X7_register_lowest_free_slot sm_two 9 "10.0.0.3" 6003). vm_compute. reflexivity.
Defined.

Section AclInvariant.

Lemma acl_find_spec (l : list AclEntry) (target : string) :
  forall i,
    match acl_find i l target with
    | Some j => exists k e, j = i + k /\ l !! k = Some e /\ username e = target
                            /\ forall k' e', k' < k -> l !! k' = Some e' -> username e' <> target
    | None => target ∉ map username l
    end.
Proof.
  induction l as [|e l IH]; intros i; cbn [acl_find map].
  - apply not_elem_of_nil.
  - destruct (String.eqb (username e) target) eqn:E.
    + apply String.eqb_eq in E. exists 0, e. split; [lia|]. split; [reflexivity|].
      split; [exact E|]. intros k' e' Hk'. lia.
    + apply String.eqb_neq in E. specialize (IH (S i)).
      destruct (acl_find (S i) l target) as [j|].
      * destruct IH as (k & e0 & -> & Hk & Hn & Hbefore). exists (S k), e0.
        split; [lia|]. split; [exact Hk|]. split; [exact Hn|].
        intros [|k'] e' Hk' He'; [now injection He' as <- | apply (Hbefore k' e'); [lia | exact He']].
      * rewrite not_elem_of_cons. split; [congruence | exact IH].
Qed.

Lemma map_removelast {A B} (f : A -> B) (l : list A) :
  map f (removelast l) = removelast (map f l).
Proof.
  induction l as [|x l IH]; [reflexivity|].
  destruct l as [|y l]; [reflexivity|].
  change (f x :: map f (removelast (y :: l)) = f x :: removelast (map f (y :: l))).
  now rewrite IH.
Qed.

Lemma acl_ok_rewrite (st : ns_state) (p : string) (r' : FileRecord) :
  acls_ok st -> acl_ok r' -> acls_ok (set_trie st (<[p := r']> (trie st))).
Proof.
  intros Hok Hr q x Hq. cbn in Hq.
  apply lookup_insert_Some in Hq as [[_ <-]|[_ Hq]]; [exact Hr | now apply (Hok q)].
Qed.

Lemma acl_ok_grant (st : ns_state) (name owner target : string) (perm : PermissionType) :
  acls_ok st -> String.length target <= 63 ->
  acls_ok (fst (search_grant_permission st name owner target perm)).
Proof.
  intros Hok Hlen. unfold search_grant_permission, find_file_record.
  destruct (trie st !! skip_path name) as [r|] eqn:Er; [|exact Hok].
  destruct (negb _); [exact Hok|].
  destruct (Hok _ r Er) as [Hnd Hcap].
  pose proof (acl_find_spec (acl r) target 0) as Hf.
  destruct (acl_find 0 (acl r) target) as [i|].
  - cbn [fst]. apply acl_ok_rewrite; [exact Hok|]. split; cbn [acl set_acl].
    + replace (map username (alter _ i (acl r))) with (map username (acl r)); [exact Hnd|].
      clear. revert i. induction (acl r) as [|e l IH]; intros [|i]; cbn; try reflexivity.
      f_equal. apply IH.
    + now rewrite length_alter.
  - destruct (MAX_ACL_ENTRIES <=? length (acl r))%nat eqn:E; [exact Hok|].
    apply Nat.leb_gt in E. cbn [fst]. apply acl_ok_rewrite; [exact Hok|].
    split; cbn [acl set_acl].
    + rewrite map_app. cbn [map username]. rewrite (take_bytes_all 63 target Hlen).
      apply NoDup_app. split; [exact Hnd|]. split; [|apply NoDup_singleton].
      intros x Hx Hx'. apply list_elem_of_singleton in Hx' as ->. contradiction.
    + rewrite length_app. cbn. lia.
Qed.

Lemma acl_ok_revoke (st : ns_state) (name owner target : string) :
  acls_ok st -> acls_ok (fst (search_remove_permission st name owner target)).
Proof.
  intros Hok. unfold search_remove_permission, find_file_record.
  destruct (trie st !! skip_path name) as [r|] eqn:Er; [|exact Hok].
  destruct (negb _); [exact Hok|].
  destruct (Hok _ r Er) as [Hnd Hcap].
  pose proof (acl_find_spec (acl r) target 0) as Hf.
  destruct (acl_find 0 (acl r) target) as [i|]; [|exact Hok].
  destruct (last (acl r)) as [y|] eqn:Hl; [|exact Hok].
  destruct Hf as (k & e & -> & Hk & _). cbn [fst Nat.add].
  apply acl_ok_rewrite; [exact Hok|]. split; cbn [acl set_acl].
  - rewrite map_removelast. change (map username) with (fmap (M := list) username).
    rewrite list_fmap_insert.
    apply (swap_remove_NoDup _ k (username e)); [exact Hnd | |].
    + now rewrite list_lookup_fmap, Hk.
    + now rewrite fmap_last, Hl.
  - pose proof (swap_remove_length (acl r) k e y Hk Hl). lia.
Qed.

End AclInvariant.

Section AclRun.

Lemma acls_ok_apply (st : ns_state) (op : ns_op) :
  acls_ok st -> op_acl_ok op -> acls_ok (ns_apply st op).
Proof.
  intros Hok Hop. destruct op; cbn [ns_apply op_acl_ok] in *.
  - intros p r Hr. rewrite (proj1 (find_file_trie st name now)) in Hr. now apply (Hok p).
  - unfold search_add_file. destruct (trie st !! skip_path name); [exact Hok|].
    apply acl_ok_rewrite; [exact Hok|]. split; cbn; [apply NoDup_nil; exact I | lia].
  - unfold handle_delete_request, search_delete_file.
    destruct (strict_path name) as [p|]; [|exact Hok].
    destruct (trie st !! p) as [record|]; [|exact Hok].
    destruct (negb _); [exact Hok|].
    assert (H : acls_ok (set_trie st (delete p (trie st)))).
    { intros q r Hq. cbn in Hq. apply lookup_delete_Some in Hq as [_ Hq]. now apply (Hok q). }
    destruct (_ =? -1)%Z; [exact H|]. destruct (_ =? -2)%Z; exact H.
  - now apply acl_ok_grant.
  - now apply acl_ok_revoke.
  - unfold search_update_file_metadata.
    destruct (trie st !! skip_path name) as [r|] eqn:Er; [|exact Hok].
    apply acl_ok_rewrite; [exact Hok | exact (Hok _ r Er)].
  - unfold search_add_folder. destruct (_ =? _)%nat; [exact Hok|].
    destruct (folder_find 0 (folder_registry st) name); [exact Hok|].
    destruct (_ <=? _)%nat; exact Hok.
  - unfold search_set_file_folder. destruct (strict_path name) as [p|]; [|exact Hok].
    destruct (trie st !! p) as [r|] eqn:Er; [|exact Hok].
    destruct (negb _); [exact Hok|].
    apply acl_ok_rewrite; [exact Hok | exact (Hok _ r Er)].
  - unfold search_move_folder.
    destruct (folder_find 0 (folder_registry st) src) as [i|]; [|exact Hok].
    destruct (folder_registry st !! i) as [f|]; [|exact Hok].
    destruct (negb _); [exact Hok|].
    destruct (folder_find 0 (folder_registry st) dst); [exact Hok|].
    intros p r Hr. cbn in Hr. rewrite lookup_fmap in Hr.
    destruct (trie st !! p) as [r0|] eqn:E0; [|discriminate]. injection Hr as <-.
    unfold acl_ok. destruct (move_record_keeps src dst r0) as (_ & _ & _ & ->).
    exact (Hok p r0 E0).
  - unfold search_purge_by_ss. destruct (_ || _); [exact Hok|].
    intros p r Hr. cbn in Hr. apply map_lookup_filter_Some in Hr as [Hr _]. now apply (Hok p).
  - unfold search_rebuild_add_file.
    assert (Hnew : forall r', acl r' = map (fun e => {| username := take_bytes 63 (username e);
                                                        permission := permission e |})
                                         (p_acl file_payload) -> acl_ok r').
    { intros r' E. unfold acl_ok. rewrite E, map_map, length_map. exact Hop. }
    destruct (trie st !! skip_path (p_filename file_payload)) as [old|].
    + destruct (_ =? _)%Z; [|exact Hok]. apply acl_ok_rewrite; [exact Hok | now apply Hnew].
    + apply acl_ok_rewrite; [exact Hok | now apply Hnew].
Qed.

Lemma acls_ok_init : acls_ok init_ns.
Proof. intros p r H. cbn in H. now rewrite lookup_empty in H. Qed.

End AclRun.

(** X8. Along every run of name server operations in which the users granted
    access have names of at most 63 bytes (and manifests carry ACLs without
    repeated users, of at most 10 entries), the ACL of every file names no
    user twice and has at most 10 entries. *)
Theorem X8_acl_well_formed (st : ns_state) (ops : list ns_op) :
  acls_ok st -> Forall op_acl_ok ops -> acls_ok (ns_run st ops).
Proof.
  intros Hok Hops. revert st Hok. unfold ns_run.
  induction Hops as [|op ops Hop _ IH]; intros st Hok; cbn [fold_left]; [exact Hok|].
  apply IH. now apply acls_ok_apply.
Qed.

Lemma X8_acl_well_formed_witness :
  acls_ok (ns_run init_ns
             [OP_add_file "f1" 0 "alice"; OP_grant "f1" "alice" "bob" PERM_READ;
              OP_grant "f1" "alice" "carol" PERM_WRITE; OP_grant "f1" "alice" "bob" PERM_WRITE;
              OP_revoke "f1" "alice" "bob"]).
Proof.
  apply (X8_acl_well_formed init_ns); [exact acls_ok_init|].
  repeat (constructor; [first [exact I | simpl; lia]|]). constructor.
Defined.

Section AclCheck.

Lemma existsb_perm {A} (h : A -> bool) (l l' : list A) :
  l ≡ₚ l' -> existsb h l = existsb h l'.
Proof.
  induction 1 as [|x l l' _ IH|x y l|l l' l'' _ IH1 _ IH2]; cbn.
  - reflexivity.
  - now rewrite IH.
  - now rewrite !orb_assoc, (orb_comm (h y)).
  - congruence.
Qed.

Lemma existsb_alter {A} (h : A -> bool) (f : A -> A) (l : list A) (k : nat) :
  (forall e, l !! k = Some e -> h (f e) = h e) ->
  existsb h (alter f k l) = existsb h l.
Proof.
  revert k. induction l as [|x l IH]; intros [|k] H; cbn; try reflexivity.
  - now rewrite (H x eq_refl).
  - f_equal. apply IH. intros e He. now apply H.
Qed.

Lemma perm_test_absent (l : list AclEntry) (user : string) (p : PermissionType) :
  user ∉ map username l -> existsb (perm_test user p) l = false.
Proof.
  induction l as [|e l IH]; cbn [map existsb]; [reflexivity|].
  rewrite not_elem_of_cons. intros [Hne Hl]. rewrite (IH Hl), orb_false_r.
  unfold perm_test. apply andb_false_iff. left. apply String.eqb_neq. congruence.
Qed.

Lemma perm_test_unique (l : list AclEntry) (user : string) (p : PermissionType)
    (e0 : AclEntry) :
  NoDup (map username l) -> e0 ∈ l -> username e0 = user ->
  existsb (perm_test user p) l = (perm_value p <=? perm_value (permission e0))%Z.
Proof.
  intros Hnd Hin Hu. apply list_elem_of_lookup_1 in Hin as [k Hk].
  rewrite (existsb_perm _ _ _ (delete_Permutation l k e0 Hk)). cbn [existsb].
  assert (Hrest : user ∉ map username (delete k l)).
  { change (map username) with (fmap (M := list) username) in *.
    rewrite (delete_Permutation l k e0 Hk) in Hnd. rewrite fmap_cons in Hnd.
    apply NoDup_cons in Hnd as [H _]. now rewrite Hu in H. }
  rewrite (perm_test_absent _ _ _ Hrest), orb_false_r.
  unfold perm_test. rewrite Hu, String.eqb_refl. reflexivity.
Qed.

Lemma check_permission_at (st : ns_state) (name user : string) (p : PermissionType)
    (r : FileRecord) :
  trie st !! skip_path name = Some r ->
  search_check_permission st name user p
  = String.eqb (owner_username r) user || existsb (perm_test user p) (acl r).
Proof.
  intros Hr. unfold search_check_permission, find_file_record. rewrite Hr.
  now destruct (String.eqb (owner_username r) user).
Qed.

Lemma check_permission_other_file (st : ns_state) (q : string) (r' : FileRecord)
    (name' user : string) (p : PermissionType) :
  skip_path name' <> q ->
  search_check_permission (set_trie st (<[q := r']> (trie st))) name' user p
  = search_check_permission st name' user p.
Proof.
  intros Hne. unfold search_check_permission, find_file_record. cbn [trie set_trie].
  now rewrite lookup_insert_ne by congruence.
Qed.

End AclCheck.

(** X9. After a successful grant of [perm] on a file to [target] (a name of
    at most 63 bytes), [target] has exactly the permissions up to [perm] on
    it, an earlier grant being replaced, unless [target] is the owner, who
    has them all; the permissions of every other user on the file and all
    permissions on other files are as before. *)
Theorem X9_grant_then_check (st : ns_state) (name owner target : string)
    (perm : PermissionType) :
  acls_ok st -> String.length target <= 63 ->
  snd (search_grant_permission st name owner target perm) = 0%Z ->
  let st' := fst (search_grant_permission st name owner target perm) in
  (forall p, search_check_permission st' name target p
             = String.eqb owner target || (perm_value p <=? perm_value perm)%Z)
  /\ (forall user p, user <> target ->
        search_check_permission st' name user p = search_check_permission st name user p)
  /\ (forall name' user p, skip_path name' <> skip_path name ->
        search_check_permission st' name' user p = search_check_permission st name' user p).
Proof.
  intros Hok Hlen Hres st'.
  pose proof (acl_ok_grant st name owner target perm Hok Hlen) as Hok'. fold st' in Hok'.
  subst st'. revert Hres Hok'. unfold search_grant_permission, find_file_record.
  destruct (trie st !! skip_path name) as [r|] eqn:Er; [|discriminate].
  destruct (String.eqb (owner_username r) owner) eqn:Eo; cbn [negb]; [|discriminate].
  apply String.eqb_eq in Eo.
  pose proof (acl_find_spec (acl r) target 0) as Hf.
  destruct (acl_find 0 (acl r) target) as [i|].
  - intros _ Hok'. cbn [fst] in *. destruct Hf as (k & e & -> & Hk & Hu & _). cbn [Nat.add] in *.
    set (r' := set_acl r _) in *.
    assert (Hr' : trie (set_trie st (<[skip_path name := r']> (trie st))) !! skip_path name
                  = Some r') by (cbn; apply lookup_insert_eq).
    split; [|split].
    + intros p. rewrite (check_permission_at _ _ _ _ r' Hr').
      cbn [owner_username r' set_acl]. rewrite Eo. f_equal.
      apply (perm_test_unique _ _ _ {| username := username e; permission := perm |}).
      * exact (proj1 (Hok' _ r' Hr')).
      * cbn [acl r' set_acl]. apply list_elem_of_lookup. exists k.
        now rewrite list_lookup_alter_eq, Hk.
      * exact Hu.
    + intros user p Hne. rewrite (check_permission_at _ _ _ _ r' Hr'),
        (check_permission_at st _ _ _ r Er).
      cbn [owner_username acl r' set_acl]. f_equal. apply existsb_alter.
      intros e' He'. rewrite Hk in He'. injection He' as <-.
      unfold perm_test. cbn [username]. rewrite Hu.
      assert (E : String.eqb target user = false) by (apply String.eqb_neq; congruence).
      now rewrite E.
    + intros name' user p Hne. now apply check_permission_other_file.
  - destruct (MAX_ACL_ENTRIES <=? length (acl r))%nat; [discriminate|].
    intros _ Hok'. cbn [fst] in *. rewrite (take_bytes_all 63 target Hlen) in *.
    set (r' := set_acl r _) in *.
    assert (Hr' : trie (set_trie st (<[skip_path name := r']> (trie st))) !! skip_path name
                  = Some r') by (cbn; apply lookup_insert_eq).
    split; [|split].
    + intros p. rewrite (check_permission_at _ _ _ _ r' Hr').
      cbn [owner_username r' set_acl]. rewrite Eo. f_equal.
      apply (perm_test_unique _ _ _ {| username := target; permission := perm |}).
      * exact (proj1 (Hok' _ r' Hr')).
      * cbn [acl r' set_acl]. apply elem_of_app. right. apply list_elem_of_singleton. reflexivity.
      * reflexivity.
    + intros user p Hne. rewrite (check_permission_at _ _ _ _ r' Hr'),
        (check_permission_at st _ _ _ r Er).
      cbn [owner_username acl r' set_acl]. f_equal. rewrite existsb_app. cbn [existsb].
      unfold perm_test at 2. cbn [username].
      assert (E : String.eqb target user = false) by (apply String.eqb_neq; congruence).
      rewrite E. cbn. now rewrite !orb_false_r.
    + intros name' user p Hne. now apply check_permission_other_file.
Qed.

Lemma X9_grant_then_check_witness :
  let st := ns_run init_ns [OP_add_file "f1" 0 "alice"; OP_grant "f1" "alice" "bob" PERM_WRITE] in
  let st' := fst (search_grant_permission st "f1" "alice" "bob" PERM_READ) in
  search_check_permission st "f1" "bob" PERM_WRITE = true
  /\ (forall p, search_check_permission st' "f1" "bob" p
                = String.eqb "alice" "bob" || (perm_value p <=? perm_value PERM_READ)%Z).
Proof.
  intros st st'. split; [vm_compute; reflexivity|].
  refine (proj1 (X9_grant_then_check st "f1" "alice" "bob" PERM_READ _ _ _)).
  - apply (acls_ok_apply _ (OP_grant "f1" "alice" "bob" PERM_WRITE)); [|simpl; lia].
    apply (acls_ok_apply _ (OP_add_file "f1" 0 "alice")); [exact acls_ok_init | exact I].
  - simpl. lia.
  - vm_compute. reflexivity.
Defined.

(** X10. After a revoke on a file that the name server accepted, the user
    whose access was removed has no permission left on it, whatever entry
    was moved into the freed slot, unless that user is the owner; the
    permissions of every other user on the file and all permissions on other
    files are as before. *)
Theorem X10_revoke_then_check (st : ns_state) (name owner target : string) :
  acls_ok st ->
  snd (search_remove_permission st name owner target) = 0%Z ->
  let st' := fst (search_remove_permission st name owner target) in
  (forall p, search_check_permission st' name target p = String.eqb owner target)
  /\ (forall user p, user <> target ->
        search_check_permission st' name user p = search_check_permission st name user p)
  /\ (forall name' user p, skip_path name' <> skip_path name ->
        search_check_permission st' name' user p = search_check_permission st name' user p).
Proof.
  intros Hok Hres st'. subst st'. revert Hres.
  unfold search_remove_permission, find_file_record.
  destruct (trie st !! skip_path name) as [r|] eqn:Er; [|discriminate].
  destruct (String.eqb (owner_username r) owner) eqn:Eo; cbn [negb]; [|discriminate].
  apply String.eqb_eq in Eo. intros _.
  destruct (Hok _ r Er) as [Hnd _].
  pose proof (acl_find_spec (acl r) target 0) as Hf.
  assert (Hsame : forall user p, user <> target \/ target ∉ map username (acl r) ->
            search_check_permission st name user p
            = String.eqb owner user
              || (if decide (user = target) then false
                  else existsb (perm_test user p) (acl r))).
  { intros user p H. rewrite (check_permission_at st _ _ _ r Er), Eo. f_equal.
    destruct (decide (user = target)) as [->|Hne]; [|reflexivity].
    destruct H as [H|H]; [contradiction | now apply perm_test_absent]. }
  destruct (acl_find 0 (acl r) target) as [i|].
  - destruct Hf as (k & e & -> & Hk & Hu & _). cbn [Nat.add].
    destruct (last (acl r)) as [y|] eqn:Hl;
      [|apply last_None in Hl; rewrite Hl in Hk; discriminate].
    cbn [fst]. set (r' := set_acl r _).
    assert (Hr' : trie (set_trie st (<[skip_path name := r']> (trie st))) !! skip_path name
                  = Some r') by (cbn; apply lookup_insert_eq).
    pose proof (swap_remove_perm (acl r) k e y Hk Hl) as Hperm.
    pose proof (delete_Permutation (acl r) k e Hk) as Hdel.
    assert (Hgone : target ∉ map username (delete k (acl r))).
    { change (map username) with (fmap (M := list) username) in *.
      rewrite Hdel, fmap_cons in Hnd. apply NoDup_cons in Hnd as [H _]. now rewrite Hu in H. }
    split; [|split].
    + intros p. rewrite (check_permission_at _ _ _ _ r' Hr').
      cbn [owner_username acl r' set_acl]. rewrite Eo, (existsb_perm _ _ _ Hperm).
      now rewrite (perm_test_absent _ _ _ Hgone), orb_false_r.
    + intros user p Hne. rewrite (check_permission_at _ _ _ _ r' Hr'),
        (check_permission_at st _ _ _ r Er).
      cbn [owner_username acl r' set_acl]. f_equal.
      rewrite (existsb_perm _ _ _ Hperm), (existsb_perm _ _ _ Hdel). cbn [existsb].
      unfold perm_test at 2. rewrite Hu.
      assert (E : String.eqb target user = false) by (apply String.eqb_neq; congruence).
      now rewrite E.
    + intros name' user p Hne. now apply check_permission_other_file.
  - destruct (last (acl r)); cbn [fst]; (split; [|split; [reflexivity | reflexivity]]);
      intros p; rewrite (Hsame target p (or_intror Hf));
      (destruct (decide (target = target)); [apply orb_false_r | contradiction]).
Qed.

Lemma X10_revoke_then_check_witness :
  let st := ns_run init_ns
              [OP_add_file "f1" 0 "alice"; OP_grant "f1" "alice" "bob" PERM_WRITE;
               OP_grant "f1" "alice" "carol" PERM_READ] in
  let st' := fst (search_remove_permission st "f1" "alice" "bob") in
  search_check_permission st "f1" "bob" PERM_READ = true
  /\ (forall p, search_check_permission st' "f1" "bob" p = String.eqb "alice" "bob")
  /\ search_check_permission st' "f1" "carol" PERM_READ = true.
Proof.
  intros st st'. split; [vm_compute; reflexivity|]. split; [|vm_compute; reflexivity].
  refine (proj1 (X10_revoke_then_check st "f1" "alice" "bob" _ _)).
  - apply (acls_ok_apply _ (OP_grant "f1" "alice" "carol" PERM_READ)); [|simpl; lia].
    apply (acls_ok_apply _ (OP_grant "f1" "alice" "bob" PERM_WRITE)); [|simpl; lia].
    apply (acls_ok_apply _ (OP_add_file "f1" 0 "alice")); [exact acls_ok_init | exact I].
  - vm_compute. reflexivity.
Defined.

Section FolderFacts.

Lemma folder_find_spec (l : list FolderRecord) (name : string) :
  forall i,
    match folder_find i l name with
    | Some j => exists k f, j = i + k /\ l !! k = Some f /\ foldername f = name
                            /\ forall k' f', k' < k -> l !! k' = Some f' -> foldername f' <> name
    | None => name ∉ map foldername l
    end.
Proof.
  induction l as [|f l IH]; intros i; cbn [folder_find map].
  - apply not_elem_of_nil.
  - destruct (String.eqb (foldername f) name) eqn:E.
    + apply String.eqb_eq in E. exists 0, f. split; [lia|]. split; [reflexivity|].
      split; [exact E|]. intros k' f' Hk'. lia.
    + apply String.eqb_neq in E. specialize (IH (S i)).
      destruct (folder_find (S i) l name) as [j|].
      * destruct IH as (k & f0 & -> & Hk & Hn & Hbefore). exists (S k), f0.
        split; [lia|]. split; [exact Hk|]. split; [exact Hn|].
        intros [|k'] f' Hk' Hf'; [now injection Hf' as <- | apply (Hbefore k' f'); [lia | exact Hf']].
      * rewrite not_elem_of_cons. split; [congruence | exact IH].
Qed.

Lemma NoDup_insert_fresh {A} (l : list A) (i : nat) (x : A) :
  NoDup l -> x ∉ l -> NoDup (<[i := x]> l).
Proof.
  intros Hnd Hx. destruct (decide (i < length l)) as [Hi|Hi];
    [|now rewrite list_insert_ge by lia].
  destruct (lookup_lt_is_Some_2 l i Hi) as [y Hy].
  rewrite insert_take_drop by assumption.
  rewrite <- (take_drop_middle l i y Hy) in Hnd, Hx.
  apply NoDup_app in Hnd as (H1 & H2 & H3). apply NoDup_cons in H3 as [H3 H4].
  rewrite elem_of_app, elem_of_cons in Hx.
  apply NoDup_app. split; [exact H1|]. split.
  - intros z Hz Hz'. apply elem_of_cons in Hz' as [->|Hz'].
    + apply Hx. now left.
    + apply (H2 z Hz). now right.
  - apply NoDup_cons. split; [|exact H4]. intros H. apply Hx. right. now right.
Qed.

Lemma folders_ok_same (st st' : ns_state) :
  folder_registry st' = folder_registry st -> folders_ok st -> folders_ok st'.
Proof. unfold folders_ok. now intros ->. Qed.

Lemma folders_ok_apply (st : ns_state) (op : ns_op) :
  folders_ok st -> op_folder_ok op -> folders_ok (ns_apply st op).
Proof.
  intros Hok Hop. destruct op; cbn [ns_apply op_folder_ok] in *.
  - apply (folders_ok_same st); [apply find_file_trie | exact Hok].
  - apply (folders_ok_same st); [|exact Hok]. unfold search_add_file.
    now destruct (trie st !! skip_path name).
  - apply (folders_ok_same st); [|exact Hok].
    unfold handle_delete_request, search_delete_file.
    destruct (strict_path name) as [p|]; [|reflexivity].
    destruct (trie st !! p); [|reflexivity]. destruct (negb _); [reflexivity|].
    destruct (_ =? -1)%Z; [reflexivity|]. now destruct (_ =? -2)%Z.
  - apply (folders_ok_same st); [|exact Hok]. unfold search_grant_permission.
    destruct (find_file_record (trie st) name); [|reflexivity].
    destruct (negb _); [reflexivity|]. destruct (acl_find 0 _ target); [reflexivity|].
    now destruct (_ <=? _)%nat.
  - apply (folders_ok_same st); [|exact Hok]. unfold search_remove_permission.
    destruct (find_file_record (trie st) name); [|reflexivity].
    destruct (negb _); [reflexivity|]. destruct (acl_find 0 _ target); [|reflexivity].
    now destruct (last _).
  - apply (folders_ok_same st); [|exact Hok]. unfold search_update_file_metadata.
    now destruct (trie st !! skip_path name).
  - unfold search_add_folder. destruct (_ =? _)%nat; [exact Hok|].
    pose proof (folder_find_spec (folder_registry st) name 0) as Hf.
    destruct (folder_find 0 (folder_registry st) name); [exact Hok|].
    destruct (MAX_FOLDERS <=? length (folder_registry st))%nat eqn:E; [exact Hok|].
    apply Nat.leb_gt in E. destruct Hok as [Hnd Hcap]. split; cbn [fst folder_registry].
    + rewrite map_app. cbn [map foldername]. rewrite (take_bytes_all 255 name Hop).
      apply NoDup_app. split; [exact Hnd|]. split; [|apply NoDup_singleton].
      intros x Hx Hx'. apply list_elem_of_singleton in Hx' as ->. contradiction.
    + rewrite length_app. cbn. lia.
  - apply (folders_ok_same st); [|exact Hok]. unfold search_set_file_folder.
    destruct (strict_path name) as [p|]; [|reflexivity].
    destruct (trie st !! p); [|reflexivity]. now destruct (negb _).
  - unfold search_move_folder.
    destruct (folder_find 0 (folder_registry st) src) as [i|]; [|exact Hok].
    destruct (folder_registry st !! i) as [f|]; [|exact Hok].
    destruct (negb _); [exact Hok|].
    pose proof (folder_find_spec (folder_registry st) dst 0) as Hf.
    destruct (folder_find 0 (folder_registry st) dst); [exact Hok|].
    destruct Hok as [Hnd Hcap]. split; cbn [fst folder_registry].
    + change (map foldername) with (fmap (M := list) foldername).
      rewrite list_fmap_insert. cbn [foldername]. rewrite (take_bytes_all 255 dst Hop).
      now apply NoDup_insert_fresh.
    + now rewrite length_insert.
  - apply (folders_ok_same st); [|exact Hok]. unfold search_purge_by_ss.
    now destruct (_ || _).
  - apply (folders_ok_same st); [|exact Hok]. unfold search_rebuild_add_file.
    destruct (trie st !! skip_path (p_filename file_payload)); [|reflexivity].
    now destruct (_ =? _)%Z.
Qed.

Lemma folders_ok_init : folders_ok init_ns.
Proof. split; cbn; [apply NoDup_nil; exact I | lia]. Qed.

End FolderFacts.

(** X11. Along every run of name server operations in which the folder
    names brought in have at most 255 bytes, the folder registry names no
    folder twice and holds at most 1024 folders. *)
Theorem X11_folder_registry_well_formed (st : ns_state) (ops : list ns_op) :
  folders_ok st -> Forall op_folder_ok ops -> folders_ok (ns_run st ops).
Proof.
  intros Hok Hops. revert st Hok. unfold ns_run.
  induction Hops as [|op ops Hop _ IH]; intros st Hok; cbn [fold_left]; [exact Hok|].
  apply IH. now apply folders_ok_apply.
Qed.

Lemma X11_folder_registry_well_formed_witness :
  folders_ok (ns_run init_ns
                [OP_add_folder "docs" "alice"; OP_add_folder "docs/old" "alice";
                 OP_add_folder "docs" "bob"; OP_move_folder "docs" "papers" "alice" 4096]).
Proof.
  apply (X11_folder_registry_well_formed init_ns); [exact folders_ok_init|].
  repeat (constructor; [first [exact I | simpl; lia]|]). constructor.
Defined.

Lemma folder_find_app (l l' : list FolderRecord) (name : string) :
  forall i,
    folder_find i (l ++ l') name
    = match folder_find i l name with
      | Some j => Some j
      | None => folder_find (i + length l) l' name
      end.
Proof.
  induction l as [|f l IH]; intros i; cbn [folder_find app length].
  - now rewrite Nat.add_0_r.
  - destruct (String.eqb (foldername f) name); [reflexivity|].
    rewrite IH. now replace (S i + length l) with (i + S (length l)) by lia.
Qed.

(** X12. Creating a folder: a name that is not empty and not yet registered
    is accepted while the registry has room, is then found in the slot that
    was the first free one, and every folder registered before keeps its
    slot; an empty name, a registered name or a full registry is refused and
    nothing changes. *)
Theorem X12_add_folder_then_find (st : ns_state) (name owner : string) :
  String.length name <= 255 ->
  let st' := fst (search_add_folder st name owner) in
  let r := snd (search_add_folder st name owner) in
  (r = 0%Z /\ name <> "" /\ search_find_folder st name = (-1)%Z
   /\ search_find_folder st' name = Z.of_nat (length (folder_registry st))
   /\ (forall other, search_find_folder st other <> (-1)%Z ->
         search_find_folder st' other = search_find_folder st other)
   /\ trie st' = trie st /\ cache st' = cache st)
  \/ (r = (-1)%Z /\ st' = st
      /\ (name = "" \/ search_find_folder st name <> (-1)%Z
          \/ MAX_FOLDERS <= length (folder_registry st))).
Proof.
  intros Hlen st' r. subst st' r. unfold search_add_folder, search_find_folder.
  destruct (strlen name =? 0)%nat eqn:E0.
  { right. apply Nat.eqb_eq, length_zero_str in E0. auto. }
  apply Nat.eqb_neq in E0.
  destruct (folder_find 0 (folder_registry st) name) as [j|] eqn:Ef.
  { right. split; [reflexivity|]. split; [reflexivity|]. right. left. lia. }
  destruct (MAX_FOLDERS <=? length (folder_registry st))%nat eqn:Ecap.
  { right. apply Nat.leb_le in Ecap. auto. }
  left. cbn [fst snd folder_registry trie cache].
  split; [reflexivity|]. split; [intros ->; now apply E0|]. split; [reflexivity|].
  split; [|split; [|split; reflexivity]].
  - rewrite folder_find_app, Ef. cbn [folder_find foldername Nat.add].
    now rewrite (take_bytes_all 255 name Hlen), String.eqb_refl.
  - intros other Ho. rewrite folder_find_app.
    destruct (folder_find 0 (folder_registry st) other); [reflexivity | contradiction].
Qed.

Lemma X12_add_folder_then_find_witness :
  let st := ns_run init_ns [OP_add_folder "docs" "alice"] in
  let st' := fst (search_add_folder st "papers" "bob") in
  let r := snd (search_add_folder st "papers" "bob") in
  (r = 0%Z /\ "papers" <> "" /\ search_find_folder st "papers" = (-1)%Z
   /\ search_find_folder st' "papers" = Z.of_nat (length (folder_registry st))
   /\ (forall other, search_find_folder st other <> (-1)%Z ->
         search_find_folder st' other = search_find_folder st other)
   /\ trie st' = trie st /\ cache st' = cache st)
  \/ (r = (-1)%Z /\ st' = st
      /\ ("papers" = "" \/ search_find_folder st "papers" <> (-1)%Z
          \/ MAX_FOLDERS <= length (folder_registry st))).
Proof.
  apply (X12_add_folder_then_find
           (ns_run init_ns [OP_add_folder "docs" "alice"]) "papers" "bob").
  simpl. lia.
Defined.

Section MoveRoundTrip.

Lemma set_folder_back (r : FileRecord) (f : string) :
  set_folder (set_folder r f) (folder r) = r.
Proof. now destruct r. Qed.

Lemma move_record_back (src dst : string) (r : FileRecord) :
  src <> "" -> dst <> "" -> String.length src <= 255 -> String.length dst <= 255 ->
  starts_with (folder r) dst = false ->
  (starts_with (folder r) src = false
   \/ folder r = src
   \/ exists rest, rest <> "" /\ folder r = src +:+ "/" +:+ rest
                   /\ String.length (src +:+ "/" +:+ rest) <= 255
                   /\ String.length (dst +:+ "/" +:+ rest) <= 255) ->
  move_record dst src (move_record src dst r) = r.
Proof.
  intros Hs Hd Hls Hld Hfresh [Hno|[Heq|(rest & Hrest & Heq & Hl1 & Hl2)]].
  - unfold move_record at 2. rewrite Hno. unfold move_record. now rewrite Hfresh.
  - rewrite (proj1 (move_record_aligned src dst "" r Hs) (conj Heq Hld)).
    rewrite (proj1 (move_record_aligned dst src "" (set_folder r dst) Hd) (conj eq_refl Hls)).
    rewrite <- Heq. apply set_folder_back.
  - rewrite (proj2 (move_record_aligned src dst rest r Hs) (conj Heq (conj Hrest Hl2))).
    rewrite (proj2 (move_record_aligned dst src rest (set_folder r _) Hd)
               (conj eq_refl (conj Hrest Hl1))).
    rewrite <- Heq. apply set_folder_back.
Qed.

Lemma movable_by_check (st : ns_state) (src dst : string) :
  src <> "" -> dst <> "" -> String.length src <= 255 -> String.length dst <= 255 ->
  forallb (fun kv => record_movable src dst (snd kv)) (map_to_list (trie st)) = true ->
  movable st src dst.
Proof.
  intros Hs Hd Hls Hld Hall. repeat (split; [assumption|]). intros p r Hr.
  rewrite forallb_forall in Hall.
  specialize (Hall (p, r)). cbn [snd] in Hall.
  assert (Hin : In (p, r) (map_to_list (trie st)))
    by (apply list_elem_of_In; now apply elem_of_map_to_list).
  specialize (Hall Hin). unfold record_movable in Hall.
  apply andb_true_iff in Hall as [H1 H2]. apply negb_true_iff in H1. split; [exact H1|].
  apply orb_true_iff in H2 as [H2|H2]; [apply orb_true_iff in H2 as [H2|H2]|].
  - left. now apply negb_true_iff in H2.
  - right. left. now apply String.eqb_eq in H2.
  - right. right. cbv zeta in H2.
    set (rest := drop_bytes (strlen src + 1) (folder r)) in *.
    apply andb_true_iff in H2 as [H2 H5]. apply andb_true_iff in H2 as [H2 H4].
    apply andb_true_iff in H2 as [H2 H3].
    exists rest. apply Nat.ltb_lt in H2. apply String.eqb_eq in H3.
    apply Nat.leb_le in H4, H5. unfold strlen in *.
    split; [intros E; rewrite E in H2; simpl in H2; lia|]. auto.
Qed.

End MoveRoundTrip.

(** X13. A folder move can be taken back: when the folder fields are laid
    out as the move expects them (see [movable]) and the registry names no
    folder twice, moving [src] to [dst] and then [dst] to [src] is accepted
    both times and leaves the index, the registry and the cache as they
    were. *)
Theorem X13_move_folder_round_trip (st : ns_state) (src dst owner : string) (n m : nat) :
  folders_ok st -> movable st src dst ->
  snd (search_move_folder st src dst owner n) <> (-1)%Z ->
  let st1 := fst (search_move_folder st src dst owner n) in
  let st2 := fst (search_move_folder st1 dst src owner m) in
  snd (search_move_folder st1 dst src owner m) <> (-1)%Z
  /\ trie st2 = trie st /\ folder_registry st2 = folder_registry st
  /\ cache st2 = cache st.
Proof.
  intros [Hnd _] (Hs & Hd & Hls & Hld & Hrec) Hres.
  assert (H1 : exists k f,
             folder_registry st !! k = Some f /\ foldername f = src
             /\ String.eqb (folder_owner f) owner = true
             /\ (dst ∉ map foldername (folder_registry st))
             /\ fst (search_move_folder st src dst owner n)
                = {| cache := cache st; trie := move_record src dst <$> trie st;
                     folder_registry :=
                       <[k := {| foldername := dst; folder_owner := folder_owner f |}]>
                         (folder_registry st) |}).
  { revert Hres. unfold search_move_folder.
    pose proof (folder_find_spec (folder_registry st) src 0) as Hfs.
    destruct (folder_find 0 (folder_registry st) src) as [i|]; [|cbn; congruence].
    destruct Hfs as (k & f & -> & Hk & Hname & _). cbn [Nat.add]. rewrite Hk.
    destruct (String.eqb (folder_owner f) owner) eqn:Eo; cbn [negb]; [|cbn; congruence].
    pose proof (folder_find_spec (folder_registry st) dst 0) as Hfd.
    destruct (folder_find 0 (folder_registry st) dst); [cbn; congruence|].
    intros _. exists k, f. rewrite (take_bytes_all 255 dst Hld). auto. }
  destruct H1 as (k & f & Hk & Hname & Eo & Hfd & E1).
  intros st1 st2. subst st2 st1. rewrite E1. clear E1 Hres.
  set (reg1 := <[k := {| foldername := dst; folder_owner := folder_owner f |}]>
                 (folder_registry st)).
  assert (Hklt : k < length (folder_registry st)) by (eapply lookup_lt_Some; exact Hk).
  assert (Hreg1 : reg1 !! k = Some {| foldername := dst; folder_owner := folder_owner f |}).
  { unfold reg1. now rewrite list_lookup_insert_eq by assumption. }
  assert (Hne : dst <> src).
  { intros ->. apply Hfd. rewrite <- Hname.
    apply (list_elem_of_fmap_2 foldername). eapply list_elem_of_lookup_2. exact Hk. }
  assert (Hother : forall j g, j <> k -> reg1 !! j = Some g ->
                     foldername g <> src /\ foldername g <> dst).
  { intros j g Hj Hg. unfold reg1 in Hg. rewrite list_lookup_insert_ne in Hg by congruence.
    split.
    - intros E. apply Hj.
      change (map foldername) with (fmap (M := list) foldername) in Hnd.
      apply (NoDup_lookup _ j k src Hnd); rewrite list_lookup_fmap;
        [rewrite Hg; cbn; congruence | rewrite Hk; cbn; congruence].
    - intros E. apply Hfd. rewrite <- E. apply (list_elem_of_fmap_2 foldername).
      eapply list_elem_of_lookup_2. exact Hg. }
  unfold search_move_folder. cbn [folder_registry cache trie].
  pose proof (folder_find_spec reg1 dst 0) as Hfd1.
  destruct (folder_find 0 reg1 dst) as [i1|].
  2:{ exfalso. apply Hfd1.
      apply (list_elem_of_fmap_2' foldername _
               {| foldername := dst; folder_owner := folder_owner f |});
        [eapply list_elem_of_lookup_2; exact Hreg1 | reflexivity]. }
  destruct Hfd1 as (k1 & g & -> & Hk1 & Hg & _). cbn [Nat.add].
  assert (k1 = k) as ->.
  { destruct (decide (k1 = k)) as [E|E]; [exact E|].
    now destruct (proj2 (Hother k1 g E Hk1)). }
  rewrite Hreg1. cbn [folder_owner]. rewrite Eo. cbn [negb].
  pose proof (folder_find_spec reg1 src 0) as Hfs1.
  destruct (folder_find 0 reg1 src) as [i2|].
  { exfalso. destruct Hfs1 as (k2 & g2 & _ & Hk2 & Hg2 & _).
    destruct (decide (k2 = k)) as [->|E].
    - rewrite Hreg1 in Hk2. injection Hk2 as <-. now apply Hne.
    - now destruct (proj1 (Hother k2 g2 E Hk2)). }
  cbn [fst snd cache trie folder_registry].
  split; [lia|]. split; [|split; [|reflexivity]].
  - apply map_eq. intros p. rewrite !lookup_fmap.
    destruct (trie st !! p) as [r|] eqn:Er; [|reflexivity]. cbn. f_equal.
    destruct (Hrec p r Er) as [Hfresh Hal]. now apply move_record_back.
  - unfold reg1. rewrite list_insert_insert_eq. apply list_insert_id.
    rewrite Hk. f_equal. rewrite (take_bytes_all 255 src Hls), <- Hname. now destruct f.
Qed.

Lemma X13_move_folder_round_trip_witness :
  let st := ns_run init_ns
              [OP_add_file "f1" 0 "alice"; OP_add_file "f2" 0 "alice"; OP_add_file "f3" 0 "bob";
               OP_add_folder "a" "alice"; OP_add_folder "x" "bob";
               OP_set_file_folder "f1" "a" "alice"; OP_set_file_folder "f2" "a/b" "alice";
               OP_set_file_folder "f3" "x" "bob"] in
  let st1 := fst (search_move_folder st "a" "c" "alice" 4096) in
  let st2 := fst (search_move_folder st1 "c" "a" "alice" 4096) in
  folder_of st1 "f2" = Some "c/b"
  /\ snd (search_move_folder st1 "c" "a" "alice" 4096) <> (-1)%Z
  /\ trie st2 = trie st /\ folder_registry st2 = folder_registry st
  /\ cache st2 = cache st.
Proof.
  intros st st1 st2. split; [vm_compute; reflexivity|].
  apply (X13_move_folder_round_trip st "a" "c" "alice" 4096 4096).
  - subst st. solve_run folders_ok_apply folders_ok_init ltac:(first [exact I | simpl; lia]).
  - apply movable_by_check; [discriminate | discriminate | simpl; lia | simpl; lia |].
    vm_compute. reflexivity.
  - vm_compute. discriminate.
Defined.

Section ServerLoss.

Lemma find_by_socket_spec (l : list StorageServerInfo) (sock_fd : Z) :
  forall i,
    match find_by_socket i l sock_fd with
    | Some j => exists k s, j = i + k /\ l !! k = Some s /\ is_active s = true
                            /\ ss_socket_fd s = sock_fd
    | None => True
    end.
Proof.
  induction l as [|s l IH]; intros i; cbn [find_by_socket]; [exact I|].
  destruct (is_active s && (ss_socket_fd s =? sock_fd)%Z) eqn:E.
  - apply andb_true_iff in E as [Ea Ef]. apply Z.eqb_eq in Ef.
    exists 0, s. split; [lia|]. auto.
  - specialize (IH (S i)). destruct (find_by_socket (S i) l sock_fd); [|exact I].
    destruct IH as (k & s' & -> & H). exists (S k), s'. split; [lia | exact H].
Qed.

Lemma purge_answer (st : ns_state) (i : nat) (name : string) :
  i < MAX_STORAGE_SERVERS ->
  trie_answer (search_purge_by_ss st (Z.of_nat i)) name
  = if (trie_answer st name =? Z.of_nat i)%Z then (-1)%Z else trie_answer st name.
Proof.
  intros Hi. unfold search_purge_by_ss.
  assert (E : ((Z.of_nat i <? 0)%Z || (Z.of_nat MAX_STORAGE_SERVERS <=? Z.of_nat i)%Z)
              = false).
  { apply orb_false_iff. split; [apply Z.ltb_ge | apply Z.leb_gt]; lia. }
  rewrite E. unfold trie_answer, find_file_record. cbn [trie].
  destruct (trie st !! skip_path name) as [r|] eqn:Er.
  - destruct (ss_index r =? Z.of_nat i)%Z eqn:Ei.
    + apply Z.eqb_eq in Ei.
      destruct (filter _ (trie st) !! skip_path name) as [r'|] eqn:Er'; [|reflexivity].
      apply map_lookup_filter_Some in Er' as [Er' Hne]. cbn in Hne. congruence.
    + apply Z.eqb_neq in Ei.
      assert (Er' : filter (fun kv => ss_index (snd kv) <> Z.of_nat i) (trie st)
                    !! skip_path name = Some r)
        by (apply map_lookup_filter_Some; split; [exact Er | exact Ei]).
      now rewrite Er'.
  - assert (Er' : filter (fun kv => ss_index (snd kv) <> Z.of_nat i) (trie st)
                  !! skip_path name = None).
    { apply map_lookup_filter_None. left. exact Er. }
    rewrite Er'. assert (E1 : (-1 =? Z.of_nat i)%Z = false) by (apply Z.eqb_neq; lia).
    now rewrite E1.
Qed.

End ServerLoss.

(** X14. Loss of a storage server: when [remove_storage_server] finds the
    socket on an active slot, that slot is free afterwards, every file of
    that server is gone from the index while every other file keeps its
    record, the trie answers -1 for the lost files and as before for the
    others, and the index with its cache is consistent again. *)
Theorem X14_dead_server_purged (sm : sm_state) (st : ns_state) (sock_fd : Z) (i : nat) :
  length (ss_registry sm) = MAX_STORAGE_SERVERS -> index_ok st ->
  snd (deactivate_by_socket sm sock_fd) = Some i ->
  let sm' := fst (remove_storage_server sm st sock_fd) in
  let st' := snd (remove_storage_server sm st sock_fd) in
  get_ss_by_index sm' (Z.of_nat i) = None
  /\ (forall p r, trie st' !! p = Some r
                  <-> trie st !! p = Some r /\ ss_index r <> Z.of_nat i)
  /\ (forall name, trie_answer st' name
                   = if (trie_answer st name =? Z.of_nat i)%Z then (-1)%Z
                     else trie_answer st name)
  /\ index_ok st'.
Proof.
  intros Hlen Hok Hd sm' st'. subst sm' st'. revert Hd.
  unfold remove_storage_server, deactivate_by_socket.
  pose proof (find_by_socket_spec (ss_registry sm) sock_fd 0) as Hf.
  destruct (find_by_socket 0 (ss_registry sm) sock_fd) as [j|]; [|discriminate].
  destruct Hf as (k & s & -> & Hk & Ha & Hfd). cbn [Nat.add]. rewrite Hk.
  cbn [snd fst]. intros [= <-].
  assert (Hk10 : k < MAX_STORAGE_SERVERS).
  { apply lookup_lt_Some in Hk. now rewrite Hlen in Hk. }
  split; [|split; [|split]].
  - unfold get_ss_by_index. cbn [ss_registry].
    assert (E : ((Z.of_nat k <? 0)%Z || (Z.of_nat MAX_STORAGE_SERVERS <=? Z.of_nat k)%Z)
                = false).
    { apply orb_false_iff. split; [apply Z.ltb_ge | apply Z.leb_gt]; lia. }
    rewrite E, Nat2Z.id, list_lookup_insert_eq by (rewrite Hlen; exact Hk10). reflexivity.
  - intros p r. unfold search_purge_by_ss.
    assert (E : ((Z.of_nat k <? 0)%Z || (Z.of_nat MAX_STORAGE_SERVERS <=? Z.of_nat k)%Z)
                = false).
    { apply orb_false_iff. split; [apply Z.ltb_ge | apply Z.leb_gt]; lia. }
    rewrite E. cbn [trie]. apply map_lookup_filter_Some.
  - intros name. now apply purge_answer.
  - now apply index_ok_purge.
Qed.

Lemma X14_dead_server_purged_witness :
  let st := ns_run init_ns
              [OP_add_file "f1" 0 "alice"; OP_add_file "f2" 1 "bob"; OP_find "f1" 5;
               OP_find "f2" 6] in
  let sm' := fst (remove_storage_server sm_two st 8) in
  let st' := snd (remove_storage_server sm_two st 8) in
  (cached st "f2" = true /\ cached st' "f2" = false /\ cached st' "f1" = true)
  /\ get_ss_by_index sm' (Z.of_nat 1) = None
  /\ (forall p r, trie st' !! p = Some r
                  <-> trie st !! p = Some r /\ ss_index r <> Z.of_nat 1)
  /\ (forall name, trie_answer st' name
                   = if (trie_answer st name =? Z.of_nat 1)%Z then (-1)%Z
                     else trie_answer st name)
  /\ index_ok st'.
Proof.
  intros st sm' st'. split; [repeat split; vm_compute; reflexivity|].
  apply (X14_dead_server_purged sm_two st 8 1).
  - vm_compute. reflexivity.
  - subst st. solve_run index_ok_apply index_ok_init solve_plain.
  - vm_compute. reflexivity.
Defined.

Section CreateFacts.

Lemma get_ss_for_new_file_active (sm sm1 : sm_state) (i : nat) :
  get_ss_for_new_file sm = (sm1, Some i) -> active_slot sm i.
Proof.
  unfold get_ss_for_new_file, find_next_active_ss.
  pose proof (find_next_active_from_spec (ss_registry sm) (next_ss_index sm)
                MAX_STORAGE_SERVERS 0) as H.
  destruct (find_next_active_from (ss_registry sm) (next_ss_index sm) 0 MAX_STORAGE_SERVERS)
    as [j|]; [|discriminate].
  intros [= _ <-]. now destruct H as (_ & _ & _ & Hact & _).
Qed.

Lemma remove_index_ok (sm : sm_state) (st : ns_state) (sock_fd : Z) :
  index_ok st -> index_ok (snd (remove_storage_server sm st sock_fd)).
Proof.
  intros Hok. unfold remove_storage_server.
  destruct (deactivate_by_socket sm sock_fd) as [sm' [i|]]; [|exact Hok].
  now apply index_ok_purge.
Qed.

Lemma trie_answer_none (st : ns_state) (name : string) :
  index_ok st -> trie_answer st name = (-1)%Z -> trie st !! skip_path name = None.
Proof.
  intros (Ht & _) H. unfold trie_answer, find_file_record in H.
  destruct (trie st !! skip_path name) as [r|] eqn:Er; [|reflexivity].
  destruct (Ht _ r Er) as [_ Hge]. lia.
Qed.

End CreateFacts.

(** X15. Creation of a file by the name server: a name that the index
    already answers is refused with 'File already exists' and the index is
    not touched; an ACK means that the name was free, that the chosen slot
    holds an active server which acknowledged the creation, and that the
    index now holds a fresh record for the name, owned by the creator, on
    that slot, with an empty ACL, every other name answering as before. In
    every case the index and its cache stay consistent. *)
Theorem X15_create_request (sm : sm_state) (st : ns_state) (name user : string) (now : Z)
    (exchange : ss_exchange) :
  index_ok st -> plain_name name ->
  let res := handle_create_request sm st name user now exchange in
  let st' := snd (fst res) in
  let reply := snd res in
  index_ok st'
  /\ (trie_answer st name <> (-1)%Z ->
      reply = ERROR_file_already_exists /\ trie st' = trie st)
  /\ (forall i, reply = ACK_created i ->
        trie_answer st name = (-1)%Z /\ active_slot sm i /\ exchange = SS_ACK
        /\ find_file_record (trie st') name = Some (new_record name user (Z.of_nat i))
        /\ forall other, skip_path other <> skip_path name ->
             find_file_record (trie st') other = find_file_record (trie st) other).
Proof.
  intros Hok Hp res st' reply. subst st' reply res. unfold handle_create_request.
  pose proof (find_answer st name now Hok) as Hans.
  pose proof (index_ok_find st name now Hok Hp) as Hok1.
  pose proof (proj1 (find_file_trie st name now)) as Ht1.
  destruct (search_find_file st name now) as [st1 existing]. cbn [fst snd] in *. subst existing.
  destruct (trie_answer st name =? -1)%Z eqn:Ex; cbn [negb].
  2:{ apply Z.eqb_neq in Ex. cbn [fst snd]. split; [exact Hok1|].
      split; [intros _; split; [reflexivity | exact Ht1]|]. intros i [=]. }
  apply Z.eqb_eq in Ex.
  destruct (get_ss_for_new_file sm) as [sm1 [index|]] eqn:Eg.
  2:{ cbn [fst snd]. split; [exact Hok1|]. split; [intros H; contradiction | intros i [=]]. }
  pose proof (get_ss_for_new_file_active sm sm1 index Eg) as Hact.
  destruct exchange.
  - pose proof (remove_index_ok sm1 st1
                  (match ss_registry sm1 !! index with
                   | Some ss => ss_socket_fd ss | None => (-1)%Z end) Hok1) as Hok2.
    destruct (remove_storage_server sm1 st1 _) as [sm2 st2]. cbn [fst snd] in *.
    split; [exact Hok2|]. split; [intros H; contradiction | intros i [=]].
  - pose proof (remove_index_ok sm1 st1
                  (match ss_registry sm1 !! index with
                   | Some ss => ss_socket_fd ss | None => (-1)%Z end) Hok1) as Hok2.
    destruct (remove_storage_server sm1 st1 _) as [sm2 st2]. cbn [fst snd] in *.
    split; [exact Hok2|]. split; [intros H; contradiction | intros i [=]].
  - cbn [fst snd]. split; [exact Hok1|]. split; [intros H; contradiction | intros i [=]].
  - cbn [fst snd].
    split; [apply index_ok_add_file; [exact Hok1 | exact Hp | lia]|].
    split; [intros H; contradiction|]. intros i [= <-].
    split; [exact Ex|]. split; [exact Hact|]. split; [reflexivity|].
    assert (Hnone : trie st1 !! skip_path name = None).
    { rewrite Ht1. now apply trie_answer_none. }
    unfold search_add_file, find_file_record. rewrite Hnone. cbn [trie set_trie].
    split; [now rewrite lookup_insert_eq|].
    intros other Hne. rewrite lookup_insert_ne by congruence. now rewrite Ht1.
Qed.

Lemma X15_create_request_witness :
  let st := ns_run init_ns [OP_add_file "f1" 0 "alice"] in
  let res := handle_create_request sm_two st "f2" "bob" 7 SS_ACK in
  let st' := snd (fst res) in
  let reply := snd res in
  reply = ACK_created 0
  /\ index_ok st'
  /\ (trie_answer st "f2" <> (-1)%Z ->
      reply = ERROR_file_already_exists /\ trie st' = trie st)
  /\ (forall i, reply = ACK_created i ->
        trie_answer st "f2" = (-1)%Z /\ active_slot sm_two i /\ SS_ACK = SS_ACK
        /\ find_file_record (trie st') "f2" = Some (new_record "f2" "bob" (Z.of_nat i))
        /\ forall other, skip_path other <> skip_path "f2" ->
             find_file_record (trie st') other = find_file_record (trie st) other).
Proof.
  intros st res st' reply. split; [vm_compute; reflexivity|].
  apply (X15_create_request sm_two st "f2" "bob" 7 SS_ACK).
  - subst st. solve_run index_ok_apply index_ok_init solve_plain.
  - solve_plain.
Defined.

Section LockCheckThenAdd.

(** The WRITE command is its check followed, when the check passes, by its
    grant in the same state. *)
Lemma write_command_check (st : ss_state) (fd : Z) (buf : string) :
  write_command st fd buf
  = match write_check st fd buf with
    | inl r => (st, r)
    | inr (fname_write, sentence) => write_grant st fd fname_write sentence
    end.
Proof.
  unfold write_command, write_check, write_grant.
  destruct (parse_write buf) as [[fname_write sentence]|]; [|reflexivity].
  destruct (files_dir st !! fname_write); [|reflexivity].
  destruct (sentence <? 1)%Z; [reflexivity|].
  destruct (_ <? sentence)%Z; [reflexivity|].
  now destruct (is_sentence_locked _ _ _ _).
Qed.

(** What a passed check has seen. *)
Lemma write_check_passed (st : ss_state) (fd : Z) (buf fname : string) (sentence : Z) :
  write_check st fd buf = inr (fname, sentence) ->
  parse_write buf = Some (fname, sentence)
  /\ (exists check_file,
        files_dir st !! fname = Some check_file
        /\ (sentence <? 1)%Z = false
        /\ (available_sentences check_file <? sentence)%Z = false)
  /\ is_sentence_locked (sentence_locks st) fname sentence fd = false.
Proof.
  unfold write_check.
  destruct (parse_write buf) as [[fname_write s0]|]; [|discriminate].
  destruct (files_dir st !! fname_write) as [check_file|] eqn:Hfile; [|discriminate].
  destruct (s0 <? 1)%Z eqn:E1; [discriminate|].
  destruct (_ <? s0)%Z eqn:E2; [discriminate|].
  destruct (is_sentence_locked _ _ _ _) eqn:E3; [discriminate|].
  intros [= <- <-]. split; [reflexivity|]. split; [|exact E3].
  exists check_file. repeat split; assumption.
Qed.

Lemma write_info_added (locks : list sentence_lock_t) (fname : string)
    (sentence fd : Z) :
  get_client_write_info (add_sentence_lock locks fname sentence fd) fd
  = Some (fname, sentence).
Proof. unfold add_sentence_lock. cbn. now rewrite Z.eqb_refl. Qed.

Lemma write_info_other (locks : list sentence_lock_t) (fname : string)
    (sentence fd fd' : Z) :
  fd <> fd' ->
  get_client_write_info (add_sentence_lock locks fname sentence fd) fd'
  = get_client_write_info locks fd'.
Proof.
  intros Hne. unfold add_sentence_lock. cbn.
  destruct (Z.eqb_spec fd fd'); [contradiction | reflexivity].
Qed.

End LockCheckThenAdd.

(** X16. The sentence lock is tested and taken in two steps.
    [is_sentence_locked] and [add_sentence_lock] each hold [lock_mutex] for
    their own duration only, and the connections are served by separate
    threads.  For two connections that send WRITE for the same free
    sentence of a file: when the first command is finished before the
    second starts, the second is refused (ERR_409); when both have passed
    their test before either adds its lock, both are answered
    WRITE MODE ENABLED, both are in write mode on that sentence, and the
    lock list holds the sentence for two connections. *)
Theorem X16_sentence_lock_check_then_add
    (st : ss_state) (fd1 fd2 : Z) (buf1 buf2 fname : string) (sentence : Z) :
  fd1 <> fd2 ->
  is_file_name fname = true ->
  write_check st fd1 buf1 = inr (fname, sentence) ->
  write_check st fd2 buf2 = inr (fname, sentence) ->
  (let out1 := write_command st fd1 buf1 in
   out1 = write_grant st fd1 fname sentence
   /\ snd out1 = OK_200_WRITE_MODE_ENABLED
   /\ write_check (fst out1) fd2 buf2 = inl ERR_409_sentence_being_edited
   /\ write_command (fst out1) fd2 buf2 = (fst out1, ERR_409_sentence_being_edited))
  /\ (let out1 := write_grant st fd1 fname sentence in
      let out2 := write_grant (fst out1) fd2 fname sentence in
      snd out1 = OK_200_WRITE_MODE_ENABLED
      /\ snd out2 = OK_200_WRITE_MODE_ENABLED
      /\ get_client_write_info (sentence_locks (fst out2)) fd1 = Some (fname, sentence)
      /\ get_client_write_info (sentence_locks (fst out2)) fd2 = Some (fname, sentence)
      /\ ~ locks_exclusive (sentence_locks (fst out2))).
Proof.
  intros Hne _ Hc1 Hc2.
  destruct (write_check_passed _ _ _ _ _ Hc2) as (Hp2 & (cf & Hfile & Hpos & Hav) & _).
  assert (Hrefused : write_check (fst (write_grant st fd1 fname sentence)) fd2 buf2
                     = inl ERR_409_sentence_being_edited).
  { unfold write_check, write_grant. rewrite Hp2.
    cbn [fst files_dir set_locks sentence_locks]. rewrite Hfile, Hpos, Hav.
    unfold add_sentence_lock, is_sentence_locked.
    cbn [existsb lock_filename sentence_num client_fd].
    rewrite String.eqb_refl, Z.eqb_refl.
    destruct (Z.eqb_spec fd1 fd2); [contradiction | reflexivity]. }
  split.
  - cbv zeta. rewrite (write_command_check st fd1 buf1), Hc1.
    split; [reflexivity|]. split; [reflexivity|]. split; [exact Hrefused|].
    now rewrite write_command_check, Hrefused.
  - cbv zeta. unfold write_grant. cbn [fst snd set_locks sentence_locks].
    split; [reflexivity|]. split; [reflexivity|].
    split; [|split].
    + rewrite write_info_other by congruence. apply write_info_added.
    + apply write_info_added.
    + intros Hex. apply Hne.
      apply (Hex {| lock_filename := fname; sentence_num := sentence; client_fd := fd1 |}
                 {| lock_filename := fname; sentence_num := sentence; client_fd := fd2 |});
        unfold add_sentence_lock;
        [apply elem_of_cons; right; apply elem_of_cons; now left
        | apply elem_of_cons; now left | reflexivity | reflexivity].
Qed.

(** X16 at two WRITE commands for sentence 1 of 'doc', from connections 4
    and 5. *)
Lemma X16_sentence_lock_check_then_add_witness :
  (let out1 := write_command s2_doc 4 "WRITE doc 1" in
   out1 = write_grant s2_doc 4 "doc" 1
   /\ snd out1 = OK_200_WRITE_MODE_ENABLED
   /\ write_check (fst out1) 5 "WRITE doc 1" = inl ERR_409_sentence_being_edited
   /\ write_command (fst out1) 5 "WRITE doc 1" = (fst out1, ERR_409_sentence_being_edited))
  /\ (let out1 := write_grant s2_doc 4 "doc" 1 in
      let out2 := write_grant (fst out1) 5 "doc" 1 in
      snd out1 = OK_200_WRITE_MODE_ENABLED
      /\ snd out2 = OK_200_WRITE_MODE_ENABLED
      /\ get_client_write_info (sentence_locks (fst out2)) 4 = Some ("doc", 1%Z)
      /\ get_client_write_info (sentence_locks (fst out2)) 5 = Some ("doc", 1%Z)
      /\ ~ locks_exclusive (sentence_locks (fst out2))).
Proof.
  apply (X16_sentence_lock_check_then_add s2_doc 4 5 "WRITE doc 1" "WRITE doc 1" "doc" 1).
  - discriminate.
  - vm_compute. reflexivity.
  - vm_compute. reflexivity.
  - vm_compute. reflexivity.
Defined.

(* --------------------------------------------------------------------- *)
(** ** The storage server's metadata table                                *)
(* --------------------------------------------------------------------- *)

Section TableFacts.

Lemma persist_find_file_spec (table : list FileMeta) (name : string) (k : nat) :
  match persist_find_file k table name with
  | Some i => exists j m, i = k + j /\ table !! j = Some m /\ fm_filename m = name
              /\ forall j' m', j' < j -> table !! j' = Some m' -> fm_filename m' <> name
  | None => name ∉ map fm_filename table
  end.
Proof.
  revert k. induction table as [|m table IH]; intros k; simpl.
  - apply not_elem_of_nil.
  - destruct (String.eqb_spec (fm_filename m) name) as [He|Hne].
    + exists 0, m. repeat split; [lia | done | lia].
    + specialize (IH (S k)). destruct (persist_find_file (S k) table name) as [i|].
      * destruct IH as (j & m' & -> & Hj & Hm & Hfirst).
        exists (S j), m'. repeat split; [lia | done | done |].
        intros [|j'] m'' Hlt Hl; simpl in Hl.
        -- now inversion Hl; subst.
        -- apply (Hfirst j'); [lia | done].
      * intros [H|H]%elem_of_cons; [congruence | done].
Qed.

Lemma persist_find_file_shift (table : list FileMeta) (name : string) (k : nat) :
  persist_find_file k table name = (fun i => k + i) <$> persist_find_file 0 table name.
Proof.
  revert k. induction table as [|m table IH]; intros k; simpl; [done|].
  destruct (String.eqb (fm_filename m) name); simpl.
  - f_equal. lia.
  - rewrite (IH (S k)), (IH 1). destruct (persist_find_file 0 table name); simpl; [|done].
    f_equal. lia.
Qed.

Lemma persist_find_file_names (t1 t2 : list FileMeta) (name : string) (k : nat) :
  map fm_filename t1 = map fm_filename t2 ->
  persist_find_file k t1 name = persist_find_file k t2 name.
Proof.
  revert t2 k. induction t1 as [|m t1 IH]; intros [|m2 t2] k H; simpl in *; try done.
  inversion H as [[H1 H2]]. rewrite H1. destruct (String.eqb (fm_filename m2) name); [done|].
  now apply IH.
Qed.

Lemma persist_find_file_Some (table : list FileMeta) (name : string) (i : nat) :
  persist_find_file 0 table name = Some i ->
  exists m, table !! i = Some m /\ fm_filename m = name.
Proof.
  intros H. pose proof (persist_find_file_spec table name 0) as Hs. rewrite H in Hs.
  destruct Hs as (j & m & -> & Hj & Hm & _). now exists m.
Qed.

Lemma names_alter (f : FileMeta -> FileMeta) (i : nat) (table : list FileMeta) :
  (forall m, fm_filename (f m) = fm_filename m) ->
  map fm_filename (alter f i table) = map fm_filename table.
Proof.
  intros Hf. revert i. induction table as [|m table IH]; intros [|i]; simpl; try done.
  - now rewrite Hf.
  - f_equal. apply IH.
Qed.

Lemma names_insert (m0 m : FileMeta) (i : nat) (table : list FileMeta) :
  table !! i = Some m0 -> fm_filename m = fm_filename m0 ->
  map fm_filename (<[i := m]> table) = map fm_filename table.
Proof.
  revert i. induction table as [|x table IH]; intros [|i] Hl Hm; simpl in *; try done.
  - inversion Hl; subst. now rewrite Hm.
  - f_equal. now apply IH.
Qed.

(** Every update but adding and removing keeps the column of names. *)
Lemma table_apply_names (table : list FileMeta) (o : table_op) :
  match o with T_add _ _ _ | T_remove _ => True
  | _ => map fm_filename (table_apply table o) = map fm_filename table end.
Proof.
  destruct o; simpl; try exact I.
  - unfold update_metadata_entry. destruct (persist_find_file 0 table name); [|done].
    now apply names_alter.
  - unfold persist_update_last_accessed. destruct (persist_find_file 0 table name); [|done].
    now apply names_alter.
  - unfold persist_set_owner. destruct (persist_find_file 0 table name); [|done].
    now apply names_alter.
  - unfold persist_set_folder. destruct (persist_find_file 0 table name); [|done].
    now apply names_alter.
  - unfold persist_set_acl. destruct (persist_find_file 0 table name) as [i|]; [|done].
    destruct (table !! i) as [file|] eqn:Hi; [|done].
    destruct (acl_find 0 (fm_acl file) target_user).
    + now apply (names_insert file).
    + destruct (length (fm_acl file) <? MAX_ACL_ENTRIES)%nat; [|done].
      now apply (names_insert file).
  - unfold persist_remove_acl. destruct (persist_find_file 0 table name) as [i|]; [|done].
    destruct (table !! i) as [file|] eqn:Hi; [|done].
    destruct (acl_find 0 (fm_acl file) target_user); [|done].
    destruct (last (fm_acl file)); [|done].
    now apply (names_insert file).
Qed.

Lemma table_ok_apply (table : list FileMeta) (o : table_op) :
  table_op_name_fits o -> table_ok table -> table_ok (table_apply table o).
Proof.
  intros Hfit [Hnd Hlen].
  pose proof (table_apply_names table o) as Hn.
  destruct o; try (split; [now rewrite Hn | rewrite <- (length_map fm_filename), Hn,
                                             length_map; exact Hlen]).
  - simpl in *. unfold add_metadata_entry.
    pose proof (persist_find_file_spec table name 0) as Hs.
    destruct (persist_find_file 0 table name); [now split|].
    destruct (Nat.leb_spec MAX_FILES (length table)); [now split|].
    split.
    + rewrite map_app. cbn [map fm_filename]. rewrite (take_bytes_all 255 name Hfit).
      apply NoDup_app. repeat split; [done | | apply NoDup_singleton].
      intros x Hx ->%list_elem_of_singleton. done.
    + rewrite length_app. simpl. lia.
  - simpl. unfold remove_metadata_entry.
    destruct (persist_find_file 0 table name) as [i|]; [|now split].
    split.
    + change (NoDup (fm_filename <$> delete i table)).
      rewrite (list_fmap_delete fm_filename).
      eapply sublist_NoDup; [exact Hnd | apply sublist_delete].
    + pose proof (sublist_length _ _ (sublist_delete table i)). lia.
Qed.

Lemma table_ok_run (table : list FileMeta) (l : list table_op) :
  Forall table_op_name_fits l -> table_ok table -> table_ok (table_run table l).
Proof.
  intros Hl. revert table. induction Hl as [|o l Ho _ IH]; intros table Hok; [done|].
  apply IH. now apply table_ok_apply.
Qed.

End TableFacts.

(** X17. Whatever sequence of updates the storage server makes to its
    metadata table (a file added under a name that fits the header's
    filename field, removed, refreshed, its owner, folder, access time or
    ACL set), the table never names a file twice and never outgrows its
    [MAX_FILES] slots. *)
Theorem X17_metadata_table_invariant (table : list FileMeta) (l : list table_op) :
  table_ok table -> Forall table_op_name_fits l ->
  table_ok (table_run table l)
  /\ forall name m, table_lookup (table_run table l) name = Some m ->
       fm_filename m = name /\ m ∈ table_run table l.
Proof.
  intros Hok Hl. split; [now apply table_ok_run|].
  intros name m. unfold table_lookup.
  destruct (persist_find_file 0 (table_run table l) name) as [i|] eqn:Hf; [|done].
  intros Hi. destruct (persist_find_file_Some _ _ _ Hf) as (m' & Hm' & Hname).
  rewrite Hi in Hm'. inversion Hm'; subst m'. split; [done|].
  now apply list_elem_of_lookup_2 in Hi.
Qed.

Lemma X17_metadata_table_invariant_witness :
  let l := [T_add (Some "one two") "a.txt" 5; T_add None "b.txt" 6;
            T_set_owner "a.txt" "alice"; T_set_acl "a.txt" "bob" PERM_READ;
            T_add (Some "") "a.txt" 7; T_remove "b.txt";
            T_update (Some "one") "a.txt" 9] in
  table_ok (table_run [] l)
  /\ forall name m, table_lookup (table_run [] l) name = Some m ->
       fm_filename m = name /\ m ∈ table_run [] l.
Proof.
  cbv zeta. apply X17_metadata_table_invariant.
  - split; [apply NoDup_nil_2 | simpl; unfold MAX_FILES; lia].
  - repeat constructor; simpl; lia.
Defined.

Section TableLookup.

Lemma table_lookup_elem (table : list FileMeta) (name : string) :
  name ∈ map fm_filename table -> exists m, table_lookup table name = Some m.
Proof.
  intros Hin. unfold table_lookup.
  pose proof (persist_find_file_spec table name 0) as Hs.
  destruct (persist_find_file 0 table name) as [i|]; [|done].
  destruct Hs as (j & m & -> & Hj & _). now exists m.
Qed.

Lemma table_lookup_None (table : list FileMeta) (name : string) :
  name ∉ map fm_filename table -> table_lookup table name = None.
Proof.
  intros Hin. unfold table_lookup.
  destruct (persist_find_file 0 table name) as [i|] eqn:Hf; [|done].
  destruct (persist_find_file_Some _ _ _ Hf) as (m & Hm & Hname).
  exfalso. apply Hin. subst name.
  change (fm_filename m ∈ fm_filename <$> table).
  apply list_elem_of_fmap_2. now apply list_elem_of_lookup_2 in Hm.
Qed.

(** Looking a name up in [l1 ++ m :: l2] when [l1] does not hold it. *)
Lemma table_lookup_app (l1 l2 : list FileMeta) (name : string) :
  name ∉ map fm_filename l1 ->
  table_lookup (l1 ++ l2) name = table_lookup l2 name.
Proof.
  unfold table_lookup. induction l1 as [|x l1 IH]; intros Hin; [done|].
  simpl. destruct (String.eqb_spec (fm_filename x) name) as [He|Hne].
  - exfalso. apply Hin. simpl. subst name. now left.
  - rewrite (persist_find_file_shift _ _ 1).
    assert (Hin' : name ∉ map fm_filename l1).
    { intros H. apply Hin. simpl. now right. }
    specialize (IH Hin').
    rewrite (persist_find_file_shift l2 name 0) in IH |- *.
    destruct (persist_find_file 0 (l1 ++ l2) name) as [i|]; simpl in *.
    + exact IH.
    + exact IH.
Qed.

Lemma table_lookup_skip (l1 l2 : list FileMeta) (name : string) :
  name ∉ map fm_filename l2 ->
  table_lookup (l1 ++ l2) name = table_lookup l1 name.
Proof.
  unfold table_lookup. intros Hin. induction l1 as [|x l1 IH].
  - simpl. apply (table_lookup_None l2 name Hin).
  - simpl. destruct (String.eqb (fm_filename x) name); [done|].
    rewrite (persist_find_file_shift _ _ 1), (persist_find_file_shift l1 _ 1).
    destruct (persist_find_file 0 (l1 ++ l2) name) as [i|],
             (persist_find_file 0 l1 name) as [i'|]; simpl in *; try done.
Qed.

End TableLookup.

Section TableUnique.

Lemma names_elem (table : list FileMeta) (m : FileMeta) :
  m ∈ table -> fm_filename m ∈ map fm_filename table.
Proof. intros H. change (fm_filename m ∈ fm_filename <$> table). now apply list_elem_of_fmap_2. Qed.

(** In a table without duplicate names, lookup finds the one entry of the
    name. *)
Lemma table_lookup_iff (table : list FileMeta) (name : string) (m : FileMeta) :
  NoDup (map fm_filename table) ->
  table_lookup table name = Some m <-> m ∈ table /\ fm_filename m = name.
Proof.
  intros Hnd. unfold table_lookup. split.
  - destruct (persist_find_file 0 table name) as [i|] eqn:Hf; [|done].
    intros Hi. destruct (persist_find_file_Some _ _ _ Hf) as (m' & Hm' & Hname).
    rewrite Hi in Hm'. inversion Hm'; subst m'. split; [|done].
    now apply list_elem_of_lookup_2 in Hi.
  - intros [Hin Hname].
    pose proof (persist_find_file_spec table name 0) as Hs.
    destruct (persist_find_file 0 table name) as [i|].
    + destruct Hs as (j & m' & -> & Hj & Hm' & _). simpl. rewrite Hj. f_equal.
      apply list_elem_of_lookup_1 in Hin. destruct Hin as [k Hk].
      assert (Hjk : j = k).
      { change (NoDup (fm_filename <$> table)) in Hnd.
        eapply (NoDup_lookup _ j k (fm_filename m')); [exact Hnd | |].
        - now rewrite list_lookup_fmap, Hj.
        - rewrite list_lookup_fmap, Hk. simpl. congruence. }
      subst k. congruence.
    + exfalso. apply Hs. subst name. now apply names_elem.
Qed.

Lemma table_lookup_ext (t1 t2 : list FileMeta) (name : string) :
  NoDup (map fm_filename t1) -> NoDup (map fm_filename t2) ->
  (forall m, fm_filename m = name -> m ∈ t1 <-> m ∈ t2) ->
  table_lookup t1 name = table_lookup t2 name.
Proof.
  intros H1 H2 Hext. apply option_eq. intros m.
  rewrite (table_lookup_iff t1 name m H1), (table_lookup_iff t2 name m H2).
  split; intros [Hin Hn]; (split; [now apply (Hext m Hn) | done]).
Qed.

Lemma remove_metadata_entry_elem (table : list FileMeta) (name : string) (m : FileMeta) :
  NoDup (map fm_filename table) ->
  m ∈ remove_metadata_entry table name <-> m ∈ table /\ fm_filename m <> name.
Proof.
  intros Hnd. unfold remove_metadata_entry.
  pose proof (persist_find_file_spec table name 0) as Hs.
  destruct (persist_find_file 0 table name) as [i|].
  - destruct Hs as (j & x & -> & Hj & Hx & _). simpl.
    pose proof (delete_Permutation table j x Hj) as Hp.
    assert (Hnd' : NoDup (map fm_filename (x :: delete j table))).
    { change (NoDup (fm_filename <$> (x :: delete j table))). now rewrite <- Hp. }
    simpl in Hnd'. apply NoDup_cons in Hnd' as [Hx' _].
    split.
    + intros Hin. split.
      * rewrite Hp. now right.
      * intros He. apply Hx'. rewrite Hx, <- He. now apply names_elem.
    + intros [Hin Hne]. rewrite Hp in Hin. apply elem_of_cons in Hin as [->|Hin]; [|done].
      congruence.
  - split.
    + intros Hin. split; [done|]. intros He. apply Hs. rewrite <- He. now apply names_elem.
    + now intros [Hin _].
Qed.

End TableUnique.

(** X18. In a table that names no file twice, [remove_metadata_entry]
    removes the file for good (a later lookup of the name finds nothing)
    and leaves the entry of every other file as it was. *)
Theorem X18_metadata_remove
    (table : list FileMeta) (name : string) :
  table_ok table ->
  table_ok (remove_metadata_entry table name)
  /\ table_lookup (remove_metadata_entry table name) name = None
  /\ forall other, other <> name ->
       table_lookup (remove_metadata_entry table name) other = table_lookup table other.
Proof.
  intros Hok.
  assert (Hok' : table_ok (remove_metadata_entry table name)).
  { apply (table_ok_apply table (T_remove name)); [exact I | exact Hok]. }
  destruct Hok as [Hnd _]. destruct Hok' as [Hnd' Hlen']. repeat split; try done.
  - destruct (table_lookup (remove_metadata_entry table name) name) as [m|] eqn:Hl; [|done].
    apply (table_lookup_iff _ _ _ Hnd') in Hl as [Hin Hn].
    apply (remove_metadata_entry_elem _ _ _ Hnd) in Hin as [_ Hne]. done.
  - intros other Hne. apply table_lookup_ext; [done | done |].
    intros m Hm. rewrite (remove_metadata_entry_elem _ _ _ Hnd). split.
    + now intros [Hin _].
    + intros Hin. split; [done | congruence].
Qed.

Lemma X18_metadata_remove_witness :
  let table := table_run [] [T_add (Some "one two") "a.txt" 5; T_add None "b.txt" 6;
                             T_add (Some "x") "c.txt" 7] in
  table_ok (remove_metadata_entry table "b.txt")
  /\ table_lookup (remove_metadata_entry table "b.txt") "b.txt" = None
  /\ forall other, other <> "b.txt"%string ->
       table_lookup (remove_metadata_entry table "b.txt") other = table_lookup table other.
Proof.
  cbv zeta. apply X18_metadata_remove.
  apply table_ok_run; [repeat constructor; simpl; lia|].
  split; [apply NoDup_nil_2 | simpl; unfold MAX_FILES; lia].
Defined.

Section AclCopies.

Lemma table_acl_insert (table : list FileMeta) (name : string) (i : nat)
    (file : FileMeta) (l : list AclEntry) :
  persist_find_file 0 table name = Some i -> table !! i = Some file ->
  table_acl (<[i := with_acl file l]> table) name = Some l.
Proof.
  intros Hf Hi. unfold table_acl, table_lookup.
  rewrite (persist_find_file_names _ table name 0), Hf.
  - rewrite list_lookup_insert_eq; [done|]. now apply lookup_lt_Some in Hi.
  - now apply (names_insert file).
Qed.

Lemma table_acl_Some (table : list FileMeta) (name : string) (l : list AclEntry) :
  table_acl table name = Some l ->
  exists i file, persist_find_file 0 table name = Some i /\ table !! i = Some file
                 /\ fm_acl file = l.
Proof.
  unfold table_acl, table_lookup.
  destruct (persist_find_file 0 table name) as [i|]; [|done].
  destruct (table !! i) as [file|] eqn:Hi; [|done].
  intros H. exists i, file. simpl in H. now inversion H.
Qed.

Lemma table_acl_set (table : list FileMeta) (name target : string)
    (perm : PermissionType) (l : list AclEntry) :
  table_acl table name = Some l ->
  table_acl (persist_set_acl table name target perm) name
  = Some (match acl_find 0 l target with
          | Some j => alter (fun e => {| username := username e; permission := perm |}) j l
          | None =>
              if (MAX_ACL_ENTRIES <=? length l)%nat then l
              else l ++ [{| username := take_bytes 63 target; permission := perm |}]
          end).
Proof.
  intros H. destruct (table_acl_Some _ _ _ H) as (i & file & Hf & Hi & Hl).
  unfold persist_set_acl. rewrite Hf, Hi, Hl.
  destruct (acl_find 0 l target) as [j|].
  - now apply table_acl_insert.
  - unfold Nat.ltb. destruct (Nat.leb_spec MAX_ACL_ENTRIES (length l)).
    + destruct (Nat.leb_spec (S (length l)) MAX_ACL_ENTRIES); [lia | exact H].
    + destruct (Nat.leb_spec (S (length l)) MAX_ACL_ENTRIES); [|lia].
      now apply table_acl_insert.
Qed.

Lemma table_acl_remove (table : list FileMeta) (name target : string)
    (l : list AclEntry) :
  table_acl table name = Some l ->
  table_acl (persist_remove_acl table name target) name
  = Some (match acl_find 0 l target, last l with
          | Some j, Some e => removelast (<[j := e]> l)
          | _, _ => l
          end).
Proof.
  intros H. destruct (table_acl_Some _ _ _ H) as (i & file & Hf & Hi & Hl).
  unfold persist_remove_acl. rewrite Hf, Hi, Hl.
  destruct (acl_find 0 l target) as [j|]; [|exact H].
  destruct (last l) as [e|]; [|exact H].
  now apply table_acl_insert.
Qed.

End AclCopies.

(** X19. The name server and the storage server each keep a copy of a
    file's ACL, updated by [search_grant_permission] /
    [search_remove_permission] and by [persist_set_acl] /
    [persist_remove_acl].  If the two copies agree before a grant or a
    revocation that the name server accepts, they agree after it. *)
Theorem X19_acl_copies_agree
    (st : ns_state) (table : list FileMeta) (name owner target : string)
    (perm : PermissionType) :
  index_acl st name = table_acl table name ->
  (snd (search_grant_permission st name owner target perm) = 0%Z ->
   index_acl (fst (search_grant_permission st name owner target perm)) name
   = table_acl (persist_set_acl table name target perm) name)
  /\ (snd (search_remove_permission st name owner target) = 0%Z ->
      index_acl (fst (search_remove_permission st name owner target)) name
      = table_acl (persist_remove_acl table name target) name).
Proof.
  unfold index_acl, find_file_record. intros Hagree. split.
  - unfold search_grant_permission, find_file_record.
    destruct (trie st !! skip_path name) as [record|] eqn:Hr; [|done].
    simpl in Hagree. symmetry in Hagree.
    rewrite (table_acl_set table name target perm _ Hagree).
    destruct (negb (String.eqb (owner_username record) owner)); [done|].
    destruct (acl_find 0 (acl record) target) as [j|].
    + intros _. cbn [fst trie set_trie]. now rewrite lookup_insert_eq.
    + destruct (MAX_ACL_ENTRIES <=? length (acl record))%nat; [done|].
      intros _. cbn [fst trie set_trie]. now rewrite lookup_insert_eq.
  - unfold search_remove_permission, find_file_record.
    destruct (trie st !! skip_path name) as [record|] eqn:Hr; [|done].
    simpl in Hagree. symmetry in Hagree.
    rewrite (table_acl_remove table name target _ Hagree).
    destruct (negb (String.eqb (owner_username record) owner)); [done|].
    destruct (acl_find 0 (acl record) target) as [j|];
      [|intros _; cbn [fst]; now rewrite Hr].
    destruct (last (acl record)) as [e|]; [|intros _; cbn [fst]; now rewrite Hr].
    intros _. cbn [fst trie set_trie]. now rewrite lookup_insert_eq.
Qed.

Lemma X19_acl_copies_agree_witness :
  let st := search_add_file init_ns "a.txt" 0 "alice" in
  let table := table_run [] [T_add (Some "") "a.txt" 5; T_set_owner "a.txt" "alice"] in
  (snd (search_grant_permission st "a.txt" "alice" "bob" PERM_WRITE) = 0%Z ->
   index_acl (fst (search_grant_permission st "a.txt" "alice" "bob" PERM_WRITE)) "a.txt"
   = table_acl (persist_set_acl table "a.txt" "bob" PERM_WRITE) "a.txt")
  /\ (snd (search_remove_permission st "a.txt" "alice" "bob") = 0%Z ->
      index_acl (fst (search_remove_permission st "a.txt" "alice" "bob")) "a.txt"
      = table_acl (persist_remove_acl table "a.txt" "bob") "a.txt").
Proof.
  cbv zeta. apply X19_acl_copies_agree. vm_compute. reflexivity.
Defined.

(* --------------------------------------------------------------------- *)
(** ** The word count of the metadata                                     *)
(* --------------------------------------------------------------------- *)

Section WordCount.

Lemma app_char_nonempty (cur : string) (c : ascii) :
  cur +:+ String c EmptyString <> EmptyString.
Proof. destruct cur; discriminate. Qed.

Lemma count_words_from_strtok (s cur : string) (wc : Z) :
  count_words_from s (negb (String.eqb cur EmptyString)) wc
  = (wc + Z.of_nat (length (strtok_from blanks cur s)))%Z.
Proof.
  revert cur wc. induction s as [|c s IH]; intros cur wc.
  - simpl. destruct cur; simpl; lia.
  - cbn [count_words_from strtok_from].
    assert (Hb : in_set blanks c = is_blank c).
    { unfold blanks, is_blank. cbn [in_set]. now rewrite orb_false_r, !orb_assoc. }
    rewrite Hb. destruct (is_blank c).
    + destruct cur as [|d cur].
      * apply (IH EmptyString wc).
      * change (negb (String.eqb (String d cur) EmptyString)) with true.
        cbn [length]. pose proof (IH EmptyString (wc + 1)%Z) as IH1.
        change (negb (String.eqb EmptyString EmptyString)) with false in IH1.
        rewrite IH1. lia.
    + specialize (IH (cur +:+ String c EmptyString) wc).
      destruct (String.eqb_spec (cur +:+ String c EmptyString) EmptyString) as [He|_].
      * now apply app_char_nonempty in He.
      * exact IH.
Qed.

(** Two delimiter sets that agree on the bytes of [s] cut it alike. *)
Lemma strtok_from_ext (ds ds' s cur : string) :
  (forall c, in_set s c = true -> in_set ds c = in_set ds' c) ->
  strtok_from ds cur s = strtok_from ds' cur s.
Proof.
  revert cur. induction s as [|c s IH]; intros cur Hext; [done|].
  cbn [strtok_from].
  assert (Hc : in_set ds c = in_set ds' c).
  { apply Hext. cbn [in_set]. now rewrite Ascii.eqb_refl. }
  assert (Hs : forall c', in_set s c' = true -> in_set ds c' = in_set ds' c').
  { intros c' H. apply Hext. cbn [in_set]. rewrite H. apply orb_true_r. }
  rewrite Hc. destruct (in_set ds' c).
  - destruct cur; now rewrite (IH _ Hs).
  - now apply IH.
Qed.

End WordCount.

(** X20. The word count that the storage server records for a file is the
    number of tokens that [strtok] cuts the whole file into at blanks,
    tabs, newlines and carriage returns.  For a file without a carriage
    return, of at most 8191 bytes and 1024 words, it is the number of
    words that the sentence code indexes. *)
Theorem X20_word_count_is_token_count (s : string) :
  count_words_in_file (Some s) = Z.of_nat (length (strtok s blanks))
  /\ (in_set s "013" = false -> strlen s <= 8191 ->
      (count_words_in_file (Some s) <= 1024)%Z ->
      count_words_in_file (Some s) = Z.of_nat (length (tokenize (fread_content s)))).
Proof.
  assert (H1 : count_words_in_file (Some s) = Z.of_nat (length (strtok s blanks))).
  { unfold count_words_in_file, strtok.
    pose proof (count_words_from_strtok s EmptyString 0) as H.
    change (negb (String.eqb EmptyString EmptyString)) with false in H.
    rewrite H. lia. }
  split; [exact H1|].
  intros Hcr Hlen Hwords. rewrite H1 in Hwords |- *.
  unfold tokenize, fread_content. rewrite (take_bytes_all 8191 s Hlen).
  change (String " " (String "009" (String "010" EmptyString))) with word_delims.
  assert (He : strtok s blanks = strtok s word_delims).
  { unfold strtok. apply strtok_from_ext. intros c Hc.
    unfold blanks, word_delims. cbn [in_set].
    destruct (Ascii.eqb_spec c "013") as [->|_]; [congruence|].
    now rewrite !orb_false_r. }
  rewrite <- He, firstn_all2; [done | lia].
Qed.

Lemma X20_word_count_is_token_count_witness :
  let s := "one  two. three"%string in
  count_words_in_file (Some s) = Z.of_nat (length (strtok s blanks))
  /\ count_words_in_file (Some s) = Z.of_nat (length (tokenize (fread_content s))).
Proof.
  cbv zeta. destruct (X20_word_count_is_token_count "one  two. three") as [H1 H2].
  split; [exact H1|]. apply H2; [reflexivity | apply Nat.leb_le; vm_compute; reflexivity
                          | vm_compute; discriminate].
Defined.

(* --------------------------------------------------------------------- *)
(** ** Storage server: what READ and VIEWCHECKPOINT send                  *)
(* --------------------------------------------------------------------- *)

Section BlockFacts.

Lemma take_drop_bytes (n : nat) (s : string) :
  take_bytes n s +:+ drop_bytes n s = s.
Proof.
  revert n. induction s as [|c s IH]; intros [|n]; try reflexivity.
  cbn [take_bytes drop_bytes]. rewrite app_str_cons. now rewrite IH.
Qed.

Lemma length_drop_bytes (n : nat) (s : string) :
  strlen (drop_bytes n s) = strlen s - n.
Proof.
  revert n. induction s as [|c s IH]; intros [|n]; simpl; try reflexivity.
  apply IH.
Qed.

Lemma length_take_bytes_min (n : nat) (s : string) :
  strlen (take_bytes n s) = Nat.min n (strlen s).
Proof.
  revert n. induction s as [|c s IH]; intros [|n]; simpl; try reflexivity.
  f_equal. apply IH.
Qed.

Lemma drop_bytes_add (n k : nat) (s : string) :
  drop_bytes (n + k) s = drop_bytes k (drop_bytes n s).
Proof.
  revert n. induction s as [|c s IH]; intros [|n]; simpl; try reflexivity.
  - now destruct k.
  - apply IH.
Qed.

Lemma drop_bytes_all (n : nat) (s : string) :
  strlen s <= n -> drop_bytes n s = EmptyString.
Proof.
  revert n. induction s as [|c s IH]; intros [|n] H; simpl in *; try reflexivity; try lia.
  apply IH. lia.
Qed.

Lemma fread_blocks_spec (fuel size : nat) (s : string) :
  0 < size -> strlen s < fuel ->
  received (fread_blocks fuel size s) = s
  /\ Forall (fun b => 0 < strlen b <= size) (fread_blocks fuel size s).
Proof.
  intros Hsize. revert s. induction fuel as [|fuel IH]; intros s Hfuel; [lia|].
  cbn [fread_blocks]. pose proof (length_take_bytes_min size s) as Hmin.
  destruct (Nat.ltb_spec 0 (strlen (take_bytes size s))) as [Hpos|Hzero].
  - destruct (IH (drop_bytes size s)) as [Hrec Hfit].
    { rewrite length_drop_bytes. lia. }
    split.
    + cbn [received fold_right]. fold (received (fread_blocks fuel size (drop_bytes size s))).
      rewrite Hrec. apply take_drop_bytes.
    + constructor; [lia | exact Hfit].
  - split; [|constructor]. simpl. symmetry. apply length_zero_str.
    unfold strlen in *. lia.
Qed.

Lemma send_chunks_spec (fuel : nat) (content : string) (sent : nat) :
  strlen content - sent <= fuel ->
  received (send_chunks fuel content sent) = drop_bytes sent content
  /\ blocks_fit (send_chunks fuel content sent).
Proof.
  revert sent. induction fuel as [|fuel IH]; intros sent Hfuel.
  - split; [|constructor]. simpl. symmetry. apply drop_bytes_all. lia.
  - cbn [send_chunks].
    destruct (Nat.ltb_spec sent (strlen content)) as [Hlt|Hge].
    + set (to_send := if (1024 <? strlen content - sent)%nat then 1024
                      else strlen content - sent).
      assert (Hto : 0 < to_send <= 1024 /\ to_send <= strlen content - sent).
      { subst to_send. destruct (Nat.ltb_spec 1024 (strlen content - sent)); lia. }
      destruct (IH (sent + to_send)) as [Hrec Hfit]; [lia|].
      split.
      * cbn [received fold_right].
        fold (received (send_chunks fuel content (sent + to_send))).
        rewrite Hrec, drop_bytes_add. apply take_drop_bytes.
      * constructor; [|exact Hfit].
        rewrite length_take_bytes_min, length_drop_bytes. lia.
    + split; [|constructor]. simpl. symmetry. apply drop_bytes_all. lia.
Qed.

Lemma skip_space_word (a r : string) :
  a <> EmptyString -> no_space a = true -> skip_space (a +:+ r) = a +:+ r.
Proof.
  destruct a as [|c a]; [done|]. intros _ H. simpl in H.
  apply andb_true_iff in H as [Hc _]. rewrite app_str_cons. simpl.
  now destruct (isspace c).
Qed.

Lemma span_bytes_word (n : nat) (a r : string) :
  no_space a = true -> strlen a <= n ->
  match r with String c _ => isspace c = true | EmptyString => True end ->
  span_bytes (fun c => negb (isspace c)) n (a +:+ r) = (a, r).
Proof.
  revert n. induction a as [|c a IH]; intros n Ha Hn Hr.
  - rewrite app_str_nil_l. destruct n, r as [|d r]; simpl; try reflexivity.
    now rewrite Hr.
  - destruct n as [|n]; [simpl in Hn; lia|].
    simpl in Ha. apply andb_true_iff in Ha as [Hc Ha].
    rewrite app_str_cons. cbn [span_bytes]. rewrite Hc.
    rewrite (IH n Ha); [reflexivity | simpl in Hn; lia | exact Hr].
Qed.

Lemma scan_word_space (a r : string) :
  word_arg a ->
  match r with String c _ => isspace c = true | EmptyString => True end ->
  scan_word 255 (String " " (a +:+ r)) = Some (a, r).
Proof.
  intros (Hne & Hlen & Hsp) Hr. unfold scan_word, scan_set.
  change (skip_space (String " " (a +:+ r))) with (skip_space (a +:+ r)).
  rewrite (skip_space_word a r Hne Hsp), (span_bytes_word 255 a r Hsp Hlen Hr).
  now destruct a.
Qed.

(** A command line [<lit> <fname> <tag>] parses into its two words. *)
Lemma parse_two_words_ok (lit fname tag : string) :
  word_arg fname -> word_arg tag ->
  parse_two_words lit (lit +:+ " " +:+ fname +:+ " " +:+ tag) = Some (fname, tag).
Proof.
  intros Hf Ht. unfold parse_two_words, scan_lit.
  rewrite has_prefix_app. change (String.length lit) with (strlen lit).
  rewrite drop_bytes_app.
  change (" " +:+ fname +:+ " " +:+ tag) with (String " " (fname +:+ String " " tag)).
  rewrite (scan_word_space fname (String " " tag) Hf); [|reflexivity].
  pose proof (scan_word_space tag EmptyString Ht I) as H.
  rewrite app_str_nil_r in H. now rewrite H.
Qed.

End BlockFacts.

Section TableAlter.

Lemma table_lookup_alter (f : FileMeta -> FileMeta) (table : list FileMeta)
    (name : string) (i : nat) :
  (forall m, fm_filename (f m) = fm_filename m) ->
  persist_find_file 0 table name = Some i ->
  table_lookup (alter f i table) name = f <$> table_lookup table name.
Proof.
  intros Hf Hi. unfold table_lookup.
  rewrite (persist_find_file_names (alter f i table) table name 0 (names_alter f i table Hf)).
  rewrite Hi. apply list_lookup_alter_eq.
Qed.

Lemma last_accessed_lookup (table : list FileMeta) (name username : string) (now : Z)
    (m : FileMeta) :
  table_lookup table name = Some m ->
  table_lookup (persist_update_last_accessed table name username now) name
  = Some {| fm_filename := fm_filename m; fm_size := fm_size m;
            fm_word_count := fm_word_count m;
            fm_created := fm_created m; fm_modified := fm_modified m;
            fm_last_accessed := now;
            fm_last_accessed_by := take_bytes 63 username;
            fm_owner_username := fm_owner_username m;
            fm_folder := fm_folder m; fm_acl := fm_acl m |}.
Proof.
  intros Hm. unfold persist_update_last_accessed.
  destruct (persist_find_file 0 table name) as [i|] eqn:Hi.
  - rewrite (table_lookup_alter _ table name i); [|done|done]. now rewrite Hm.
  - unfold table_lookup in Hm. now rewrite Hi in Hm.
Qed.

End TableAlter.

(** X21. READ of a file that exists sends the whole file, however long:
    an empty file is announced as such, any other content goes out in
    blocks of 1 to 1024 bytes whose concatenation is the file.  The files
    are untouched, and the file's metadata entry records the reader and
    the time and keeps every other field. *)
Theorem X21_read_sends_whole_file
    (s : store) (fname username f : string) (now : Z) :
  files_dir (st_ss s) !! fname = Some f ->
  st_ss (fst (read_command s fname username now)) = st_ss s
  /\ (f = EmptyString -> snd (read_command s fname username now) = R_OK_200_EMPTY_FILE)
  /\ (f <> EmptyString ->
      exists blocks,
        snd (read_command s fname username now) = R_OK_200_FILE_CONTENT blocks
        /\ received blocks = f /\ blocks_fit blocks)
  /\ (forall m, table_lookup (st_table s) fname = Some m ->
      exists m', table_lookup (st_table (fst (read_command s fname username now))) fname
                 = Some m'
        /\ fm_last_accessed m' = now
        /\ fm_last_accessed_by m' = take_bytes 63 username
        /\ fm_size m' = fm_size m /\ fm_word_count m' = fm_word_count m
        /\ fm_modified m' = fm_modified m /\ fm_owner_username m' = fm_owner_username m
        /\ fm_acl m' = fm_acl m).
Proof.
  intros Hf. unfold read_command. rewrite Hf. cbn [fst snd st_ss st_table].
  split; [reflexivity|]. split; [|split].
  - now intros ->.
  - intros Hne. destruct (Nat.eqb_spec (strlen f) 0) as [Hz|Hnz].
    + now apply length_zero_str in Hz.
    + exists (fread_blocks (S (strlen f)) 1024 f). split; [reflexivity|].
      apply fread_blocks_spec; lia.
  - intros m Hm. eexists. split; [apply (last_accessed_lookup _ _ _ _ m Hm)|].
    cbn. repeat split.
Qed.

Lemma X21_read_sends_whole_file_witness :
  let s := {| st_ss := ss_with_files {[ "a" := "one. two." ]};
              st_table := table_run [] [T_add (Some "one. two.") "a" 5] |} in
  st_ss (fst (read_command s "a" "bob" 9)) = st_ss s
  /\ ("one. two."%string = EmptyString -> snd (read_command s "a" "bob" 9) = R_OK_200_EMPTY_FILE)
  /\ ("one. two."%string <> EmptyString ->
      exists blocks,
        snd (read_command s "a" "bob" 9) = R_OK_200_FILE_CONTENT blocks
        /\ received blocks = "one. two."%string /\ blocks_fit blocks)
  /\ (forall m, table_lookup (st_table s) "a" = Some m ->
      exists m', table_lookup (st_table (fst (read_command s "a" "bob" 9))) "a" = Some m'
        /\ fm_last_accessed m' = 9%Z
        /\ fm_last_accessed_by m' = take_bytes 63 "bob"
        /\ fm_size m' = fm_size m /\ fm_word_count m' = fm_word_count m
        /\ fm_modified m' = fm_modified m /\ fm_owner_username m' = fm_owner_username m
        /\ fm_acl m' = fm_acl m).
Proof.
  cbv zeta. apply X21_read_sends_whole_file. reflexivity.
Defined.

(* --------------------------------------------------------------------- *)
(** ** Storage server: checkpoints                                        *)
(* --------------------------------------------------------------------- *)

Section CheckpointFacts.

Lemma fread_content_idem (s : string) : fread_content (fread_content s) = fread_content s.
Proof. unfold fread_content. apply take_bytes_all, length_take_bytes. Qed.

(** What a CHECKPOINT command that answers OK has done. *)
Lemma checkpoint_command_created (st : ss_state) (username fname tag : string) (now : Z) :
  word_arg fname -> word_arg tag ->
  snd (checkpoint_command st username now ("CHECKPOINT" +:+ " " +:+ fname +:+ " " +:+ tag))
  = OK_200_CHECKPOINT_CREATED ->
  exists content,
    files_dir st !! fname = Some content
    /\ checkpoints_dir st !! checkpoint_name fname tag = None
    /\ file_locked (sentence_locks st) fname = false
    /\ fst (checkpoint_command st username now
              ("CHECKPOINT" +:+ " " +:+ fname +:+ " " +:+ tag))
       = fst (create_checkpoint st fname tag username now)
    /\ checkpoints_dir (fst (create_checkpoint st fname tag username now))
       = <[checkpoint_name fname tag := fread_content content]> (checkpoints_dir st)
    /\ files_dir (fst (create_checkpoint st fname tag username now)) = files_dir st.
Proof.
  intros Hf Ht. unfold checkpoint_command.
  change (parse_checkpoint ?b) with (parse_two_words "CHECKPOINT" b).
  rewrite (parse_two_words_ok "CHECKPOINT" fname tag Hf Ht).
  destruct (file_locked (sentence_locks st) fname); [discriminate|].
  destruct (files_dir st !! fname) as [content|] eqn:Hfile; [|discriminate].
  unfold create_checkpoint. rewrite Hfile.
  destruct (checkpoints_dir st !! checkpoint_name fname tag) eqn:Hc; [discriminate|].
  intros _. exists content. cbn. repeat split.
Qed.

Lemma path_word_arg (s : string) : path_word s = true -> word_arg s.
Proof.
  unfold path_word, word_arg. intros H.
  apply andb_true_iff in H as [H Hlen]. apply andb_true_iff in H as [Hne Hall].
  apply Nat.leb_le in Hlen. split; [|split].
  - intros ->. discriminate.
  - unfold strlen in *. lia.
  - clear Hne Hlen. induction s as [|c s IH]; [reflexivity|].
    cbn [all_bytes] in Hall. apply andb_true_iff in Hall as [Hc Hall].
    apply andb_true_iff in Hc as [_ Hc]. cbn [no_space]. now rewrite Hc, IH.
Qed.

Lemma is_file_name_path_word (s : string) : is_file_name s = true -> path_word s = true.
Proof.
  unfold is_file_name. intros H.
  apply andb_true_iff in H as [H _]. now apply andb_true_iff in H as [H _].
Qed.

Lemma is_file_name_arg (s : string) : is_file_name s = true -> word_arg s.
Proof. intros H. now apply path_word_arg, is_file_name_path_word. Qed.

Lemma revert_command_done (s : store) (username fname tag live checkpoint : string)
    (now now_meta : Z) :
  is_file_name fname = true -> path_word tag = true ->
  file_locked (sentence_locks (st_ss s)) fname = false ->
  files_dir (st_ss s) !! fname = Some live ->
  checkpoints_dir (st_ss s) !! checkpoint_name fname tag = Some checkpoint ->
  exists s',
    revert_command s username now now_meta ("REVERT" +:+ " " +:+ fname +:+ " " +:+ tag)
    = Some (s', R_OK_200_REVERT_COMPLETED)
    /\ files_dir (st_ss s') !! fname = Some (fread_content checkpoint)
    /\ versions_dir (st_ss s') !! backup_name_of fname now = Some (fread_content live)
    /\ checkpoints_dir (st_ss s') = checkpoints_dir (st_ss s).
Proof.
  intros Hf Ht Hlock Hlive Hc. unfold revert_command.
  rewrite (parse_two_words_ok "REVERT" fname tag (is_file_name_arg _ Hf)
             (path_word_arg _ Ht)), Hlock, Hf, Hlive.
  cbn [negb]. unfold revert_to_checkpoint. rewrite Hf, Ht, Hc. cbn [andb].
  change (1 =? 1)%Z with true. cbv iota.
  eexists. split; [reflexivity|].
  unfold create_file_backup. rewrite Hlive. cbn.
  repeat split; [apply lookup_insert_eq | apply lookup_insert_eq].
Qed.

End CheckpointFacts.

(** X22. For a plain file name and a tag without '/': a CHECKPOINT command
    that answers OK saves the file as it stands (its first 8191 bytes).
    From then on, as long as that checkpoint file is in place,
    VIEWCHECKPOINT sends exactly the saved content, and a REVERT on the
    unlocked file answers OK, puts the saved content back as the live file,
    keeps the replaced content as a backup and leaves the checkpoints as
    they were. *)
Theorem X22_checkpoint_round_trip
    (st : ss_state) (username fname tag : string) (now : Z) :
  is_file_name fname = true -> path_word tag = true ->
  snd (checkpoint_command st username now ("CHECKPOINT" +:+ " " +:+ fname +:+ " " +:+ tag))
  = OK_200_CHECKPOINT_CREATED ->
  exists content,
    files_dir st !! fname = Some content
    /\ forall (s2 : store),
         checkpoints_dir (st_ss s2) !! checkpoint_name fname tag
         = checkpoints_dir
             (fst (checkpoint_command st username now
                     ("CHECKPOINT" +:+ " " +:+ fname +:+ " " +:+ tag)))
             !! checkpoint_name fname tag ->
         (match viewcheckpoint_command s2
                  ("VIEWCHECKPOINT" +:+ " " +:+ fname +:+ " " +:+ tag) with
          | R_OK_200_EMPTY_CHECKPOINT => fread_content content = EmptyString
          | R_OK_200_CHECKPOINT_CONTENT blocks =>
              received blocks = fread_content content /\ blocks_fit blocks
          | _ => False
          end)
         /\ forall user2 now2 now_meta live,
              file_locked (sentence_locks (st_ss s2)) fname = false ->
              files_dir (st_ss s2) !! fname = Some live ->
              exists s3,
                revert_command s2 user2 now2 now_meta
                  ("REVERT" +:+ " " +:+ fname +:+ " " +:+ tag)
                = Some (s3, R_OK_200_REVERT_COMPLETED)
                /\ files_dir (st_ss s3) !! fname = Some (fread_content content)
                /\ versions_dir (st_ss s3) !! backup_name_of fname now2
                   = Some (fread_content live)
                /\ checkpoints_dir (st_ss s3) = checkpoints_dir (st_ss s2).
Proof.
  intros Hname Htag Hok.
  pose proof (is_file_name_arg _ Hname) as Hf. pose proof (path_word_arg _ Htag) as Ht.
  destruct (checkpoint_command_created st username fname tag now Hf Ht Hok)
    as (content & Hfile & Hfresh & Hlock & Hst & Hcp & Hfiles).
  exists content. split; [exact Hfile|].
  intros s2 Hsame. rewrite Hst, Hcp, lookup_insert_eq in Hsame. split.
  - unfold viewcheckpoint_command, view_checkpoint.
    rewrite (parse_two_words_ok "VIEWCHECKPOINT" fname tag Hf Ht), Hsame.
    change (take_bytes (8192 - 1) ?x) with (fread_content x).
    rewrite fread_content_idem.
    destruct (Nat.eqb_spec (strlen (fread_content content)) 0) as [Hz|Hnz].
    + now apply length_zero_str in Hz.
    + destruct (send_chunks_spec (strlen (fread_content content))
                  (fread_content content) 0) as [Hrec Hfit]; [lia|].
      split; [|exact Hfit]. rewrite Hrec. reflexivity.
  - intros user2 now2 now_meta live Hl2 Hlive2.
    destruct (revert_command_done s2 user2 fname tag live (fread_content content)
                now2 now_meta Hname Htag Hl2 Hlive2 Hsame) as (s3 & Hcmd & H1 & H2 & H3).
    exists s3. rewrite fread_content_idem in H1.
    repeat split; assumption.
Qed.

Lemma X22_checkpoint_round_trip_witness :
  exists content,
    files_dir one_file !! "a" = Some content
    /\ forall (s2 : store),
         checkpoints_dir (st_ss s2) !! checkpoint_name "a" "v1"
         = checkpoints_dir
             (fst (checkpoint_command one_file "bob" 7
                     ("CHECKPOINT" +:+ " " +:+ "a" +:+ " " +:+ "v1")))
             !! checkpoint_name "a" "v1" ->
         (match viewcheckpoint_command s2
                  ("VIEWCHECKPOINT" +:+ " " +:+ "a" +:+ " " +:+ "v1") with
          | R_OK_200_EMPTY_CHECKPOINT => fread_content content = EmptyString
          | R_OK_200_CHECKPOINT_CONTENT blocks =>
              received blocks = fread_content content /\ blocks_fit blocks
          | _ => False
          end)
         /\ forall user2 now2 now_meta live,
              file_locked (sentence_locks (st_ss s2)) "a" = false ->
              files_dir (st_ss s2) !! "a" = Some live ->
              exists s3,
                revert_command s2 user2 now2 now_meta
                  ("REVERT" +:+ " " +:+ "a" +:+ " " +:+ "v1")
                = Some (s3, R_OK_200_REVERT_COMPLETED)
                /\ files_dir (st_ss s3) !! "a" = Some (fread_content content)
                /\ versions_dir (st_ss s3) !! backup_name_of "a" now2
                   = Some (fread_content live)
                /\ checkpoints_dir (st_ss s3) = checkpoints_dir (st_ss s2).
Proof.
  apply (X22_checkpoint_round_trip one_file "bob" "a" "v1" 7).
  - vm_compute. reflexivity.
  - vm_compute. reflexivity.
  - vm_compute. reflexivity.
Defined.

Section CheckpointsKept.

Lemma create_file_backup_checkpoints (st : ss_state) (filename username : string) (now : Z) :
  checkpoints_dir (fst (create_file_backup st filename username now)) = checkpoints_dir st.
Proof. unfold create_file_backup. now destruct (files_dir st !! filename). Qed.

Lemma perform_undo_checkpoints (st : ss_state) (filename : string) :
  checkpoints_dir (fst (perform_undo st filename)) = checkpoints_dir st.
Proof. unfold perform_undo. repeat case_match; reflexivity. Qed.

Lemma etirw_commit_checkpoints (st : ss_state) (fd : Z) (username : string) (now : Z)
    (current_file : string) (current_sentence : Z) :
  checkpoints_dir (fst (etirw_commit st fd username now current_file current_sentence))
  = checkpoints_dir st.
Proof.
  unfold etirw_commit. cbn [fst set_locks checkpoints_dir].
  destruct (files_dir st !! swap_name current_file current_sentence fd); [|reflexivity].
  cbn [set_files checkpoints_dir]. apply create_file_backup_checkpoints.
Qed.

Lemma insert_line_checkpoints (st : ss_state) (fd : Z) (current_file : string)
    (current_sentence : Z) (buf : string) :
  checkpoints_dir (fst (insert_line st fd current_file current_sentence buf))
  = checkpoints_dir st.
Proof. unfold insert_line. repeat case_match; reflexivity. Qed.

Lemma write_command_checkpoints (st : ss_state) (fd : Z) (buf : string) :
  checkpoints_dir (fst (write_command st fd buf)) = checkpoints_dir st.
Proof. unfold write_command. repeat case_match; reflexivity. Qed.

Lemma undo_command_checkpoints (st : ss_state) (fname : string) :
  checkpoints_dir (fst (undo_command st fname)) = checkpoints_dir st.
Proof.
  unfold undo_command. pose proof (perform_undo_checkpoints st fname) as H.
  destruct (perform_undo st fname) as [st' result]. cbn [fst] in H.
  repeat case_match; try reflexivity; exact H.
Qed.

(** [create_checkpoint] writes no checkpoint file that exists. *)
Lemma create_checkpoint_keeps (st : ss_state) (filename tag username : string) (now : Z)
    (n c : string) :
  checkpoints_dir st !! n = Some c ->
  checkpoints_dir (fst (create_checkpoint st filename tag username now)) !! n = Some c.
Proof.
  intros Hn. unfold create_checkpoint.
  destruct (files_dir st !! filename); [|exact Hn].
  destruct (checkpoints_dir st !! checkpoint_name filename tag) eqn:Hc; [exact Hn|].
  cbn [fst checkpoints_dir]. rewrite lookup_insert_ne; [exact Hn|]. congruence.
Qed.

Lemma checkpoint_command_keeps (st : ss_state) (username : string) (now : Z)
    (buf n c : string) :
  checkpoints_dir st !! n = Some c ->
  checkpoints_dir (fst (checkpoint_command st username now buf)) !! n = Some c.
Proof.
  intros Hn. unfold checkpoint_command.
  destruct (parse_checkpoint buf) as [[fname tag]|]; [|exact Hn].
  destruct (file_locked (sentence_locks st) fname); [exact Hn|].
  destruct (files_dir st !! fname); [|exact Hn].
  pose proof (create_checkpoint_keeps st fname tag username now n c Hn) as H.
  destruct (create_checkpoint st fname tag username now) as [st' result].
  cbn [fst] in H. repeat case_match; exact H.
Qed.

Lemma revert_command_checkpoints (s s' : store) (username : string) (now now_meta : Z)
    (buf : string) (r : transfer_reply) :
  revert_command s username now now_meta buf = Some (s', r) ->
  checkpoints_dir (st_ss s') = checkpoints_dir (st_ss s).
Proof.
  unfold revert_command.
  destruct (parse_two_words "REVERT" buf) as [[fname tag]|]; [|now intros [= <- _]].
  destruct (file_locked (sentence_locks (st_ss s)) fname); [now intros [= <- _]|].
  destruct (negb (is_file_name fname)); [discriminate|].
  destruct (files_dir (st_ss s) !! fname); [|now intros [= <- _]].
  assert (H : forall s1 result,
            revert_to_checkpoint s fname tag username now now_meta = Some (s1, result) ->
            checkpoints_dir (st_ss s1) = checkpoints_dir (st_ss s)).
  { unfold revert_to_checkpoint. intros s1 result.
    destruct (is_file_name fname && path_word tag); [|discriminate].
    destruct (checkpoints_dir (st_ss s) !! checkpoint_name fname tag);
      [|now intros [= <- _]].
    intros [= <- _]. cbn [st_ss set_files checkpoints_dir].
    apply create_file_backup_checkpoints. }
  destruct (revert_to_checkpoint s fname tag username now now_meta) as [[s1 result]|];
    [|discriminate].
  specialize (H s1 result eq_refl).
  repeat case_match; intros [= <- _]; exact H.
Qed.

Lemma some_fst {A B : Type} (x : A * B) (a : A) (b : B) :
  Some x = Some (a, b) -> a = fst x.
Proof. intros H. assert (E : x = (a, b)) by congruence. now rewrite E. Qed.

Lemma command_step_keeps (st st' : ss_state) (n c : string) :
  command_step st st' ->
  checkpoints_dir st !! n = Some c -> checkpoints_dir st' !! n = Some c.
Proof.
  intros Hstep Hn.
  destruct Hstep as [st fd username now buf st' r _ Hline
                    | s fname now s' r Hc | s fname username now _
                    | s fname s' r Hd | s username now now_meta buf s' r Hr
                    | st fname _ | st fd].
  - unfold client_handler_step in Hline.
    destruct (get_client_write_info (sentence_locks st) fd) as [[cf cs]|].
    + destruct (has_prefix "ETIRW" buf); apply some_fst in Hline; subst st'.
      * now rewrite etirw_commit_checkpoints.
      * now rewrite insert_line_checkpoints.
    + destruct (parse_command buf) as [[cmd args]|]; [|discriminate].
      repeat match type of Hline with
             | (if ?b then _ else _) = _ => destruct b
             end; try discriminate; apply some_fst in Hline; subst st'.
      * now rewrite write_command_checkpoints.
      * now rewrite undo_command_checkpoints.
      * now apply checkpoint_command_keeps.
  - unfold create_command in Hc. destruct (is_file_name fname); [|discriminate].
    injection Hc as <- _. exact Hn.
  - unfold read_command. now destruct (files_dir (st_ss s) !! fname).
  - unfold delete_command in Hd. destruct (is_file_name fname); [|discriminate].
    destruct (files_dir (st_ss s) !! fname); injection Hd as <- _; exact Hn.
  - now rewrite (revert_command_checkpoints _ _ _ _ _ _ _ Hr).
  - unfold handle_ns_undo. pose proof (perform_undo_checkpoints st fname) as H.
    destruct (perform_undo st fname) as [st' result]. cbn [fst] in *. now rewrite H.
  - exact Hn.
Qed.

End CheckpointsKept.



(* --------------------------------------------------------------------- *)
(** ** Storage server: a backup and the undo that reads it back           *)
(* --------------------------------------------------------------------- *)

Section LogLineFacts.

Lemma all_bytes_app (ok : ascii -> bool) (a b : string) :
  all_bytes ok (a +:+ b) = all_bytes ok a && all_bytes ok b.
Proof.
  induction a as [|c a IH]; [reflexivity|].
  rewrite app_str_cons. cbn [all_bytes]. now rewrite IH, andb_assoc.
Qed.

Lemma all_bytes_impl (ok1 ok2 : ascii -> bool) (s : string) :
  (forall c, ok1 c = true -> ok2 c = true) ->
  all_bytes ok1 s = true -> all_bytes ok2 s = true.
Proof.
  intros Himp. induction s as [|c s IH]; [done|]. cbn [all_bytes].
  intros [Hc Hs]%andb_true_iff. now rewrite (Himp c Hc), (IH Hs).
Qed.

Lemma string_of_uint_bytes (d : Decimal.uint) :
  all_bytes number_byte (NilEmpty.string_of_uint d) = true.
Proof. induction d; cbn [NilEmpty.string_of_uint all_bytes]; [reflexivity | exact IHd ..]. Qed.

Lemma fmt_d_bytes (z : Z) : all_bytes number_byte (fmt_d z) = true.
Proof.
  unfold fmt_d, NilZero.string_of_int.
  destruct (Z.to_int z) as [d|d]; unfold NilZero.string_of_uint.
  - destruct d; try reflexivity; apply string_of_uint_bytes.
  - cbn [all_bytes]. change (number_byte "-") with true. cbn [andb].
    destruct d; try reflexivity; apply string_of_uint_bytes.
Qed.

Lemma number_is_field (c : ascii) : number_byte c = true -> field_byte c = true.
Proof.
  unfold number_byte, field_byte, not_bar, not_newline, isdigit.
  destruct (Ascii.eqb_spec c "|") as [->|_]; [discriminate|].
  destruct (Ascii.eqb_spec c "010") as [->|_]; [discriminate|]. reflexivity.
Qed.

Lemma fgets_line_run (room : nat) (a rest : string) :
  all_bytes not_newline a = true -> strlen a < room ->
  fgets_line room (a +:+ String "010" rest) = (a +:+ newline, rest).
Proof.
  revert room. induction a as [|c a IH]; intros room Ha Hroom.
  - rewrite !app_str_nil_l. destruct room; [lia|]. reflexivity.
  - destruct room as [|room]; [lia|].
    cbn [all_bytes] in Ha. apply andb_true_iff in Ha as [Hc Ha].
    rewrite !app_str_cons. cbn [fgets_line].
    unfold not_newline in Hc. apply negb_true_iff in Hc. rewrite Hc.
    rewrite (IH room Ha); [reflexivity | simpl in Hroom; lia].
Qed.

(** The bytes and the length of the line that [create_file_backup] writes. *)
Lemma backup_name_bytes (filename : string) (now : Z) :
  all_bytes field_byte filename = true ->
  all_bytes field_byte (backup_name_of filename now) = true
  /\ backup_name_of filename now <> EmptyString
  /\ strlen (fmt_d now) <= strlen (backup_name_of filename now).
Proof.
  intros Hf. unfold backup_name_of. repeat split.
  - rewrite !all_bytes_app, Hf.
    rewrite (all_bytes_impl _ _ _ number_is_field (fmt_d_bytes now)). reflexivity.
  - destruct filename; discriminate.
  - unfold strlen. rewrite !length_app_str. lia.
Qed.

Lemma field_not_bar (s : string) : all_bytes field_byte s = true -> all_bytes not_bar s = true.
Proof.
  apply all_bytes_impl. intros c. unfold field_byte. now intros [H _]%andb_true_iff.
Qed.

Lemma field_not_newline (s : string) :
  all_bytes field_byte s = true -> all_bytes not_newline s = true.
Proof.
  apply all_bytes_impl. intros c. unfold field_byte. now intros [_ H]%andb_true_iff.
Qed.

(** The log line of a backup parses into its three fields; the user name
    comes back with the newline of the line, and [used] is 0. *)
Lemma parse_backup_line_printed (filename username : string) (now : Z) :
  all_bytes field_byte filename = true -> all_bytes field_byte username = true ->
  strlen (backup_name_of filename now) <= 255 -> strlen username <= 126 ->
  parse_backup_line (fmt_d now +:+ "|" +:+ backup_name_of filename now +:+ "|"
                       +:+ username +:+ newline)
  = Some {| timestamp := now; backup_name := backup_name_of filename now;
            user := username +:+ newline; used := 0 |}.
Proof.
  intros Hf Hu Hlen Hulen. unfold parse_backup_line.
  destruct (backup_name_bytes filename now Hf) as (Hb & Hbne & _).
  assert (Hbar : forall x, "|" +:+ x = String "|" x) by reflexivity.
  rewrite !Hbar. rewrite scan_int_fmt_d by reflexivity.
  rewrite (scan_set_run not_bar 255 (backup_name_of filename now)); try done.
  - pose proof (scan_set_run not_bar 127 (username +:+ newline) EmptyString) as H.
    rewrite app_str_nil_r in H. cbv beta iota. rewrite H; [reflexivity | | | | exact I].
    + destruct username; discriminate.
    + rewrite all_bytes_app, (field_not_bar username Hu). reflexivity.
    + unfold strlen. rewrite length_app_str. simpl. unfold strlen in Hulen. lia.
  - now apply field_not_bar.
Qed.

Lemma fgets_all_one_line (a : string) (fuel : nat) :
  all_bytes not_newline a = true -> strlen a < 1023 -> 0 < fuel ->
  fgets_all fuel 1024 (a +:+ newline) = [a +:+ newline].
Proof.
  intros Ha Hlen Hfuel. destruct fuel as [|fuel]; [lia|].
  pose proof (fgets_line_run 1023 a EmptyString Ha Hlen) as H.
  change (String "010" EmptyString) with newline in H.
  unfold fgets_all; fold fgets_all.
  destruct (a +:+ newline) as [|c s] eqn:E.
  - destruct a; discriminate.
  - change (1024 - 1) with 1023. rewrite H. now destruct fuel.
Qed.

End LogLineFacts.

Section UndoRoundTrip.

Lemma read_backups_one_line (filename username : string) (now : Z) :
  all_bytes field_byte filename = true -> all_bytes field_byte username = true ->
  strlen (backup_name_of filename now) <= 255 -> strlen username <= 126 ->
  read_backups (fmt_d now +:+ "|" +:+ backup_name_of filename now +:+ "|"
                  +:+ username +:+ newline)
  = [{| timestamp := now; backup_name := backup_name_of filename now;
        user := username +:+ newline; used := 0 |}].
Proof.
  intros Hf Hu Hlen Hulen. unfold read_backups.
  pose proof (parse_backup_line_printed filename username now Hf Hu Hlen Hulen) as Hp.
  destruct (backup_name_bytes filename now Hf) as (Hb & _ & Hnum).
  set (a := fmt_d now +:+ "|" +:+ backup_name_of filename now +:+ "|" +:+ username).
  assert (Ea : fmt_d now +:+ "|" +:+ backup_name_of filename now +:+ "|"
                 +:+ username +:+ newline = a +:+ newline).
  { subst a. now rewrite !app_str_assoc. }
  rewrite Ea in *.
  rewrite fgets_all_one_line; [cbn [omap list_omap]; now rewrite Hp | | | lia].
  - subst a. rewrite !all_bytes_app.
    rewrite (field_not_newline _ (all_bytes_impl _ _ _ number_is_field (fmt_d_bytes now))).
    rewrite (field_not_newline _ Hb), (field_not_newline _ Hu). reflexivity.
  - subst a. unfold strlen in *. rewrite !length_app_str. simpl. lia.
Qed.

End UndoRoundTrip.

(** X24. A backup and the first undo that reads it back.  When
    [create_file_backup] starts the undo log of a file (the file and user
    names hold neither a bar nor a newline and fit the fields of the log
    line), then as long as that log and the backup file stay in place,
    [perform_undo] returns 1 and makes the live file the content saved by
    the backup, whatever the file has become in between. *)
Theorem X24_backup_then_undo
    (st : ss_state) (filename username content : string) (now : Z) :
  files_dir st !! filename = Some content ->
  undo_dir st !! undo_meta_name filename = None ->
  all_bytes field_byte filename = true -> all_bytes field_byte username = true ->
  strlen (backup_name_of filename now) <= 255 -> strlen username <= 126 ->
  snd (create_file_backup st filename username now) = 1%Z
  /\ forall st2,
       undo_dir st2 !! undo_meta_name filename
       = undo_dir (fst (create_file_backup st filename username now))
           !! undo_meta_name filename ->
       versions_dir st2 !! backup_name_of filename now
       = versions_dir (fst (create_file_backup st filename username now))
           !! backup_name_of filename now ->
       snd (perform_undo st2 filename) = 1%Z
       /\ files_dir (fst (perform_undo st2 filename)) !! filename
          = Some (fread_content content)
       /\ versions_dir (fst (perform_undo st2 filename)) = versions_dir st2.
Proof.
  intros Hfile Hlog Hf Hu Hlen Hulen.
  unfold create_file_backup. rewrite Hfile. cbn [fst snd undo_dir versions_dir].
  split; [reflexivity|]. intros st2.
  unfold append_file. rewrite Hlog, !lookup_insert_eq. cbn [default].
  rewrite app_str_nil_l. intros Hlog2 Hver2.
  unfold perform_undo. rewrite Hlog2.
  rewrite (read_backups_one_line filename username now Hf Hu Hlen Hulen).
  cbn [length Nat.eqb]. unfold sort_backups. cbn [length Nat.sub seq fold_left].
  cbn [first_unused used Z.eqb]. cbn [lookup list_lookup backup_name].
  rewrite Hver2. cbn [fst snd files_dir versions_dir].
  rewrite lookup_insert_eq, fread_content_idem. repeat split.
Qed.

Lemma X24_backup_then_undo_witness :
  snd (create_file_backup one_file "a" "bob" 7) = 1%Z
  /\ forall st2,
       undo_dir st2 !! undo_meta_name "a"
       = undo_dir (fst (create_file_backup one_file "a" "bob" 7)) !! undo_meta_name "a" ->
       versions_dir st2 !! backup_name_of "a" 7
       = versions_dir (fst (create_file_backup one_file "a" "bob" 7))
           !! backup_name_of "a" 7 ->
       snd (perform_undo st2 "a") = 1%Z
       /\ files_dir (fst (perform_undo st2 "a")) !! "a" = Some (fread_content "one. two.")
       /\ versions_dir (fst (perform_undo st2 "a")) = versions_dir st2.
Proof.
  apply (X24_backup_then_undo one_file "a" "bob" "one. two." 7);
    first [reflexivity | apply Nat.leb_le; vm_compute; reflexivity].
Defined.

(* --------------------------------------------------------------------- *)
(** ** Storage server: CREATE and DELETE                                  *)
(* --------------------------------------------------------------------- *)

Section CreateDelete.

Lemma add_metadata_entry_lookup (table : list FileMeta) (file : option string)
    (name : string) (now : Z) :
  strlen name <= 255 -> length table < MAX_FILES ->
  table_lookup table name = None -> NoDup (map fm_filename table) ->
  table_lookup (add_metadata_entry table file name now) name
  = Some {| fm_filename := name;
            fm_size := get_file_size file;
            fm_word_count := count_words_in_file file;
            fm_created := now; fm_modified := now; fm_last_accessed := now;
            fm_last_accessed_by := EmptyString;
            fm_owner_username := EmptyString;
            fm_folder := EmptyString;
            fm_acl := [] |}.
Proof.
  intros Hlen Hroom Hnone Hnd. unfold add_metadata_entry.
  pose proof (persist_find_file_spec table name 0) as Hs.
  destruct (persist_find_file 0 table name) as [i|] eqn:Hfind.
  - destruct Hs as (j & m & -> & Hj & _). unfold table_lookup in Hnone.
    rewrite Hfind in Hnone. simpl in Hnone. congruence.
  - destruct (Nat.leb_spec MAX_FILES (length table)); [lia|].
    rewrite (table_lookup_app table _ name Hs), (take_bytes_all 255 name Hlen).
    unfold table_lookup. cbn [persist_find_file fm_filename].
    now rewrite String.eqb_refl.
Qed.

End CreateDelete.

(** X25. CREATE of a plain file name answers OK and leaves an empty file
    under the name, whether or not a file was there: a READ that follows
    answers EMPTY_FILE.  A name without a metadata entry gets a fresh one
    (size and word count 0, no owner), while the entry of a name that has
    one is kept as it is.  DELETE of an existing file removes the file and
    its metadata entry: a READ and a second DELETE that follow answer with
    an error.  (A name that is a path is outside the statement: the source
    follows it, and answers ERR_500 when a directory of it is missing.) *)
Theorem X25_create_and_delete
    (s : store) (fname username : string) (now now2 : Z) :
  table_ok (st_table s) -> is_file_name fname = true ->
  exists s1 s2,
    create_command s fname now = Some (s1, R_OK_201_CREATED)
    /\ files_dir (st_ss s1) !! fname = Some EmptyString
    /\ snd (read_command s1 fname username now2) = R_OK_200_EMPTY_FILE
    /\ table_ok (st_table s1)
    /\ (forall m, table_lookup (st_table s) fname = Some m ->
                  table_lookup (st_table s1) fname = Some m)
    /\ (table_lookup (st_table s) fname = None -> length (st_table s) < MAX_FILES ->
        exists m, table_lookup (st_table s1) fname = Some m
                  /\ fm_size m = 0%Z /\ fm_word_count m = 0%Z /\ fm_created m = now
                  /\ fm_owner_username m = EmptyString /\ fm_acl m = [])
    /\ delete_command s1 fname = Some (s2, R_OK_200_DELETED)
    /\ files_dir (st_ss s2) !! fname = None
    /\ snd (read_command s2 fname username now2) = R_ERR_404_file_not_found
    /\ delete_command s2 fname = Some (s2, R_ERR_404)
    /\ table_lookup (st_table s2) fname = None.
Proof.
  intros Hok Hname.
  assert (Hlen : strlen fname <= 255) by apply (is_file_name_arg _ Hname).
  set (files1 := <[fname := EmptyString]> (files_dir (st_ss s))).
  set (s1 := {| st_ss := set_files (st_ss s) files1;
                st_table := add_metadata_entry (st_table s) (files1 !! fname) fname now |}).
  set (s2 := {| st_ss := set_files (st_ss s1) (delete fname (files_dir (st_ss s1)));
                st_table := remove_metadata_entry (st_table s1) fname |}).
  assert (Hfile : files_dir (st_ss s1) !! fname = Some EmptyString).
  { subst s1 files1. cbn [st_ss set_files files_dir]. apply lookup_insert_eq. }
  assert (Hok1 : table_ok (st_table s1)).
  { subst s1. cbn [st_table].
    apply (table_ok_apply _ (T_add _ fname now)); [exact Hlen | exact Hok]. }
  assert (Hgone : files_dir (st_ss s2) !! fname = None).
  { subst s2. cbn [st_ss set_files files_dir]. apply lookup_delete_eq. }
  exists s1, s2. repeat split.
  - unfold create_command. now rewrite Hname.
  - exact Hfile.
  - unfold read_command. now rewrite Hfile.
  - apply Hok1.
  - apply Hok1.
  - intros m Hm. subst s1. cbn [st_table]. unfold add_metadata_entry.
    unfold table_lookup in Hm.
    destruct (persist_find_file 0 (st_table s) fname) as [i|] eqn:Hi; [|discriminate].
    unfold table_lookup. now rewrite Hi.
  - intros Hnone Hroom. eexists. split.
    + subst s1. cbn [st_table].
      apply add_metadata_entry_lookup; [exact Hlen | exact Hroom | exact Hnone | apply Hok].
    + subst files1. rewrite lookup_insert_eq. cbn. repeat split.
  - unfold delete_command. now rewrite Hname, Hfile.
  - exact Hgone.
  - unfold read_command. now rewrite Hgone.
  - unfold delete_command. now rewrite Hname, Hgone.
  - subst s2. cbn [st_table].
    destruct (table_lookup (remove_metadata_entry (st_table s1) fname) fname)
      as [m|] eqn:Hl; [|reflexivity].
    assert (Hnd' : NoDup (map fm_filename (remove_metadata_entry (st_table s1) fname))).
    { apply (table_ok_apply _ (T_remove fname) I Hok1). }
    apply (table_lookup_iff _ _ _ Hnd') in Hl as [Hin Hn].
    apply (remove_metadata_entry_elem _ _ _ (proj1 Hok1)) in Hin as [_ Hne]. done.
Qed.

Lemma X25_create_and_delete_witness :
  let s := {| st_ss := one_file; st_table := table_run [] [T_add (Some "one. two.") "a" 5] |} in
  exists s1 s2,
    create_command s "a" 8 = Some (s1, R_OK_201_CREATED)
    /\ files_dir (st_ss s1) !! "a" = Some EmptyString
    /\ snd (read_command s1 "a" "bob" 9) = R_OK_200_EMPTY_FILE
    /\ table_ok (st_table s1)
    /\ (forall m, table_lookup (st_table s) "a" = Some m ->
                  table_lookup (st_table s1) "a" = Some m)
    /\ (table_lookup (st_table s) "a" = None -> length (st_table s) < MAX_FILES ->
        exists m, table_lookup (st_table s1) "a" = Some m
                  /\ fm_size m = 0%Z /\ fm_word_count m = 0%Z /\ fm_created m = 8%Z
                  /\ fm_owner_username m = EmptyString /\ fm_acl m = [])
    /\ delete_command s1 "a" = Some (s2, R_OK_200_DELETED)
    /\ files_dir (st_ss s2) !! "a" = None
    /\ snd (read_command s2 "a" "bob" 9) = R_ERR_404_file_not_found
    /\ delete_command s2 "a" = Some (s2, R_ERR_404)
    /\ table_lookup (st_table s2) "a" = None.
Proof.
  cbv zeta. apply X25_create_and_delete.
  - apply table_ok_run; [repeat constructor; simpl; lia|].
    split; [apply NoDup_nil_2 | simpl; unfold MAX_FILES; lia].
  - vm_compute. reflexivity.
Defined.

(* --------------------------------------------------------------------- *)
(** ** Storage server: access requests                                    *)
(* --------------------------------------------------------------------- *)

Section RequestFacts.

Lemma print_lines_acc (ls : list string) (acc : string) :
  fold_left String.append ls acc = acc +:+ print_lines ls.
Proof.
  unfold print_lines. revert acc. induction ls as [|l ls IH]; intros acc; cbn [fold_left].
  - now rewrite app_str_nil_r.
  - rewrite (IH (acc +:+ l)), (IH (EmptyString +:+ l)), app_str_nil_l.
    now rewrite app_str_assoc.
Qed.

Lemma print_lines_cons (l : string) (ls : list string) :
  print_lines (l :: ls) = l +:+ print_lines ls.
Proof. unfold print_lines at 1. cbn [fold_left]. now rewrite print_lines_acc. Qed.

Lemma print_lines_snoc (ls : list string) (l : string) :
  print_lines (ls ++ [l]) = print_lines ls +:+ l.
Proof.
  induction ls as [|x ls IH]; [now rewrite app_str_nil_l|].
  cbn [app]. now rewrite !print_lines_cons, IH, app_str_assoc.
Qed.

Lemma fgets_all_lines (ls : list string) (fuel : nat) :
  Forall proper_line ls -> length ls < fuel ->
  fgets_all fuel 512 (print_lines ls) = ls.
Proof.
  intros Hls. revert fuel. induction Hls as [|l ls (a & -> & Ha & Hlen) _ IH]; intros fuel Hfuel.
  - destruct fuel; reflexivity.
  - destruct fuel as [|fuel]; [cbn [length] in Hfuel; lia|].
    rewrite print_lines_cons.
    pose proof (fgets_line_run 511 a (print_lines ls) Ha Hlen) as Hline.
    assert (E : (a +:+ newline) +:+ print_lines ls = a +:+ String "010" (print_lines ls)).
    { now rewrite app_str_assoc. }
    rewrite E. unfold fgets_all; fold fgets_all.
    destruct (a +:+ String "010" (print_lines ls)) as [|c s] eqn:Es.
    + destruct a; discriminate.
    + change (512 - 1) with 511. rewrite Hline. f_equal.
      apply IH. cbn [length] in Hfuel. lia.
Qed.

Lemma proper_line_length (ls : list string) :
  Forall proper_line ls -> length ls <= strlen (print_lines ls).
Proof.
  induction 1 as [|l ls (a & -> & _ & _) _ IH]; [simpl; lia|].
  rewrite print_lines_cons. unfold strlen in *. rewrite !length_app_str.
  cbn [length]. simpl String.length. lia.
Qed.

Lemma request_lines_print (ls : list string) :
  Forall proper_line ls -> request_lines (print_lines ls) = ls.
Proof.
  intros Hls. unfold request_lines. apply fgets_all_lines; [exact Hls|].
  pose proof (proper_line_length ls Hls). lia.
Qed.

Lemma scan_word_run (n : nat) (a r : string) :
  a <> EmptyString -> no_space a = true -> strlen a <= n ->
  match r with String c _ => isspace c = true | EmptyString => True end ->
  scan_word n (a +:+ r) = Some (a, r).
Proof.
  intros Hne Hsp Hlen Hr. unfold scan_word, scan_set.
  rewrite (skip_space_word a r Hne Hsp), (span_bytes_word n a r Hsp Hlen Hr).
  now destruct a.
Qed.

Lemma no_space_not_newline (s : string) :
  no_space s = true -> all_bytes not_newline s = true.
Proof.
  induction s as [|c s IH]; [done|]. cbn [no_space all_bytes].
  intros [Hc Hs]%andb_true_iff. rewrite (IH Hs), andb_true_r.
  unfold not_newline. destruct (Ascii.eqb_spec c "010") as [->|_]; [discriminate|done].
Qed.

(** A printed request line parses into its four fields. *)
Lemma parse_request_line_printed (ts : Z) (u p status : string) :
  u <> EmptyString -> all_bytes not_bar u = true -> strlen u <= 127 ->
  p <> EmptyString -> all_bytes not_bar p = true -> strlen p <= 7 ->
  status <> EmptyString -> no_space status = true -> strlen status <= 15 ->
  parse_request_line (request_line ts u p status)
  = Some {| ar_timestamp := ts; ar_user := u; ar_perm := p; ar_status := status |}.
Proof.
  intros Hu1 Hu2 Hu3 Hp1 Hp2 Hp3 Hs1 Hs2 Hs3.
  unfold parse_request_line, request_line.
  assert (Hbar : forall x, "|" +:+ x = String "|" x) by reflexivity.
  rewrite !Hbar. rewrite scan_int_fmt_d by reflexivity.
  rewrite (scan_set_run not_bar 127 u); try done. cbv beta iota.
  rewrite (scan_set_run not_bar 7 p); try done. cbv beta iota.
  now rewrite (scan_word_run 15 status newline).
Qed.

Lemma permission_shape (p : string) :
  p = "-R"%string \/ p = "-W"%string ->
  p <> EmptyString /\ all_bytes not_bar p = true /\ strlen p <= 7
  /\ all_bytes not_newline p = true /\ strlen p = 2.
Proof. intros [->| ->]; repeat split; try discriminate; simpl; lia. Qed.

Lemma request_line_proper (ts : Z) (u p status : string) :
  strlen (fmt_d ts) <= 20 -> strlen u <= 127 -> strlen p <= 7 -> strlen status <= 15 ->
  no_space u = true -> all_bytes not_newline p = true -> no_space status = true ->
  proper_line (request_line ts u p status).
Proof.
  intros Ht Hu Hp Hs Hu' Hp' Hs'.
  exists (fmt_d ts +:+ "|" +:+ u +:+ "|" +:+ p +:+ "|" +:+ status). repeat split.
  - unfold request_line. now rewrite !app_str_assoc.
  - rewrite !all_bytes_app.
    rewrite (field_not_newline _ (all_bytes_impl _ _ _ number_is_field (fmt_d_bytes ts))).
    rewrite (no_space_not_newline u Hu'), Hp', (no_space_not_newline status Hs').
    reflexivity.
  - unfold strlen in *. rewrite !length_app_str. simpl String.length. lia.
Qed.

Lemma pending_for_line (ts : Z) (u p status u' p' : string) :
  u <> EmptyString -> all_bytes not_bar u = true -> strlen u <= 127 ->
  p <> EmptyString -> all_bytes not_bar p = true -> strlen p <= 7 ->
  status <> EmptyString -> no_space status = true -> strlen status <= 15 ->
  pending_for u' p' (request_line ts u p status)
  = String.eqb u u' && String.eqb p p' && String.eqb status "PENDING".
Proof.
  intros. unfold pending_for. now rewrite parse_request_line_printed.
Qed.

End RequestFacts.

Section RequestCycle.

Variables (requests : gmap string string) (filename u p : string) (now : Z)
          (ls : list string).
Hypothesis Hlog : default EmptyString (requests !! requests_name filename) = print_lines ls.
Hypothesis Hls : Forall proper_line ls.
Hypothesis Hcount : length ls < 100.
Hypothesis Hu : request_user u.
Hypothesis Hp : p = "-R"%string \/ p = "-W"%string.
Hypothesis Hnow : strlen (fmt_d now) <= 20.

Lemma status_line_facts (status : string) :
  status <> EmptyString -> no_space status = true -> strlen status <= 15 ->
  proper_line (request_line now u p status)
  /\ (forall u' p', pending_for u' p' (request_line now u p status)
                    = String.eqb u u' && String.eqb p p' && String.eqb status "PENDING")
  /\ parse_request_line (request_line now u p status)
     = Some {| ar_timestamp := now; ar_user := u; ar_perm := p; ar_status := status |}
  /\ strlen (request_line now u p status) <= 511.
Proof.
  intros Hs1 Hs2 Hs3. destruct Hu as (Hu1 & Hu2 & Hu3 & Hu4).
  destruct (permission_shape p Hp) as (Hp1 & Hp2 & Hp3 & Hp4 & Hp5).
  assert (Hu127 : strlen u <= 127) by lia.
  repeat split.
  - now apply request_line_proper.
  - intros u' p'. now apply pending_for_line.
  - now apply parse_request_line_printed.
  - unfold request_line, strlen in *. rewrite !length_app_str. simpl String.length. lia.
Qed.

Lemma request_accepted_fresh :
  snd (request_file_access requests filename u p now) = 1%Z ->
  existsb (pending_for u p) ls = false.
Proof.
  unfold request_file_access.
  pose proof Hlog as Hlog'.
  destruct (requests !! requests_name filename) as [log|] eqn:E; simpl in Hlog'.
  - rewrite Hlog', (request_lines_print ls Hls).
    destruct (existsb (pending_for u p) ls); [discriminate | reflexivity].
  - intros _. pose proof (proper_line_length ls Hls) as Hlen.
    rewrite <- Hlog' in Hlen. simpl in Hlen.
    assert (E0 : ls = []) by (apply length_zero_iff_nil; lia). now rewrite E0.
Qed.

Lemma request_accepted_state :
  snd (request_file_access requests filename u p now) = 1%Z ->
  fst (request_file_access requests filename u p now)
  = <[requests_name filename := print_lines (ls ++ [request_line now u p "PENDING"])]>
      requests.
Proof.
  intros Hok. pose proof (request_accepted_fresh Hok) as Hno. revert Hok.
  unfold request_file_access.
  assert (Hex : match requests !! requests_name filename with
                | Some log => existsb (pending_for u p) (request_lines log)
                | None => false
                end = false).
  { pose proof Hlog as Hlog'.
    destruct (requests !! requests_name filename) as [log|] eqn:E; [|reflexivity].
    simpl in Hlog'. now rewrite Hlog', (request_lines_print ls Hls). }
  rewrite Hex. intros _. cbn [fst]. unfold append_file. rewrite Hlog, print_lines_snoc.
  reflexivity.
Qed.

Lemma map_unmatched (test : string -> bool) (f : string -> string) (l : list string) :
  existsb test l = false -> map (fun x => if test x then f x else x) l = l.
Proof.
  induction l as [|x l IH]; [done|]. cbn [existsb map].
  intros [Hx Hl]%orb_false_iff. now rewrite Hx, (IH Hl).
Qed.

End RequestCycle.

(** X26. The life of an access request.  In a requests file of fewer than
    100 whole lines, once [request_file_access] has accepted a request
    (user name without bar or white space, permission -R or -W), the
    request is the last line of the file; asking again is refused with -2
    and changes nothing; [approve_access_request] returns 1, marks exactly
    that line APPROVED and enters the requester in the file's ACL; after
    that a second approval finds nothing (0) and the same request can be
    filed again. *)
Theorem X26_access_request_decided_once
    (requests : gmap string string) (table : list FileMeta)
    (filename u p : string) (now : Z) (ls : list string) :
  default EmptyString (requests !! requests_name filename) = print_lines ls ->
  Forall proper_line ls -> length ls < 100 ->
  request_user u -> p = "-R"%string \/ p = "-W"%string -> strlen (fmt_d now) <= 20 ->
  snd (request_file_access requests filename u p now) = 1%Z ->
  let rq1 := fst (request_file_access requests filename u p now) in
  let rq2 := <[requests_name filename :=
                 print_lines (ls ++ [request_line now u p "APPROVED"])]> rq1 in
  rq1 !! requests_name filename
  = Some (print_lines (ls ++ [request_line now u p "PENDING"]))
  /\ (forall now2, request_file_access rq1 filename u p now2 = (rq1, (-2)%Z))
  /\ approve_access_request rq1 table filename u p
     = (rq2, persist_set_acl table filename u (perm_flag_of p), 1%Z)
  /\ (forall table2, approve_access_request rq2 table2 filename u p = (rq2, table2, 0%Z))
  /\ (forall now3, snd (request_file_access rq2 filename u p now3) = 1%Z).
Proof.
  intros Hlog Hls Hcount Hu Hp Hnow Hok. cbv zeta.
  assert (Hno : existsb (pending_for u p) ls = false)
    by (eapply request_accepted_fresh; eassumption).
  assert (Hst : fst (request_file_access requests filename u p now)
                = <[requests_name filename :=
                      print_lines (ls ++ [request_line now u p "PENDING"])]> requests)
    by (eapply request_accepted_state; eassumption).
  rewrite Hst.
  assert (Hfacts : forall status,
             status <> EmptyString -> no_space status = true -> strlen status <= 15 ->
             proper_line (request_line now u p status)
             /\ (forall u' p', pending_for u' p' (request_line now u p status)
                               = String.eqb u u' && String.eqb p p'
                                 && String.eqb status "PENDING")
             /\ parse_request_line (request_line now u p status)
                = Some {| ar_timestamp := now; ar_user := u; ar_perm := p;
                          ar_status := status |}
             /\ strlen (request_line now u p status) <= 511)
    by (intros status; eapply status_line_facts; eassumption).
  destruct (Hfacts "PENDING"%string)
    as (Hpl & Hpp & Hparse & Hplen); [discriminate | reflexivity | simpl; lia |].
  destruct (Hfacts "APPROVED"%string)
    as (Hal & Hap & _ & Halen); [discriminate | reflexivity | simpl; lia |].
  assert (Hls1 : Forall proper_line (ls ++ [request_line now u p "PENDING"])).
  { apply Forall_app. split; [exact Hls | now constructor]. }
  assert (Hls2 : Forall proper_line (ls ++ [request_line now u p "APPROVED"])).
  { apply Forall_app. split; [exact Hls | now constructor]. }
  assert (Hpend : pending_for u p (request_line now u p "PENDING") = true).
  { now rewrite Hpp, !String.eqb_refl. }
  assert (Hdone : pending_for u p (request_line now u p "APPROVED") = false).
  { rewrite Hap, !String.eqb_refl. reflexivity. }
  assert (Hfirst : forall x, firstn 100 (ls ++ [x]) = ls ++ [x]).
  { intros x. apply firstn_all2. rewrite length_app. simpl. lia. }
  split; [apply lookup_insert_eq|]. split; [|split; [|split]].
  - intros now2. unfold request_file_access. rewrite lookup_insert_eq.
    rewrite (request_lines_print _ Hls1), existsb_app. cbn [existsb].
    now rewrite Hpend, orb_true_r.
  - unfold approve_access_request. rewrite lookup_insert_eq.
    rewrite (request_lines_print _ Hls1), Hfirst, existsb_app. cbn [existsb].
    rewrite Hpend, orb_true_r. cbn [negb]. rewrite map_app. cbn [map].
    rewrite (map_unmatched _ _ ls Hno), Hpend.
    unfold decided_line. rewrite Hparse. cbn [ar_timestamp ar_user ar_perm].
    fold (request_line now u p "APPROVED").
    rewrite (take_bytes_all 511 _ Halen). reflexivity.
  - intros table2. unfold approve_access_request. rewrite lookup_insert_eq.
    rewrite (request_lines_print _ Hls2), Hfirst, existsb_app. cbn [existsb].
    now rewrite Hno, Hdone.
  - intros now3. unfold request_file_access. rewrite lookup_insert_eq.
    rewrite (request_lines_print _ Hls2), existsb_app. cbn [existsb].
    now rewrite Hno, Hdone.
Qed.

Lemma X26_access_request_decided_once_witness :
  let requests : gmap string string := ∅ in
  let rq1 := fst (request_file_access requests "a" "bob" "-W" 7) in
  let rq2 := <[requests_name "a" :=
                 print_lines ([] ++ [request_line 7 "bob" "-W" "APPROVED"])]> rq1 in
  rq1 !! requests_name "a"
  = Some (print_lines ([] ++ [request_line 7 "bob" "-W" "PENDING"]))
  /\ (forall now2, request_file_access rq1 "a" "bob" "-W" now2 = (rq1, (-2)%Z))
  /\ approve_access_request rq1 [] "a" "bob" "-W"
     = (rq2, persist_set_acl [] "a" "bob" (perm_flag_of "-W"), 1%Z)
  /\ (forall table2, approve_access_request rq2 table2 "a" "bob" "-W" = (rq2, table2, 0%Z))
  /\ (forall now3, snd (request_file_access rq2 "a" "bob" "-W" now3) = 1%Z).
Proof.
  cbv zeta. apply (X26_access_request_decided_once ∅ [] "a" "bob" "-W" 7 []).
  - reflexivity.
  - constructor.
  - simpl. lia.
  - repeat split; [discriminate | apply Nat.leb_le; reflexivity].
  - now right.
  - apply Nat.leb_le. reflexivity.
  - reflexivity.
Defined.

Section HasAccess.

Lemma has_access_acl (table : list FileMeta) (fname u p : string) :
  has_access table fname u p
  = match table_acl table fname with
    | Some l => existsb (perm_test u (perm_flag_of p)) l
    | None => false
    end.
Proof.
  unfold has_access, table_acl, table_lookup.
  destruct (persist_find_file 0 table fname) as [i|]; [|reflexivity].
  now destruct (table !! i).
Qed.

Lemma approve_table (requests : gmap string string) (table : list FileMeta)
    (fname u p : string) :
  snd (approve_access_request requests table fname u p) = 1%Z ->
  snd (fst (approve_access_request requests table fname u p))
  = persist_set_acl table fname u (perm_flag_of p).
Proof.
  unfold approve_access_request.
  destruct (requests !! requests_name fname) as [log|]; [|discriminate].
  now destruct (negb (existsb (pending_for u p) (firstn 100 (request_lines log)))).
Qed.

Lemma perm_flag_le (p : string) :
  (perm_value (perm_flag_of p) <=? perm_value (perm_flag_of p))%Z = true.
Proof. apply Z.leb_refl. Qed.

End HasAccess.

(** X27. What an approval gives.  When [approve_access_request] returns 1
    for a file that has a metadata entry, the requester (name of at most
    63 bytes) passes the access test of REQUESTACCESS for the permission
    approved, so a further REQUESTACCESS of it is refused with ERR_409,
    provided the requester is in the ACL already or the ACL has a free
    slot.  With a full ACL that does not hold the requester, the approval
    still returns 1 but the ACL is unchanged and the test keeps failing. *)
Theorem X27_approved_has_access
    (requests : gmap string string) (table : list FileMeta)
    (fname u p : string) (l : list AclEntry) :
  snd (approve_access_request requests table fname u p) = 1%Z ->
  table_acl table fname = Some l -> strlen u <= 63 ->
  let table2 := snd (fst (approve_access_request requests table fname u p)) in
  (u ∈ map username l \/ length l < MAX_ACL_ENTRIES ->
   has_access table2 fname u p = true
   /\ forall files rq f now,
        p = "-R"%string \/ p = "-W"%string ->
        files !! fname = Some f -> check_file_owner table2 fname u = false ->
        requestaccess_command files rq table2 u fname p now
        = (rq, RQ_ERR_409_already_have_access))
  /\ ((u ∉ map username l) /\ length l = MAX_ACL_ENTRIES ->
      table_acl table2 fname = Some l /\ has_access table2 fname u p = false).
Proof.
  intros Hok Hacl Hlen. cbv zeta. rewrite (approve_table _ _ _ _ _ Hok).
  pose proof (table_acl_set table fname u (perm_flag_of p) l Hacl) as Hset.
  pose proof (acl_find_spec l u 0) as Hfind.
  split.
  - intros Hroom.
    assert (Hacc : has_access (persist_set_acl table fname u (perm_flag_of p)) fname u p
                   = true).
    { rewrite has_access_acl, Hset.
      destruct (acl_find 0 l u) as [j|].
      - destruct Hfind as (k & e & -> & Hk & He & _). simpl.
        apply existsb_exists.
        exists {| username := username e; permission := perm_flag_of p |}. split.
        + apply list_elem_of_In. apply (list_elem_of_lookup_2 _ k).
          now rewrite list_lookup_alter_eq, Hk.
        + unfold perm_test. cbn [username permission].
          apply andb_true_iff. split; [now apply String.eqb_eq | apply perm_flag_le].
      - destruct Hroom as [Hin|Hfree]; [contradiction|].
        destruct (Nat.leb_spec MAX_ACL_ENTRIES (length l)); [lia|].
        rewrite existsb_app. cbn [existsb]. unfold perm_test at 2.
        cbn [username permission]. rewrite (take_bytes_all 63 u Hlen), String.eqb_refl.
        rewrite perm_flag_le. cbn. now rewrite orb_true_r. }
    split; [exact Hacc|].
    intros files rq f now Hp Hfile Howner. unfold requestaccess_command.
    rewrite Hfile, Howner, Hacc. now destruct Hp as [-> | ->].
  - intros [Hout Hfull]. destruct (acl_find 0 l u) as [j|].
    + destruct Hfind as (k & e & _ & Hk & He & _). exfalso. apply Hout.
      rewrite <- He. change (username e ∈ username <$> l).
      apply list_elem_of_fmap_2. now apply (list_elem_of_lookup_2 _ k).
    + destruct (Nat.leb_spec MAX_ACL_ENTRIES (length l)); [|lia].
      split; [exact Hset|]. rewrite has_access_acl, Hset. now apply perm_test_absent.
Qed.

Lemma X27_approved_has_access_witness :
  let table := table_run [] [T_add (Some "") "a" 5; T_set_owner "a" "alice"] in
  let requests := fst (request_file_access ∅ "a" "bob" "-W" 7) in
  let table2 := snd (fst (approve_access_request requests table "a" "bob" "-W")) in
  has_access table2 "a" "bob" "-W" = true
  /\ forall files rq f now,
       files !! "a" = Some f ->
       requestaccess_command files rq table2 "bob" "a" "-W" now
       = (rq, RQ_ERR_409_already_have_access).
Proof.
  cbv zeta.
  pose proof (X27_approved_has_access
                (fst (request_file_access ∅ "a" "bob" "-W" 7))
                (table_run [] [T_add (Some "") "a" 5; T_set_owner "a" "alice"])
                "a" "bob" "-W" []) as H.
  destruct H as [H _]; [vm_compute; reflexivity | vm_compute; reflexivity
                        | apply Nat.leb_le; reflexivity |].
  destruct H as [H1 H2]; [right; unfold MAX_ACL_ENTRIES; simpl; lia|].
  split; [exact H1|]. intros files rq f now Hf.
  apply (H2 files rq f now); [now right | exact Hf | vm_compute; reflexivity].
Defined.

(** X28. A denial.  In a requests file of fewer than 100 whole lines that
    holds no pending request of the user, once [request_file_access] has
    accepted a request, [deny_access_request] returns 1 and marks that
    line DENIED; after that an approval of the request finds nothing and
    leaves the metadata table alone, a second denial finds nothing, and
    the request can be filed again. *)
Theorem X28_access_request_denied
    (requests : gmap string string) (filename u p : string) (now : Z) (ls : list string) :
  default EmptyString (requests !! requests_name filename) = print_lines ls ->
  Forall proper_line ls -> length ls < 100 ->
  request_user u -> p = "-R"%string \/ p = "-W"%string -> strlen (fmt_d now) <= 20 ->
  existsb (pending_of u) ls = false ->
  let rq1 := fst (request_file_access requests filename u p now) in
  let rq3 := <[requests_name filename :=
                 print_lines (ls ++ [request_line now u p "DENIED"])]> rq1 in
  snd (request_file_access requests filename u p now) = 1%Z
  /\ deny_access_request rq1 filename u = (rq3, 1%Z)
  /\ (forall table, approve_access_request rq3 table filename u p = (rq3, table, 0%Z))
  /\ deny_access_request rq3 filename u = (rq3, 0%Z)
  /\ (forall now3, snd (request_file_access rq3 filename u p now3) = 1%Z).
Proof.
  intros Hlog Hls Hcount Hu Hp Hnow Hnone. cbv zeta.
  assert (Hno : existsb (pending_for u p) ls = false).
  { clear -Hnone. induction ls as [|x l IH]; [reflexivity|]. cbn [existsb] in *.
    apply orb_false_iff in Hnone as [Hx Hl]. rewrite (IH Hl), orb_false_r.
    unfold pending_of in Hx. unfold pending_for.
    destruct (parse_request_line x) as [r|]; [|reflexivity].
    apply andb_false_iff in Hx as [Hx|Hx]; rewrite Hx; [reflexivity|].
    now rewrite andb_false_r. }
  assert (Hok : snd (request_file_access requests filename u p now) = 1%Z).
  { unfold request_file_access.
    destruct (requests !! requests_name filename) as [log|] eqn:E; [|reflexivity].
    simpl in Hlog. now rewrite Hlog, (request_lines_print ls Hls), Hno. }
  split; [exact Hok|].
  assert (Hst : fst (request_file_access requests filename u p now)
                = <[requests_name filename :=
                      print_lines (ls ++ [request_line now u p "PENDING"])]> requests)
    by (eapply request_accepted_state; eassumption).
  rewrite Hst.
  assert (Hfacts : forall status,
             status <> EmptyString -> no_space status = true -> strlen status <= 15 ->
             proper_line (request_line now u p status)
             /\ (forall u' p', pending_for u' p' (request_line now u p status)
                               = String.eqb u u' && String.eqb p p'
                                 && String.eqb status "PENDING")
             /\ parse_request_line (request_line now u p status)
                = Some {| ar_timestamp := now; ar_user := u; ar_perm := p;
                          ar_status := status |}
             /\ strlen (request_line now u p status) <= 511)
    by (intros status; eapply status_line_facts; eassumption).
  destruct (Hfacts "PENDING"%string)
    as (Hpl & _ & Hparse & _); [discriminate | reflexivity | simpl; lia |].
  destruct (Hfacts "DENIED"%string)
    as (Hdl & Hdp & Hdparse & Hdlen); [discriminate | reflexivity | simpl; lia |].
  assert (Hls1 : Forall proper_line (ls ++ [request_line now u p "PENDING"])).
  { apply Forall_app. split; [exact Hls | now constructor]. }
  assert (Hls3 : Forall proper_line (ls ++ [request_line now u p "DENIED"])).
  { apply Forall_app. split; [exact Hls | now constructor]. }
  assert (Hpend : pending_of u (request_line now u p "PENDING") = true).
  { unfold pending_of. rewrite Hparse. cbn [ar_user ar_status].
    now rewrite String.eqb_refl. }
  assert (Hden : pending_of u (request_line now u p "DENIED") = false).
  { unfold pending_of. rewrite Hdparse. cbn [ar_user ar_status].
    now rewrite String.eqb_refl. }
  assert (Hden' : pending_for u p (request_line now u p "DENIED") = false).
  { rewrite Hdp, !String.eqb_refl. reflexivity. }
  assert (Hfirst : forall x, firstn 100 (ls ++ [x]) = ls ++ [x]).
  { intros x. apply firstn_all2. rewrite length_app. simpl. lia. }
  split; [|split; [|split]].
  - unfold deny_access_request. rewrite lookup_insert_eq.
    rewrite (request_lines_print _ Hls1), Hfirst, existsb_app. cbn [existsb].
    rewrite Hpend, orb_true_r. cbn [negb]. rewrite map_app. cbn [map].
    rewrite (map_unmatched _ _ ls Hnone), Hpend.
    unfold decided_line. rewrite Hparse. cbn [ar_timestamp ar_user ar_perm].
    fold (request_line now u p "DENIED").
    rewrite (take_bytes_all 511 _ Hdlen). reflexivity.
  - intros table. unfold approve_access_request. rewrite lookup_insert_eq.
    rewrite (request_lines_print _ Hls3), Hfirst, existsb_app. cbn [existsb].
    now rewrite Hno, Hden'.
  - unfold deny_access_request. rewrite lookup_insert_eq.
    rewrite (request_lines_print _ Hls3), Hfirst, existsb_app. cbn [existsb].
    now rewrite Hnone, Hden.
  - intros now3. unfold request_file_access. rewrite lookup_insert_eq.
    rewrite (request_lines_print _ Hls3), existsb_app. cbn [existsb].
    now rewrite Hno, Hden'.
Qed.

Lemma X28_access_request_denied_witness :
  let requests : gmap string string := ∅ in
  let rq1 := fst (request_file_access requests "a" "bob" "-R" 7) in
  let rq3 := <[requests_name "a" :=
                 print_lines ([] ++ [request_line 7 "bob" "-R" "DENIED"])]> rq1 in
  snd (request_file_access requests "a" "bob" "-R" 7) = 1%Z
  /\ deny_access_request rq1 "a" "bob" = (rq3, 1%Z)
  /\ (forall table, approve_access_request rq3 table "a" "bob" "-R" = (rq3, table, 0%Z))
  /\ deny_access_request rq3 "a" "bob" = (rq3, 0%Z)
  /\ (forall now3, snd (request_file_access rq3 "a" "bob" "-R" now3) = 1%Z).
Proof.
  cbv zeta. apply (X28_access_request_denied ∅ "a" "bob" "-R" 7 []).
  - reflexivity.
  - constructor.
  - simpl. lia.
  - repeat split; [discriminate | apply Nat.leb_le; reflexivity].
  - now left.
  - apply Nat.leb_le. reflexivity.
  - reflexivity.
Defined.

(* --------------------------------------------------------------------- *)
(** ** Storage server: the metadata file written and read back            *)
(* --------------------------------------------------------------------- *)

Section TokenFacts.

Lemma strtok_r_mid (ds a r : string) (d : ascii) :
  a <> EmptyString -> all_bytes (fun c => negb (in_set ds c)) a = true ->
  in_set ds d = true ->
  strtok_r ds (a +:+ String d r) = Some (a, r).
Proof.
  intros Hne Ha Hd. unfold strtok_r.
  destruct a as [|c a]; [done|]. rewrite app_str_cons.
  cbn [all_bytes] in Ha. pose proof Ha as Ha'. apply andb_true_iff in Ha' as [Hc _].
  apply negb_true_iff in Hc. cbn [skip_set]. rewrite Hc.
  rewrite <- app_str_cons.
  rewrite (span_bytes_run _ _ (String c a) (String d r) Ha).
  - reflexivity.
  - unfold strlen. rewrite length_app_str. lia.
  - now rewrite Hd.
Qed.

Lemma strtok_r_end (ds a : string) :
  a <> EmptyString -> all_bytes (fun c => negb (in_set ds c)) a = true ->
  strtok_r ds a = Some (a, EmptyString).
Proof.
  intros Hne Ha. unfold strtok_r.
  destruct a as [|c a]; [done|].
  cbn [all_bytes] in Ha. pose proof Ha as Ha'. apply andb_true_iff in Ha' as [Hc _].
  apply negb_true_iff in Hc. cbn [skip_set]. rewrite Hc.
  pose proof (span_bytes_run _ (strlen (String c a)) (String c a) EmptyString Ha
                (Nat.le_refl _) I) as H.
  rewrite app_str_nil_r in H. now rewrite H.
Qed.

Lemma atol_fmt_d (z : Z) : atol (fmt_d z) = z.
Proof.
  unfold atol. pose proof (scan_int_fmt_d z EmptyString I) as H.
  rewrite app_str_nil_r in H. now rewrite H.
Qed.

Lemma fmt_d_nonempty (z : Z) : fmt_d z <> EmptyString.
Proof.
  pose proof (scan_int_fmt_d z EmptyString I) as H. rewrite app_str_nil_r in H.
  intros E. rewrite E in H. discriminate.
Qed.

Lemma cut_at_newline_app (a r : string) :
  all_bytes not_newline a = true ->
  cut_at_newline (a +:+ r) = a +:+ cut_at_newline r.
Proof.
  induction a as [|c a IH]; [done|]. cbn [all_bytes].
  intros [Hc Ha]%andb_true_iff. rewrite !app_str_cons. cbn [cut_at_newline].
  unfold not_newline in Hc. apply negb_true_iff in Hc. now rewrite Hc, (IH Ha).
Qed.

Lemma split_colon_run (u d : string) :
  all_bytes (fun c => negb (Ascii.eqb c ":")) u = true ->
  split_colon (u +:+ String ":" d) = Some (u, d).
Proof.
  induction u as [|c u IH]; [done|]. cbn [all_bytes].
  intros [Hc Hu]%andb_true_iff. rewrite app_str_cons. cbn [split_colon].
  apply negb_true_iff in Hc. now rewrite Hc, (IH Hu).
Qed.

Lemma perm_of_value_perm (p : PermissionType) : perm_of_value (perm_value p) = Some p.
Proof. now destruct p. Qed.

Lemma number_bytes (ok : ascii -> bool) (z : Z) :
  (forall c, number_byte c = true -> ok c = true) -> all_bytes ok (fmt_d z) = true.
Proof. intros H. exact (all_bytes_impl _ _ _ H (fmt_d_bytes z)). Qed.

Lemma number_not (x : ascii) (c : ascii) :
  number_byte x = false -> number_byte c = true -> negb (Ascii.eqb c x) = true.
Proof.
  intros Hx Hc. destruct (Ascii.eqb_spec c x) as [->|_]; [congruence | reflexivity].
Qed.

End TokenFacts.

Section AclText.

Lemma acl_byte_parts (s : string) :
  all_bytes acl_byte s = true ->
  all_bytes (fun c => negb (Ascii.eqb c ":")) s = true
  /\ all_bytes (fun c => negb (in_set ";" c)) s = true
  /\ all_bytes not_newline s = true.
Proof.
  intros H. repeat split; revert H; apply all_bytes_impl; intros c; unfold acl_byte;
    intros [[H1 H2]%andb_true_iff H3]%andb_true_iff; try assumption.
  cbn [in_set]. now rewrite orb_false_r.
Qed.

Lemma print_acl_length (l : list AclEntry) : length l <= strlen (print_acl l).
Proof.
  induction l as [|e l IH]; [simpl; lia|]. cbn [print_acl fold_right length].
  fold (print_acl l). unfold strlen in *. rewrite !length_app_str.
  simpl String.length. lia.
Qed.

Lemma print_acl_not_newline (l : list AclEntry) :
  Forall acl_entry_ok l -> all_bytes not_newline (print_acl l) = true.
Proof.
  induction 1 as [|e l [He _] _ IH]; [reflexivity|].
  cbn [print_acl fold_right]. fold (print_acl l).
  destruct (acl_byte_parts _ He) as (_ & _ & Hn).
  rewrite !all_bytes_app, Hn, IH.
  rewrite (number_bytes not_newline); [reflexivity|].
  intros c. apply (number_not "010"). reflexivity.
Qed.

Lemma load_acl_print (l : list AclEntry) :
  Forall acl_entry_ok l ->
  forall count fuel,
    count + length l <= MAX_ACL_ENTRIES -> length l < fuel ->
    load_acl fuel (print_acl l) count = Some l.
Proof.
  induction 1 as [|e l [He Hlen] _ IH]; intros count fuel Hcount Hfuel.
  - destruct fuel; reflexivity.
  - destruct fuel as [|fuel]; [lia|].
    cbn [print_acl fold_right]. fold (print_acl l). cbn [load_acl length] in *.
    destruct (acl_byte_parts _ He) as (Hcolon & Hsemi & _).
    assert (Etok : username e +:+ ":" +:+ fmt_d (perm_value (permission e)) +:+ ";"
                     +:+ print_acl l
                   = (username e +:+ ":" +:+ fmt_d (perm_value (permission e)))
                       +:+ String ";" (print_acl l)).
    { now rewrite !app_str_assoc. }
    rewrite Etok, strtok_r_mid; [| | |reflexivity].
    + destruct (Nat.leb_spec MAX_ACL_ENTRIES count); [lia|].
      change (":" +:+ ?x) with (String ":" x).
      rewrite (split_colon_run _ _ Hcolon), atol_fmt_d, perm_of_value_perm.
      rewrite (IH (S count) fuel); [|lia|lia].
      rewrite (take_bytes_all 63 _ Hlen). now destruct e.
    + destruct (username e); discriminate.
    + rewrite !all_bytes_app, Hsemi. cbn [all_bytes in_set].
      rewrite (number_bytes (fun c => negb (in_set ";" c))); [reflexivity|].
      intros c Hc. cbn [in_set]. rewrite orb_false_r. now apply (number_not ";").
Qed.

End AclText.

Section MetaLine.

Lemma print_meta_fields (m : FileMeta) :
  print_meta m = join_commas (meta_fields m) (print_acl (fm_acl m) +:+ newline).
Proof. reflexivity. Qed.

Lemma cut_join_commas (fs : list string) (r : string) :
  Forall (fun f => all_bytes not_newline f = true) fs ->
  cut_at_newline (join_commas fs r) = join_commas fs (cut_at_newline r).
Proof.
  induction 1 as [|f fs Hf _ IH]; [reflexivity|].
  cbn [join_commas fold_right]. fold (join_commas fs r).
  fold (join_commas fs (cut_at_newline r)).
  rewrite (cut_at_newline_app f _ Hf). cbn [cut_at_newline].
  change (Ascii.eqb "," "010") with false. cbv iota. now rewrite IH.
Qed.

Lemma strtok_r_field (f : string) (fs : list string) (r : string) :
  f <> EmptyString -> all_bytes meta_byte f = true ->
  strtok_r "," (join_commas (f :: fs) r) = Some (f, join_commas fs r).
Proof.
  intros Hne Hf. cbn [join_commas fold_right]. fold (join_commas fs r).
  apply strtok_r_mid; [exact Hne | | reflexivity].
  revert Hf. apply all_bytes_impl. intros c. unfold meta_byte, not_comma.
  intros [H _]%andb_true_iff. cbn [in_set]. now rewrite orb_false_r.
Qed.

Lemma meta_byte_not_newline (s : string) :
  all_bytes meta_byte s = true -> all_bytes not_newline s = true.
Proof.
  apply all_bytes_impl. intros c. unfold meta_byte. now intros [_ H]%andb_true_iff.
Qed.

Lemma number_meta (z : Z) : fmt_d z <> EmptyString /\ all_bytes meta_byte (fmt_d z) = true.
Proof.
  split; [apply fmt_d_nonempty|]. apply number_bytes. intros c Hc. unfold meta_byte.
  unfold not_comma, not_newline.
  now rewrite (number_not "," c eq_refl Hc), (number_not "010" c eq_refl Hc).
Qed.

Lemma dash_meta (n : nat) (s : string) :
  meta_field n s ->
  dash_if_empty s <> EmptyString /\ all_bytes meta_byte (dash_if_empty s) = true
  /\ forall r, load_dash n (Some (dash_if_empty s, r)) = s.
Proof.
  intros (Hb & Hlen & Hdash). destruct s as [|c s]; [repeat split; discriminate|].
  cbn [dash_if_empty]. repeat split; [discriminate | exact Hb |].
  intros r. unfold load_dash.
  destruct (String.eqb_spec (String c s) "-") as [E|_]; [contradiction|].
  now apply take_bytes_all.
Qed.

Lemma all_bytes_true (s : string) : all_bytes (fun _ => true) s = true.
Proof. induction s as [|c s IH]; [reflexivity | exact IH]. Qed.

(** The line written for an entry is read back as that entry. *)
Lemma load_line_print (m : FileMeta) :
  meta_ok m -> load_line (print_meta m) = line_entry m.
Proof.
  intros (Hname & Hnb & Hnl & Hby & Hown & Hfol & Hacl & Hentries & Hline).
  destruct (dash_meta 63 _ Hby) as (Hby1 & Hby2 & Hby3).
  destruct (dash_meta 63 _ Hown) as (Hown1 & Hown2 & Hown3).
  destruct (dash_meta 255 _ Hfol) as (Hfol1 & Hfol2 & Hfol3).
  unfold load_line. rewrite print_meta_fields, cut_join_commas.
  2:{ unfold meta_fields. repeat constructor;
        first [now apply meta_byte_not_newline
              | apply meta_byte_not_newline, number_meta]. }
  rewrite (cut_at_newline_app _ _ (print_acl_not_newline _ Hentries)).
  change (cut_at_newline newline) with EmptyString. rewrite app_str_nil_r.
  unfold meta_fields.
  rewrite (strtok_r_field _ _ _ Hname Hnb).
  rewrite (strtok_r_field _ _ _ (proj1 (number_meta _)) (proj2 (number_meta _))).
  rewrite (strtok_r_field _ _ _ (proj1 (number_meta _)) (proj2 (number_meta _))).
  rewrite (strtok_r_field _ _ _ (proj1 (number_meta _)) (proj2 (number_meta _))).
  rewrite (strtok_r_field _ _ _ (proj1 (number_meta _)) (proj2 (number_meta _))).
  rewrite (strtok_r_field _ _ _ (proj1 (number_meta _)) (proj2 (number_meta _))).
  rewrite (strtok_r_field _ _ _ Hby1 Hby2). cbn [rest_of].
  rewrite (strtok_r_field _ _ _ Hown1 Hown2). cbn [rest_of].
  rewrite (strtok_r_field _ _ _ Hfol1 Hfol2). cbn [rest_of].
  rewrite (strtok_r_field _ _ _ (proj1 (number_meta _)) (proj2 (number_meta _))).
  cbn [rest_of join_commas fold_right].
  rewrite !atol_fmt_d, Hby3, Hown3, Hfol3, (take_bytes_all 255 _ Hnl).
  assert (Hl : match strtok_r EmptyString (print_acl (fm_acl m)) with
               | Some (tok, _) =>
                   if (0 <? Z.of_nat (length (fm_acl m)))%Z
                   then load_acl (S (strlen tok)) tok 0 else Some []
               | None => Some []
               end = Some (fm_acl m)).
  { destruct (fm_acl m) as [|e l] eqn:E; [reflexivity|].
    rewrite strtok_r_end.
    - change (0 <? Z.of_nat (length (e :: l)))%Z with true. cbv iota.
      apply load_acl_print; [exact Hentries | simpl; simpl in Hacl; lia |].
      pose proof (print_acl_length (e :: l)). lia.
    - cbn [print_acl fold_right]. destruct (username e); discriminate.
    - apply all_bytes_true. }
  rewrite Hl. now destruct m.
Qed.

End MetaLine.

Section MetaFile.

Lemma print_meta_not_newline (m : FileMeta) :
  meta_ok m ->
  exists a, print_meta m = a +:+ newline /\ all_bytes not_newline a = true
            /\ strlen a < 2047.
Proof.
  intros (Hname & Hnb & Hnl & Hby & Hown & Hfol & Hacl & Hentries & Hline).
  exists (join_commas (meta_fields m) (print_acl (fm_acl m))).
  assert (Hjoin : forall fs r, join_commas fs (r +:+ newline) = join_commas fs r +:+ newline).
  { induction fs as [|f fs IH]; intros r; [reflexivity|].
    cbn [join_commas fold_right]. fold (join_commas fs (r +:+ newline)).
    fold (join_commas fs r). now rewrite IH, app_str_assoc. }
  assert (E : print_meta m = join_commas (meta_fields m) (print_acl (fm_acl m)) +:+ newline).
  { now rewrite print_meta_fields, Hjoin. }
  split; [exact E|]. split.
  - assert (Hfs : forall fs r,
              Forall (fun f => all_bytes not_newline f = true) fs ->
              all_bytes not_newline r = true ->
              all_bytes not_newline (join_commas fs r) = true).
    { induction 1 as [|f fs Hf _ IH]; intros Hr; [exact Hr|].
      cbn [join_commas fold_right]. fold (join_commas fs r).
      rewrite all_bytes_app, Hf. cbn [all_bytes andb]. now apply IH. }
    apply Hfs; [|now apply print_acl_not_newline].
    destruct (dash_meta 63 _ Hby) as (_ & Hby2 & _).
    destruct (dash_meta 63 _ Hown) as (_ & Hown2 & _).
    destruct (dash_meta 255 _ Hfol) as (_ & Hfol2 & _).
    unfold meta_fields. repeat constructor;
      first [now apply meta_byte_not_newline
            | apply meta_byte_not_newline, number_meta].
  - rewrite E in Hline. unfold strlen in *. rewrite length_app_str in Hline.
    change (String.length newline) with 1 in Hline. lia.
Qed.

Lemma fgets_all_saved (table : list FileMeta) (fuel : nat) :
  Forall meta_ok table -> length table < fuel ->
  fgets_all fuel 2048 (save_metadata table) = map print_meta table.
Proof.
  intros Hok. revert fuel. induction Hok as [|m table Hm _ IH]; intros fuel Hfuel.
  - destruct fuel; reflexivity.
  - destruct fuel as [|fuel]; [cbn [length] in Hfuel; lia|].
    cbn [save_metadata fold_right map]. fold (save_metadata table).
    destruct (print_meta_not_newline m Hm) as (a & E & Ha & Hlen).
    rewrite E.
    pose proof (fgets_line_run 2047 a (save_metadata table) Ha Hlen) as Hline.
    assert (E' : (a +:+ newline) +:+ save_metadata table
                 = a +:+ String "010" (save_metadata table)).
    { now rewrite app_str_assoc. }
    rewrite E'. unfold fgets_all; fold fgets_all.
    destruct (a +:+ String "010" (save_metadata table)) as [|c s] eqn:Es.
    + destruct a; discriminate.
    + change (2048 - 1) with 2047. rewrite Hline. f_equal.
      apply IH. cbn [length] in Hfuel. lia.
Qed.

Lemma save_metadata_length (table : list FileMeta) :
  length table <= strlen (save_metadata table).
Proof.
  induction table as [|m table IH]; [simpl; lia|].
  cbn [save_metadata fold_right length]. fold (save_metadata table).
  unfold strlen in *. rewrite length_app_str.
  assert (1 <= String.length (print_meta m)).
  { unfold print_meta. rewrite !length_app_str. simpl String.length. lia. }
  lia.
Qed.

Lemma load_lines_saved (table acc : list FileMeta) :
  Forall meta_ok table -> length acc + length table <= MAX_FILES ->
  load_lines (map print_meta table) acc = Some (acc ++ table).
Proof.
  intros Hok. revert acc. induction Hok as [|m table Hm _ IH]; intros acc Hlen.
  - cbn. now rewrite app_nil_r.
  - cbn [map load_lines]. cbn [length] in Hlen.
    destruct (Nat.leb_spec MAX_FILES (length acc)); [lia|].
    rewrite (load_line_print m Hm), (IH (acc ++ [m])).
    + now rewrite <- app_assoc.
    + rewrite length_app. simpl. lia.
Qed.

End MetaFile.

(** X29. The metadata file read back.  For a table of at most MAX_FILES
    entries whose names hold no comma or newline and fit their arrays, whose
    optional fields are not the text "-", whose ACL user names hold no
    colon, semicolon or newline, and whose lines fit the read buffer,
    [load_metadata] on the file that [save_metadata] writes restores the
    table entry by entry, whatever the table held before. *)
Theorem X29_metadata_file_round_trip (table old : list FileMeta) :
  Forall meta_ok table -> length table <= MAX_FILES ->
  load_metadata (Some (save_metadata table)) old = Some table.
Proof.
  intros Hok Hlen. unfold load_metadata.
  rewrite (fgets_all_saved table _ Hok).
  - apply (load_lines_saved table [] Hok). simpl. exact Hlen.
  - pose proof (save_metadata_length table). lia.
Qed.

Lemma X29_metadata_file_round_trip_witness :
  load_metadata (Some (save_metadata table_two)) [] = Some table_two.
Proof.
  apply X29_metadata_file_round_trip.
  - let t := eval vm_compute in table_two in change (Forall meta_ok t).
    repeat match goal with
           | |- Forall _ (_ :: _) => constructor
           | |- Forall _ [] => constructor
           | |- meta_ok _ => unfold meta_ok, meta_field; cbn [fm_acl]
           | |- acl_entry_ok _ => unfold acl_entry_ok
           | |- _ /\ _ => split
           | |- _ <= _ => apply Nat.leb_le; vm_compute; reflexivity
           | |- _ <> _ => discriminate
           | |- _ = _ => vm_compute; reflexivity
           end.
  - apply Nat.leb_le. vm_compute. reflexivity.
Defined.

(* --------------------------------------------------------------------- *)
(** ** Registration of a storage server with its file list                *)
(* --------------------------------------------------------------------- *)

Section Registration.

Lemma rebuild_fresh (st : ns_state) (ss : Z) (m : FileMeta) :
  plain_name (fm_filename m) ->
  (forall r, trie st !! fm_filename m = Some r -> ss_index r = ss) ->
  exists r,
    trie (search_rebuild_add_file st ss (manifest_of m))
    = <[fm_filename m := r]> (trie st)
    /\ cache (search_rebuild_add_file st ss (manifest_of m)) = cache st
    /\ filename r = fm_filename m
    /\ owner_username r = take_bytes 63 (fm_owner_username m)
    /\ ss_index r = ss /\ folder r = EmptyString
    /\ word_count r = fm_word_count m /\ char_count r = fm_size m
    /\ acl r = map (fun e => {| username := take_bytes 63 (username e);
                                permission := permission e |}) (fm_acl m).
Proof.
  intros Hplain Hfree.
  exists {| filename := fm_filename m;
            owner_username := take_bytes 63 (fm_owner_username m);
            ss_index := ss; folder := EmptyString;
            word_count := fm_word_count m; char_count := fm_size m;
            created := fm_created m; modified := fm_modified m;
            last_accessed := fm_last_accessed m;
            last_accessed_by := take_bytes 63 (fm_last_accessed_by m);
            acl := map (fun e => {| username := take_bytes 63 (username e);
                                    permission := permission e |}) (fm_acl m) |}.
  cbn [filename owner_username ss_index folder word_count char_count acl].
  assert (E : search_rebuild_add_file st ss (manifest_of m)
              = set_trie st
                  (<[fm_filename m :=
                       {| filename := fm_filename m;
                          owner_username := take_bytes 63 (fm_owner_username m);
                          ss_index := ss; folder := EmptyString;
                          word_count := fm_word_count m; char_count := fm_size m;
                          created := fm_created m; modified := fm_modified m;
                          last_accessed := fm_last_accessed m;
                          last_accessed_by := take_bytes 63 (fm_last_accessed_by m);
                          acl := map (fun e => {| username := take_bytes 63 (username e);
                                                  permission := permission e |})
                                   (fm_acl m) |}]> (trie st))).
  { unfold search_rebuild_add_file.
    cbn [manifest_of p_filename p_owner_username p_acl p_word_count p_char_count
         p_created p_modified p_last_accessed p_last_accessed_by p_folder].
    rewrite !(plain_take _ Hplain), (seven_bit_skip _ (proj1 Hplain)).
    rewrite !(take_bytes_all 63 (take_bytes 63 _) (length_take_bytes 63 _)).
    change (take_bytes 255 EmptyString) with EmptyString.
    destruct (trie st !! fm_filename m) as [old|] eqn:El; [|reflexivity].
    now rewrite (Hfree old eq_refl), Z.eqb_refl. }
  rewrite E. cbn [trie cache set_trie]. repeat split.
Qed.

Lemma sync_files_spec (table : list FileMeta) :
  NoDup (map fm_filename table) ->
  (forall m, m ∈ table -> plain_name (fm_filename m)) ->
  forall (st : ns_state) (ss : Z),
    (forall m r, m ∈ table -> trie st !! fm_filename m = Some r -> ss_index r = ss) ->
    (forall m, m ∈ table ->
       exists r,
         trie (sync_files st ss (registration_manifest table)) !! fm_filename m = Some r
         /\ owner_username r = take_bytes 63 (fm_owner_username m)
         /\ ss_index r = ss /\ folder r = EmptyString
         /\ word_count r = fm_word_count m /\ char_count r = fm_size m
         /\ acl r = map (fun e => {| username := take_bytes 63 (username e);
                                     permission := permission e |}) (fm_acl m))
    /\ (forall p, (p ∉ map fm_filename table) ->
          trie (sync_files st ss (registration_manifest table)) !! p = trie st !! p)
    /\ cache (sync_files st ss (registration_manifest table)) = cache st.
Proof.
  induction table as [|m table IH]; intros Hnd Hplain st ss Hfree.
  - split; [|split]; [intros m Hm; now apply elem_of_nil in Hm | done | done].
  - cbn [map] in Hnd. apply NoDup_cons in Hnd as [Hm Hnd].
    destruct (rebuild_fresh st ss m) as (r & Htrie & Hcache & Hr);
      [apply Hplain; now left | intros r0; apply Hfree; now left |].
    cbn [registration_manifest map sync_files fold_left].
    fold (registration_manifest table).
    fold (sync_files (search_rebuild_add_file st ss (manifest_of m)) ss
            (registration_manifest table)).
    destruct (IH Hnd (fun m' H => Hplain m' (list_elem_of_further _ _ _ H))
                (search_rebuild_add_file st ss (manifest_of m)) ss)
      as (Hin & Hout & Hc).
    { intros m' r' Hm' Hl. rewrite Htrie in Hl.
      rewrite lookup_insert_ne in Hl.
      - apply (Hfree m' r'); [now right | exact Hl].
      - intros E. apply Hm. rewrite E. now apply names_elem. }
    split; [|split].
    + intros m' [->|Hm']%elem_of_cons.
      * exists r. rewrite (Hout _ Hm), Htrie, lookup_insert_eq.
        split; [reflexivity|]. tauto.
      * now apply Hin.
    + intros p Hp. cbn [map] in Hp. apply not_elem_of_cons in Hp as [Hne Hp].
      rewrite (Hout p Hp), Htrie. now apply lookup_insert_ne.
    + now rewrite Hc.
Qed.

End Registration.

(** X30. Registration rebuilds the index.  When a storage server sends the
    file list of its metadata table (no name twice; names of at most 255
    bytes below 128) and no name of the list is held by another server,
    the name server afterwards holds for every entry a record on that
    server's slot with the entry's owner, counts and ACL, and with an
    empty folder (the list carries none); every other name and the cache
    are as before.  If the ACL user names fit their 63 bytes, the ACL of
    the name server equals the ACL of the table for every file. *)
Theorem X30_registration_rebuilds_index
    (st : ns_state) (ss : Z) (table : list FileMeta) :
  table_ok table ->
  (forall m, m ∈ table -> plain_name (fm_filename m)) ->
  (forall m r, m ∈ table -> trie st !! fm_filename m = Some r -> ss_index r = ss) ->
  let st' := sync_files st ss (registration_manifest table) in
  (forall m, m ∈ table ->
     exists r,
       find_file_record (trie st') (fm_filename m) = Some r
       /\ owner_username r = take_bytes 63 (fm_owner_username m)
       /\ ss_index r = ss /\ folder r = EmptyString
       /\ word_count r = fm_word_count m /\ char_count r = fm_size m)
  /\ (forall p, (p ∉ map fm_filename table) -> trie st' !! p = trie st !! p)
  /\ cache st' = cache st
  /\ (acl_names_fit table ->
      forall m, m ∈ table ->
        index_acl st' (fm_filename m) = table_acl table (fm_filename m)).
Proof.
  intros [Hnd _] Hplain Hfree. cbv zeta.
  destruct (sync_files_spec table Hnd Hplain st ss Hfree) as (Hin & Hout & Hc).
  split; [|split; [exact Hout | split; [exact Hc|]]].
  - intros m Hm. destruct (Hin m Hm) as (r & Hr & H1 & H2 & H3 & H4 & H5 & _).
    exists r. unfold find_file_record.
    rewrite (seven_bit_skip _ (proj1 (Hplain m Hm))). tauto.
  - intros Hfit m Hm. destruct (Hin m Hm) as (r & Hr & _ & _ & _ & _ & _ & Hacl).
    unfold index_acl, find_file_record.
    rewrite (seven_bit_skip _ (proj1 (Hplain m Hm))), Hr.
    unfold table_acl. rewrite (proj2 (table_lookup_iff table _ m Hnd) (conj Hm eq_refl)).
    cbn. f_equal. rewrite Hacl.
    assert (Hid : forall l : list AclEntry,
               (forall e, e ∈ l -> strlen (username e) <= 63) ->
               map (fun e => {| username := take_bytes 63 (username e);
                                permission := permission e |}) l = l).
    { induction l as [|e l IH]; intros Hl; [reflexivity|]. cbn [map].
      rewrite (take_bytes_all 63 _ (Hl e (list_elem_of_here _ _))), IH.
      - now destruct e.
      - intros e' He'. apply Hl. now right. }
    apply Hid. intros e He. exact (Hfit m e Hm He).
Qed.

Lemma X30_registration_rebuilds_index_witness :
  let st' := sync_files init_ns 3 (registration_manifest table_two) in
  (forall m, m ∈ table_two ->
     exists r,
       find_file_record (trie st') (fm_filename m) = Some r
       /\ owner_username r = take_bytes 63 (fm_owner_username m)
       /\ ss_index r = 3%Z /\ folder r = EmptyString
       /\ word_count r = fm_word_count m /\ char_count r = fm_size m)
  /\ (forall p, (p ∉ map fm_filename table_two) -> trie st' !! p = trie init_ns !! p)
  /\ cache st' = cache init_ns
  /\ (acl_names_fit table_two ->
      forall m, m ∈ table_two ->
        index_acl st' (fm_filename m) = table_acl table_two (fm_filename m)).
Proof.
  cbv zeta. apply X30_registration_rebuilds_index.
  - apply table_ok_run; [repeat constructor; simpl; lia|].
    split; [apply NoDup_nil_2 | simpl; unfold MAX_FILES; lia].
  - intros m Hm. vm_compute in Hm.
    repeat (apply elem_of_cons in Hm as [->|Hm]);
      [split; [vm_compute; reflexivity | simpl; lia] ..
      | now apply elem_of_nil in Hm].
  - intros m r _ Hl. unfold init_ns in Hl. cbn [trie] in Hl.
    now rewrite lookup_empty in Hl.
Defined.
